(* ===== verification/_CoqProject ===== *)
-Q . S2P
Prelude.v
GoStrings.v
Protocol.v
GoTime.v
GoValue.v
Envelope.v
Float64.v
RateLimit.v
TokenBucket.v
Uuid.v
Models.v
Schema.v
Invariant.v
Statements.v
World.v
Interfaces.v
Repositories.v
RepositorySpecs.v
Conversation.v
Registry.v
Base64.v
Sha256.v
JsonString.v
Json.v
FloatText.v
JsonValue.v
Auth.v
AdapterBase.v
Mcp.v
Grpc.v
A2a.v
Adapters.v
Server.v
Handlers.v
Links.v
Bodies.v
Mux.v
Responses.v
HttpClient.v
Azurecs.v
Sdk.v
Cli.v
Replies.v
Session.v
Observability.v
Startup.v
Process.v
Examples.v
AdapterExamples.v
ClientExamples.v
SystemExamples.v
