(* ===== verification/Prelude.v ===== *)
(** * BobberChat: a verified model of the coordination backend and its clients

    BobberChat lets software agents and the users who own them exchange
    messages.  The repository has a server ([src/backend/cmd/bobberd] with the
    packages of [src/backend/internal]), a client library
    ([src/backend/pkg/sdk]) and a command line ([src/cli/cmd/bobber]).  This
    library models their logic as executable definitions, shaped as the Go
    code is, and proves what makes it correct.

    ** How the parts interact

    A client sends a request of JSON over HTTP.  The multiplexer picks the
    handler of the route; the server reads the body, authenticates the caller
    (a user by a JWT, an agent by its secret), runs the handler, and writes its
    result as JSON, which the client reads.  Handlers call the services: [auth]
    (accounts, tokens, secrets), [conversation] (direct and group
    conversations), [registry] (discovery); the services call the
    repositories, and those send SQL to PostgreSQL.  A message, whether posted
    as such, replayed, or ingested from a foreign protocol by an adapter (MCP,
    gRPC, A2A), becomes an envelope; [publishAndAudit] checks it against the
    rate limiter and stores it in the conversation it addresses.

    ** Where each part is modelled

    The language and its standard library:
    - [GoStrings] ([strings], [strconv]), [GoTime] ([time]), [GoValue] (errors,
      [map[string]any], binary64), [Float64] (exactness of binary64 on
      dyadic numbers), [Base64], [Sha256] (also HMAC), [JsonString], [Json],
      [FloatText], [JsonValue] (together [encoding/json], bytes to values).

    The packages under [src/backend/internal]:
    - [Protocol] — [protocol/tags.go], [protocol/version.go];
    - [Envelope] — [protocol/envelope.go] and the metadata helpers of
      [adapter/adapter.go];
    - [RateLimit] — [ratelimit/ratelimit.go]: the map of buckets is explicit
      state, the clock an argument.  [TokenBucket] is its abstract
      specification, a token bucket over the integers (instants in 1/512 s,
      tokens in 1/2^18), and the refinement;
    - [Models], [Schema], [Interfaces], [Repositories] —
      [persistence/models.go], the tables and constraints of
      [src/migrations], and [persistence/repositories.go]: a finite map per
      table, a function per SQL statement, a class per interface with its laws,
      a program per method.  [Invariant], [Statements] and [RepositorySpecs]
      are the invariant of the database, its preservation by each statement,
      and the specification of each method, which discharges the laws;
    - [Conversation], [Registry], [Auth] — [conversation/conversation.go],
      [registry/registry.go], [auth/auth.go]: written over the interfaces and
      verified against their laws;
    - [AdapterBase], [Mcp], [Grpc], [A2a], [Adapters] — [adapter/adapter.go]
      (the record [Adapter] of operations with its law), [adapter/mcp/mcp.go],
      [adapter/grpc/grpc.go], [adapter/a2a/a2a.go], and the map of adapters of
      the server;
    - [Azurecs] — [email/azurecs/azurecs.go];
    - [Observability] — [observability/observability.go].

    The programs:
    - [Server], [Handlers], [Bodies], [Mux], [Responses], [Startup],
      [Process] — [cmd/bobberd/main.go]: authentication and publication; the
      handlers, their routes and access; the bodies, from bytes; the routing
      tree of [net/http] over the patterns of the program; the text of every
      response; the configuration and the wiring; [main] from the boot to the
      exit, with [persistence/postgres.go], as a step relation around the
      goroutines of the requests ([db.Close], which waits for the statements
      in progress, and the exit are one step).  [Links] follows the tokens of
      verification links through every handler;
    - [HttpClient], [Sdk] — [src/backend/pkg/sdk];
    - [Cli] — [src/cli/cmd/bobber/main.go]: a command is a program over the
      terminal, the network and the configuration file.

    Programs and clients put together: [Replies] (what the clients make of the
    responses) and [Session] (a command run against the server, through the
    multiplexer and back).

    [World] is what the server's goroutines share and the meaning of their
    programs; [Examples], [AdapterExamples], [ClientExamples] and
    [SystemExamples] instantiate every parameter, run the program on small worlds, and exhibit for each
    property with hypotheses a case in which they hold.

    Names are those of the code where Rocq allows it; a field that would clash
    carries a prefix ([user_Email], [msg_ID]).

    ** State, concurrency and faults

    A server function is a [prog], a tree of atomic actions on the shared
    [World]: database, limiter, outbox, rate-limit counter.  [run] executes
    one alone; [pool_step] interleaves any number of them, action by action.
    What the program does not decide comes from the environment [Env], indexed
    by the number of actions so far: the clock (any clock), fresh identifiers
    and random bytes, the mail gateway, and the faults of the database
    connection.  A statement can fail before it reaches the database or after
    it took effect, and a transaction at each of its requests.

    Theorems about concurrent executions use [spec p w Q]: whatever the other
    goroutines do between two actions of [p], as long as they keep the
    invariant and only move the database to a later state ([db_le]), [p] does
    so too and its result satisfies [Q].  [thread_ok] and [pool_step] turn
    this into a statement about all interleavings.

    ** What the theorems show

    - Safety of the store: however many requests of whatever routes run
      concurrently, with faults anywhere, every reachable database satisfies
      the constraints and the facts the code maintains, and nothing is lost
      ([server_invariant]); two callers never get two conversations for one
      pair ([direct_conversation_unique]); saving a message is atomic
      ([Save_atomic]); and from boot to exit the process closes its pool last
      and leaves no request unanswered without saying so ([process_safe],
      [shutdown_completes]).
    - Messages: where and as whose a message is stored, for posting,
      ingestion, and replay ([publishAndAudit_delivers],
      [handleSendMessage_sent], [handleAdapterIngest_accepted],
      [replay_misses_conversation]); what a poll returns
      ([GetByConversation_latest]).
    - Identity: who is admitted ([authenticate_sound], [LoginUser_sound]), and
      the round trips of tokens and secrets ([LoginUser_ValidateJWT],
      [CreateAgent_ValidateAPISecret], [RotateSecret_replaces]); a
      verification link works once, whatever the server does in between
      ([VerifyEmail_once]).
    - Rate limiting: refinement of the integer token bucket over schedules of
      requests of all keys, at instants that are multiples of 1/512 s and for
      rates that are multiples of 1/512 per second ([serve_refines]), its bounds
      ([Allow_burst_exact], [admitted_at_most]), no starvation
      ([eventually_admitted]), and its place in publication
      ([publish_sender_limited], [main_limiter]).
    - Adapters: exactly what each accepts, and what a message ingested by one
      adapter says when another emits it (the theorems [..._Ingest_accepts],
      [..._Ingest_Emit], [Emit_panics]).
    - Formats: the JSON parser terminates and reads back what is printed
      ([parse_terminates], [Unmarshal_Marshal]), what the handlers make of a
      body ([bodies_read]), the grammar of tags and the validity of envelopes;
      discovery, which ignores the tags it is asked for ([Discover_newest]).
    - Clients against the server: a message of the library arrives
      ([Send_arrives]) but its credentials are never those the server looks
      for ([sdk_not_authenticated]), and a query with a status is refused
      ([Discover_status_refused]); every command of the command line fits the
      route it is meant for ([execute_conforms]); a mail counts as sent only
      when its signed request was accepted ([SendEmail_sent]).
    - Composition: the multiplexer serves exactly the routes
      ([handler_of_exact]); the command line understands every response
      ([reply_understood]), the library the agents it asked for
      ([Discover_reads]); the token a login saves and the credentials
      [agent use] saves are admitted by the server ([login_session],
      [agent_use_session]).

    ** Parameters and their laws

    Code that is not in the repository is a type class, with what the program
    relies on as laws where theorems need them; the examples hold instances:
    [UuidPkg] ([UuidLaws]: the canonical notation is printable and parsed
    back; [UuidForms]: a few texts that are no identifier), [Argon2]
    ([Argon2Laws]: the version fits 31 bits, the key has the length asked
    for), [Jwt] ([JwtLaws]: dates to the second, a signed token is printable
    text, accepted under its key until it expires if its dates are whole seconds,
    never against the key function), [Prometheus] ([PrometheusLaws]: a registry takes collectors of
    new names),
    [FloatConversion] (Go's conversion of a float out of range, which the
    language leaves to the machine, yields an [int] all the same), and without
    laws [Bcrypt], [Citext] (PostgreSQL's case folding), [UnicodeTables]
    ([strings.ToLower] beyond ASCII), [Net] ([net/url], the checks of
    [http.NewRequest]), [Paths] ([path/filepath]), [Zone] (the offset of the
    server's zone), [ErrorTexts] (the texts of errors of other packages),
    [Zerolog] and [Pgxpool]: the theorems hold whatever these do.  The settings viper reads, the replies of the network
    and the answers at a prompt are arguments.

    ** Integers, fuel and bounds

    An [int] has 64 bits: conversions and products that can overflow wrap
    ([wrap64], [duration]); [Atoi] reports its range errors.  Floats are the
    binary64 of [SpecFloat].  The JSON parser runs on fuel [enough], twice the
    length of the text, which [parse_terminates] shows to be sufficient, and
    has Go's nesting bound of 10000.  Everything else is structural recursion.
    The theorems on the limiter bound rate, capacity and horizon so that what
    is counted, in 1/2^18 of a token, stays below 2^53 ([sized]): for the
    default rates that is more than two years.  Off the grid of 1/512 s the
    code's arithmetic rounds, and nothing is claimed.
    [Format] prints years of four digits; the theorems that print a date say
    so ([four_digit_year]).

    ** Not modelled

    - What of [net/http] the program does not use (patterns with hosts or
      trailing slashes, [CONNECT]), the page of the metrics, and the body of a
      redirection; connections are the requests they carry.
    - cobra and viper: a command starts from its arguments and the settings.
    - The console mail sender, which writes a line to the log: to the rest a
      send is an action of the environment, whichever sender is configured.
    - PostgreSQL beyond what file Schema says: parameter typing, isolation
      inside a statement, the order of rows that compare equal (taken as the
      order of their keys).
    - What [uuid.Parse] leaves with an error ([caller] takes the nil
      identifier), and Go's random order of maps (the list of adapters is in
      the order of their names).
    - Contexts and their cancellation: a request that is cut off is covered
      only as a fault of the connection.
    - Only the bound of 15, 30 or a configured number of seconds a client
      puts on a request is recorded; time does not pass during a call. *)

From stdpp Require Export base tactics gmap strings list fin_maps sorting.
From Stdlib Require Export ZArith Lia ZifyBool ZifyN ZifyNat.
#[global] Set Default Goal Selector "!".
Open Scope Z_scope.

(** ** Results: the Go convention [(value, error)]

    A Go function returning [(T, error)] is modelled by a value of
    [result E T]; the notation [x <-? r ;; k] is the idiom
    [if err != nil { return nil, err }]. *)
Inductive result (E A : Type) : Type :=
| Ok (a : A)
| Err (e : E).
Arguments Ok {E A} a.
Arguments Err {E A} e.

Definition is_ok {E A} (r : result E A) : bool :=
  match r with Ok _ => true | Err _ => false end.

#[global] Instance Ok_inj {E A} : Inj (=) (=) (@Ok E A).
Proof. by intros x y [= ->]. Qed.

Lemma is_ok_inv {E A} (r : result E A) : is_ok r = true → ∃ a, r = Ok a.
Proof. destruct r as [a|]; [by exists a|done]. Qed.

(** A decidable property of an optional value that is there. *)
Definition some_test {A} (P : A → bool) (o : option A) : bool :=
  match o with Some x => P x | None => false end.

Lemma some_test_inv {A} (P : A → bool) (o : option A) :
  some_test P o = true → ∃ x, o = Some x ∧ P x = true.
Proof. destruct o as [x|]; [by exists x|done]. Qed.

Declare Scope go_scope.
Delimit Scope go_scope with go.

Notation "x '<-?' r ';;' k" :=
  (match r with Ok x => k | Err e => Err e end)
  (at level 100, r at next level, right associativity) : go_scope.
Notation "'check' r ';;' k" :=
  (match r with Ok _ => k | Err e => Err e end)
  (at level 100, r at next level, right associativity) : go_scope.
Open Scope go_scope.

#[global] Instance result_eq_dec {E A} `{EqDecision E, EqDecision A} :
  EqDecision (result E A).
Proof. solve_decision. Defined.

(** ** Hint databases

    [bobber] holds the rewriting lemmas shared by the components. *)
Create HintDb bobber.

(** ** The first elements of a sorted list *)
Lemma StronglySorted_app_inv {A} (R : relation A) l k :
  StronglySorted R (l ++ k) → StronglySorted R l ∧ ∀ x y, x ∈ l → y ∈ k → R x y.
Proof.
  induction l as [|z l IH]; cbn.
  - intros _. split; [constructor|]. intros x y Hx. by apply elem_of_nil in Hx.
  - intros H. inversion H as [|? ? Hs Hf]; subst. apply Forall_app in Hf as [Hf1 Hf2].
    destruct (IH Hs) as [Hl Hlk]. split; [by constructor|].
    intros x y [->|Hx]%elem_of_cons Hy; [|by apply Hlk].
    rewrite Forall_forall in Hf2. by apply Hf2.
Qed.

(** Taking [n] elements of a sorted list: they are sorted, as many as there
    are up to [n], and what is left out comes after each of them. *)
Lemma take_sorted {A} (R : relation A) n l :
  StronglySorted R l →
  length (take n l) = Nat.min n (length l) ∧ StronglySorted R (take n l) ∧
  (∀ x, x ∈ take n l → x ∈ l) ∧ (∀ x, x ∈ l → x ∈ take n l ∨ ∀ y, y ∈ take n l → R y x).
Proof.
  intros Hs. rewrite <-(take_drop n l) in Hs. apply StronglySorted_app_inv in Hs as [Hs1 Hs2].
  split; [apply length_take|]. split; [done|]. split.
  - intros x Hx. rewrite <-(take_drop n l). apply elem_of_app. by left.
  - intros x Hx. rewrite <-(take_drop n l) in Hx. apply elem_of_app in Hx as [?|?]; [by left|right].
    intros y Hy. by apply Hs2.
Qed.

(** ** Rows of a table

    A table is a [gmap] from primary keys to rows.  [exists_row] and
    [find_row] are the two ways the queries of the program look at a table
    through a predicate that is not the primary key. *)
Section Rows.
Context {K : Type} `{Countable K} {A : Type}.
Implicit Types (m : gmap K A) (P : A → bool).

(** The rows of a table, in the map's own order. *)
Definition rows (m : gmap K A) : list A := (map_to_list m).*2.

Definition exists_row (P : A → bool) (m : gmap K A) : bool :=
  existsb P (rows m).

Definition find_row (P : A → bool) (m : gmap K A) : option A :=
  List.find P (rows m).

Lemma elem_of_rows m x : x ∈ rows m ↔ ∃ k, m !! k = Some x.
Proof.
  unfold rows. rewrite list_elem_of_fmap. split.
  - intros ([k y] & -> & Hin). apply elem_of_map_to_list in Hin. eauto.
  - intros [k Hk]. exists (k, x). split; [done|]. by apply elem_of_map_to_list.
Qed.

Lemma exists_row_true P m :
  exists_row P m = true ↔ ∃ k x, m !! k = Some x ∧ P x = true.
Proof.
  unfold exists_row. rewrite existsb_exists. split.
  - intros (x & Hin & HP). apply list_elem_of_In, elem_of_rows in Hin as [k Hk].
    eauto.
  - intros (k & x & Hk & HP). exists x. split; [|done].
    apply list_elem_of_In, elem_of_rows. eauto.
Qed.

Lemma exists_row_false P m :
  exists_row P m = false ↔ ∀ k x, m !! k = Some x → P x = false.
Proof.
  rewrite <-not_true_iff_false, exists_row_true. split.
  - intros Hn k x Hk. destruct (P x) eqn:E; [|done]. destruct Hn. eauto.
  - intros Hall (k & x & Hk & HP). by rewrite (Hall k x Hk) in HP.
Qed.

Lemma find_row_Some P m x :
  find_row P m = Some x → (∃ k, m !! k = Some x) ∧ P x = true.
Proof.
  unfold find_row. intros Hf. apply find_some in Hf as [Hin HP].
  split; [|done]. by apply elem_of_rows, list_elem_of_In.
Qed.

Lemma find_row_None P m :
  find_row P m = None ↔ ∀ k x, m !! k = Some x → P x = false.
Proof.
  unfold find_row. split.
  - intros Hf k x Hk. apply (find_none _ _ Hf), list_elem_of_In, elem_of_rows. eauto.
  - intros Hall. destruct (List.find P (rows m)) as [x|] eqn:E; [|done].
    apply find_some in E as [Hin HP].
    apply list_elem_of_In, elem_of_rows in Hin as [k Hk].
    by rewrite (Hall k x Hk) in HP.
Qed.
End Rows.

(** ** Uniqueness constraints

    [unique_on f m]: no two rows of [m] have the same key [f] (a partial key
    models SQL's rule that rows with a NULL component never collide). *)
Section Unique.
Context {K : Type} `{Countable K} {A B : Type}.
Implicit Types (m : gmap K A) (f : A → option B).

Definition unique_on (f : A → option B) (m : gmap K A) : Prop :=
  ∀ i j x y k, m !! i = Some x → m !! j = Some y →
    f x = Some k → f y = Some k → i = j.

Lemma unique_on_empty f : unique_on f (∅ : gmap K A).
Proof. intros i j x y k Hi. by rewrite lookup_empty in Hi. Qed.

Lemma unique_on_insert f m i x :
  unique_on f m →
  (∀ j y k, j ≠ i → m !! j = Some y → f x = Some k → f y ≠ Some k) →
  unique_on f (<[i:=x]> m).
Proof.
  intros Hu Hx a b u v k Ha Hb Hfu Hfv.
  apply lookup_insert_Some in Ha as [[<- <-]|[Hai Ha]];
    apply lookup_insert_Some in Hb as [[<- <-]|[Hbi Hb]]; try done.
  - by destruct (Hx b v k (not_eq_sym Hbi) Hb Hfu).
  - by destruct (Hx a u k (not_eq_sym Hai) Ha Hfv).
  - eauto.
Qed.

Lemma unique_on_update f m i x y :
  unique_on f m → m !! i = Some x → f y = f x → unique_on f (<[i:=y]> m).
Proof.
  intros Hu Hi Hf. apply unique_on_insert; [done|].
  intros j z k Hj Hz Hfy Hfz. apply Hj. rewrite Hf in Hfy. eauto.
Qed.

Lemma unique_on_subseteq f m m' :
  m' ⊆ m → unique_on f m → unique_on f m'.
Proof.
  intros Hs Hu i j x y k Hi Hj. apply Hu; by eapply lookup_weaken.
Qed.
End Unique.

Lemma map_Forall_update {K A} `{Countable K} (P : K → A → Prop) (m : gmap K A) i x :
  map_Forall P m → P i x → map_Forall P (<[i:=x]> m).
Proof. intros Hm Hx. by apply map_Forall_insert_2. Qed.

#[export] Hint Resolve unique_on_empty : bobber.
