(* ===== verification/GoStrings.v ===== *)
(** * Go's [strings] and [strconv], as far as the program uses them

    Strings are byte sequences ([String.string], one [ascii] per byte), as in
    Go.  The functions below are the standard-library calls of the code under
    [src/backend] and [src/cli], written out at byte level; the lemmas are the
    ones the protocol, authentication and handler files share. *)

From S2P Require Import Prelude.
From Stdlib Require Export Ascii.

Open Scope string_scope.
Open Scope Z_scope.

Definition byte_in (lo hi : N) (a : ascii) : bool :=
  N.leb lo (N_of_ascii a) && N.leb (N_of_ascii a) hi.
Definition byte_is (n : N) (a : ascii) : bool := N.eqb (N_of_ascii a) n.

Fixpoint str_forallb (P : ascii → bool) (s : string) : bool :=
  match s with
  | EmptyString => true
  | String a s' => P a && str_forallb P s'
  end.

Fixpoint rev_app (s acc : string) : string :=
  match s with
  | EmptyString => acc
  | String a s' => rev_app s' (String a acc)
  end.
Definition str_rev (s : string) : string := rev_app s "".

(** ** [strings.TrimSpace]

    Go trims the code points for which [unicode.IsSpace] holds.  Their UTF-8
    encodings have one byte (tab to carriage return, space), two (U+0085,
    U+00A0) or three (U+1680, U+2000 to U+200A, U+2028, U+2029, U+202F,
    U+205F, U+3000); UTF-8 is self-synchronising, so the first (last) rune of a
    string is a space exactly when one of these is a prefix (suffix). *)
Definition space1 (a : ascii) : bool := byte_in 9 13 a || byte_is 32 a.
Definition space2 (a b : ascii) : bool :=
  byte_is 194 a && (byte_is 133 b || byte_is 160 b).
Definition space3 (a b c : ascii) : bool :=
  (byte_is 225 a && byte_is 154 b && byte_is 128 c)
  || (byte_is 226 a && byte_is 128 b &&
        (byte_in 128 138 c || byte_is 168 c || byte_is 169 c || byte_is 175 c))
  || (byte_is 226 a && byte_is 129 b && byte_is 159 c)
  || (byte_is 227 a && byte_is 128 b && byte_is 128 c).

Section Trim.
Variable s1 : ascii → bool.
Variable s2 : ascii → ascii → bool.
Variable s3 : ascii → ascii → ascii → bool.

Fixpoint trim_prefixes (s : string) : string :=
  match s with
  | EmptyString => EmptyString
  | String a r1 =>
      if s1 a then trim_prefixes r1 else
      match r1 with
      | EmptyString => s
      | String b r2 =>
          if s2 a b then trim_prefixes r2 else
          match r2 with
          | EmptyString => s
          | String c r3 => if s3 a b c then trim_prefixes r3 else s
          end
      end
  end.

(** No space encoding is a prefix of [s]. *)
Definition no_prefix (s : string) : bool :=
  match s with
  | EmptyString => true
  | String a r1 =>
      negb (s1 a) &&
      match r1 with
      | EmptyString => true
      | String b r2 =>
          negb (s2 a b) &&
          match r2 with
          | EmptyString => true
          | String c _ => negb (s3 a b c)
          end
      end
  end.

Lemma trim_prefixes_id s : no_prefix s = true → trim_prefixes s = s.
Proof.
  destruct s as [|a [|b [|c r]]]; simpl; [done|..];
    repeat (case_match; simpl in *); done.
Qed.
End Trim.

Definition trim_left : string → string := trim_prefixes space1 space2 space3.
Definition trim_right (s : string) : string :=
  str_rev (trim_prefixes space1 (λ b a, space2 a b) (λ c b a, space3 a b c)
             (str_rev s)).
Definition TrimSpace (s : string) : string := trim_right (trim_left s).

(** Visible ASCII strings (tags, UUIDs, hexadecimal tokens) are fixed points. *)
Definition graph_char (a : ascii) : bool := byte_in 33 126 a.
Definition is_graph (s : string) : bool := str_forallb graph_char s.

(** ** [strings.Split], [Cut], [Join], [HasPrefix], [TrimPrefix], [Contains] *)

(** [strings.Split] with a one-byte separator. *)
Fixpoint Split (s : string) (sep : ascii) : list string :=
  match s with
  | EmptyString => [""]
  | String a r =>
      if Ascii.eqb a sep then "" :: Split r sep
      else match Split r sep with
           | h :: t => String a h :: t
           | [] => [String a ""]
           end
  end.

(** [strings.Cut] with a one-byte separator; [None] is [found = false]. *)
Fixpoint Cut (s : string) (sep : ascii) : option (string * string) :=
  match s with
  | EmptyString => None
  | String a r =>
      if Ascii.eqb a sep then Some ("", r)
      else match Cut r sep with
           | Some (l, r') => Some (String a l, r')
           | None => None
           end
  end.

Fixpoint Join (l : list string) (sep : string) : string :=
  match l with
  | [] => ""
  | [x] => x
  | x :: t => x +:+ sep +:+ Join t sep
  end.

Fixpoint HasPrefix (s p : string) : bool :=
  match p, s with
  | EmptyString, _ => true
  | String b p', String a s' => Ascii.eqb a b && HasPrefix s' p'
  | String _ _, EmptyString => false
  end.

Fixpoint drop_prefix (s p : string) : string :=
  match p, s with
  | String _ p', String _ s' => drop_prefix s' p'
  | _, _ => s
  end.
Definition TrimPrefix (s p : string) : string :=
  if HasPrefix s p then drop_prefix s p else s.

Fixpoint Contains (s sub : string) : bool :=
  HasPrefix s sub ||
  match s with EmptyString => false | String _ s' => Contains s' sub end.

(** Byte-wise comparison, Go's [s < t] on strings. *)
Fixpoint str_ltb (s t : string) : bool :=
  match s, t with
  | _, EmptyString => false
  | EmptyString, String _ _ => true
  | String a s', String b t' =>
      N.ltb (N_of_ascii a) (N_of_ascii b)
      || (Ascii.eqb a b && str_ltb s' t')
  end.

(** ** Case mapping

    [strings.ToLower] maps ASCII strings byte by byte; on a string with a byte
    outside ASCII it consults the Unicode tables, which is the parameter. *)
Definition is_ascii7 (s : string) : bool := str_forallb (byte_in 0 127) s.
Definition lower_byte (a : ascii) : ascii :=
  if byte_in 65 90 a then ascii_of_N (N_of_ascii a + 32) else a.
Fixpoint map_bytes (f : ascii → ascii) (s : string) : string :=
  match s with
  | EmptyString => EmptyString
  | String a r => String (f a) (map_bytes f r)
  end.
Definition ascii_lower : string → string := map_bytes lower_byte.

Class UnicodeTables := unicode_lower : string → string.
Definition ToLower `{UnicodeTables} (s : string) : string :=
  if is_ascii7 s then ascii_lower s else unicode_lower s.

(** [strings.EqualFold(s, "bearer")]: none of the letters of the only literal
    the program compares with has a non-ASCII case variant, so simple folding
    is ASCII folding. *)
Definition EqualFold_ascii (s lit : string) : bool :=
  String.eqb (ascii_lower s) (ascii_lower lit).

(** ** [strconv] *)

Definition int64_min : Z := - 2 ^ 63.
Definition int64_max : Z := 2 ^ 63 - 1.
Definition in_int64 (z : Z) : bool := (int64_min <=? z) && (z <=? int64_max).
(** Two's complement wrap-around of an [int64] computation. *)
Definition wrap64 (z : Z) : Z := (z + 2 ^ 63) mod 2 ^ 64 - 2 ^ 63.

Definition digit_val (a : ascii) : option Z :=
  if byte_in 48 57 a then Some (Z.of_N (N_of_ascii a) - 48) else None.
Definition isDigit (a : ascii) : bool := byte_in 48 57 a.

Fixpoint digits_acc (acc : Z) (s : string) : option Z :=
  match s with
  | EmptyString => Some acc
  | String a r => d ← digit_val a; digits_acc (acc * 10 + d) r
  end.
Definition parse_digits (s : string) : option Z :=
  match s with EmptyString => None | _ => digits_acc 0 s end.

(** [strconv.Atoi]: an optional sign, decimal digits, the range of [int]. *)
Definition Atoi (s : string) : option Z :=
  let range z := if in_int64 z then Some z else None in
  match s with
  | String a r =>
      if Ascii.eqb a "+" then parse_digits r ≫= range
      else if Ascii.eqb a "-" then parse_digits r ≫= λ z, range (- z)
      else parse_digits s ≫= range
  | EmptyString => None
  end.

(** [strconv.ParseUint(s, 10, bits)]. *)
Definition ParseUint (s : string) (bits : Z) : option Z :=
  parse_digits s ≫= λ z, if z <? 2 ^ bits then Some z else None.

Definition digit_char (d : Z) : ascii := ascii_of_N (Z.to_N (48 + d)).
(** [n] decimal digits of [z], zero-padded ([appendInt] of package [time]). *)
Fixpoint dec_digits (n : nat) (z : Z) : string :=
  match n with
  | O => ""
  | S n' => dec_digits n' (z / 10) +:+ String (digit_char (z mod 10)) ""
  end.
(** The number of decimal digits of a non-negative [int64] is at most 19. *)
Fixpoint num_digits (fuel : nat) (z : Z) : nat :=
  match fuel with
  | O => 1
  | S f => if z <? 10 then 1 else S (num_digits f (z / 10))
  end.
Definition Itoa (z : Z) : string :=
  if z <? 0 then String "-" (dec_digits (num_digits 19 (- z)) (- z))
  else dec_digits (num_digits 19 z) z.

(** ** Lemmas: byte tests *)

Lemma string_app_cons a s t : String a s +:+ t = String a (s +:+ t).
Proof. reflexivity. Qed.

Lemma string_app_nil_r s : s +:+ "" = s.
Proof. induction s as [|a s IH]; [done|]. by rewrite string_app_cons, IH. Qed.

Lemma string_app_assoc s t u : s +:+ (t +:+ u) = (s +:+ t) +:+ u.
Proof. induction s as [|a s IH]; [done|]. by rewrite !string_app_cons, IH. Qed.

Lemma str_forallb_app P s t : str_forallb P (s +:+ t) = str_forallb P s && str_forallb P t.
Proof.
  induction s as [|a s IH]; [done|]. rewrite string_app_cons. simpl.
  by rewrite IH, andb_assoc.
Qed.

Lemma str_forallb_rev_app P s acc :
  str_forallb P (rev_app s acc) = str_forallb P s && str_forallb P acc.
Proof.
  revert acc. induction s as [|a s IH]; intros acc; simpl; [done|].
  rewrite IH. simpl. destruct (P a), (str_forallb P s); done.
Qed.

Lemma str_forallb_impl (P Q : ascii → bool) s :
  (∀ a, P a = true → Q a = true) → str_forallb P s = true → str_forallb Q s = true.
Proof.
  intros HPQ. induction s as [|a s IH]; simpl; [done|].
  intros [Ha Hs]%andb_true_iff. rewrite (HPQ a Ha). by apply IH.
Qed.

Lemma rev_app_app s t u : rev_app s (t +:+ u) = rev_app s t +:+ u.
Proof.
  revert t. induction s as [|a s IH]; intros t; simpl; [done|].
  by rewrite <-string_app_cons, IH.
Qed.

Lemma rev_app_rev s acc : rev_app s acc = str_rev s +:+ acc.
Proof. unfold str_rev. by rewrite <-rev_app_app. Qed.

Lemma str_rev_cons a s : str_rev (String a s) = str_rev s +:+ String a "".
Proof. unfold str_rev at 1. simpl. by rewrite rev_app_rev. Qed.

Lemma str_rev_app s t : str_rev (s +:+ t) = str_rev t +:+ str_rev s.
Proof.
  induction s as [|a s IH].
  - change (str_rev "") with "". by rewrite string_app_nil_r.
  - by rewrite string_app_cons, !str_rev_cons, IH, string_app_assoc.
Qed.

Lemma str_rev_involutive s : str_rev (str_rev s) = s.
Proof.
  induction s as [|a s IH]; [done|].
  rewrite str_rev_cons, str_rev_app, IH. done.
Qed.

(** ** Lemmas: [TrimSpace] *)

Lemma no_prefix_graph s2 s3 a r :
  (∀ x y, graph_char x = true → s2 x y = false) →
  (∀ x y z, graph_char x = true → s3 x y z = false) →
  graph_char a = true → no_prefix space1 s2 s3 (String a r) = true.
Proof.
  intros H2 H3 Ha.
  assert (space1 a = false) as H1.
  { unfold graph_char, space1, byte_in, byte_is in *. lia. }
  simpl. rewrite H1. destruct r as [|b [|c r]]; simpl; rewrite ?H2, ?H3 by done; done.
Qed.

Lemma graph_not_space2 x y : graph_char x = true → space2 x y = false ∧ space2 y x = false.
Proof.
  unfold graph_char, space2, byte_in, byte_is. lia.
Qed.
Lemma graph_not_space3 x y z :
  graph_char x = true → space3 x y z = false ∧ space3 y z x = false.
Proof. unfold graph_char, space3, byte_in, byte_is. lia. Qed.

Lemma trim_left_graph s : is_graph s = true → trim_left s = s.
Proof.
  intros Hs. apply trim_prefixes_id. destruct s as [|a r]; [done|].
  apply andb_true_iff in Hs as [Ha _].
  apply no_prefix_graph; [..|done].
  - intros x y Hx. exact (proj1 (graph_not_space2 x y Hx)).
  - intros x y z Hx. exact (proj1 (graph_not_space3 x y z Hx)).
Qed.

Lemma trim_right_graph s : is_graph s = true → trim_right s = s.
Proof.
  intros Hs. unfold trim_right.
  assert (is_graph (str_rev s) = true) as Hr.
  { unfold is_graph, str_rev. rewrite str_forallb_rev_app. by rewrite andb_true_r. }
  rewrite trim_prefixes_id; [by apply str_rev_involutive|].
  destruct (str_rev s) as [|a r]; [done|]. apply andb_true_iff in Hr as [Ha _].
  apply no_prefix_graph; [..|done].
  - intros x y Hx. exact (proj2 (graph_not_space2 x y Hx)).
  - intros x y z Hx. exact (proj2 (graph_not_space3 x z y Hx)).
Qed.

Lemma TrimSpace_graph s : is_graph s = true → TrimSpace s = s.
Proof. intros Hs. unfold TrimSpace. by rewrite trim_left_graph, trim_right_graph. Qed.

#[export] Hint Resolve TrimSpace_graph : bobber.

(** [TrimSpace] is idempotent. *)
Section TrimIdem.
Variable s1 : ascii → bool.
Variable s2 : ascii → ascii → bool.
Variable s3 : ascii → ascii → ascii → bool.
Let trim := trim_prefixes s1 s2 s3.

Lemma trim_prefixes_no_prefix s : no_prefix s1 s2 s3 (trim s) = true.
Proof.
  (* recursion skips one, two or three bytes: induct on the length *)
  remember (String.length s) as n eqn:Hn.
  revert s Hn. induction n as [n IH] using lt_wf_ind. intros s ->.
  destruct s as [|a r1]; [done|]. unfold trim in *. cbn [trim_prefixes].
  destruct (s1 a) eqn:E1; [eapply IH; [|reflexivity]; simpl; lia|].
  destruct r1 as [|b r2]; [simpl; by rewrite E1|].
  destruct (s2 a b) eqn:E2; [eapply IH; [|reflexivity]; simpl; lia|].
  destruct r2 as [|c r3]; [simpl; by rewrite E1, E2|].
  destruct (s3 a b c) eqn:E3; [eapply IH; [|reflexivity]; simpl; lia|].
  simpl. by rewrite E1, E2, E3.
Qed.

(** The trimmed string is a suffix of the original. *)
Lemma trim_prefixes_suffix s : ∃ p, s = p +:+ trim s.
Proof.
  remember (String.length s) as n eqn:Hn.
  revert s Hn. induction n as [n IH] using lt_wf_ind. intros s ->.
  assert (∀ pre r, s = pre +:+ r → (String.length r < String.length s)%nat →
    ∃ p, s = p +:+ trim r) as Hstep.
  { intros pre r -> Hlt. destruct (IH _ Hlt r eq_refl) as [p Hp].
    exists (pre +:+ p). by rewrite <-string_app_assoc, <-Hp. }
  destruct s as [|a r1]; [by exists ""|]. unfold trim in *. cbn [trim_prefixes].
  destruct (s1 a); [apply (Hstep (String a "") r1); [done|simpl; lia]|].
  destruct r1 as [|b r2]; [by exists ""|].
  destruct (s2 a b); [apply (Hstep (String a (String b "")) r2); [done|simpl; lia]|].
  destruct r2 as [|c r3]; [by exists ""|].
  destruct (s3 a b c); [|by exists ""].
  apply (Hstep (String a (String b (String c ""))) r3); [done|simpl; lia].
Qed.

(** A prefix of a string without space prefix has none either. *)
Lemma no_prefix_app s t : no_prefix s1 s2 s3 (s +:+ t) = true → no_prefix s1 s2 s3 s = true.
Proof.
  destruct s as [|a [|b [|c r]]]; [done|..]; rewrite ?string_app_cons;
    simpl; repeat (case_match; simpl in *); try done;
    rewrite ?andb_true_r, ?andb_true_iff in *; tauto.
Qed.
End TrimIdem.

Lemma trim_right_prefix s : ∃ p, s = trim_right s +:+ p.
Proof.
  unfold trim_right.
  destruct (trim_prefixes_suffix space1 (λ b a, space2 a b) (λ c b a, space3 a b c)
    (str_rev s)) as [p Hp].
  exists (str_rev p). rewrite <-str_rev_app, <-Hp. by rewrite str_rev_involutive.
Qed.

Lemma TrimSpace_idem s : TrimSpace (TrimSpace s) = TrimSpace s.
Proof.
  unfold TrimSpace. set (l := trim_left s).
  assert (trim_left (trim_right l) = trim_right l) as ->.
  { apply trim_prefixes_id. destruct (trim_right_prefix l) as [p Hp].
    apply no_prefix_app with p. rewrite <-Hp. apply trim_prefixes_no_prefix. }
  unfold trim_right. rewrite str_rev_involutive. f_equal.
  apply trim_prefixes_id, trim_prefixes_no_prefix.
Qed.

(** A string that trims to nothing has no visible byte. *)
Lemma trim_prefixes_blank s2 s3 s :
  (∀ a b, s2 a b = true → graph_char a = false ∧ graph_char b = false) →
  (∀ a b c, s3 a b c = true →
     graph_char a = false ∧ graph_char b = false ∧ graph_char c = false) →
  trim_prefixes space1 s2 s3 s = "" → str_forallb (λ a, negb (graph_char a)) s = true.
Proof.
  intros H2 H3. remember (String.length s) as n eqn:Hn.
  revert s Hn. induction n as [n IH] using lt_wf_ind. intros s ->.
  destruct s as [|a r1]; [done|]. cbn [trim_prefixes str_forallb].
  destruct (space1 a) eqn:E1.
  { intros Ht. assert (graph_char a = false) as ->
      by (unfold graph_char, space1, byte_in, byte_is in *; lia).
    eapply IH; [|reflexivity|done]. simpl. lia. }
  destruct r1 as [|b r2]; [done|]. cbn [str_forallb]. destruct (s2 a b) eqn:E2.
  { intros Ht. destruct (H2 _ _ E2) as [-> ->]. eapply IH; [|reflexivity|done]. simpl. lia. }
  destruct r2 as [|c r3]; [done|]. cbn [str_forallb]. destruct (s3 a b c) eqn:E3; [|done].
  intros Ht. destruct (H3 _ _ _ E3) as (-> & -> & ->).
  eapply IH; [|reflexivity|done]. simpl. lia.
Qed.

Lemma TrimSpace_graph_head a r : graph_char a = true → TrimSpace (String a r) ≠ "".
Proof.
  intros Ha Hs. unfold TrimSpace in Hs.
  assert (trim_left (String a r) = String a r) as Hl.
  { apply trim_prefixes_id, no_prefix_graph; [..|done].
    - intros x y Hx. exact (proj1 (graph_not_space2 x y Hx)).
    - intros x y z Hx. exact (proj1 (graph_not_space3 x y z Hx)). }
  rewrite Hl in Hs. unfold trim_right in Hs. set (t := trim_prefixes _ _ _ _) in Hs.
  assert (t = "") as Ht by (by rewrite <-(str_rev_involutive t), Hs).
  apply trim_prefixes_blank in Ht.
  - unfold str_rev in Ht. rewrite str_forallb_rev_app in Ht.
    apply andb_true_iff in Ht as [Ht _]. simpl in Ht. by rewrite Ha in Ht.
  - unfold space2, graph_char, byte_in, byte_is. lia.
  - unfold space3, graph_char, byte_in, byte_is. lia.
Qed.

(** ** Lemmas: [Split] *)

Lemma Split_not_nil s c : Split s c ≠ [].
Proof. destruct s as [|a r]; simpl; [done|]. by repeat case_match. Qed.

Lemma Join_Split s c : Join (Split s c) (String c "") = s.
Proof.
  induction s as [|a r IH]; [done|]. simpl.
  destruct (Ascii.eqb_spec a c) as [->|Hac].
  - destruct (Split r c) as [|h t] eqn:E; [by destruct (Split_not_nil r c)|].
    change ("" +:+ String c "" +:+ Join (h :: t) (String c "") = String c r).
    by rewrite IH.
  - destruct (Split r c) as [|h t] eqn:E; [by destruct (Split_not_nil r c)|].
    destruct t as [|h' t]; simpl in *; [by rewrite IH|].
    by rewrite !string_app_cons, <-IH.
Qed.

(** Every token of the split satisfies [P] iff every byte does, separators
    apart. *)
Lemma Split_forallb (P : ascii → bool) s c :
  forallb (str_forallb P) (Split s c) = true →
  str_forallb (λ a, P a || Ascii.eqb a c) s = true.
Proof.
  induction s as [|a r IH]; [done|]. simpl.
  destruct (Ascii.eqb_spec a c) as [->|Hac]; simpl.
  - intros Hr. rewrite orb_true_r. by apply IH.
  - destruct (Split r c) as [|h t]; [by simpl; rewrite !andb_true_r, orb_false_r; intros ->; apply IH|].
    simpl in *. intros [[Ha Hh]%andb_true_iff Ht]%andb_true_iff.
    rewrite Ha. simpl. apply IH. by rewrite Hh, Ht.
Qed.

(** ** Lemmas: decimal numbers *)

Lemma digit_val_char d : 0 ≤ d < 10 → digit_val (digit_char d) = Some d.
Proof.
  intros Hd. unfold digit_val, digit_char, byte_in.
  rewrite N_ascii_embedding by lia.
  replace ((48 <=? Z.to_N (48 + d))%N && (Z.to_N (48 + d) <=? 57)%N) with true by lia.
  f_equal. lia.
Qed.

Lemma digits_acc_app acc s t :
  digits_acc acc (s +:+ t) = (digits_acc acc s ≫= λ z, digits_acc z t).
Proof.
  revert acc. induction s as [|a s IH]; intros acc; [done|].
  rewrite string_app_cons. simpl. destruct (digit_val a); simpl; [|done]. apply IH.
Qed.

Lemma digits_acc_dec n acc z :
  0 ≤ z < 10 ^ Z.of_nat n →
  digits_acc acc (dec_digits n z) = Some (acc * 10 ^ Z.of_nat n + z).
Proof.
  revert acc z. induction n as [|n IH]; intros acc z Hz.
  - simpl. f_equal. change (10 ^ Z.of_nat 0) with 1 in *. lia.
  - assert (10 ^ Z.of_nat (S n) = 10 * 10 ^ Z.of_nat n) as Hp
      by (rewrite Nat2Z.inj_succ, Z.pow_succ_r; lia).
    rewrite Hp in *. cbn [dec_digits]. rewrite digits_acc_app, IH.
    2:{ split; [apply Z.div_pos; lia|apply Z.div_lt_upper_bound; lia]. }
    cbn [mbind option_bind digits_acc].
    rewrite digit_val_char by (apply Z.mod_pos_bound; lia). cbn. f_equal.
    pose proof (Z.div_mod z 10). lia.
Qed.

Lemma dec_digits_cons n z : ∃ a r, dec_digits (S n) z = String a r ∧ isDigit a = true.
Proof.
  revert z. induction n as [|n IH]; intros z.
  - exists (digit_char (z mod 10)), "". split; [done|].
    unfold isDigit, digit_char, byte_in. pose proof (Z.mod_pos_bound z 10).
    rewrite N_ascii_embedding by lia. lia.
  - destruct (IH (z / 10)) as (a & r & Hr & Ha). cbn [dec_digits] in *.
    exists a, (r +:+ String (digit_char (z mod 10)) ""). split; [|done].
    change (dec_digits n (z / 10 / 10) +:+ String (digit_char ((z / 10) mod 10)) "") with
      (dec_digits (S n) (z / 10)). simpl. rewrite Hr. by rewrite string_app_cons.
Qed.

Lemma num_digits_bound fuel z :
  0 ≤ z < 10 ^ Z.of_nat (S fuel) → z < 10 ^ Z.of_nat (num_digits fuel z).
Proof.
  revert z. induction fuel as [|f IH]; intros z Hz; [exact (proj2 Hz)|]. simpl.
  destruct (z <? 10) eqn:E; [change (10 ^ Z.of_nat 1) with 10; lia|].
  assert (z / 10 < 10 ^ Z.of_nat (num_digits f (z / 10))) as Hd.
  { apply IH. split; [apply Z.div_pos; lia|]. apply Z.div_lt_upper_bound; [lia|].
    rewrite <-Z.pow_succ_r by lia. rewrite <-Nat2Z.inj_succ. apply Hz. }
  rewrite Nat2Z.inj_succ, Z.pow_succ_r by lia.
  pose proof (Z.div_mod z 10). pose proof (Z.mod_pos_bound z 10). lia.
Qed.

Lemma num_digits_pos fuel z : ∃ n, num_digits fuel z = S n.
Proof. destruct fuel; simpl; [eauto|]. case_match; eauto. Qed.

Lemma parse_digits_num_digits z :
  0 ≤ z < 10 ^ 20 → parse_digits (dec_digits (num_digits 19 z) z) = Some z.
Proof.
  intros Hz. pose proof (num_digits_bound 19 z Hz) as Hb.
  destruct (num_digits_pos 19 z) as [n Hn]. rewrite Hn in *.
  destruct (dec_digits_cons n z) as (a & r & Hr & _).
  unfold parse_digits. rewrite Hr, <-Hr. by rewrite digits_acc_dec by lia.
Qed.

Lemma digit_not_sign a : isDigit a = true → Ascii.eqb a "+" = false ∧ Ascii.eqb a "-" = false.
Proof.
  unfold isDigit, byte_in. intros Ha. split; apply Ascii.eqb_neq; intros ->; by vm_compute in Ha.
Qed.

(** [strconv.Atoi] inverts [strconv.Itoa] on every [int]. *)
Lemma Atoi_Itoa z : in_int64 z = true → Atoi (Itoa z) = Some z.
Proof.
  intros Hz. assert (int64_min ≤ z ≤ int64_max) as Hb by (unfold in_int64 in Hz; lia).
  unfold int64_min, int64_max in Hb. unfold Itoa. destruct (z <? 0) eqn:Hneg.
  - unfold Atoi. simpl Ascii.eqb. rewrite parse_digits_num_digits by lia.
    simpl. by rewrite Z.opp_involutive, Hz.
  - pose proof (parse_digits_num_digits z ltac:(lia)) as Hp.
    destruct (num_digits_pos 19 z) as [n Hn]. rewrite Hn in *.
    destruct (dec_digits_cons n z) as (a & r & Hr & Ha). rewrite Hr in *.
    unfold Atoi. destruct (digit_not_sign a Ha) as [-> ->]. rewrite Hp. simpl. by rewrite Hz.
Qed.

(** ** Lemmas: the order on strings *)

Lemma Atoi_range s z : Atoi s = Some z → in_int64 z = true.
Proof.
  intros H. assert (∃ y, (if in_int64 y then Some y else None) = Some z) as [y Hy].
  { unfold Atoi in H. destruct s as [|a r]; [done|]. destruct (Ascii.eqb a "+"), (Ascii.eqb a "-");
      destruct (parse_digits _) as [d|]; try done; cbn in H; by eexists. }
  destruct (in_int64 y) eqn:Hin; [|done]. by injection Hy as <-.
Qed.

Lemma str_ltb_irrefl s : str_ltb s s = false.
Proof.
  induction s as [|a s IH]; [done|]. simpl. rewrite N.ltb_irrefl, IH. by rewrite andb_false_r.
Qed.

Lemma str_ltb_asym s t : str_ltb s t = true → str_ltb t s = false.
Proof.
  revert t. induction s as [|a s IH]; intros [|b t]; simpl; try done.
  destruct (Ascii.eqb_spec a b) as [->|Hab].
  - rewrite N.ltb_irrefl, Ascii.eqb_refl. simpl. apply IH.
  - rewrite (proj2 (Ascii.eqb_neq b a)) by congruence. simpl. lia.
Qed.

Lemma str_ltb_total s t : str_ltb s t = false → str_ltb t s = false → s = t.
Proof.
  revert t. induction s as [|a s IH]; intros [|b t]; simpl; try done.
  intros [Hab Hst]%orb_false_iff [Hba Hts]%orb_false_iff.
  assert (a = b) as ->.
  { rewrite <-(ascii_N_embedding a), <-(ascii_N_embedding b). f_equal. lia. }
  rewrite Ascii.eqb_refl in *. f_equal. auto.
Qed.

(** ** Lemmas: prefixes *)

Lemma HasPrefix_app p s : HasPrefix (p +:+ s) p = true.
Proof.
  induction p as [|a p IH]; rewrite ?string_app_cons; [by destruct s|].
  cbn. by rewrite Ascii.eqb_refl.
Qed.

Lemma TrimPrefix_app p s : TrimPrefix (p +:+ s) p = s.
Proof.
  unfold TrimPrefix. rewrite HasPrefix_app.
  induction p as [|a p IH]; rewrite ?string_app_cons; [by destruct s|]. exact IH.
Qed.

(** ** Lemmas: separators *)

Lemma Split_no_sep t c :
  str_forallb (λ a, negb (Ascii.eqb a c)) t = true → Split t c = [t].
Proof.
  induction t as [|a t IH]; [done|]. simpl.
  destruct (Ascii.eqb a c); simpl; [done|]. intros Ht. by rewrite IH.
Qed.

Lemma Split_app_sep t c s :
  str_forallb (λ a, negb (Ascii.eqb a c)) t = true →
  Split (t +:+ String c s) c = t :: Split s c.
Proof.
  induction t as [|a t IH]; simpl; rewrite ?string_app_cons.
  - intros _. change ("" +:+ String c s) with (String c s). simpl.
    by rewrite Ascii.eqb_refl.
  - simpl. destruct (Ascii.eqb a c); simpl; [done|]. intros Ht. by rewrite IH.
Qed.

(** A string without a byte. *)
Definition no_byte (c : ascii) (s : string) : Prop := str_forallb (λ a, negb (Ascii.eqb a c)) s = true.

Lemma no_byte_app c s t : no_byte c (s +:+ t) ↔ no_byte c s ∧ no_byte c t.
Proof. unfold no_byte. by rewrite str_forallb_app, andb_true_iff. Qed.

Lemma Split_no_byte s c : Forall (no_byte c) (Split s c).
Proof.
  induction s as [|a s IH]; cbn; [by repeat constructor|]. destruct (Ascii.eqb a c) eqn:Ha; [by constructor|].
  destruct (Split s c) as [|h l]; [by repeat constructor; unfold no_byte; cbn; rewrite Ha|].
  apply Forall_cons in IH as [Hh Hl]. constructor; [|done]. unfold no_byte in *. cbn [str_forallb]. by rewrite Ha, Hh.
Qed.

Lemma Split_other s c d : no_byte d s → Forall (no_byte d) (Split s c).
Proof.
  induction s as [|a s IH]; cbn [Split]; [by repeat constructor|]. unfold no_byte at 1. cbn [str_forallb].
  intros [Ha Hs]%andb_true_iff. specialize (IH Hs). destruct (Ascii.eqb a c); [by constructor|].
  destruct (Split s c) as [|h l]; [by repeat constructor; unfold no_byte; cbn [str_forallb]; rewrite Ha|].
  apply Forall_cons in IH as [Hh Hl]. constructor; [|done]. unfold no_byte in *. cbn [str_forallb]. by rewrite Ha, Hh.
Qed.

Lemma dec_digits_digits n z : str_forallb isDigit (dec_digits n z) = true.
Proof.
  revert z. induction n as [|n IH]; intros z; [done|]. cbn [dec_digits].
  rewrite str_forallb_app, IH. simpl. rewrite andb_true_r.
  unfold isDigit, digit_char, byte_in. pose proof (Z.mod_pos_bound z 10).
  rewrite N_ascii_embedding by lia. lia.
Qed.

Lemma Itoa_digits z : 0 ≤ z → str_forallb isDigit (Itoa z) = true.
Proof. intros Hz. unfold Itoa. replace (z <? 0) with false by lia. apply dec_digits_digits. Qed.

Lemma Itoa_no_byte c z :
  isDigit c = false → 0 ≤ z → str_forallb (λ a, negb (Ascii.eqb a c)) (Itoa z) = true.
Proof.
  intros Hc Hz. pose proof (Itoa_digits z Hz) as Hd. revert Hd. apply str_forallb_impl.
  intros a Ha. destruct (Ascii.eqb_spec a c) as [->|_]; [congruence|done].
Qed.

Lemma ParseUint_Itoa z bits :
  0 ≤ z < 2 ^ bits → z < 10 ^ 20 → ParseUint (Itoa z) bits = Some z.
Proof.
  intros Hz Hb. unfold ParseUint, Itoa. replace (z <? 0) with false by lia.
  rewrite parse_digits_num_digits by lia. cbn. by replace (z <? 2 ^ bits) with true by lia.
Qed.

(** A non-empty visible string, and one that begins like it, do not start
    with white space. *)
Lemma trim_left_digits s t : str_forallb isDigit s = true → s ≠ "" → trim_left (s +:+ t) = s +:+ t.
Proof.
  intros Hs Hne. destruct s as [|a s]; [done|]. cbn in Hs. apply andb_true_iff in Hs as [Ha _].
  assert (graph_char a = true) as Hg by (unfold isDigit, graph_char, byte_in in *; lia).
  rewrite string_app_cons. apply trim_prefixes_id, no_prefix_graph; [..|done].
  - intros x y Hx. exact (proj1 (graph_not_space2 x y Hx)).
  - intros x y z Hx. exact (proj1 (graph_not_space3 x y z Hx)).
Qed.

Lemma Itoa_nonempty z : Itoa z ≠ "".
Proof.
  unfold Itoa. case_match; [done|]. destruct (num_digits_pos 19 z) as [n Hn]. rewrite Hn.
  destruct (dec_digits_cons n z) as (a & r & Hr & _). by rewrite Hr.
Qed.

(** ** A trimmed word after a visible word and a space *)
Lemma trim_right_trimmed s : TrimSpace s = s → no_prefix space1 (λ b a, space2 a b) (λ c b a, space3 a b c) (str_rev s) = true.
Proof.
  intros Hs. rewrite <-Hs. unfold TrimSpace, trim_right. rewrite str_rev_involutive. apply trim_prefixes_no_prefix.
Qed.

Lemma no_prefix_before_space s t : s ≠ "" →
  no_prefix space1 (λ b a, space2 a b) (λ c b a, space3 a b c) s = true →
  no_prefix space1 (λ b a, space2 a b) (λ c b a, space3 a b c) (s +:+ String " " t) = true.
Proof.
  assert (∀ a, space2 " " a = false) as H2 by done.
  assert (∀ b c, space3 " " b c = false) as H3 by done.
  assert (∀ a c, space3 a " " c = false) as H4.
  { intros a c. unfold space3, byte_is, byte_in. cbn. rewrite !andb_false_r. done. }
  assert (∀ u, "" +:+ u = u) as Hnil by done.
  destruct s as [|a [|b [|c r]]]; [done|..]; intros _; rewrite !string_app_cons, ?Hnil; cbn [no_prefix];
    rewrite ?H2, ?H3, ?andb_true_r; try done.
  destruct t; rewrite ?H4; cbn; by rewrite ?andb_true_r.
Qed.

Lemma TrimSpace_after a r s : graph_char a = true → TrimSpace s = s → s ≠ "" →
  TrimSpace (String a r +:+ String " " s) = String a r +:+ String " " s.
Proof.
  intros Ha Hs Hne. unfold TrimSpace at 1. assert (trim_left (String a r +:+ String " " s) = String a r +:+ String " " s) as ->.
  { rewrite string_app_cons. apply trim_prefixes_id, no_prefix_graph; [..|done].
    - intros x y Hx. exact (proj1 (graph_not_space2 x y Hx)).
    - intros x y z Hx. exact (proj1 (graph_not_space3 x y z Hx)). }
  unfold trim_right. rewrite trim_prefixes_id; [apply str_rev_involutive|].
  rewrite str_rev_app. change (String " " s) with (" " +:+ s). rewrite str_rev_app. change (str_rev " ") with " ".
  rewrite <-string_app_assoc. apply no_prefix_before_space; [|by apply trim_right_trimmed].
  intros Hr. apply Hne. by rewrite <-(str_rev_involutive s), Hr.
Qed.
