(* ===== verification/Protocol.v ===== *)
(** * The wire protocol: tags and versions

    [backend/internal/protocol/tags.go] ([Module Tags]) and
    [backend/internal/protocol/version.go] ([Module Version]). *)

From S2P Require Import Prelude.
From S2P Require Import GoStrings.

Open Scope string_scope.
Open Scope Z_scope.

Module Tags.

Definition TagRequest := "request".
Definition TagResponse := "response".
Definition TagContextProvide := "context-provide".
Definition TagNoResponse := "no-response".
Definition TagProgress := "progress".
Definition TagError := "error".
Definition TagSystem := "system".

Definition TagRequestData := "request.data".
Definition TagRequestAction := "request.action".
Definition TagResponseSuccess := "response.success".
Definition TagResponseError := "response.error".
Definition TagResponsePartial := "response.partial".
Definition TagContextProvideDefault := "context-provide".
Definition TagNoResponseDefault := "no-response".
Definition TagProgressUpdate := "progress.update".
Definition TagProgressStage := "progress.stage".
Definition TagErrorRecoverable := "error.recoverable".
Definition TagErrorFatal := "error.fatal".
Definition TagSystemHeartbeat := "system.heartbeat".
Definition TagSystemJoin := "system.join".
Definition TagSystemLeave := "system.leave".

(** The keys of the Go maps [knownTags] and [knownFamilies]. *)
Definition knownTags : gset string := list_to_set
  [TagRequestData; TagRequestAction; TagResponseSuccess; TagResponseError;
   TagResponsePartial; TagContextProvideDefault; TagNoResponseDefault;
   TagProgressUpdate; TagProgressStage; TagErrorRecoverable; TagErrorFatal;
   TagSystemHeartbeat; TagSystemJoin; TagSystemLeave].

Definition knownFamilies : gset string := list_to_set
  [TagRequest; TagResponse; TagContextProvide; TagNoResponse; TagProgress;
   TagError; TagSystem].

Definition ParseTagFamily (tag : string) : string :=
  if String.eqb tag "" then ""
  else if String.eqb tag TagContextProvide || String.eqb tag TagNoResponse then tag
  else match Cut tag "." with
       | None => tag
       | Some (family, _) => family
       end.

(** One iteration of the loop of [isValidTagToken]: the bytes it accepts.
    Ranging over runes or over bytes is the same here, since the loop refuses
    every rune outside ASCII and every byte of its encoding. *)
Definition token_char (r : Ascii.ascii) : bool :=
  byte_in 97 122 r || byte_in 48 57 r || byte_is 45 r.

Definition isValidTagToken (token : string) : bool :=
  if String.eqb token "" then false else str_forallb token_char token.

Definition isValidTagFormat (tag : string) : bool :=
  if negb (String.eqb (TrimSpace tag) tag) then false
  else forallb isValidTagToken (Split tag ".").

Definition IsValidTag (tag : string) : bool :=
  if String.eqb tag "" then false
  else if bool_decide (tag ∈ knownTags) then true
  else if negb (isValidTagFormat tag) then false
  else
    let family := ParseTagFamily tag in
    if bool_decide (family ∈ knownFamilies) then true else true.

Definition RequiresResponse (tag : string) : bool :=
  String.eqb (ParseTagFamily tag) TagRequest.

Definition IsTerminal (tag : string) : bool :=
  String.eqb tag TagNoResponse || String.eqb tag TagResponseSuccess
  || String.eqb tag TagResponseError.

(** ** Lemmas *)

Lemma token_chars_graph tag :
  forallb isValidTagToken (Split tag ".") = true → is_graph tag = true.
Proof.
  intros Ht. unfold is_graph.
  apply str_forallb_impl with (λ a, token_char a || Ascii.eqb a ".").
  - intros a. unfold token_char, graph_char, byte_in, byte_is.
    destruct (Ascii.eqb_spec a ".") as [->|_]; [done|]. lia.
  - apply Split_forallb. rewrite forallb_forall in *. intros x Hx.
    specialize (Ht x Hx). unfold isValidTagToken in Ht. by case_match.
Qed.

Lemma valid_tokens_not_empty : forallb isValidTagToken (Split "" ".") = false.
Proof. done. Qed.

Lemma knownTags_valid tag :
  tag ∈ knownTags → forallb isValidTagToken (Split tag ".") = true.
Proof.
  unfold knownTags. rewrite elem_of_list_to_set, !elem_of_cons, elem_of_nil.
  intros Ht. destruct_or!; subst; try done; by vm_compute.
Qed.

(** The tag grammar, by its alphabet: a token is a non-empty word over the
    lower-case letters, the digits and the hyphen, and a tag is one or more
    tokens joined with dots. *)
Definition tag_alphabet : list Ascii.ascii :=
  String.list_ascii_of_string "abcdefghijklmnopqrstuvwxyz0123456789-".

Definition tag_token (t : string) : Prop :=
  t ≠ "" ∧ Forall (λ a, a ∈ tag_alphabet) (String.list_ascii_of_string t).

Definition tag_grammar (tag : string) : Prop :=
  ∃ tokens, tokens ≠ [] ∧ tag = Join tokens "." ∧ Forall tag_token tokens.

Lemma token_char_alphabet a : token_char a = true ↔ a ∈ tag_alphabet.
Proof.
  assert (H : token_char a = bool_decide (a ∈ tag_alphabet)).
  { destruct a as [[] [] [] [] [] [] [] []]; by vm_compute. }
  by rewrite H, bool_decide_eq_true.
Qed.

Lemma str_forallb_list p s :
  str_forallb p s = true ↔ Forall (λ a, p a = true) (String.list_ascii_of_string s).
Proof.
  induction s as [|a s IH]; simpl; [done|].
  by rewrite andb_true_iff, Forall_cons, IH.
Qed.

Lemma isValidTagToken_iff t : isValidTagToken t = true ↔ tag_token t.
Proof.
  unfold isValidTagToken, tag_token.
  destruct (String.eqb_spec t "") as [->|Hne]; [by split; [|intros [? _]]|].
  rewrite str_forallb_list.
  rewrite (Forall_iff _ _ _ token_char_alphabet). split; [by split|by intros [_ ?]].
Qed.

Lemma valid_tokens_iff tokens :
  Forall tag_token tokens ↔ Forall (λ t, isValidTagToken t = true) tokens.
Proof. apply Forall_iff. intros t. by rewrite isValidTagToken_iff. Qed.

Lemma valid_token_no_dot t :
  isValidTagToken t = true → str_forallb (λ a, negb (Ascii.eqb a ".")) t = true.
Proof.
  unfold isValidTagToken. case_match; [done|]. apply str_forallb_impl. intros a.
  destruct (Ascii.eqb_spec a ".") as [->|_]; [by vm_compute|done].
Qed.

Lemma Split_Join_tokens tokens :
  tokens ≠ [] → Forall (λ t, isValidTagToken t = true) tokens →
  Split (Join tokens ".") "." = tokens.
Proof.
  intros Hne Hall. induction Hall as [|t ts Ht Hts IH]; [done|].
  destruct ts as [|t' ts].
  - simpl. by apply Split_no_sep, valid_token_no_dot.
  - change (Join (t :: t' :: ts) ".") with (t +:+ String "." (Join (t' :: ts) ".")).
    rewrite Split_app_sep by by apply valid_token_no_dot. by rewrite IH.
Qed.

Lemma valid_tokens_grammar tag :
  forallb isValidTagToken (Split tag ".") = true ↔ tag_grammar tag.
Proof.
  split.
  - intros Ht. exists (Split tag "."). split; [apply Split_not_nil|].
    split; [by rewrite Join_Split|].
    rewrite forallb_forall in Ht. apply valid_tokens_iff, Forall_forall. intros x Hx.
    by apply Ht, list_elem_of_In.
  - intros (tokens & Hne & -> & Hall%valid_tokens_iff).
    rewrite Split_Join_tokens by done.
    apply forallb_forall. intros x Hx. rewrite Forall_forall in Hall.
    by apply Hall, list_elem_of_In.
Qed.

Lemma tag_grammar_not_empty : ¬ tag_grammar "".
Proof. rewrite <-valid_tokens_grammar. by rewrite valid_tokens_not_empty. Qed.

Lemma Cut_Split s c l r :
  Cut s c = Some (l, r) → Split s c = l :: Split r c.
Proof.
  revert l r. induction s as [|a s IH]; intros l r; [done|]. simpl.
  destruct (Ascii.eqb a c); [by intros [= <- <-]|].
  destruct (Cut s c) as [[l' r']|]; [|done]. intros [= <- <-].
  by rewrite (IH l' r').
Qed.

Lemma Cut_None_Split s c : Cut s c = None → Split s c = [s].
Proof.
  induction s as [|a s IH]; [done|]. simpl.
  destruct (Ascii.eqb a c); [done|].
  destruct (Cut s c) as [[l' r']|]; [done|]. intros _. by rewrite IH.
Qed.

Lemma ParseTagFamily_head tag :
  ParseTagFamily tag = List.hd "" (Split tag ".").
Proof.
  unfold ParseTagFamily. destruct (String.eqb_spec tag "") as [->|_]; [done|].
  destruct (String.eqb_spec tag TagContextProvide) as [->|_]; [done|].
  destruct (String.eqb_spec tag TagNoResponse) as [->|_]; [done|]. simpl.
  destruct (Cut tag ".") as [[l r]|] eqn:E.
  - by rewrite (Cut_Split _ _ _ _ E).
  - by rewrite (Cut_None_Split _ _ E).
Qed.

Lemma IsValidTag_iff tag : IsValidTag tag = true ↔ tag_grammar tag.
Proof.
  unfold IsValidTag. destruct (String.eqb_spec tag "") as [->|_].
  { split; [done|]. intros H. by destruct tag_grammar_not_empty. }
  case_bool_decide as Hk.
  { split; [|done]. intros _. by apply valid_tokens_grammar, knownTags_valid. }
  unfold isValidTagFormat. rewrite <-valid_tokens_grammar.
  destruct (forallb isValidTagToken (Split tag ".")) eqn:E.
  - rewrite (TrimSpace_graph _ (token_chars_graph _ E)), String.eqb_refl. simpl.
    by case_bool_decide.
  - by destruct (String.eqb (TrimSpace tag) tag).
Qed.

(** ** Properties *)

(** C40 The accepted tags are exactly the non-empty dot-separated sequences of
    non-empty tokens over the lower-case letters, the digits and the hyphen
    ([tag_grammar], which lists the alphabet): the list of known tags and the
    families neither add nor remove a tag, and the trimming test is implied. *)
Theorem IsValidTag_grammar tag : IsValidTag tag = true ↔ tag_grammar tag.
Proof. apply IsValidTag_iff. Qed.

(** On a valid tag the family is a single valid token: the first one of the
    tag, so that splitting a tag never yields an empty or malformed family. *)
Theorem ParseTagFamily_valid tag :
  IsValidTag tag = true →
  isValidTagToken (ParseTagFamily tag) = true ∧
  ParseTagFamily (ParseTagFamily tag) = ParseTagFamily tag.
Proof.
  intros Ht. apply IsValidTag_iff in Ht as (tokens & Hne & -> & Hall%valid_tokens_iff).
  rewrite !ParseTagFamily_head, Split_Join_tokens by done.
  destruct tokens as [|t ts]; [done|]. apply Forall_cons in Hall as [Ht _]. simpl.
  split; [done|]. by rewrite Split_no_sep by by apply valid_token_no_dot.
Qed.

Lemma ParseTagFamily_valid_witness :
  IsValidTag "request.data.v2" = true ∧
  isValidTagToken (ParseTagFamily "request.data.v2") = true ∧
  ParseTagFamily (ParseTagFamily "request.data.v2") = ParseTagFamily "request.data.v2".
Proof.
  split; [vm_compute; reflexivity|]. apply (ParseTagFamily_valid "request.data.v2").
  vm_compute. reflexivity.
Defined.

(** No message is both a request that awaits a response and terminal. *)
Theorem terminal_needs_no_response tag :
  IsTerminal tag = true → RequiresResponse tag = false.
Proof.
  unfold IsTerminal. intros Ht. rewrite !orb_true_iff, !String.eqb_eq in Ht.
  destruct_or!; by subst.
Qed.

Lemma terminal_needs_no_response_witness :
  IsTerminal "response.success" = true ∧ RequiresResponse "response.success" = false.
Proof.
  split; [reflexivity|]. apply (terminal_needs_no_response "response.success"). reflexivity.
Defined.
End Tags.

Module Version.

Definition ProtocolVersion := "1.0.0".

(** Parse errors are kept as values; their texts are those of the source. *)
Inductive version_error :=
| NotSemver           (** not three dot-separated parts *)
| NotNumeric (part : string)  (** [strconv.Atoi] failed *)
| Negative.

Definition atoi_err (s : string) : result version_error Z :=
  match Atoi s with Some z => Ok z | None => Err (NotNumeric s) end.

Definition parseVersion (v : string) : result version_error (Z * Z * Z) :=
  match Split v "." with
  | [p0; p1; p2] =>
      (major <-? atoi_err p0;;
       minor <-? atoi_err p1;;
       patch <-? atoi_err p2;;
       if (major <? 0) || (minor <? 0) || (patch <? 0) then Err Negative
       else Ok (major, minor, patch))%go
  | _ => Err NotSemver
  end.

Definition cmp_lex (x y : Z * Z * Z) : Z :=
  let '(ma, mia, pa) := x in
  let '(mb, mib, pb) := y in
  if negb (ma =? mb) then (if ma <? mb then -1 else 1)
  else if negb (mia =? mib) then (if mia <? mib then -1 else 1)
  else if negb (pa =? pb) then (if pa <? pb then -1 else 1)
  else 0.

Definition CompareVersions (a b : string) : result version_error Z :=
  (x <-? parseVersion a;;
   y <-? parseVersion b;;
   Ok (cmp_lex x y))%go.

Definition IsCompatibleVersion (version : string) : bool :=
  match CompareVersions version ProtocolVersion with
  | Err _ => false
  | Ok cmp =>
      match parseVersion version with
      | Err _ => false
      | Ok (requestedMajor, _, _) =>
          match parseVersion ProtocolVersion with
          | Err _ => false
          | Ok (currentMajor, _, _) =>
              if negb (requestedMajor =? currentMajor) then false else cmp <=? 0
          end
      end
  end.

Lemma parseVersion_nonneg v x y z :
  parseVersion v = Ok (x, y, z) → 0 ≤ x ∧ 0 ≤ y ∧ 0 ≤ z.
Proof.
  unfold parseVersion. repeat case_match; try done. intros [= -> -> ->]. lia.
Qed.

Definition show_version (x y z : Z) : string :=
  Join [Itoa x; Itoa y; Itoa z] ".".

Lemma Itoa_no_dot z : 0 ≤ z → str_forallb (λ a, negb (Ascii.eqb a ".")) (Itoa z) = true.
Proof. intros Hz. by apply Itoa_no_byte. Qed.

Lemma Split_show_version x y z :
  0 ≤ x → 0 ≤ y → 0 ≤ z → Split (show_version x y z) "." = [Itoa x; Itoa y; Itoa z].
Proof.
  intros Hx Hy Hz. unfold show_version.
  change (Join [Itoa x; Itoa y; Itoa z] ".") with
    (Itoa x +:+ String "." (Itoa y +:+ String "." (Itoa z))).
  rewrite !Split_app_sep, Split_no_sep by by apply Itoa_no_dot. done.
Qed.

(** Printing a version and parsing it back is the identity on every triple
    of non-negative [int]s. *)
Theorem parseVersion_show x y z :
  0 ≤ x ≤ int64_max → 0 ≤ y ≤ int64_max → 0 ≤ z ≤ int64_max →
  parseVersion (show_version x y z) = Ok (x, y, z).
Proof.
  intros Hx Hy Hz. unfold parseVersion. rewrite Split_show_version by lia.
  unfold atoi_err. rewrite !Atoi_Itoa by (unfold in_int64, int64_min; lia).
  by replace ((x <? 0) || (y <? 0) || (z <? 0)) with false by lia.
Qed.

Lemma parseVersion_show_witness :
  (0 ≤ 1 ≤ int64_max ∧ 0 ≤ 20 ≤ int64_max ∧ 0 ≤ int64_max ≤ int64_max) ∧
  parseVersion (show_version 1 20 int64_max) = Ok (1, 20, int64_max).
Proof.
  split; [vm_compute; intuition discriminate|].
  apply (parseVersion_show 1 20 int64_max); vm_compute; intuition discriminate.
Defined.

(** The order on versions that [CompareVersions] computes. *)
Definition version_le (x y : Z * Z * Z) : Prop :=
  let '(a, b, c) := x in let '(d, e, f) := y in
  a < d ∨ (a = d ∧ (b < e ∨ (b = e ∧ c ≤ f))).

Lemma cmp_lex_range x y : -1 ≤ cmp_lex x y ≤ 1.
Proof. destruct x as [[a b] c], y as [[d e] f]. simpl. repeat case_match; lia. Qed.

Lemma cmp_lex_le x y : cmp_lex x y ≤ 0 ↔ version_le x y.
Proof. destruct x as [[a b] c], y as [[d e] f]. simpl. repeat case_match; lia. Qed.

Lemma cmp_lex_opp x y : cmp_lex y x = - cmp_lex x y.
Proof. destruct x as [[a b] c], y as [[d e] f]. simpl. repeat case_match; lia. Qed.

(** [CompareVersions] is the lexicographic three-way comparison of the parsed
    triples: antisymmetric, transitive, zero exactly on equal triples, and an
    error exactly when one of the arguments does not parse. *)
Theorem CompareVersions_total_order a b x y :
  parseVersion a = Ok x → parseVersion b = Ok y →
  ∃ c, CompareVersions a b = Ok c ∧ CompareVersions b a = Ok (- c) ∧
    (c = -1 ∨ c = 0 ∨ c = 1) ∧ (c = 0 ↔ x = y) ∧ (c ≤ 0 ↔ version_le x y).
Proof.
  intros Ha Hb. unfold CompareVersions. rewrite Ha, Hb. exists (cmp_lex x y).
  rewrite (cmp_lex_opp x y), cmp_lex_le. pose proof (cmp_lex_range x y).
  split; [done|]. split; [done|]. split; [lia|]. split; [|done].
  destruct x as [[u v] w], y as [[d e] f]. simpl. split; [|intros [= -> -> ->]].
  - repeat case_match; intros; try lia. repeat f_equal; lia.
  - by rewrite !Z.eqb_refl.
Qed.

Lemma CompareVersions_total_order_witness :
  parseVersion "1.2.10" = Ok (1, 2, 10) ∧
  ∃ c, CompareVersions "1.2.10" "1.2.9" = Ok c ∧ CompareVersions "1.2.9" "1.2.10" = Ok (- c) ∧
    (c = -1 ∨ c = 0 ∨ c = 1) ∧ (c = 0 ↔ (1, 2, 10) = (1, 2, 9)) ∧
    (c ≤ 0 ↔ version_le (1, 2, 10) (1, 2, 9)).
Proof.
  split; [by vm_compute|].
  apply (CompareVersions_total_order "1.2.10" "1.2.9" (1, 2, 10) (1, 2, 9)); by vm_compute.
Defined.

(** A peer is compatible exactly when its version denotes 1.0.0: a higher
    minor or patch level is refused, and so is a version that does not parse. *)
Theorem IsCompatibleVersion_spec v :
  IsCompatibleVersion v = true ↔ parseVersion v = Ok (1, 0, 0).
Proof.
  unfold IsCompatibleVersion, CompareVersions.
  replace (parseVersion ProtocolVersion) with (Ok (E:=version_error) (1, 0, 0)) by by vm_compute.
  destruct (parseVersion v) as [[[x y] z]|e] eqn:E; [|done].
  apply parseVersion_nonneg in E. destruct (x =? 1) eqn:Hx; simpl.
  - rewrite Hx. simpl. split.
    + repeat case_match; try done; intros; repeat f_equal; lia.
    + by intros [= -> -> ->].
  - split; [done|]. by intros [= -> -> ->].
Qed.
End Version.
