(* ===== verification/GoTime.v ===== *)
(** * Go's [time], as far as the program uses it

    An instant is the number of nanoseconds since the Unix epoch (a [Z]); the
    calendar is the proleptic Gregorian one.  [Parse] is [time.Parse] with the
    layout [time.RFC3339], including the liberties Go takes (a one-digit hour,
    a fraction introduced by a dot or a comma, offsets up to 24:60), [Format]
    is [t.UTC().Format(time.RFC3339)]. *)

From S2P Require Import Prelude.
From S2P Require Import GoStrings.

Open Scope string_scope.
Open Scope Z_scope.

Definition Second : Z := 10 ^ 9.
Definition Hour : Z := 3600 * Second.
Definition Millisecond : Z := 10 ^ 6.

(** [time.Duration(n) * unit], an [int64] product. *)
Definition duration (n unit : Z) : Z := wrap64 (n * unit).

(** [time.Time{}], the zero value: 0001-01-01T00:00:00Z. *)
Definition zero_time : Z := -62135596800 * Second.
Definition IsZero (t : Z) : bool := t =? zero_time.

(** [t.Sub(u)] saturates at the bounds of [time.Duration]. *)
Definition Sub (t u : Z) : Z := Z.max int64_min (Z.min int64_max (t - u)).

(** ** Calendar *)

Definition isLeap (y : Z) : bool :=
  (y mod 4 =? 0) && (negb (y mod 100 =? 0) || (y mod 400 =? 0)).

Definition daysIn (m y : Z) : Z :=
  if m =? 2 then (if isLeap y then 29 else 28)
  else if (m =? 4) || (m =? 6) || (m =? 9) || (m =? 11) then 30 else 31.

(** Days since the epoch of a civil date; years are counted from March. *)
Definition days_from_civil (y m d : Z) : Z :=
  let y' := if m <=? 2 then y - 1 else y in
  let era := y' / 400 in
  let yoe := y' mod 400 in
  let mp := if 2 <? m then m - 3 else m + 9 in
  let doy := (153 * mp + 2) / 5 + d - 1 in
  let doe := yoe * 365 + yoe / 4 - yoe / 100 + doy in
  era * 146097 + doe - 719468.

(** The year (from March) of a day of the 400-year era, and the day of that
    year: whole centuries, then 4-year cycles, then years. *)
Definition split_era (doe : Z) : Z * Z :=
  let c := Z.min 3 (doe / 36524) in
  let r := doe - 36524 * c in
  let q := r / 1461 in
  let s := r - 1461 * q in
  let a := Z.min 3 (s / 365) in
  (100 * c + 4 * q + a, s - 365 * a).

(** Month and day of the month of a day of the year counted from 1 March. *)
Definition split_year (doy : Z) : Z * Z :=
  let mp := (5 * doy + 2) / 153 in
  (if mp <? 10 then mp + 3 else mp - 9, doy - (153 * mp + 2) / 5 + 1).

Definition civil_from_days (n : Z) : Z * Z * Z :=
  let z := n + 719468 in
  let '(yoe, doy) := split_era (z mod 146097) in
  let '(m, d) := split_year doy in
  (yoe + z / 146097 * 400 + (if m <=? 2 then 1 else 0), m, d).

(** ** [t.UTC().Format(time.RFC3339)] *)
Definition Format (t : Z) : string :=
  let secs := t / Second in
  let '(y, m, d) := civil_from_days (secs / 86400) in
  let sod := secs mod 86400 in
  dec_digits 4 y +:+ "-" +:+ dec_digits 2 m +:+ "-" +:+ dec_digits 2 d +:+ "T"
  +:+ dec_digits 2 (sod / 3600) +:+ ":" +:+ dec_digits 2 (sod / 60 mod 60)
  +:+ ":" +:+ dec_digits 2 (sod mod 60) +:+ "Z".

(** ** [time.Parse(time.RFC3339, s)] *)

(** Two decimal digits, or one when [fixed] is false: [getnum]. *)
Definition getnum (s : string) (fixed : bool) : option (Z * string) :=
  match s with
  | String a (String b r) =>
      match digit_val a, digit_val b with
      | Some x, Some y => Some (x * 10 + y, r)
      | Some x, None => if fixed then None else Some (x, String b r)
      | None, _ => None
      end
  | String a "" => x ← digit_val a; if fixed then None else Some (x, "")
  | EmptyString => None
  end.

Definition lit (c : ascii) (s : string) : option string :=
  match s with
  | String a r => if Ascii.eqb a c then Some r else None
  | EmptyString => None
  end.

Definition get4 (s : string) : option (Z * string) :=
  match s with
  | String a (String b (String c (String d r))) =>
      x ← digits_acc 0 (String a (String b (String c (String d ""))));
      Some (x, r)
  | _ => None
  end.

(** The digits of a fraction: their value scaled to nanoseconds (the first nine
    count) and the rest of the input. *)
Fixpoint frac_digits (n : nat) (acc : Z) (s : string) : Z * string :=
  match s with
  | String a r =>
      match digit_val a with
      | Some x =>
          match n with
          | O => frac_digits O acc r
          | S n' => frac_digits n' (acc * 10 + x) r
          end
      | None => (acc * 10 ^ Z.of_nat n, s)
      end
  | EmptyString => (acc * 10 ^ Z.of_nat n, s)
  end.

Definition get_frac (s : string) : Z * string :=
  match s with
  | String a (String b r) =>
      if (Ascii.eqb a "." || Ascii.eqb a ",") && isDigit b
      then frac_digits 9 0 (String b r) else (0, s)
  | _ => (0, s)
  end.

(** The zone: [Z] or a signed [hh:mm]; the offset in seconds. *)
Definition get_zone (s : string) : option (Z * string) :=
  match s with
  | String "Z" r => Some (0, r)
  | String sg (String h1 (String h2 (String c (String m1 (String m2 r))))) =>
      if Ascii.eqb c ":" then
        '(hh, _) ← getnum (String h1 (String h2 "")) true;
        '(mm, _) ← getnum (String m1 (String m2 "")) true;
        if (24 <? hh) || (60 <? mm) then None
        else if Ascii.eqb sg "+" then Some ((hh * 60 + mm) * 60, r)
        else if Ascii.eqb sg "-" then Some (- ((hh * 60 + mm) * 60), r)
        else None
      else None
  | _ => None
  end.

Definition Parse (s : string) : option Z :=
  '(y, s) ← get4 s; s ← lit "-" s;
  '(m, s) ← getnum s true; s ← lit "-" s;
  if (m <=? 0) || (12 <? m) then None else
  '(d, s) ← getnum s true; s ← lit "T" s;
  '(hh, s) ← getnum s false; s ← lit ":" s;
  if 24 <=? hh then None else
  '(mi, s) ← getnum s true; s ← lit ":" s;
  if 60 <=? mi then None else
  '(ss, s) ← getnum s true;
  if 60 <=? ss then None else
  let '(ns, s) := get_frac s in
  '(off, s) ← get_zone s;
  if negb (String.eqb s "") then None
  else if (d <? 1) || (daysIn m y <? d) then None
  else Some ((days_from_civil y m d * 86400 + hh * 3600 + mi * 60 + ss - off)
             * Second + ns).

Example Parse_1 : Parse "1970-01-02T00:00:01Z" = Some (86401 * Second).
Proof. vm_compute. reflexivity. Qed.
Example Parse_2 : Parse "2025-02-29T00:00:01Z" = None.
Proof. vm_compute. reflexivity. Qed.

(** ** The calendar round trip *)

Fixpoint all_from (f : Z → bool) (n : nat) (z : Z) : bool :=
  match n with
  | O => true
  | S n' => f z && all_from f n' (z + 1)
  end.

Lemma all_from_spec f n z :
  all_from f n z = true → ∀ i, z ≤ i < z + Z.of_nat n → f i = true.
Proof.
  revert z. induction n as [|n IH]; intros z Hall i Hi; [lia|].
  simpl in Hall. apply andb_true_iff in Hall as [Hz Hall].
  destruct (decide (i = z)) as [->|]; [done|]. apply (IH (z + 1)); [done|lia].
Qed.

(** Every day of a year falls in the month and on the day of the month that
    [days_from_civil] turns back into it. *)
Definition year_day_ok (doy : Z) : bool :=
  let '(m, d) := split_year doy in
  (1 <=? m) && (m <=? 12) && (1 <=? d)
  && (d <=? daysIn m (if doy =? 365 then 4 else 1))
  && (if doy =? 365 then m =? 2 else true)
  && ((153 * (if 2 <? m then m - 3 else m + 9) + 2) / 5 + d - 1 =? doy).

Lemma year_days_ok doy : 0 ≤ doy ≤ 365 → year_day_ok doy = true.
Proof.
  assert (all_from year_day_ok 366 0 = true) as Hall by (vm_compute; reflexivity).
  intros Hd. apply (all_from_spec _ _ _ Hall). lia.
Qed.

Lemma split_era_ok doe yoe doy :
  0 ≤ doe < 146097 → split_era doe = (yoe, doy) →
  0 ≤ yoe < 400 ∧ 0 ≤ doy ≤ 365 ∧
  yoe * 365 + yoe / 4 - yoe / 100 + doy = doe ∧
  (doy = 365 → (yoe + 1) mod 4 = 0 ∧ ((yoe + 1) mod 100 ≠ 0 ∨ yoe + 1 = 400)).
Proof.
  intros Hdoe. unfold split_era.
  assert (∃ c, c = Z.min 3 (doe / 36524)) as [c Hc] by eauto. rewrite <-Hc.
  assert (0 ≤ c ≤ 3 ∧ 0 ≤ doe - 36524 * c ∧
    (c < 3 → doe - 36524 * c < 36524) ∧ doe - 36524 * c ≤ 36524) as (Hc3 & Hr0 & Hr1 & Hr2) by lia.
  clear Hc. set (r := doe - 36524 * c) in *.
  assert (∃ q, q = r / 1461) as [q Hq] by eauto. rewrite <-Hq.
  assert (0 ≤ q ≤ 24 ∧ 0 ≤ r - 1461 * q < 1461) as (Hq24 & Hs) by lia.
  clear Hq. set (s := r - 1461 * q) in *.
  assert (∃ a, a = Z.min 3 (s / 365)) as [a Ha] by eauto. rewrite <-Ha.
  assert (0 ≤ a ≤ 3 ∧ 0 ≤ s - 365 * a ≤ 365 ∧ (s - 365 * a = 365 → a = 3)) as (Ha3 & Hd & Hd3) by lia.
  clear Ha. intros [= <- <-].
  replace ((100 * c + 4 * q + a) / 4) with (25 * c + q) by lia.
  replace ((100 * c + 4 * q + a) / 100) with c by lia.
  split; [lia|]. split; [lia|]. split; [lia|].
  intros H365. specialize (Hd3 H365). subst a. split; [lia|].
  destruct (decide (q = 24)) as [->|]; [right|left]; lia.
Qed.

Lemma isLeap_era y e : isLeap (y + e * 400) = isLeap y.
Proof.
  unfold isLeap. rewrite Z.mod_add by lia.
  replace (y + e * 400) with (y + (e * 100) * 4) at 1 by lia.
  replace (y + e * 400) with (y + (e * 4) * 100) at 1 by lia.
  by rewrite !Z.mod_add by lia.
Qed.

Lemma daysIn_era m y e : daysIn m (y + e * 400) = daysIn m y.
Proof. unfold daysIn. by rewrite isLeap_era. Qed.

Lemma daysIn_le m y y' : isLeap y = false ∨ isLeap y' = true → daysIn m y ≤ daysIn m y'.
Proof. unfold daysIn. intros [-> | ->]; repeat case_match; lia. Qed.

Lemma civil_from_days_valid n y m d :
  civil_from_days n = (y, m, d) →
  1 ≤ m ≤ 12 ∧ 1 ≤ d ≤ daysIn m y ∧ days_from_civil y m d = n.
Proof.
  unfold civil_from_days. set (z := n + 719468).
  pose proof (Z.mod_pos_bound z 146097 eq_refl) as Hdoe.
  pose proof (Z.div_mod z 146097 ltac:(lia)) as Hz.
  set (era := z / 146097) in *.
  destruct (split_era (z mod 146097)) as [yoe doy] eqn:He.
  apply split_era_ok in He as (Hyoe & Hdoy & Hsum & Hleap); [|done].
  pose proof (year_days_ok doy Hdoy) as Hok. unfold year_day_ok in Hok.
  destruct (split_year doy) as [m' d'] eqn:Hmd. intros [= <- <- <-].
  rewrite !andb_true_iff in Hok. destruct Hok as [[[[[Hm1 Hm2] Hd1] Hd2] Hf] Hinv].
  split; [lia|]. split.
  - split; [lia|]. apply Z.leb_le in Hd2. etrans; [exact Hd2|]. apply daysIn_le.
    destruct (doy =? 365) eqn:H365; [|by left]. right.
    replace (m' <=? 2) with true by lia.
    replace (yoe + era * 400 + 1) with (yoe + 1 + era * 400) by lia.
    rewrite isLeap_era. unfold isLeap. destruct Hleap as [H4 H100]; [lia|]. rewrite H4. simpl.
    destruct H100 as [H100| ->]; [|done]. by rewrite (proj2 (Z.eqb_neq _ _) H100).
  - unfold days_from_civil.
    replace (if m' <=? 2 then _ else _) with (yoe + era * 400)
      by (destruct (m' <=? 2); lia).
    rewrite Z.div_add, Z.mod_add by lia.
    rewrite (Z.div_small yoe), (Z.mod_small yoe) by lia.
    apply Z.eqb_eq in Hinv. lia.
Qed.

(** ** The instant round trip *)

Lemma getnum_dec z r b :
  0 ≤ z < 100 → getnum (dec_digits 2 z +:+ r) b = Some (z, r).
Proof.
  intros Hz.
  change (dec_digits 2 z +:+ r) with
    (String (digit_char (z / 10 mod 10)) (String (digit_char (z mod 10)) r)).
  unfold getnum. pose proof (Z.mod_pos_bound z 10 eq_refl).
  pose proof (Z.mod_pos_bound (z / 10) 10 eq_refl).
  rewrite !digit_val_char by lia. repeat f_equal.
  rewrite (Z.mod_small (z / 10)).
  - pose proof (Z.div_mod z 10). lia.
  - split; [apply Z.div_pos; lia|apply Z.div_lt_upper_bound; lia].
Qed.

Lemma get4_dec z r : 0 ≤ z < 10000 → get4 (dec_digits 4 z +:+ r) = Some (z, r).
Proof.
  intros Hz.
  change (dec_digits 4 z +:+ r) with
    (String (digit_char (z / 10 / 10 / 10 mod 10)) (String (digit_char (z / 10 / 10 mod 10))
      (String (digit_char (z / 10 mod 10)) (String (digit_char (z mod 10)) r)))).
  cbn [get4].
  pose proof (digits_acc_dec 4 0 z Hz) as Hd. cbn [mbind option_bind].
  change (String (digit_char (z / 10 / 10 / 10 mod 10)) (String (digit_char (z / 10 / 10 mod 10))
      (String (digit_char (z / 10 mod 10)) (String (digit_char (z mod 10)) "")))) with (dec_digits 4 z).
  by rewrite Hd.
Qed.

Lemma lit_cons c r : lit c (String c r) = Some r.
Proof. unfold lit. by rewrite Ascii.eqb_refl. Qed.

Lemma lit_app c r : lit c (String c "" +:+ r) = Some r.
Proof. apply lit_cons. Qed.

(** The instants whose UTC year has four digits. *)
Definition four_digit_year (t : Z) : Prop :=
  let '(y, _, _) := civil_from_days (t / Second / 86400) in 0 ≤ y < 10000.

#[export] Instance four_digit_year_dec t : Decision (four_digit_year t).
Proof. unfold four_digit_year. destruct (civil_from_days _) as [[y m] d]. solve_decision. Defined.

Lemma Parse_Format t : four_digit_year t → Parse (Format t) = Some (t / Second * Second).
Proof.
  unfold four_digit_year, Format, Parse.
  destruct (civil_from_days (t / Second / 86400)) as [[y m] d] eqn:Hc. intros Hy.
  apply civil_from_days_valid in Hc as (Hm & Hd & Hdays).
  assert (daysIn m y ≤ 31) as H31 by (unfold daysIn; repeat case_match; lia).
  set (secs := t / Second) in *.
  pose proof (Z.mod_pos_bound secs 86400 eq_refl) as Hsod.
  set (sod := secs mod 86400) in *.
  assert (0 ≤ sod / 3600 < 24) as Hh
    by (split; [apply Z.div_pos; lia|apply Z.div_lt_upper_bound; lia]).
  pose proof (Z.mod_pos_bound (sod / 60) 60 eq_refl) as Hmi.
  pose proof (Z.mod_pos_bound sod 60 eq_refl) as Hss.
  rewrite get4_dec by lia. cbn [mbind option_bind]. rewrite lit_app. cbn [mbind option_bind].
  rewrite getnum_dec by lia. cbn [mbind option_bind]. rewrite lit_app. cbn [mbind option_bind].
  replace ((m <=? 0) || (12 <? m)) with false by lia.
  rewrite getnum_dec by lia. cbn [mbind option_bind]. rewrite lit_app. cbn [mbind option_bind].
  rewrite getnum_dec by lia. cbn [mbind option_bind]. rewrite lit_app. cbn [mbind option_bind].
  replace (24 <=? sod / 3600) with false by lia.
  rewrite getnum_dec by lia. cbn [mbind option_bind]. rewrite lit_app. cbn [mbind option_bind].
  replace (60 <=? sod / 60 mod 60) with false by lia.
  rewrite getnum_dec by lia. cbn [mbind option_bind].
  replace (60 <=? sod mod 60) with false by lia. cbn.
  replace ((d <? 1) || (daysIn m y <? d)) with false by lia.
  rewrite Hdays. f_equal. rewrite Z.sub_0_r, Z.add_0_r. f_equal.
  assert (sod / 3600 = sod / 60 / 60) as Hq by (rewrite Z.div_div by lia; done).
  pose proof (Z.div_mod secs 86400). pose proof (Z.div_mod sod 60).
  pose proof (Z.div_mod (sod / 60) 60). lia.
Qed.

Lemma Format_graph t : four_digit_year t → Format t ≠ "".
Proof. unfold Format. by destruct (civil_from_days _) as [[y m] d]. Qed.

(** ** Durations *)
Lemma duration_exact n unit : 0 < unit → 0 ≤ n ≤ int64_max / unit → duration n unit = n * unit.
Proof. unfold duration, wrap64, int64_max. intros Hu Hn. rewrite Z.mod_small; [lia|]. nia. Qed.

Lemma duration_max n unit : duration n unit ≤ int64_max.
Proof. unfold duration, wrap64, int64_max. pose proof (Z.mod_pos_bound (n * unit + 2 ^ 63) (2 ^ 64)). lia. Qed.
