(* ===== verification/GoValue.v ===== *)
(** * Errors and dynamically typed values

    [goerr] is the type of Go's [error] values the program creates, wraps and
    compares; [any] is the type of the values it stores in a
    [map[string]any], with the effect a trip through [encoding/json] has on
    them. *)

From S2P Require Import Prelude.
From S2P Require Import GoStrings.
From Stdlib Require Export Floats.SpecFloat.

Open Scope string_scope.
Open Scope Z_scope.

(** ** Errors *)

(** The classes of error PostgreSQL reports for the statements of the program. *)
Inductive pg_error :=
| UniqueViolation (constraint : string)
| ForeignKeyViolation (constraint : string)
| CheckViolation (constraint : string)
| InvalidEnumValue (enum : string).

Inductive goerr :=
(** [errors.New], and [fmt.Errorf] without [%w] *)
| NewError (msg : string)
(** [fmt.Errorf("prefix: %w", err)] *)
| WrapError (prefix : string) (e : goerr)
(** sentinels of [persistence/repositories.go] *)
| ErrNotFound | ErrAlreadyExists | ErrInvalidInput | ErrConflict
(** [pgx.ErrNoRows] and the sentinel of [cmd/bobberd/main.go] *)
| ErrNoRows | errRateLimited
(** an error of the PostgreSQL server, of the driver, of another package *)
| PgError (c : pg_error)
| DriverError (msg : string)
| ExternalError (msg : string).

#[export] Instance pg_error_eq_dec : EqDecision pg_error.
Proof. solve_decision. Defined.
#[export] Instance goerr_eq_dec : EqDecision goerr.
Proof. solve_decision. Defined.

(** [errors.Is(err, target)] for a sentinel [target]: identity along the chain
    of wrapped errors. *)
Fixpoint errors_Is (e target : goerr) : bool :=
  bool_decide (e = target) ||
  match e with WrapError _ e' => errors_Is e' target | _ => false end.

(** ** Binary64

    Go's [float64] is IEEE 754 binary64, round to nearest even: the standard
    library's executable specification, at precision 53 and exponent bound
    1024. *)
Definition float64 := spec_float.
Definition f64_of_Z (z : Z) : float64 := binary_normalize 53 1024 z 0 false.
Definition fadd : float64 → float64 → float64 := SFadd 53 1024.
Definition fsub : float64 → float64 → float64 := SFsub 53 1024.
Definition fmul : float64 → float64 → float64 := SFmul 53 1024.
Definition fdiv : float64 → float64 → float64 := SFdiv 53 1024.
Definition fltb : float64 → float64 → bool := SFltb.
Definition fleb : float64 → float64 → bool := SFleb.

(** ** Dynamically typed values *)
Inductive any : Type :=
| ANil
| ABool (b : bool)
| AInt (z : Z)                 (** a Go [int] *)
| AFloat (f : float64)
| AString (s : string)
| AList (l : list any)         (** [[]any] *)
| AStrings (l : list string)   (** [[]string] *)
| AMap (m : gmap string any).

(** [json.Marshal] fails on the floats JSON cannot express. *)
Fixpoint json_encodable (a : any) : bool :=
  match a with
  | AFloat (S754_nan | S754_infinity _) => false
  | AList l => forallb json_encodable l
  | AMap m => bool_decide (map_Forall (λ _ b, b = true) (json_encodable <$> m))
  | _ => true
  end.

(** What [json.Unmarshal] into an [any] gives back for the text [json.Marshal]
    produced: every number is a [float64], every array a [[]any]. *)
Fixpoint json_norm (a : any) : any :=
  match a with
  | AInt z => AFloat (f64_of_Z z)
  | AList l => AList (json_norm <$> l)
  | AStrings l => AList (AString <$> l)
  | AMap m => AMap (json_norm <$> m)
  | _ => a
  end.

Lemma errors_Is_refl e : errors_Is e e = true.
Proof. destruct e; cbn [errors_Is]; by rewrite bool_decide_eq_true_2. Qed.

Lemma errors_Is_wrap p e t :
  (∀ q e', t ≠ WrapError q e') → errors_Is (WrapError p e) t = errors_Is e t.
Proof.
  intros Ht. cbn [errors_Is]. rewrite bool_decide_eq_false_2; [done|].
  intros E. by destruct (Ht p e).
Qed.
