(* ===== verification/Envelope.v ===== *)
(** * The message envelope

    [backend/internal/protocol/envelope.go], and the helpers of
    [backend/internal/adapter/adapter.go] that read and write the metadata of
    an envelope.  A [*Envelope] is an [option Envelope]; a [map[string]any]
    is an [option (gmap string any)], [None] being the nil map. *)

From S2P Require Import Prelude.
From S2P Require Import GoStrings.
From S2P Require Import GoTime.
From S2P Require Import GoValue.
From S2P Require Import Protocol.

Open Scope string_scope.
Open Scope Z_scope.

Definition MetaSysTag := "_tag".
Definition MetaSysAction := "_action".
Definition MetaSysArgs := "_args".
Definition MetaSysResult := "_result".
Definition MetaSysRequestID := "_request_id".
Definition MetaSysCode := "_code".
Definition MetaSysMessage := "_message".
Definition MetaSysStreamID := "_stream_id".
Definition MetaSysUpdate := "_update".
Definition MetaSysPercentage := "_percentage".
Definition MetaSysReplayed := "_replayed".
Definition MetaSysOriginalMessageID := "_original_message_id".
Definition MetaSysReplayReason := "_replay_reason".
Definition MetaSysTaskID := "_task_id".
Definition MetaSysStatus := "_status".

Record Envelope := MkEnvelope {
  ID : string;
  From : string;
  To : string;
  Tag : string;
  Content : string;
  Metadata : option (gmap string any);
  Timestamp : string
}.

Definition EffectiveTag (env : option Envelope) : string :=
  match env with
  | None => ""
  | Some env =>
      let t := TrimSpace (Tag env) in
      if negb (String.eqb t "") then t
      else match Metadata env with
           | None => ""
           | Some md =>
               match md !! MetaSysTag with
               | Some (AString s) => TrimSpace s
               | _ => ""
               end
           end
  end.

(** The method [Validate] of [*Envelope]; [None] is the nil error. *)
Definition quoted (s : string) : string := String "034" (s +:+ String "034" EmptyString).

Definition Validate (e : option Envelope) : option goerr :=
  match e with
  | None => Some (NewError "envelope is nil")
  | Some env =>
      if String.eqb (TrimSpace (ID env)) "" then Some (NewError "id is required")
      else if String.eqb (TrimSpace (From env)) "" then Some (NewError "from is required")
      else if String.eqb (TrimSpace (To env)) "" then Some (NewError "to is required")
      else if String.eqb (TrimSpace (Timestamp env)) "" then Some (NewError "timestamp is required")
      else
        let tag := EffectiveTag e in
        if String.eqb tag "" then
          Some (NewError ("tag is required (set Tag field or Metadata[" +:+ quoted "_tag" +:+ "])"))
        else if negb (Tags.IsValidTag tag) then Some (NewError ("invalid tag: " +:+ tag))
        else match Parse (Timestamp env) with
             | None => Some (WrapError "timestamp must be valid ISO8601/RFC3339"
                               (ExternalError "time.Parse"))
             | Some _ => None
             end
  end.

(** ** [adapter.go]: system metadata *)

Definition MetaKeyAdapter := "adapter".
Definition MetaKeyAdapterName := "adapter_name".
Definition MetaKeyAdapterVersion := "adapter_version".
Definition MetaKeyDirection := "direction".
Definition MetaKeySourceID := "source_id".
Definition MetaKeySourceProtocol := "source_protocol".
Definition DirectionInbound := "inbound".
Definition DirectionOutbound := "outbound".

Definition with_metadata (env : Envelope) (md : gmap string any) : Envelope :=
  MkEnvelope (ID env) (From env) (To env) (Tag env) (Content env) (Some md) (Timestamp env).

Definition SetSystemMeta (env : Envelope) (key : string) (value : any) : Envelope :=
  with_metadata env (<[key := value]> (default ∅ (Metadata env))).

Definition SetAdapterMetadata (env : Envelope)
    (adapterName version direction sourceID sourceProtocol : string) : Envelope :=
  SetSystemMeta env MetaKeyAdapter
    (AMap (list_to_map
      [(MetaKeyAdapterName, AString adapterName);
       (MetaKeyAdapterVersion, AString version);
       (MetaKeyDirection, AString direction);
       (MetaKeySourceID, AString sourceID);
       (MetaKeySourceProtocol, AString sourceProtocol)])).

Definition SystemMeta (env : option Envelope) (key : string) : option any :=
  env ← env; md ← Metadata env; md !! key.

Definition SystemMetaString (env : option Envelope) (key : string) : string :=
  match SystemMeta env key with
  | Some (AString s) => s
  | _ => ""
  end.

(** ** Lemmas *)

Lemma EffectiveTag_trimmed env : TrimSpace (EffectiveTag env) = EffectiveTag env.
Proof.
  destruct env as [env|]; [|done]. simpl. case_match; [by apply TrimSpace_idem|].
  repeat case_match; try done. apply TrimSpace_idem.
Qed.

Lemma SystemMeta_set env k v k' :
  SystemMeta (Some (SetSystemMeta env k v)) k' =
  if decide (k = k') then Some v else SystemMeta (Some env) k'.
Proof.
  unfold SystemMeta, SetSystemMeta, with_metadata. simpl. rewrite lookup_insert.
  case_decide; [done|]. by destruct (Metadata env).
Qed.

(** Read a key of the metadata back through the writes before it. *)
Ltac system_meta :=
  repeat (rewrite SystemMeta_set; first [rewrite decide_True by done | rewrite decide_False by done]).

(** The conditions under which [Validate] accepts. *)
Record valid_envelope (env : Envelope) : Prop := {
  ve_id : TrimSpace (ID env) ≠ "";
  ve_from : TrimSpace (From env) ≠ "";
  ve_to : TrimSpace (To env) ≠ "";
  ve_tag : Tags.tag_grammar (EffectiveTag (Some env));
  ve_time : is_Some (Parse (Timestamp env))
}.

(** A string that parses as a timestamp is not blank: it starts with a digit. *)
Lemma Parse_not_blank s : is_Some (Parse s) → TrimSpace s ≠ "".
Proof.
  intros [t Ht]. destruct s as [|a r]; [done|]. apply TrimSpace_graph_head.
  destruct (isDigit a) eqn:Ha.
  - unfold graph_char, isDigit, byte_in in *. lia.
  - exfalso. destruct r as [|b [|c [|d r]]]; try done. unfold Parse, get4 in Ht. simpl in Ht.
    unfold digit_val in Ht. unfold isDigit in Ha. by rewrite Ha in Ht.
Qed.

Lemma eqb_empty s : String.eqb s "" = bool_decide (s = "").
Proof. by destruct (String.eqb_spec s ""); case_bool_decide. Qed.

(** [Validate], decided. *)
Lemma Validate_iff env : Validate (Some env) = None ↔ valid_envelope env.
Proof.
  unfold Validate. split.
  - rewrite !eqb_empty. intros Hv. repeat (case_bool_decide; [done|]).
    destruct (Tags.IsValidTag (EffectiveTag (Some env))) eqn:Htag; simpl in Hv; [|done].
    destruct (Parse (Timestamp env)) eqn:Hp; [|done].
    split; try done. by apply Tags.IsValidTag_iff.
  - intros [Hid Hfrom Hto Htag Ht].
    assert (EffectiveTag (Some env) ≠ "") as Hne.
    { intros E. rewrite E in Htag. by apply Tags.tag_grammar_not_empty in Htag. }
    pose proof (Parse_not_blank _ Ht) as Hts. apply Tags.IsValidTag_iff in Htag.
    rewrite !eqb_empty, !bool_decide_eq_false_2 by done. rewrite Htag. simpl.
    by destruct Ht as [t ->].
Qed.

(** ** Properties *)

(** [Validate] accepts exactly the envelopes whose id, sender and recipient
    are not blank, whose effective tag follows the tag grammar and whose
    timestamp parses as RFC 3339 (the test for a blank timestamp is implied);
    a nil envelope is refused. *)
Theorem Validate_spec env : Validate (Some env) = None ↔ valid_envelope env.
Proof. apply Validate_iff. Qed.

(** A message stamped by the server itself is never refused for its
    timestamp: for every instant of a four-digit year the text
    [time.Now().UTC().Format(time.RFC3339)] parses back, to the instant rounded
    down to a second (sub-second precision is lost on the wire). *)
Theorem Timestamp_roundtrip t env :
  four_digit_year t → Timestamp env = Format t →
  Parse (Timestamp env) = Some (t / Second * Second) ∧
  ∀ p, Validate (Some env) ≠ Some (WrapError "timestamp must be valid ISO8601/RFC3339" p).
Proof.
  intros Ht Hts. rewrite Hts. split; [by apply Parse_Format|].
  intros p. unfold Validate. rewrite Hts, (Parse_Format t Ht). by repeat case_match.
Qed.

Definition sample_envelope (t : Z) : Envelope :=
  MkEnvelope "m" "a" "b" "request.data" "" None (Format t).

Lemma Timestamp_roundtrip_witness :
  four_digit_year 1709161201500000000 ∧
  Parse (Timestamp (sample_envelope 1709161201500000000)) = Some 1709161201000000000 ∧
  ∀ p, Validate (Some (sample_envelope 1709161201500000000)) ≠
       Some (WrapError "timestamp must be valid ISO8601/RFC3339" p).
Proof.
  split; [vm_compute; intuition discriminate|].
  apply (Timestamp_roundtrip 1709161201500000000); [vm_compute; intuition discriminate|reflexivity].
Defined.
