(* ===== verification/Float64.v ===== *)
(** * Exact arithmetic on small dyadic numbers in binary64

    The specification of binary64 rounds every result.  What the rate limiter
    computes with (whole requests, rates and times with a few binary places)
    are the numbers [n / 2^j] with [n] below 2^53, and on those the operations
    it uses are exact; that is what this file proves, from the executable
    specification itself. *)

From S2P Require Import Prelude.
From S2P Require Import GoValue.

Open Scope Z_scope.

(** [m * 2^k] as a positive. *)
Definition shift (p : positive) (k : nat) : positive := Nat.iter k xO p.

Definition digits (p : positive) : Z := Zpos (digits2_pos p).

Lemma shift_S p k : shift p (S k) = xO (shift p k).
Proof. reflexivity. Qed.

Lemma shift_shift p j k : shift (shift p j) k = shift p (k + j).
Proof. induction k as [|k IH]; [done|]. cbn [Nat.add]. by rewrite !shift_S, IH. Qed.

Lemma Zpos_shift p k : Zpos (shift p k) = Zpos p * 2 ^ Z.of_nat k.
Proof.
  induction k as [|k IH]; [change (2 ^ Z.of_nat 0) with 1; simpl; lia|].
  rewrite shift_S, Pos2Z.inj_xO, IH, Nat2Z.inj_succ, Z.pow_succ_r by lia. lia.
Qed.

Lemma digits_shift p k : digits (shift p k) = digits p + Z.of_nat k.
Proof.
  unfold digits. induction k as [|k IH]; [simpl; lia|].
  rewrite shift_S. cbn [digits2_pos]. lia.
Qed.

Lemma digits_pos p : 1 ≤ digits p.
Proof. unfold digits. lia. Qed.

Lemma digits_1 p : digits p = 1 → p = 1%positive.
Proof. unfold digits. destruct p; simpl; [lia|lia|done]. Qed.

Lemma digits_bound p n : Zpos p < 2 ^ Z.of_nat n → digits p ≤ Z.of_nat n.
Proof.
  unfold digits. revert n. induction p as [p IH|p IH|]; intros n Hp.
  - destruct n as [|n]; [change (2 ^ Z.of_nat 0) with 1 in Hp; lia|].
    rewrite Nat2Z.inj_succ, Z.pow_succ_r in Hp by lia. specialize (IH n). cbn [digits2_pos]. lia.
  - destruct n as [|n]; [change (2 ^ Z.of_nat 0) with 1 in Hp; lia|].
    rewrite Nat2Z.inj_succ, Z.pow_succ_r in Hp by lia. specialize (IH n). cbn [digits2_pos]. lia.
  - destruct n as [|n]; [change (2 ^ Z.of_nat 0) with 1 in Hp; lia|]. simpl. lia.
Qed.

Lemma iter_pos_iter {A} (f : A → A) n x : iter_pos f n x = Nat.iter (Pos.to_nat n) f x.
Proof.
  revert x. induction n as [n IH|n IH|]; intros x; cbn [iter_pos].
  - rewrite !IH, <-Nat.iter_add, <-Nat.iter_succ_r, Pos2Nat.inj_xI.
    replace (S (2 * Pos.to_nat n)) with (S (Pos.to_nat n + Pos.to_nat n)) by lia. done.
  - rewrite !IH, <-Nat.iter_add, Pos2Nat.inj_xO.
    replace (2 * Pos.to_nat n)%nat with (Pos.to_nat n + Pos.to_nat n)%nat by lia. done.
  - done.
Qed.

Lemma shl_align_shift p k ex ex' :
  shl_align (shift p k) ex ex' =
  if ex' <? ex then (shift p (Z.to_nat (ex - ex') + k), ex') else (shift p k, ex).
Proof.
  unfold shl_align. destruct (ex' - ex) as [|d|d] eqn:E.
  - replace (ex' <? ex) with false by lia. done.
  - replace (ex' <? ex) with false by lia. done.
  - replace (ex' <? ex) with true by lia. rewrite Pos2Nat.inj_iter.
    change (nat_rect (λ _, positive) (shift p k) (λ _, xO) (Pos.to_nat d)) with
      (shift (shift p k) (Pos.to_nat d)).
    rewrite shift_shift. repeat f_equal. lia.
Qed.

Lemma shr_exact p k n e :
  (Z.of_nat n ≤ Z.of_nat k) →
  shr (Build_shr_record (Zpos (shift p k)) false false) e (Z.of_nat n) =
  (Build_shr_record (Zpos (shift p (k - n))) false false, e + Z.of_nat n).
Proof.
  intros Hn. unfold shr. destruct (Z.of_nat n) as [|q|q] eqn:E; [|..].
  - replace n with 0%nat by lia. rewrite Nat.sub_0_r. f_equal. lia.
  - assert (n ≤ k)%nat as Hle by lia. rewrite iter_pos_iter.
    replace (Pos.to_nat q) with n by lia. f_equal. clear Hn E. revert k Hle.
    induction n as [|n IH]; intros k Hle; [by rewrite Nat.sub_0_r|].
    rewrite Nat.iter_succ_r. destruct k as [|k]; [lia|]. rewrite shift_S. simpl.
    apply IH. lia.
  - lia.
Qed.

Lemma fltb_irrefl x : fltb x x = false.
Proof.
  destruct x as [s|s| |s m e]; try destruct s; try done; unfold fltb, SFltb; simpl;
    rewrite Z.compare_refl; change (Pos.compare_cont Eq m m) with (Pos.compare m m);
    by rewrite Pos.compare_refl.
Qed.

Lemma digits_spec p : 2 ^ (digits p - 1) ≤ Zpos p < 2 ^ digits p.
Proof.
  unfold digits. induction p as [p IH|p IH|]; cbn [digits2_pos]; [..|done];
    (replace (Zpos (Pos.succ (digits2_pos p)) - 1) with (Zpos (digits2_pos p)) by lia);
    rewrite Pos2Z.inj_succ, Z.pow_succ_r by lia;
    (replace (2 ^ Zpos (digits2_pos p)) with (2 * 2 ^ (Zpos (digits2_pos p) - 1)) in *
       by (rewrite <-Z.pow_succ_r by lia; f_equal; lia)); lia.
Qed.

Lemma digits_lt p q : digits p < digits q → Zpos p < Zpos q.
Proof.
  intros Hd. pose proof (digits_spec p). pose proof (digits_spec q).
  pose proof (Z.pow_le_mono_r 2 (digits p) (digits q - 1)). lia.
Qed.

(** The number [n / 2^j], rounded to binary64. *)
Definition dyadic (j : nat) (n : Z) : float64 := binary_normalize 53 1024 n (- Z.of_nat j) false.

Lemma dyadic_int n : dyadic 0 n = f64_of_Z n.
Proof. reflexivity. Qed.

(** The representation of a positive one of at most 53 bits. *)
Definition canon (j : nat) (p : positive) : float64 :=
  S754_finite false (shift p (Z.to_nat (53 - digits p))) (digits p - 53 - Z.of_nat j).

Section Dyadic.
Context (j : nat) (Hj : Z.of_nat j ≤ 900).

Lemma fexp_small d : 1 ≤ d ≤ 53 → fexp 53 1024 (d - Z.of_nat j) = d - 53 - Z.of_nat j.
Proof using Hj. unfold fexp, emin. lia. Qed.

Lemma shr_fexp_exact p k e :
  1 ≤ digits p ≤ 53 → Z.of_nat k + e = - Z.of_nat j → 0 ≤ digits p - 53 - Z.of_nat j - e →
  shr_fexp 53 1024 (Zpos (shift p k)) e loc_Exact =
  (Build_shr_record (Zpos (shift p (k - Z.to_nat (digits p - 53 - Z.of_nat j - e)))) false false,
   digits p - 53 - Z.of_nat j).
Proof using Hj.
  intros Hd He Hn. unfold shr_fexp. cbn [Zdigits2]. fold (digits (shift p k)).
  rewrite digits_shift. replace (digits p + Z.of_nat k + e) with (digits p - Z.of_nat j) by lia.
  rewrite fexp_small by done. cbn [shr_record_of_loc].
  replace (digits p - 53 - Z.of_nat j - e) with (Z.of_nat (Z.to_nat (digits p - 53 - Z.of_nat j - e))) at 1 by lia.
  rewrite shr_exact by lia. f_equal. lia.
Qed.

(** Rounding such a number written with enough zero bits to fill the mantissa
    gives its representation. *)
Lemma binary_round_aux_dyadic p k :
  digits p ≤ 53 → 53 - digits p ≤ Z.of_nat k →
  binary_round_aux 53 1024 false (Zpos (shift p k)) (- Z.of_nat k - Z.of_nat j) loc_Exact = canon j p.
Proof using Hj.
  intros Hd Hk. pose proof (digits_pos p) as Hd1.
  unfold binary_round_aux. rewrite shr_fexp_exact by lia.
  cbn [shr_m loc_of_shr_record round_nearest_even].
  replace (k - _)%nat with (Z.to_nat (53 - digits p)) by lia.
  rewrite shr_fexp_exact by lia. cbn [shr_m].
  replace (digits p - 53 - Z.of_nat j <=? 1024 - 53) with true by lia. unfold canon.
  repeat f_equal. lia.
Qed.

(** The same whatever [k], when the bits missing are added first. *)
Lemma binary_round_dyadic p k :
  digits p ≤ 53 → binary_round 53 1024 false (shift p k) (- Z.of_nat k - Z.of_nat j) = canon j p.
Proof using Hj.
  intros Hd. pose proof (digits_pos p) as Hd1. unfold binary_round.
  fold (digits (shift p k)). rewrite digits_shift.
  replace (digits p + Z.of_nat k + (- Z.of_nat k - Z.of_nat j)) with (digits p - Z.of_nat j) by lia.
  rewrite fexp_small by lia. rewrite shl_align_shift.
  destruct (digits p - 53 - Z.of_nat j <? - Z.of_nat k - Z.of_nat j) eqn:E.
  - set (k' := (Z.to_nat (- Z.of_nat k - Z.of_nat j - (digits p - 53 - Z.of_nat j)) + k)%nat).
    replace (digits p - 53 - Z.of_nat j) with (- Z.of_nat k' - Z.of_nat j) by lia.
    apply binary_round_aux_dyadic; lia.
  - apply binary_round_aux_dyadic; lia.
Qed.

Lemma dyadic_canon p : digits p ≤ 53 → dyadic j (Zpos p) = canon j p.
Proof using Hj. intros Hd. apply (binary_round_dyadic p 0 Hd). Qed.

Lemma dyadic_0 : dyadic j 0 = S754_zero false.
Proof using. reflexivity. Qed.

(** A small number is normalised from any exponent below. *)
Lemma binary_normalize_dyadic n k : 0 ≤ n < 2 ^ 53 →
  binary_normalize 53 1024 (n * 2 ^ Z.of_nat k) (- Z.of_nat k - Z.of_nat j) false = dyadic j n.
Proof using Hj.
  intros Hn. destruct n as [|p|p]; [done| |lia].
  assert (digits p ≤ 53) as Hd by (apply (digits_bound p 53); lia).
  rewrite <-Zpos_shift, dyadic_canon by done. by apply binary_round_dyadic.
Qed.

(** The mantissa of a number, aligned to a smaller exponent. *)
Lemma canon_aligned p e : e ≤ digits p - 53 - Z.of_nat j → digits p ≤ 53 →
  (shl_align (shift p (Z.to_nat (53 - digits p))) (digits p - 53 - Z.of_nat j) e).1 =
  shift p (Z.to_nat (- e - Z.of_nat j)).
Proof using.
  intros He Hd. rewrite shl_align_shift. destruct (e <? digits p - 53 - Z.of_nat j) eqn:E; cbn [fst]; f_equal; lia.
Qed.

(** Sums and differences with the same denominator. *)
Lemma fadd_dyadic_zero n : 0 ≤ n < 2 ^ 53 → fadd (dyadic j n) (S754_zero false) = dyadic j n.
Proof using Hj.
  intros Hn. destruct n as [|p|p]; [done| |lia].
  assert (digits p ≤ 53) as Hd by (apply (digits_bound p 53); lia). by rewrite dyadic_canon.
Qed.

Lemma fadd_dyadic a b : 0 ≤ a → 0 ≤ b → a + b < 2 ^ 53 → fadd (dyadic j a) (dyadic j b) = dyadic j (a + b).
Proof using Hj.
  intros Ha Hb Hs. destruct b as [|q|q]; [rewrite Z.add_0_r in *; apply fadd_dyadic_zero; lia| |lia].
  assert (digits q ≤ 53) as Hq by (apply (digits_bound q 53); lia).
  destruct a as [|p|p]; [by rewrite Z.add_0_l, dyadic_canon| |lia].
  assert (digits p ≤ 53) as Hp by (apply (digits_bound p 53); lia).
  rewrite !(dyadic_canon p), !(dyadic_canon q) by done. unfold fadd, canon. cbn [SFadd cond_Zopp].
  set (e := Z.min (digits p - 53 - Z.of_nat j) (digits q - 53 - Z.of_nat j)).
  rewrite !canon_aligned by (unfold e; lia). set (k := Z.to_nat (- e - Z.of_nat j)).
  assert (Zpos (shift p k) + Zpos (shift q k) = (Zpos p + Zpos q) * 2 ^ Z.of_nat k) as -> by (rewrite !Zpos_shift; lia).
  replace e with (- Z.of_nat k - Z.of_nat j) by (unfold k, e; lia). by apply binary_normalize_dyadic.
Qed.

Lemma fsub_dyadic a b : 0 < b ≤ a → a < 2 ^ 53 → fsub (dyadic j a) (dyadic j b) = dyadic j (a - b).
Proof using Hj.
  intros Hb Ha. destruct a as [|p|p]; [lia| |lia]. destruct b as [|q|q]; [lia| |lia].
  assert (digits p ≤ 53) as Hp by (apply (digits_bound p 53); lia).
  assert (digits q ≤ 53) as Hq by (apply (digits_bound q 53); lia).
  rewrite !(dyadic_canon p), !(dyadic_canon q) by done. unfold fsub, canon. cbn [SFsub cond_Zopp].
  set (e := Z.min (digits p - 53 - Z.of_nat j) (digits q - 53 - Z.of_nat j)).
  rewrite !canon_aligned by (unfold e; lia). set (k := Z.to_nat (- e - Z.of_nat j)).
  assert (Zpos (shift p k) - Zpos (shift q k) = (Zpos p - Zpos q) * 2 ^ Z.of_nat k) as -> by (rewrite !Zpos_shift; lia).
  replace e with (- Z.of_nat k - Z.of_nat j) by (unfold k, e; lia). apply binary_normalize_dyadic. lia.
Qed.

(** The comparison is that of the numerators. *)
Lemma fltb_dyadic a b : 0 ≤ a < 2 ^ 53 → 0 ≤ b < 2 ^ 53 → fltb (dyadic j a) (dyadic j b) = (a <? b).
Proof using Hj.
  intros Ha Hb. destruct a as [|p|p]; [|..|lia]; destruct b as [|q|q]; try lia.
  - done.
  - assert (digits q ≤ 53) as Hd by (apply (digits_bound q 53); lia). by rewrite dyadic_canon.
  - assert (digits p ≤ 53) as Hd by (apply (digits_bound p 53); lia). by rewrite dyadic_canon.
  - assert (digits p ≤ 53) as Hp by (apply (digits_bound p 53); lia).
    assert (digits q ≤ 53) as Hq by (apply (digits_bound q 53); lia).
    rewrite !dyadic_canon by done. unfold fltb, SFltb, canon. cbn [SFcompare].
    destruct (Z.compare_spec (digits p - 53 - Z.of_nat j) (digits q - 53 - Z.of_nat j)) as [E|E|E].
    + replace (digits q) with (digits p) by lia. set (k := Z.to_nat (53 - digits p)).
      change (Pos.compare_cont Eq ?x ?y) with (Zpos x ?= Zpos y).
      rewrite !Zpos_shift, <-Zmult_compare_compat_r by lia. unfold Z.ltb.
      by destruct (Zpos p ?= Zpos q).
    + symmetry. apply Z.ltb_lt, digits_lt. lia.
    + symmetry. apply Z.ltb_ge. pose proof (digits_lt q p). lia.
Qed.
End Dyadic.

(** More binary places for the same number. *)
Lemma dyadic_scale i j n : Z.of_nat (i + j) ≤ 900 → 0 ≤ n → n * 2 ^ Z.of_nat i < 2 ^ 53 →
  dyadic (i + j) (n * 2 ^ Z.of_nat i) = dyadic j n.
Proof.
  intros Hij Hn Hb. assert (n < 2 ^ 53) as Hn53 by nia.
  rewrite <-(binary_normalize_dyadic j ltac:(lia) n i ltac:(lia)). unfold dyadic. f_equal. lia.
Qed.

Lemma digits_mul_le p q : digits p + digits q - 1 ≤ digits (p * q).
Proof.
  pose proof (digits_spec p) as [Hp _]. pose proof (digits_spec q) as [Hq _].
  pose proof (digits_spec (p * q)) as [_ Hpq]. pose proof (digits_pos p). pose proof (digits_pos q).
  pose proof (digits_pos (p * q)).
  destruct (Z_le_gt_dec (digits p + digits q - 1) (digits (p * q))) as [?|Hgt]; [done|].
  assert (2 ^ digits (p * q) ≤ 2 ^ (digits p - 1 + (digits q - 1))) as Hle by (apply Z.pow_le_mono_r; lia).
  rewrite Z.pow_add_r in Hle by lia. nia.
Qed.

Lemma shift_mul p q j k : (shift p j * shift q k = shift (p * q) (j + k))%positive.
Proof. apply Pos2Z.inj. rewrite Pos2Z.inj_mul, !Zpos_shift, Pos2Z.inj_mul, Nat2Z.inj_add, Z.pow_add_r by lia. lia. Qed.

(** The denominators of a product multiply. *)
Lemma fmul_dyadic i j a b : Z.of_nat (i + j) ≤ 900 → 0 ≤ a < 2 ^ 53 → 0 ≤ b < 2 ^ 53 → a * b < 2 ^ 53 →
  fmul (dyadic i a) (dyadic j b) = dyadic (i + j) (a * b).
Proof.
  intros Hij Ha Hb Hm. destruct a as [|p|p]; [|..|lia]; destruct b as [|q|q]; try lia; try done.
  - assert (digits q ≤ 53) as Hq by (apply (digits_bound q 53); lia). by rewrite (dyadic_canon j) by lia.
  - assert (digits p ≤ 53) as Hp by (apply (digits_bound p 53); lia). by rewrite (dyadic_canon i) by lia.
  - change (Zpos p * Zpos q) with (Zpos (p * q)) in *.
    assert (digits p ≤ 53) as Hp by (apply (digits_bound p 53); lia).
    assert (digits q ≤ 53) as Hq by (apply (digits_bound q 53); lia).
    assert (digits (p * q) ≤ 53) as Hpq by (apply (digits_bound (p * q) 53); lia).
    pose proof (digits_mul_le p q) as Hd. rewrite !dyadic_canon by lia.
    unfold fmul, canon at 1 2. cbn [SFmul xorb]. rewrite shift_mul.
    set (k := (Z.to_nat (53 - digits p) + Z.to_nat (53 - digits q))%nat).
    replace (digits p - 53 - Z.of_nat i + (digits q - 53 - Z.of_nat j)) with (- Z.of_nat k - Z.of_nat (i + j))
      by (unfold k; lia).
    apply binary_round_aux_dyadic; [lia|done|]. unfold k. pose proof (digits_pos p). pose proof (digits_pos q). lia.
Qed.

(** ** Whole numbers *)
Lemma fsub_one n : 0 ≤ n → n + 1 < 2 ^ 53 → fsub (f64_of_Z (n + 1)) (f64_of_Z 1) = f64_of_Z n.
Proof.
  intros Hn Hb. rewrite <-!dyadic_int, fsub_dyadic by (done || lia). by replace (n + 1 - 1) with n by lia.
Qed.

Lemma fltb_int a b : 0 ≤ a < 2 ^ 53 → 0 ≤ b < 2 ^ 53 → fltb (f64_of_Z a) (f64_of_Z b) = (a <? b).
Proof. intros Ha Hb. rewrite <-!dyadic_int. by apply fltb_dyadic. Qed.

(** Adding the zero that an idle time of zero contributes changes nothing. *)
Lemma fadd_zero n : 0 ≤ n < 2 ^ 53 → fadd (f64_of_Z n) (S754_zero false) = f64_of_Z n.
Proof. intros Hn. rewrite <-dyadic_int. by apply fadd_dyadic_zero. Qed.

(** A whole number of tokens is below one exactly when it is zero. *)
Lemma fltb_one n : 0 ≤ n < 2 ^ 53 → fltb (f64_of_Z n) (f64_of_Z 1) = (n =? 0).
Proof. intros Hn. rewrite fltb_int by lia. lia. Qed.

(** Finite positive numbers: the rates a configuration file can express. *)
Definition f_pos (x : float64) : bool :=
  match x with S754_finite false _ _ => true | _ => false end.

Lemma fmul_zero_pos x : f_pos x = true → fmul (S754_zero false) x = S754_zero false.
Proof. by destruct x as [| | |[] m e]. Qed.

Lemma f_pos_not_le_zero x : f_pos x = true → fleb x (f64_of_Z 0) = false.
Proof. by destruct x as [| | |[] m e]. Qed.

Lemma f_pos_dyadic j n : Z.of_nat j ≤ 900 → 0 < n < 2 ^ 53 → f_pos (dyadic j n) = true.
Proof.
  intros Hj Hn. destruct n as [|p|p]; [lia| |lia].
  rewrite dyadic_canon; [done|done|]. apply (digits_bound p 53). lia.
Qed.
