(* ===== verification/RateLimit.v ===== *)
(** * The token-bucket rate limiter

    [backend/internal/ratelimit/ratelimit.go].  The limiter's map of buckets is
    explicit state; the clock, a field of the Go struct, is an argument of the
    operations.  The mutex makes each operation atomic. *)

From S2P Require Import Prelude.
From S2P Require Import GoStrings.
From S2P Require Import GoTime.
From S2P Require Import GoValue.
From S2P Require Import Float64.

Open Scope string_scope.
Open Scope Z_scope.

#[local] Arguments f64_of_Z : simpl never.
#[local] Arguments fadd : simpl never.
#[local] Arguments fsub : simpl never.
#[local] Arguments fmul : simpl never.
#[local] Arguments fltb : simpl never.
#[local] Arguments fleb : simpl never.

Module Ratelimit.

Record Config := MkConfig {
  PerAgentMPS : float64;
  PerGroupMPS : float64;
  PerTagMPS : float64;
  BurstFactor : Z;
  CleanupSecs : Z;
  Enabled : bool
}.

Definition DefaultConfig : Config :=
  MkConfig (f64_of_Z 100) (f64_of_Z 500) (f64_of_Z 50) 10 300 true.

Record bucket := MkBucket {
  tokens : float64;
  maxBurst : float64;
  rate : float64;
  lastFill : Z
}.

Record Limiter := MkLimiter {
  buckets : gmap string bucket;
  cfg : Config
}.

Definition with_buckets (l : Limiter) (m : gmap string bucket) : Limiter :=
  MkLimiter m (cfg l).

Definition New (c : Config) : Limiter :=
  let burst := if BurstFactor c <=? 0 then 10 else BurstFactor c in
  let secs := if CleanupSecs c <=? 0 then 300 else CleanupSecs c in
  MkLimiter ∅
    (MkConfig (PerAgentMPS c) (PerGroupMPS c) (PerTagMPS c) burst secs (Enabled c)).

Definition AgentKey (agentID : string) : string := "agent:" +:+ agentID.
Definition GroupKey (groupID : string) : string := "group:" +:+ groupID.
Definition TagKey (tag : string) : string := "tag:" +:+ tag.

Definition DimensionAgent := "agent".
Definition DimensionGroup := "group".
Definition DimensionTag := "tag".

Definition rateFor (c : Config) (dimension : string) : float64 :=
  if String.eqb dimension DimensionAgent then PerAgentMPS c
  else if String.eqb dimension DimensionGroup then PerGroupMPS c
  else if String.eqb dimension DimensionTag then PerTagMPS c
  else f64_of_Z 0.

(** [(time.Duration).Seconds]. *)
Definition Seconds (d : Z) : float64 :=
  fadd (f64_of_Z (Z.quot d Second)) (fdiv (f64_of_Z (Z.rem d Second)) (f64_of_Z Second)).

Definition full_key (dimension key : string) : string := dimension +:+ ":" +:+ key.

(** The refill of an existing bucket: lines 95 to 100. *)
Definition refill (b : bucket) (now : Z) : bucket :=
  let elapsed := Seconds (Sub now (lastFill b)) in
  let t := fadd (tokens b) (fmul elapsed (rate b)) in
  let t := if fltb (maxBurst b) t then maxBurst b else t in
  MkBucket t (maxBurst b) (rate b) now.

Definition set_tokens (b : bucket) (t : float64) : bucket :=
  MkBucket t (maxBurst b) (rate b) (lastFill b).

Definition Allow (l : Limiter) (now : Z) (dimension key : string) : bool * Limiter :=
  if negb (Enabled (cfg l)) then (true, l) else
  let r := rateFor (cfg l) dimension in
  if fleb r (f64_of_Z 0) then (true, l) else
  let fullKey := full_key dimension key in
  let burst := fmul (f64_of_Z (BurstFactor (cfg l))) r in
  match buckets l !! fullKey with
  | None =>
      let b := MkBucket (fsub burst (f64_of_Z 1)) burst r now in
      (true, with_buckets l (<[fullKey := b]> (buckets l)))
  | Some b =>
      let b := refill b now in
      if fltb (tokens b) (f64_of_Z 1) then
        (false, with_buckets l (<[fullKey := b]> (buckets l)))
      else
        let b := set_tokens b (fsub (tokens b) (f64_of_Z 1)) in
        (true, with_buckets l (<[fullKey := b]> (buckets l)))
  end.

(** [now.Add(-time.Duration(CleanupSecs) * time.Second)]: the duration is an
    [int64] product. *)
Definition cutoff (l : Limiter) (now : Z) : Z :=
  now + wrap64 (- CleanupSecs (cfg l) * Second).

Definition Cleanup (l : Limiter) (now : Z) : Limiter :=
  with_buckets l
    (filter (λ kb : string * bucket, ¬ (lastFill kb.2 < cutoff l now)) (buckets l)).

Definition Len (l : Limiter) : nat := size (buckets l).

(** [n] requests in a row at one instant: the answers and the final limiter. *)
Fixpoint Allow_n (n : nat) (l : Limiter) (now : Z) (dimension key : string)
    : list bool * Limiter :=
  match n with
  | O => ([], l)
  | S n' =>
      let '(a, l') := Allow l now dimension key in
      let '(r, l'') := Allow_n n' l' now dimension key in
      (a :: r, l'')
  end.

(** ** Lemmas *)

(** The test that lets [Allow] reach the bucket. *)
Definition limited (l : Limiter) (dimension : string) : bool :=
  Enabled (cfg l) && negb (fleb (rateFor (cfg l) dimension) (f64_of_Z 0)).

Lemma Allow_unlimited l now d k : limited l d = false → Allow l now d k = (true, l).
Proof.
  unfold limited, Allow. destruct (Enabled (cfg l)); simpl; [|done].
  destruct (fleb _ _); simpl; [done|]. done.
Qed.

Lemma Allow_cfg l now d k : cfg (Allow l now d k).2 = cfg l.
Proof. unfold Allow. by repeat case_match. Qed.

(** Only the bucket of the request's own key changes. *)
Lemma Allow_other l now d k k' :
  k' ≠ full_key d k → buckets (Allow l now d k).2 !! k' = buckets l !! k'.
Proof.
  intros Hk. unfold Allow. repeat case_match; simpl; try done; by rewrite lookup_insert_ne.
Qed.

Lemma Allow_ext l1 l2 now d k :
  cfg l1 = cfg l2 → buckets l1 !! full_key d k = buckets l2 !! full_key d k →
  (Allow l1 now d k).1 = (Allow l2 now d k).1 ∧
  buckets (Allow l1 now d k).2 !! full_key d k = buckets (Allow l2 now d k).2 !! full_key d k.
Proof.
  intros Hc Hb. unfold Allow. rewrite Hc, Hb.
  repeat case_match; simpl; rewrite ?lookup_insert_eq; done.
Qed.

Lemma app_cons_inj d d' c k k' :
  str_forallb (λ a, negb (Ascii.eqb a c)) d = true →
  str_forallb (λ a, negb (Ascii.eqb a c)) d' = true →
  d +:+ String c k = d' +:+ String c k' → d = d' ∧ k = k'.
Proof.
  revert d'. induction d as [|a d IH]; intros [|a' d'] Hd Hd' E;
    rewrite ?string_app_cons in *.
  - by injection E.
  - injection E as -> _. simpl in Hd'. by rewrite Ascii.eqb_refl in Hd'.
  - injection E as <- _. simpl in Hd. by rewrite Ascii.eqb_refl in Hd.
  - injection E as -> E. simpl in *.
    apply andb_true_iff in Hd as [_ Hd], Hd' as [_ Hd'].
    destruct (IH _ Hd Hd' E) as [-> ->]. done.
Qed.

Definition dimension_name (d : string) : Prop := d ∈ [DimensionAgent; DimensionGroup; DimensionTag].

Lemma full_key_inj d d' k k' :
  dimension_name d → dimension_name d' → full_key d k = full_key d' k' → d = d' ∧ k = k'.
Proof.
  intros Hd Hd'. apply app_cons_inj; unfold dimension_name in *; set_unfold; destruct_or!; by subst.
Qed.

Lemma Seconds_0 : Seconds 0 = S754_zero false.
Proof. vm_compute. reflexivity. Qed.

Lemma Sub_diag t : Sub t t = 0.
Proof. unfold Sub. rewrite Z.sub_diag. reflexivity. Qed.

(** A bucket holding [n] of [cap] whole tokens. *)
Definition whole_bucket (n cap : Z) (r : float64) (now : Z) : bucket :=
  MkBucket (f64_of_Z n) (f64_of_Z cap) r now.

(** At the instant of its last refill a bucket of whole tokens refills to
    itself. *)
Lemma refill_frozen n cap r now :
  f_pos r = true → 0 ≤ n ≤ cap → cap < 2 ^ 53 →
  refill (whole_bucket n cap r now) now = whole_bucket n cap r now.
Proof.
  intros Hr Hn Hcap. unfold refill, whole_bucket. simpl.
  rewrite Sub_diag, Seconds_0, fmul_zero_pos, fadd_zero, fltb_int by (done || lia).
  by replace (cap <? n) with false by lia.
Qed.

(** A limiter whose [d]-requests are counted in whole tokens. *)
Record whole_rate (l : Limiter) (d : string) (cap : Z) : Prop := {
  wr_enabled : Enabled (cfg l) = true;
  wr_pos : f_pos (rateFor (cfg l) d) = true;
  wr_cap : fmul (f64_of_Z (BurstFactor (cfg l))) (rateFor (cfg l) d) = f64_of_Z cap;
  wr_range : 1 ≤ cap < 2 ^ 53
}.

Lemma whole_rate_cfg l l' d cap : cfg l' = cfg l → whole_rate l d cap → whole_rate l' d cap.
Proof. intros Hc [? ? ? ?]. split; by rewrite ?Hc. Qed.

Lemma whole_rate_limited l d cap : whole_rate l d cap → limited l d = true.
Proof.
  intros [He Hp _ _]. unfold limited. by rewrite He, f_pos_not_le_zero by done.
Qed.

(** One request against a bucket of whole tokens that was filled at the same
    instant. *)
Lemma Allow_frozen l now d k cap n :
  whole_rate l d cap → 0 ≤ n ≤ cap →
  buckets l !! full_key d k = Some (whole_bucket n cap (rateFor (cfg l) d) now) →
  (Allow l now d k).1 = negb (n =? 0) ∧
  buckets (Allow l now d k).2 !! full_key d k =
    Some (whole_bucket (Z.max 0 (n - 1)) cap (rateFor (cfg l) d) now).
Proof.
  intros Hw Hn Hb. pose proof (wr_range _ _ _ Hw) as Hr. unfold Allow.
  rewrite (wr_enabled _ _ _ Hw). cbn [negb]. rewrite f_pos_not_le_zero by apply Hw.
  rewrite Hb. cbv zeta. rewrite refill_frozen by (apply Hw || lia).
  change (tokens (whole_bucket n cap (rateFor (cfg l) d) now)) with (f64_of_Z n).
  rewrite fltb_one by lia. destruct (n =? 0) eqn:E; simpl; rewrite lookup_insert_eq.
  - split; [done|]. by replace n with 0 by lia.
  - split; [done|]. unfold set_tokens, whole_bucket. simpl.
    replace n with (n - 1 + 1) at 1 by lia. rewrite fsub_one by lia.
    by replace (Z.max 0 (n - 1)) with (n - 1) by lia.
Qed.

Lemma Allow_n_frozen c l now d k cap n :
  whole_rate l d cap → 0 ≤ n ≤ cap →
  buckets l !! full_key d k = Some (whole_bucket n cap (rateFor (cfg l) d) now) →
  (Allow_n c l now d k).1 =
    (replicate (Nat.min c (Z.to_nat n)) true ++ replicate (c - Z.to_nat n) false)%list.
Proof.
  revert l n. induction c as [|c IH]; intros l n Hw Hn Hb; [done|]. cbn [Allow_n].
  destruct (Allow_frozen _ _ _ _ _ _ Hw Hn Hb) as [Ha Hb'].
  pose proof (Allow_cfg l now d k) as Hc.
  destruct (Allow l now d k) as [a l'] eqn:E. simpl in Ha, Hb', Hc.
  specialize (IH l' (Z.max 0 (n - 1))).
  destruct (Allow_n c l' now d k) as [r l'']. simpl in IH |- *.
  rewrite IH; [|by apply whole_rate_cfg with l|lia|by rewrite Hc].
  rewrite Ha. destruct (n =? 0) eqn:E0.
  - replace (Z.to_nat (Z.max 0 (n - 1))) with 0%nat by lia.
    replace (Z.to_nat n) with 0%nat by lia. rewrite !Nat.min_0_r. simpl.
    by rewrite Nat.sub_0_r.
  - replace (Z.to_nat n) with (S (Z.to_nat (Z.max 0 (n - 1)))) by lia. done.
Qed.

(** A key without a bucket. *)
Lemma Allow_n_fresh l now d k cap c :
  whole_rate l d cap → buckets l !! full_key d k = None →
  (Allow_n c l now d k).1 =
    (replicate (Nat.min c (Z.to_nat cap)) true ++ replicate (c - Z.to_nat cap) false)%list.
Proof.
  intros Hw Hnone. destruct c as [|c]; [done|]. cbn [Allow_n].
  pose proof (wr_range _ _ _ Hw) as Hr. pose proof (Allow_cfg l now d k) as Hc.
  assert ((Allow l now d k).1 = true ∧ buckets (Allow l now d k).2 !! full_key d k =
    Some (whole_bucket (cap - 1) cap (rateFor (cfg l) d) now)) as [Ha Hb].
  { unfold Allow. rewrite (wr_enabled _ _ _ Hw). simpl.
    rewrite f_pos_not_le_zero by apply Hw. rewrite Hnone, (wr_cap _ _ _ Hw). simpl.
    rewrite lookup_insert_eq. split; [done|]. unfold whole_bucket.
    replace cap with (cap - 1 + 1) at 1 by lia. by rewrite fsub_one by lia. }
  destruct (Allow l now d k) as [a l']. simpl in *.
  pose proof (Allow_n_frozen c l' now d k cap (cap - 1)) as IH.
  destruct (Allow_n c l' now d k) as [r l'']. simpl in *.
  rewrite IH; [|by apply whole_rate_cfg with l|lia|by rewrite Hc].
  rewrite Ha. replace (Z.to_nat cap) with (S (Z.to_nat (cap - 1))) by lia. done.
Qed.

(** ** Properties *)

(** Burst bound: at a frozen clock, a key that has no bucket yet gets exactly
    [cap] requests through, [cap] being the burst factor times the rate of its
    dimension, and every later one is refused; [cap] is any whole number of
    tokens below 2^53, and the arithmetic is the binary64 arithmetic of the
    code. *)
Theorem Allow_burst_exact l now d k cap c :
  whole_rate l d cap → buckets l !! full_key d k = None →
  (Allow_n c l now d k).1 =
    (replicate (Nat.min c (Z.to_nat cap)) true ++ replicate (c - Z.to_nat cap) false)%list.
Proof. apply Allow_n_fresh. Qed.

Lemma default_whole_rate : whole_rate (New DefaultConfig) DimensionAgent 1000.
Proof. split; [vm_compute; reflexivity..|lia]. Defined.

Lemma Allow_burst_exact_witness :
  whole_rate (New DefaultConfig) DimensionAgent 1000 ∧
  (Allow_n 1200 (New DefaultConfig) 0 DimensionAgent "agent:a").1 =
    (replicate (Nat.min 1200 (Z.to_nat 1000)) true ++ replicate (1200 - Z.to_nat 1000) false)%list.
Proof.
  split; [apply default_whole_rate|].
  apply (Allow_burst_exact (New DefaultConfig) 0 DimensionAgent "agent:a" 1000 1200).
  - apply default_whole_rate.
  - reflexivity.
Defined.

(** Isolation: a request of one dimension and key changes neither the answer
    a request of another dimension or key would get, nor its bucket; the
    concatenation of dimension and key never makes two of them collide. *)
Theorem Allow_isolated l now now' d k d' k' :
  dimension_name d → dimension_name d' → (d, k) ≠ (d', k') →
  let l1 := (Allow l now d k).2 in
  (Allow l1 now' d' k').1 = (Allow l now' d' k').1 ∧
  buckets (Allow l1 now' d' k').2 !! full_key d' k' =
    buckets (Allow l now' d' k').2 !! full_key d' k'.
Proof.
  intros Hd Hd' Hne l1. apply Allow_ext.
  - apply Allow_cfg.
  - apply Allow_other. intros E. apply Hne. symmetry in E.
    by destruct (full_key_inj _ _ _ _ Hd Hd' E) as [-> ->].
Qed.

Lemma Allow_isolated_witness :
  dimension_name DimensionAgent ∧ dimension_name DimensionTag ∧
  let l := (Allow_n 1000 (New DefaultConfig) 0 DimensionAgent "agent:a").2 in
  let l1 := (Allow l 0 DimensionAgent "agent:a").2 in
  (Allow l1 5 DimensionTag "agent:a").1 = (Allow l 5 DimensionTag "agent:a").1 ∧
  buckets (Allow l1 5 DimensionTag "agent:a").2 !! full_key DimensionTag "agent:a" =
    buckets (Allow l 5 DimensionTag "agent:a").2 !! full_key DimensionTag "agent:a".
Proof.
  assert (dimension_name DimensionAgent ∧ dimension_name DimensionTag) as [Ha Ht].
  { split; unfold dimension_name; set_solver. }
  split; [done|]. split; [done|].
  apply (Allow_isolated _ 0 5 DimensionAgent "agent:a" DimensionTag "agent:a"); done.
Defined.

(** The limiter does not limit a dimension that is unknown or whose rate is
    not positive, nor anything when it is disabled: the request is allowed and
    no bucket is created or touched. *)
Theorem Allow_unlimited_dimension l now d k :
  Enabled (cfg l) = false ∨ ¬ dimension_name d ∨
    fleb (rateFor (cfg l) d) (f64_of_Z 0) = true →
  Allow l now d k = (true, l).
Proof.
  intros Hd. apply Allow_unlimited. unfold limited.
  destruct Hd as [-> | [Hd| ->]]; [done|..|by rewrite andb_false_r].
  rewrite andb_false_iff. right. unfold rateFor, dimension_name in *.
  rewrite !list_elem_of_In in Hd. simpl in Hd.
  destruct (String.eqb_spec d DimensionAgent); [subst; tauto|].
  destruct (String.eqb_spec d DimensionGroup); [subst; tauto|].
  destruct (String.eqb_spec d DimensionTag); [subst; tauto|]. done.
Qed.

Lemma Allow_unlimited_dimension_witness :
  ¬ dimension_name "topic" ∧
  Allow (New DefaultConfig) 7 "topic" "x" = (true, New DefaultConfig).
Proof.
  assert (¬ dimension_name "topic") as Hn.
  { unfold dimension_name. rewrite list_elem_of_In. intros [?|[?|[?|[]]]]; done. }
  split; [exact Hn|]. apply Allow_unlimited_dimension. right. left. exact Hn.
Defined.

(** ** Invariant and cleanup *)

(** Every bucket carries the parameters of its dimension, as when it was
    created. *)
Definition limiter_wf (l : Limiter) : Prop :=
  ∀ d k b, dimension_name d → buckets l !! full_key d k = Some b →
    rate b = rateFor (cfg l) d ∧
    maxBurst b = fmul (f64_of_Z (BurstFactor (cfg l))) (rateFor (cfg l) d).

Lemma New_wf c : limiter_wf (New c).
Proof. intros d k b _ Hb. cbn [New buckets] in Hb. by rewrite lookup_empty in Hb. Qed.

Lemma Allow_wf l now d k : dimension_name d → limiter_wf l → limiter_wf (Allow l now d k).2.
Proof.
  intros Hd Hl d' k' b Hd' Hb. rewrite Allow_cfg.
  destruct (decide (full_key d' k' = full_key d k)) as [E|Hne].
  2:{ rewrite Allow_other in Hb by done. by apply Hl with k'. }
  apply full_key_inj in E as [-> ->]; [|done..].
  unfold Allow in Hb. destruct (negb (Enabled (cfg l))); [by apply Hl with k|].
  destruct (fleb _ _); [by apply Hl with k|].
  destruct (buckets l !! full_key d k) as [b0|] eqn:E; simpl in Hb.
  - assert (b = refill b0 now ∨ b = set_tokens (refill b0 now) (fsub (tokens (refill b0 now)) (f64_of_Z 1)))
      as Hb'.
    { case_match; simpl in Hb; rewrite lookup_insert_eq in Hb; injection Hb; auto. }
    apply Hl in E; [|done]. by destruct Hb' as [-> | ->].
  - rewrite lookup_insert_eq in Hb. by injection Hb as <-.
Qed.

Lemma Allow_n_wf n l now d k :
  dimension_name d → limiter_wf l → limiter_wf (Allow_n n l now d k).2.
Proof.
  intros Hd. revert l. induction n as [|n IH]; intros l Hl; [done|]. cbn [Allow_n].
  pose proof (Allow_wf l now d k Hd Hl) as H1.
  destruct (Allow l now d k) as [a l']. specialize (IH l' H1).
  by destruct (Allow_n n l' now d k).
Qed.

Lemma Cleanup_wf l now : limiter_wf l → limiter_wf (Cleanup l now).
Proof.
  intros Hl d k b Hd Hb. simpl in *. apply map_lookup_filter_Some in Hb as [Hb _].
  by apply Hl with k.
Qed.

Lemma Cleanup_lookup l now k :
  buckets (Cleanup l now) !! k =
  match buckets l !! k with
  | Some b => if lastFill b <? cutoff l now then None else Some b
  | None => None
  end.
Proof.
  simpl. destruct (buckets l !! k) as [b|] eqn:E.
  - destruct (lastFill b <? cutoff l now) eqn:Ec.
    + apply map_lookup_filter_None. right. intros b' Hb'. simplify_eq. simpl. lia.
    + apply map_lookup_filter_Some. simpl. split; [done|]. lia.
  - apply map_lookup_filter_None. by left.
Qed.

(** Cleanup is invisible to the senders: on a limiter whose buckets carry the
    parameters of the configuration, removing the idle buckets changes neither
    the answer to a later request nor the bucket it leaves behind, provided that
    the dimension is limited, an idle bucket has had the time to refill beyond its capacity and a full
    bucket admits a request (which the default configuration guarantees). *)
Theorem Cleanup_transparent l now now' d k :
  limiter_wf l → dimension_name d → limited l d = true →
  (∀ b, buckets l !! full_key d k = Some b → lastFill b < cutoff l now →
     fltb (maxBurst b) (fadd (tokens b) (fmul (Seconds (Sub now' (lastFill b))) (rate b))) = true ∧
     fltb (maxBurst b) (f64_of_Z 1) = false) →
  let l1 := Cleanup l now in
  (Allow l1 now' d k).1 = (Allow l now' d k).1 ∧
  buckets (Allow l1 now' d k).2 !! full_key d k = buckets (Allow l now' d k).2 !! full_key d k.
Proof.
  intros Hwf Hd Hlim Hidle l1.
  pose proof (Cleanup_lookup l now (full_key d k)) as Hlk.
  destruct (buckets l !! full_key d k) as [b|] eqn:E.
  2:{ apply Allow_ext; [done|]. by rewrite E. }
  destruct (lastFill b <? cutoff l now) eqn:Ec.
  2:{ apply Allow_ext; [done|]. by rewrite E. }
  destruct (Hidle b eq_refl ltac:(lia)) as [Hfull Hone].
  destruct (Hwf d k b Hd E) as [Hrate Hburst].
  unfold limited in Hlim. apply andb_true_iff in Hlim as [Hen Hrt].
  apply negb_true_iff in Hrt. unfold Allow. change (cfg l1) with (cfg l).
  rewrite Hen. simpl negb. cbn iota. rewrite Hrt. unfold l1. rewrite Hlk, E.
  unfold refill. cbn [maxBurst tokens rate lastFill]. rewrite Hfull. cbn [tokens].
  rewrite Hone. simpl. rewrite !lookup_insert_eq. split; [done|].
  unfold set_tokens. simpl. by rewrite Hrate, Hburst.
Qed.

Lemma Cleanup_transparent_witness :
  let l := (Allow_n 1200 (New DefaultConfig) 0 DimensionAgent "agent:a").2 in
  let now := 400 * Second in
  limited l DimensionAgent = true ∧
  (Allow (Cleanup l now) now DimensionAgent "agent:a").1 =
    (Allow l now DimensionAgent "agent:a").1 ∧
  buckets (Allow (Cleanup l now) now DimensionAgent "agent:a").2
    !! full_key DimensionAgent "agent:a" =
  buckets (Allow l now DimensionAgent "agent:a").2 !! full_key DimensionAgent "agent:a".
Proof.
  intros l now. split; [vm_compute; reflexivity|].
  apply (Cleanup_transparent l now now DimensionAgent "agent:a").
  - apply Allow_n_wf; [unfold dimension_name; set_solver|apply New_wf].
  - unfold dimension_name. set_solver.
  - vm_compute. reflexivity.
  - intros b Hb _.
    assert (∃ b, buckets l !! full_key DimensionAgent "agent:a" = Some b ∧
      fltb (maxBurst b) (fadd (tokens b) (fmul (Seconds (Sub now (lastFill b))) (rate b))) = true ∧
      fltb (maxBurst b) (f64_of_Z 1) = false) as (b' & Hb' & Hok).
    { eexists. split; [vm_compute; reflexivity|]. split; vm_compute; reflexivity. }
    rewrite Hb' in Hb. by injection Hb as <-.
Defined.
End Ratelimit.
