(* ===== verification/TokenBucket.v ===== *)
(** * The rate limiter as an integer token bucket

    The abstract machine [Allow] of RateLimit implements, and the proof that it
    does.  Instants are counted in ticks of 1/512 s (1953125 ns, the finest
    power of two that is a whole number of nanoseconds), rates in 512ths of a
    token per second and tokens in grains of 1/2^18: with a clock on that grid
    and a rate of at most nine binary places, the binary64 bookkeeping of the
    code is exact and answers every request as the integers would, whatever
    the requests of other keys in between. *)

From S2P Require Import Prelude.
From S2P Require Import GoStrings.
From S2P Require Import GoTime.
From S2P Require Import GoValue.
From S2P Require Import Float64.
From S2P Require Import RateLimit.

Open Scope Z_scope.

#[local] Arguments f64_of_Z : simpl never.
#[local] Arguments fadd : simpl never.
#[local] Arguments fsub : simpl never.
#[local] Arguments fmul : simpl never.
#[local] Arguments fltb : simpl never.

Module TokenBucket.
Import Ratelimit.

(** ** The abstract bucket *)
Definition Tick : Z := 1953125.
Definition token : Z := 2 ^ 18.

(** The grains in the bucket at the tick it was last filled. *)
Record state := MkState { avail : Z; filled : Z }.

(** One request at tick [now]: [r] grains flow in per tick, up to [cap]. *)
Definition step (cap r now : Z) (s : option state) : bool * state :=
  match s with
  | None => (true, MkState (cap - token) now)
  | Some s =>
      let t := Z.min cap (avail s + (now - filled s) * r) in
      if t <? token then (false, MkState t now) else (true, MkState (t - token) now)
  end.

Fixpoint answers (cap r : Z) (ts : list Z) (s : option state) : list bool * option state :=
  match ts with
  | [] => ([], s)
  | t :: ts =>
      let '(a, s1) := step cap r t s in
      let '(l, s2) := answers cap r ts (Some s1) in (a :: l, s2)
  end.

(** ** The limiter under requests of many keys *)
Record request := MkRequest { r_dimension : string; r_key : string; r_tick : Z }.

Definition instant (base t : Z) : Z := base + t * Tick.

Fixpoint serve (base : Z) (l : Limiter) (reqs : list request) : list (request * bool) * Limiter :=
  match reqs with
  | [] => ([], l)
  | q :: reqs =>
      let '(a, l1) := Allow l (instant base (r_tick q)) (r_dimension q) (r_key q) in
      let '(r, l2) := serve base l1 reqs in ((q, a) :: r, l2)
  end.

Section Refinement.
Context (base : Z) (d k : string) (cap rate_ horizon : Z).

(** The requests of the key, and their ticks. *)
Definition mine (q : request) : bool := String.eqb (r_dimension q) d && String.eqb (r_key q) k.
Definition my_ticks (reqs : list request) : list Z := r_tick <$> List.filter mine reqs.
Definition my_answers (l : list (request * bool)) : list bool := snd <$> List.filter (λ x, mine x.1) l.

(** A rate, a capacity of a token or more; a horizon of ticks within which
    nothing overflows. *)
Record sized : Prop := {
  sz_rate : 1 ≤ rate_ < 2 ^ 53;
  sz_cap : token ≤ cap;
  sz_horizon : 0 ≤ horizon ≤ 512 * (9 * 10 ^ 9);
  sz_total : horizon * rate_ + cap < 2 ^ 53
}.

(** The limiter has this rate and capacity for the dimension. *)
Record configured (l : Limiter) : Prop := {
  co_enabled : Enabled (cfg l) = true;
  co_rate : rateFor (cfg l) d = dyadic 9 rate_;
  co_cap : fmul (f64_of_Z (BurstFactor (cfg l))) (dyadic 9 rate_) = dyadic 18 cap
}.

Lemma configured_cfg l l' : cfg l' = cfg l → configured l → configured l'.
Proof. intros Hc [? ? ?]. split; by rewrite ?Hc. Qed.

Definition grain_bucket (s : state) : bucket :=
  MkBucket (dyadic 18 (avail s)) (dyadic 18 cap) (dyadic 9 rate_) (instant base (filled s)).

(** The limiter implements the bucket [s] for the key. *)
Definition implements (l : Limiter) (s : option state) : Prop :=
  configured l ∧
  match s with
  | None => buckets l !! full_key d k = None
  | Some s => buckets l !! full_key d k = Some (grain_bucket s) ∧ 0 ≤ avail s ≤ cap
  end.

Context (Hsz : sized).

#[local] Instance float64_eq_dec : EqDecision float64.
Proof. unfold EqDecision, float64. solve_decision. Defined.

(** The fraction of a second, by each of its 512 values. *)
Lemma fraction_exact m : 0 ≤ m < 512 → fdiv (f64_of_Z (m * Tick)) (f64_of_Z Second) = dyadic 9 m.
Proof.
  intros Hm. assert (forallb (λ i, bool_decide (fdiv (f64_of_Z (Z.of_nat i * Tick)) (f64_of_Z Second) = dyadic 9 (Z.of_nat i)))
    (seq 0 512) = true) as Hall by (vm_compute; reflexivity).
  rewrite forallb_forall in Hall. specialize (Hall (Z.to_nat m)). rewrite bool_decide_eq_true, Z2Nat.id in Hall by lia.
  apply Hall, in_seq. lia.
Qed.

Lemma ticks_between t t' : 0 ≤ t - t' ≤ 512 * (9 * 10 ^ 9) →
  Seconds (Sub (instant base t) (instant base t')) = dyadic 9 (t - t').
Proof.
  intros Hn. unfold Sub, instant. replace (base + t * Tick - (base + t' * Tick)) with ((t - t') * Tick) by lia.
  set (n := t - t') in *. unfold int64_min, int64_max. rewrite Z.min_r, Z.max_r by (unfold Tick; lia). unfold Seconds.
  rewrite Z.quot_div_nonneg, Z.rem_mod_nonneg by (unfold Tick, Second; lia).
  assert (n * Tick = (n / 512) * Second + (n mod 512) * Tick) as Hn'.
  { pose proof (Z.div_mod n 512 ltac:(lia)). unfold Tick, Second. lia. }
  pose proof (Z.mod_pos_bound n 512 ltac:(lia)) as Hm. pose proof (Z.div_pos n 512 ltac:(lia) ltac:(lia)) as Hq.
  pose proof (Z.div_mod n 512 ltac:(lia)) as Hdm.
  assert (0 ≤ (n mod 512) * Tick < Second) as Hr by (unfold Tick, Second; lia).
  assert (n * Tick / Second = n / 512) as ->.
  { rewrite Hn', Z.div_add_l by (unfold Second; lia). rewrite (Z.div_small _ Second) by done. lia. }
  assert ((n * Tick) mod Second = (n mod 512) * Tick) as ->.
  { rewrite Hn', Z.add_comm, Z.mod_add by (unfold Second; lia). by apply Z.mod_small. }
  rewrite fraction_exact by done. rewrite <-dyadic_int, <-(dyadic_scale 9 0) by lia.
  rewrite fadd_dyadic by lia. f_equal. lia.
Qed.

(** The refill of a bucket after so many ticks. *)
Lemma refill_ticks s t :
  0 ≤ avail s ≤ cap → 0 ≤ filled s ≤ t → t ≤ horizon →
  refill (grain_bucket s) (instant base t) =
  grain_bucket (MkState (Z.min cap (avail s + (t - filled s) * rate_)) t).
Proof.
  intros Ha Hf Ht. destruct Hsz as [Hr Hc Hh Htot]. unfold refill, grain_bucket.
  cbn [lastFill tokens maxBurst rate avail filled].
  assert (0 ≤ (t - filled s) * rate_ ≤ horizon * rate_) as Hb by nia.
  rewrite ticks_between, (fmul_dyadic 9 9) by lia. change (9 + 9)%nat with 18%nat.
  rewrite fadd_dyadic, fltb_dyadic by lia.
  destruct (cap <? avail s + (t - filled s) * rate_) eqn:E; f_equal; f_equal; lia.
Qed.

Lemma one_token : f64_of_Z 1 = dyadic 18 token.
Proof. reflexivity. Qed.

(** One request of the key, simulated. *)
Lemma Allow_step l s t :
  implements l s → (∀ x, s = Some x → 0 ≤ filled x ≤ t) → t ≤ horizon →
  let '(a, l') := Allow l (instant base t) d k in
  let '(a', s') := step cap rate_ t s in a = a' ∧ implements l' (Some s').
Proof.
  intros (Hw & Hb) Hfill Ht. pose proof (Allow_cfg l (instant base t) d k) as Hcfg.
  pose proof (sz_cap Hsz) as Hc. pose proof (sz_rate Hsz) as Hr. pose proof (sz_total Hsz) as Htot.
  pose proof (sz_horizon Hsz) as Hh. assert (0 < token) as Hone by done. assert (cap < 2 ^ 53) as Hcap by nia.
  assert (∀ l' x, cfg l' = cfg l → buckets l' !! full_key d k = Some (grain_bucket x) →
    0 ≤ avail x ≤ cap → implements l' (Some x)) as Himp.
  { intros l' x Hl Hx Ha. split; [by eapply configured_cfg|]. done. }
  unfold Allow in *. rewrite (co_enabled _ Hw) in *. cbn [negb] in *.
  rewrite (co_rate _ Hw) in *. rewrite f_pos_not_le_zero in * by (apply f_pos_dyadic; lia).
  rewrite (co_cap _ Hw), one_token in *. cbv zeta in *.
  destruct s as [x|]; cbn [step].
  - destruct Hb as [Hb Ha]. rewrite Hb in *. rewrite refill_ticks in * by auto.
    set (n := Z.min cap (avail x + (t - filled x) * rate_)) in *.
    assert (0 ≤ n ≤ cap) as Hn by (specialize (Hfill x eq_refl); unfold n; nia).
    change (tokens (grain_bucket (MkState n t))) with (dyadic 18 n) in *.
    rewrite fltb_dyadic in * by lia. destruct (n <? token) eqn:E; (split; [done|]);
      (apply Himp; [done|cbn [with_buckets buckets]; rewrite lookup_insert_eq|cbn [avail]; lia]); [done|].
    unfold set_tokens, grain_bucket. cbn [maxBurst rate lastFill avail filled]. rewrite fsub_dyadic by lia. done.
  - rewrite Hb in *. split; [done|].
    apply Himp; [done|cbn [with_buckets buckets]; rewrite lookup_insert_eq|cbn [avail]; lia].
    unfold grain_bucket. cbn [avail filled]. by rewrite fsub_dyadic by lia.
Qed.

(** A request of another key. *)
Lemma Allow_stutter l s now d' k' :
  implements l s → full_key d' k' ≠ full_key d k → implements (Allow l now d' k').2 s.
Proof.
  intros (Hw & Hb) Hne. split; [eapply configured_cfg, Hw; apply Allow_cfg|].
  rewrite Allow_other by done. exact Hb.
Qed.

(** Requests of the program's dimensions, in the order of their ticks, from
    [t] on, within the horizon. *)
Fixpoint in_order (t : Z) (reqs : list request) : Prop :=
  match reqs with
  | [] => True
  | q :: reqs => dimension_name (r_dimension q) ∧ t ≤ r_tick q ≤ horizon ∧ in_order (r_tick q) reqs
  end.

Definition filled_by (t : Z) (s : option state) : Prop := ∀ x, s = Some x → 0 ≤ filled x ≤ t.

Lemma filled_by_later t t' s : t ≤ t' → filled_by t s → filled_by t' s.
Proof. intros Ht Hs x Hx. specialize (Hs x Hx). lia. Qed.

Lemma step_filled t s : 0 ≤ t → filled_by t (Some (step cap rate_ t s).2).
Proof.
  intros Ht x [= <-]. assert (filled (step cap rate_ t s).2 = t) as ->; [|lia].
  unfold step. destruct s; [cbv zeta; by destruct (_ <? _)|done].
Qed.

Lemma mine_cases q : dimension_name d → dimension_name (r_dimension q) →
  mine q = true ∧ r_dimension q = d ∧ r_key q = k ∨
  mine q = false ∧ full_key (r_dimension q) (r_key q) ≠ full_key d k.
Proof.
  intros Hd Hq. unfold mine.
  destruct (String.eqb_spec (r_dimension q) d) as [->|Hne], (String.eqb_spec (r_key q) k) as [->|Hne']; cbn; auto;
    right; (split; [done|]); intros E; apply full_key_inj in E as [??]; done.
Qed.

(** The whole schedule, simulated. *)
Lemma serve_simulates reqs l s t :
  dimension_name d → implements l s → 0 ≤ t → filled_by t s → in_order t reqs →
  my_answers (serve base l reqs).1 = (answers cap rate_ (my_ticks reqs) s).1 ∧
  implements (serve base l reqs).2 (answers cap rate_ (my_ticks reqs) s).2.
Proof.
  intros Hd. revert l s t. induction reqs as [|q reqs IH]; intros l s t Hl Ht Hs Hord; [done|].
  destruct Hord as (Hq & Hqt & Hord). assert (filled_by (r_tick q) s) as Hs' by (eapply filled_by_later, Hs; lia).
  unfold my_ticks, my_answers in *. cbn [serve List.filter].
  destruct (mine_cases q Hd Hq) as [(Hm & Hqd & Hqk)|[Hm Hne]]; rewrite Hm.
  - rewrite Hqd, Hqk. pose proof (Allow_step l s (r_tick q) Hl Hs' ltac:(lia)) as Hstep.
    pose proof (step_filled (r_tick q) s ltac:(lia)) as Hf.
    cbn [fmap list_fmap answers]. destruct (Allow _ _ _ _) as [a l1], (step _ _ _ _) as [a' s1].
    destruct Hstep as [<- Himp]. destruct (IH l1 (Some s1) (r_tick q) Himp ltac:(lia) Hf Hord) as [IH1 IH2].
    destruct (serve base l1 reqs) as [r l2], (answers _ _ _ (Some s1)) as [r' s2]. cbn in *. rewrite Hm. cbn.
    by rewrite IH1.
  - pose proof (Allow_stutter l s (instant base (r_tick q)) _ _ Hl Hne) as Himp.
    destruct (Allow _ _ _ _) as [a l1]. cbn in Himp.
    destruct (IH l1 s (r_tick q) Himp ltac:(lia) Hs' Hord) as [IH1 IH2].
    destruct (serve base l1 reqs) as [r l2]. cbn in *. by rewrite Hm.
Qed.

(** ** What the abstract bucket lets through *)
Definition admitted (l : list bool) : Z := Z.of_nat (length (List.filter id l)).

Lemma admitted_cons a l : admitted (a :: l) = (if a then 1 else 0) + admitted l.
Proof. unfold admitted. cbn. destruct a; cbn; lia. Qed.

Fixpoint ordered (t : Z) (ts : list Z) : Prop :=
  match ts with [] => t ≤ horizon | t' :: ts => t ≤ t' ∧ ordered t' ts end.

Lemma ordered_weaken t t' ts : t ≤ t' → ordered t' ts → ordered t ts.
Proof. destruct ts; cbn; [lia|]. intros ? []. split; [lia|done]. Qed.

Lemma in_order_ordered t reqs : t ≤ horizon → in_order t reqs → ordered t (my_ticks reqs).
Proof.
  unfold my_ticks. revert t. induction reqs as [|q reqs IH]; intros t Ht; [done|]. intros (_ & Hq & Hord).
  cbn [List.filter]. specialize (IH (r_tick q) ltac:(lia) Hord). destruct (mine q); cbn; [by split; [lia|]|].
  eapply ordered_weaken; [|exact IH]. lia.
Qed.

(** Admissions never exceed what the bucket holds and what flows in. *)
Lemma answers_bound ts x : 0 ≤ avail x → ordered (filled x) ts →
  token * admitted (answers cap rate_ ts (Some x)).1 ≤ avail x + (horizon - filled x) * rate_.
Proof.
  pose proof (sz_rate Hsz) as Hr. revert x. induction ts as [|t ts IH]; intros x Hx Hord; cbn [ordered] in Hord.
  { change (admitted _) with 0. nia. }
  destruct Hord as [Ht Hord]. cbn [answers]. pose proof (sz_cap Hsz) as Hc.
  unfold step. cbv zeta. set (n := Z.min cap (avail x + (t - filled x) * rate_)).
  assert (0 < token) as Hone by done.
  assert (0 ≤ n ≤ avail x + (t - filled x) * rate_) as Hn by (unfold n; nia).
  destruct (n <? token) eqn:E.
  - specialize (IH (MkState n t) ltac:(cbn; lia) Hord). destruct (answers _ _ ts _) as [l s2]. cbn [fst snd avail filled] in *.
    rewrite admitted_cons. nia.
  - specialize (IH (MkState (n - token) t) ltac:(cbn; lia) Hord). destruct (answers _ _ ts _) as [l s2].
    cbn [fst snd avail filled] in *. rewrite admitted_cons. nia.
Qed.

Lemma answers_bound_fresh ts t : t ≤ horizon → ordered t ts →
  token * admitted (answers cap rate_ ts None).1 ≤ cap + (horizon - t) * rate_.
Proof.
  pose proof (sz_rate Hsz) as Hr. pose proof (sz_cap Hsz) as Hc. assert (0 < token) as Hone by done.
  intros Ht. destruct ts as [|t1 ts]; [change (admitted _) with 0; nia|].
  intros [Ht1 Hord]. cbn [answers step].
  pose proof (answers_bound ts (MkState (cap - token) t1) ltac:(cbn; lia) Hord) as H.
  destruct (answers _ _ ts _) as [l s2]. cbn [fst snd avail filled] in *. rewrite admitted_cons. nia.
Qed.

(** Once a token's worth has flowed in there is a token again. *)
Lemma step_recovers x u : 0 ≤ avail x → token ≤ (u - filled x) * rate_ → (step cap rate_ u (Some x)).1 = true.
Proof.
  pose proof (sz_cap Hsz) as Hc. assert (0 < token) as Hone by done. intros Hx Hu. unfold step. cbv zeta.
  replace (Z.min cap (avail x + (u - filled x) * rate_) <? token) with false by lia. done.
Qed.

Lemma answers_filled (P : Z → Prop) ts s : (∀ x, s = Some x → P (filled x)) → (∀ t, t ∈ ts → P t) →
  ∀ x, (answers cap rate_ ts s).2 = Some x → P (filled x).
Proof.
  revert s. induction ts as [|t ts IH]; intros s Hs Hts; [exact Hs|]. cbn [answers].
  destruct (step cap rate_ t s) as [a s1] eqn:E. specialize (IH (Some s1)).
  destruct (answers _ _ ts (Some s1)) as [l s2]. apply IH.
  - intros x [= <-]. assert (filled s1 = t) as ->; [|apply Hts; by left].
    unfold step in E. destruct s; [cbv zeta in E; by destruct (_ <? _); injection E as _ <-|by injection E as _ <-].
  - intros t' Ht'. apply Hts. by right.
Qed.

Lemma in_order_ticks t reqs : 0 ≤ t → in_order t reqs → ∀ q, q ∈ reqs → 0 ≤ r_tick q.
Proof.
  revert t. induction reqs as [|q reqs IH]; intros t Ht; [by intros _ ? ?%elem_of_nil|].
  intros (_ & Hq & Hord) q' [->|Hin]%elem_of_cons; [lia|]. by apply (IH (r_tick q)); [lia|..].
Qed.

Lemma elem_of_my_ticks t reqs : t ∈ my_ticks reqs → ∃ q, q ∈ reqs ∧ mine q = true ∧ t = r_tick q.
Proof.
  unfold my_ticks. intros (q & -> & Hq)%list_elem_of_fmap. exists q.
  apply list_elem_of_In, filter_In in Hq as [Hq Hm]. split; [by apply list_elem_of_In|done].
Qed.
End Refinement.

(** ** Properties *)

(** C13 The limiter refines the integer token bucket: from any state that
    implements an abstract one, every answer to a request of the key, in a
    schedule of requests of all keys and dimensions, is the answer of the
    abstract bucket at that instant, and the limiter implements the abstract
    bucket again at the end.  The instants are any multiples of 1/512 s within
    the horizon, the rate any positive multiple of 1/512 per second, the
    capacity at least one token. *)
Theorem serve_refines base d k cap r horizon l s reqs :
  sized cap r horizon → dimension_name d → implements base d k cap r l s →
  filled_by 0 s → in_order horizon 0 reqs →
  my_answers d k (serve base l reqs).1 = (answers cap r (my_ticks d k reqs) s).1 ∧
  implements base d k cap r (serve base l reqs).2 (answers cap r (my_ticks d k reqs) s).2.
Proof. intros Hsz Hd Hl Hf Hord. by apply (serve_simulates base d k cap r horizon Hsz reqs l s 0). Qed.

(** C28 The long-run bound: however requests are spread over the instants from
    [t] to the horizon, on the grid of 1/512 s, a key that had no bucket gets
    through at most its capacity and its rate times that time (in grains, of
    which a request takes [token]). *)
Theorem admitted_at_most base d k cap r horizon l t reqs :
  sized cap r horizon → dimension_name d → implements base d k cap r l None →
  0 ≤ t ≤ horizon → in_order horizon t reqs →
  token * admitted (my_answers d k (serve base l reqs).1) ≤ cap + (horizon - t) * r.
Proof.
  intros Hsz Hd Hl Ht Hord.
  destruct (serve_simulates base d k cap r horizon Hsz reqs l None t Hd Hl) as [-> _]; [lia|done|done|].
  apply (answers_bound_fresh cap r horizon Hsz); [lia|]. by apply in_order_ordered; [lia|].
Qed.

(** C27 No starvation: whatever the requests before, of this key and of others,
    a request is admitted once the time since the last one of its key has
    brought a whole token, that is after 1/rate seconds or more, on the grid
    of 1/512 s, for a capacity of at least one token. *)
Theorem eventually_admitted base d k cap r horizon l reqs u :
  sized cap r horizon → dimension_name d → implements base d k cap r l None →
  in_order horizon 0 reqs → 0 ≤ u ≤ horizon →
  (∀ q, q ∈ reqs → mine d k q = true → token ≤ (u - r_tick q) * r) →
  (Allow (serve base l reqs).2 (instant base u) d k).1 = true.
Proof.
  intros Hsz Hd Hl Hord Hr Hu. pose proof (sz_rate _ _ _ Hsz) as Hrate.
  destruct (serve_simulates base d k cap r horizon Hsz reqs l None 0 Hd Hl) as [_ Himp]; [lia|done|done|].
  pose proof (answers_filled cap r (λ z, 0 ≤ z ∧ token ≤ (u - z) * r) (my_ticks d k reqs) None) as Hfill.
  destruct (answers cap r (my_ticks d k reqs) None) as [ans s]. cbn [snd] in *.
  assert (∀ x, s = Some x → 0 ≤ filled x ∧ token ≤ (u - filled x) * r) as Hs.
  { apply Hfill; [done|]. intros t (q & Hq & Hm & ->)%elem_of_my_ticks.
    split; [by apply (in_order_ticks horizon 0 reqs)|by apply Hu]. }
  assert (0 < token) as Hone by done.
  assert (filled_by u s) as Hby by (intros x Hx; destruct (Hs x Hx); nia).
  pose proof (Allow_step base d k cap r horizon Hsz _ s u Himp Hby ltac:(lia)) as Hstep.
  destruct (Allow _ _ _ _) as [a l'], (step _ _ _ _) as [a' s'] eqn:E. destruct Hstep as [-> _]. cbn [fst].
  destruct s as [x|]; [|by injection E as <- _]. destruct Himp as (_ & _ & Hav).
  pose proof (step_recovers cap r horizon Hsz x u ltac:(lia) (proj2 (Hs x eq_refl))) as H1. by rewrite E in H1.
Qed.

(** ** An instance: five messages in four seconds per tag, bursts of three
    tokens and three quarters *)
Definition rate_tag : Z := 640.
Definition cap_tag : Z := 3 * 512 * rate_tag.
Definition small : Limiter := New (MkConfig (f64_of_Z 10) (f64_of_Z 10) (dyadic 9 rate_tag) 3 300 true).

Lemma small_sized : sized cap_tag rate_tag 1000000.
Proof. split; vm_compute; intuition discriminate. Qed.

Lemma small_fresh key : implements 0 DimensionTag key cap_tag rate_tag small None.
Proof. split; [split; vm_compute; reflexivity|]. apply lookup_empty. Qed.

Lemma tag_dimension : dimension_name DimensionTag.
Proof. unfold dimension_name. right. right. left. Qed.

Lemma agent_dimension : dimension_name DimensionAgent.
Proof. left. Qed.

(** A burst of a tag, an agent in between, then requests within a second. *)
Definition tagged (t : Z) : request := MkRequest DimensionTag "request.data" t.
Definition schedule : list request :=
  (replicate 5 (tagged 0) ++ [MkRequest DimensionAgent "a" 100] ++ map tagged [200; 300; 500; 520; 5000])%list.

Lemma schedule_in_order : in_order 1000000 0 schedule.
Proof. cbn. repeat (split; [apply tag_dimension || apply agent_dimension|]; split; [lia|]). done. Qed.

Lemma fresh_filled t : filled_by t None.
Proof. by intros x [=]. Qed.

Lemma serve_refines_witness :
  my_answers DimensionTag "request.data" (serve 0 small schedule).1 =
    (replicate 3 true ++ replicate 2 false ++ [true; false; false; true; true])%list ∧
  implements 0 DimensionTag "request.data" cap_tag rate_tag (serve 0 small schedule).2
    (Some (MkState (cap_tag - token) 5000)).
Proof.
  destruct (serve_refines 0 DimensionTag "request.data" cap_tag rate_tag 1000000 small None schedule
    small_sized tag_dimension (small_fresh _) (fresh_filled 0) schedule_in_order) as [-> H].
  split; [vm_compute; reflexivity|exact H].
Defined.

Lemma admitted_at_most_witness :
  token * admitted (my_answers DimensionTag "request.data" (serve 0 small schedule).1) ≤
    cap_tag + (1000000 - 0) * rate_tag.
Proof.
  apply (admitted_at_most 0 DimensionTag "request.data" cap_tag rate_tag 1000000 small 0 schedule
    small_sized tag_dimension (small_fresh _)); [lia|apply schedule_in_order].
Defined.

(** 410 ticks are the four fifths of a second a token takes. *)
Lemma eventually_admitted_witness :
  (Allow (serve 0 small schedule).2 (instant 0 5410) DimensionTag "request.data").1 = true.
Proof.
  apply (eventually_admitted 0 DimensionTag "request.data" cap_tag rate_tag 1000000 small schedule 5410
    small_sized tag_dimension (small_fresh _) schedule_in_order); [lia|].
  intros q Hq _. apply list_elem_of_In in Hq. cbn in Hq.
  repeat (destruct Hq as [<-|Hq]; [vm_compute; discriminate|]). destruct Hq.
Defined.
End TokenBucket.
