(* ===== verification/Uuid.v ===== *)
(** * Identifiers

    The package [github.com/google/uuid] is not part of the repository: its
    type, its parser and its printer are a parameter, and [UuidLaws] states
    what its documentation promises and the program relies on.  A concrete
    instance, used by the witnesses, shows that the laws can hold. *)

From S2P Require Import Prelude.
From S2P Require Import GoStrings.
From S2P Require Import GoValue.

Open Scope string_scope.
Open Scope Z_scope.

Class UuidPkg := {
  uuid : Type;
  #[global] uuid_eq_dec :: EqDecision uuid;
  #[global] uuid_countable :: Countable uuid;
  (** [uuid.Nil] *)
  uuid_Nil : uuid;
  (** [uuid.Parse], which accepts several notations *)
  uuid_Parse : string → result goerr uuid;
  (** [UUID.String], the canonical notation *)
  uuid_String : uuid → string
}.

Class UuidLaws `{U : UuidPkg} : Prop := {
  Parse_String u : uuid_Parse (uuid_String u) = Ok u;
  String_nonempty u : uuid_String u ≠ "";
  String_graph u : is_graph (uuid_String u) = true
}.

Section Uuid.
Context {U : UuidPkg}.

(** PostgreSQL compares two [uuid] values byte by byte, which is the
    lexicographic order of their canonical lower-case notations. *)
Definition uuid_ltb (u v : uuid) : bool := str_ltb (uuid_String u) (uuid_String v).

Context `{!UuidLaws}.

#[global] Instance uuid_String_inj : Inj (=) (=) uuid_String.
Proof.
  intros u v E. pose proof (Parse_String u) as Hu. rewrite E, Parse_String in Hu.
  by injection Hu.
Qed.

Lemma TrimSpace_uuid u : TrimSpace (uuid_String u) = uuid_String u.
Proof. apply TrimSpace_graph, String_graph. Qed.

Lemma uuid_ltb_asym u v : uuid_ltb u v = true → uuid_ltb v u = false.
Proof. apply str_ltb_asym. Qed.

Lemma uuid_ltb_total u v : u ≠ v → uuid_ltb u v = true ∨ uuid_ltb v u = true.
Proof.
  intros Hne. unfold uuid_ltb.
  destruct (str_ltb (uuid_String u) (uuid_String v)) eqn:E1; [by left|].
  destruct (str_ltb (uuid_String v) (uuid_String u)) eqn:E2; [by right|].
  by destruct Hne; apply uuid_String_inj, str_ltb_total.
Qed.

Lemma uuid_ltb_irrefl u : uuid_ltb u u = false.
Proof. apply str_ltb_irrefl. Qed.
End Uuid.

(** ** A concrete instance: 256 identifiers, told apart by their last byte *)
Module UuidExample.
Definition prefix := "00000000-0000-0000-0000-0000000000".

Definition hex_digit (n : N) : ascii :=
  ascii_of_N (if (n <? 10)%N then 48 + n else 87 + n).

Definition show (u : ascii) : string :=
  prefix +:+ String (hex_digit (N_of_ascii u / 16))
               (String (hex_digit (N_of_ascii u mod 16)) "").

Definition all : list ascii := map (λ n, ascii_of_nat n) (seq 0 256).

Definition parse (s : string) : result goerr ascii :=
  match List.find (λ u, String.eqb (show u) s) all with
  | Some u => Ok u
  | None => Err (ExternalError "invalid UUID")
  end.

#[global] Instance example_uuid : UuidPkg := {
  uuid := ascii;
  uuid_Nil := "000"%char;
  uuid_Parse := parse;
  uuid_String := show
}.

#[global] Instance example_uuid_laws : UuidLaws.
Proof.
  split; intros [[] [] [] [] [] [] [] []]; vm_compute; congruence.
Qed.
End UuidExample.
