(* ===== verification/Models.v ===== *)
(** * The rows of the database

    [backend/internal/persistence/models.go]: one record per Go struct, one
    string constant per enumerated value.  The Go types [ParticipantType],
    [EntityType], [ConversationType] and [ConnectionRequestStatus] are string
    types, so any string can reach a statement; PostgreSQL's enum types check
    them there (file Schema). *)

From S2P Require Import Prelude.
From S2P Require Import GoStrings.
From S2P Require Import GoTime.
From S2P Require Import GoValue.
From S2P Require Import Uuid.

Open Scope string_scope.
Open Scope Z_scope.

Definition ConversationType := string.
Definition ConversationTypeDirect : ConversationType := "direct".
Definition ConversationTypeGroup : ConversationType := "group".

Definition ParticipantType := string.
Definition ParticipantTypeUser : ParticipantType := "user".
Definition ParticipantTypeAgent : ParticipantType := "agent".

Definition EntityType := string.
Definition EntityTypeAgent : EntityType := "agent".
Definition EntityTypeGroup : EntityType := "group".
Definition EntityTypeUser : EntityType := "user".

Definition ConnectionRequestStatus := string.
Definition ConnectionRequestStatusPending : ConnectionRequestStatus := "PENDING".
Definition ConnectionRequestStatusAccepted : ConnectionRequestStatus := "ACCEPTED".
Definition ConnectionRequestStatusRejected : ConnectionRequestStatus := "REJECTED".

Section Models.
Context {U : UuidPkg}.

Record User := MkUser {
  user_ID : uuid;
  user_Email : string;
  user_PasswordHash : string;
  user_CreatedAt : Z;
  user_EmailVerified : bool;
  user_VerificationToken : option string;
  user_VerificationTokenExpiresAt : option Z
}.

Record Agent := MkAgent {
  agent_ID : uuid;
  agent_DisplayName : string;
  agent_OwnerUserID : uuid;
  agent_APISecretHash : string;
  agent_CreatedAt : Z
}.

Record Conversation := MkConversation {
  conv_ID : uuid;
  conv_Type : ConversationType;
  conv_IDLow : option uuid;
  conv_IDHigh : option uuid;
  conv_GroupID : option uuid;
  conv_CreatedAt : Z;
  conv_LastMessageID : option uuid;
  conv_LastMessageAt : option Z
}.

Record ConversationParticipant := MkParticipant {
  part_ConversationID : uuid;
  part_ParticipantID : uuid;
  part_ParticipantKind : ParticipantType;
  part_Muted : bool;
  part_LastReadMessageID : option uuid;
  part_JoinedAt : Z
}.

Record ChatGroup := MkGroup {
  group_ID : uuid;
  group_Name : string;
  group_OwnerID : uuid;
  group_ConversationID : option uuid;
  group_CreatedAt : Z
}.

Record Message := MkMessage {
  msg_ID : uuid;
  msg_FromID : uuid;
  msg_ConversationID : uuid;
  msg_ParticipantKind : ParticipantType;
  msg_Tag : string;
  msg_Content : string;
  (** [None] is the nil map *)
  msg_Metadata : option (gmap string any);
  msg_Timestamp : Z
}.

Record ConnectionRequest := MkRequest {
  req_ID : uuid;
  req_SenderID : uuid;
  req_FromID : uuid;
  req_FromKind : EntityType;
  req_ToID : uuid;
  req_ToKind : EntityType;
  req_Status : ConnectionRequestStatus;
  req_CreatedAt : Z;
  req_UpdatedAt : Z
}.

Record ConversationListItem := MkItem {
  item_ID : uuid;
  item_ReferenceID : uuid;
  item_ReferenceType : EntityType;
  item_Name : string;
  item_LastMessageAt : option Z
}.

Record BlacklistEntry := MkEntry {
  entry_ID : uuid;
  entry_FromID : uuid;
  entry_FromKind : EntityType;
  entry_ToID : uuid;
  entry_ToKind : EntityType;
  entry_CreatedAt : Z
}.
End Models.
