(* ===== verification/Schema.v ===== *)
(** * The database: tables, constraints and SQL statements

    The tables are those the migrations [src/migrations/001] to [022] leave
    behind.  Each SQL statement the program sends is one function from the
    state of the database to a result and a new state; it fails with the error
    class PostgreSQL reports when a constraint of the schema would be
    violated, and then changes nothing.  What the constraints promise
    of every state is part of the invariant of file Invariant; file Statements
    shows that each statement keeps it.

    Of PostgreSQL this uses: the comparison of [citext] values (a parameter,
    [citext_key]), the microsecond resolution of [timestamptz], and the order
    in which an [INSERT] reports what it violates: enumerations, then checks,
    then unique indexes, then foreign keys. *)

From S2P Require Import Prelude.
From S2P Require Import GoStrings.
From S2P Require Import GoTime.
From S2P Require Import GoValue.
From S2P Require Import Uuid.
From S2P Require Import Models.

Open Scope string_scope.
Open Scope Z_scope.

(** The key under which two [citext] values are compared, [lower(x)] in the
    collation of the database. *)
Class Citext := { citext_key : string → string }.

Definition participant_types : list string := [ParticipantTypeUser; ParticipantTypeAgent].
Definition entity_types : list string := [EntityTypeAgent; EntityTypeGroup; EntityTypeUser].
Definition conversation_types : list string := [ConversationTypeDirect; ConversationTypeGroup].
Definition request_statuses : list string :=
  [ConnectionRequestStatusPending; ConnectionRequestStatusAccepted; ConnectionRequestStatusRejected].

(** The conversion of a Go string to an enumerated type. *)
Definition enum_value (name : string) (values : list string) (s : string) : result pg_error unit :=
  if bool_decide (s ∈ values) then Ok tt else Err (InvalidEnumValue name).

(** The driver keeps the microseconds of an instant. *)
Definition timestamptz (t : Z) : Z := t / 1000 * 1000.

Definition require (b : bool) (e : pg_error) : result pg_error unit :=
  if b then Ok tt else Err e.

Section Schema.
Context {U : UuidPkg} {C : Citext}.

Definition participant_key : Type := uuid * uuid * string.

Record DB := MkDB {
  users : gmap uuid User;
  agents : gmap uuid Agent;
  conversations : gmap uuid Conversation;
  participants : gmap participant_key ConversationParticipant;
  chat_groups : gmap uuid ChatGroup;
  messages : gmap uuid Message;
  connection_requests : gmap uuid ConnectionRequest;
  blacklist_entries : gmap uuid BlacklistEntry
}.

Definition empty_DB : DB := MkDB ∅ ∅ ∅ ∅ ∅ ∅ ∅ ∅.

Definition set_users d x := MkDB x (agents d) (conversations d) (participants d)
  (chat_groups d) (messages d) (connection_requests d) (blacklist_entries d).
Definition set_agents d x := MkDB (users d) x (conversations d) (participants d)
  (chat_groups d) (messages d) (connection_requests d) (blacklist_entries d).
Definition set_conversations d x := MkDB (users d) (agents d) x (participants d)
  (chat_groups d) (messages d) (connection_requests d) (blacklist_entries d).
Definition set_participants d x := MkDB (users d) (agents d) (conversations d) x
  (chat_groups d) (messages d) (connection_requests d) (blacklist_entries d).
Definition set_groups d x := MkDB (users d) (agents d) (conversations d) (participants d)
  x (messages d) (connection_requests d) (blacklist_entries d).
Definition set_messages d x := MkDB (users d) (agents d) (conversations d) (participants d)
  (chat_groups d) x (connection_requests d) (blacklist_entries d).
Definition set_requests d x := MkDB (users d) (agents d) (conversations d) (participants d)
  (chat_groups d) (messages d) x (blacklist_entries d).
Definition set_blacklist d x := MkDB (users d) (agents d) (conversations d) (participants d)
  (chat_groups d) (messages d) (connection_requests d) x.

Definition has {K A} `{Countable K} (m : gmap K A) (k : K) : bool := bool_decide (is_Some (m !! k)).
Definition has_opt {A} (m : gmap uuid A) (k : option uuid) : bool :=
  match k with Some k => has m k | None => true end.

(** ** Keys of the unique constraints *)
Definition email_key (u : User) : option string := Some (citext_key (user_Email u)).
Definition name_key (g : ChatGroup) : option string := Some (group_Name g).
(** NULLs never collide. *)
Definition pair_key (c : Conversation) : option (uuid * uuid) :=
  match conv_IDLow c, conv_IDHigh c with Some l, Some h => Some (l, h) | _, _ => None end.
Definition request_key (r : ConnectionRequest) : option (uuid * string * uuid * string) :=
  Some (req_FromID r, req_FromKind r, req_ToID r, req_ToKind r).
Definition entry_key (e : BlacklistEntry) : option (uuid * string * uuid * string) :=
  Some (entry_FromID e, entry_FromKind e, entry_ToID e, entry_ToKind e).
Definition part_key (p : ConversationParticipant) : participant_key :=
  (part_ConversationID p, part_ParticipantID p, part_ParticipantKind p).

(** Does a row of the table already have this key? *)
Definition taken {K A B} `{Countable K} `{EqDecision B} (f : A → option B) (x : A) (m : gmap K A) : bool :=
  match f x with
  | Some k => exists_row (λ y, bool_decide (f y = Some k)) m
  | None => false
  end.

(** [chk_conversations_direct_ids] *)
Definition conv_check (c : Conversation) : bool :=
  match conv_IDLow c, conv_IDHigh c with
  | None, None => String.eqb (conv_Type c) ConversationTypeGroup
  | Some l, Some h => String.eqb (conv_Type c) ConversationTypeDirect && uuid_ltb l h
  | _, _ => false
  end.

(** ** Reading

    [SELECT ... ORDER BY f DESC]; rows with equal keys come in an order SQL
    leaves open, here the map's. *)
Definition desc {A} (f : A → Z) : relation A := λ x y, f y ≤ f x.
#[global] Instance desc_dec {A} (f : A → Z) : RelDecision (desc f).
Proof. intros x y. unfold desc. apply _. Defined.

Definition order_desc {A} (f : A → Z) (l : list A) : list A := merge_sort (desc f) l.

Definition asc {A} (f : A → Z) : relation A := λ x y, f x ≤ f y.
#[global] Instance asc_dec {A} (f : A → Z) : RelDecision (asc f).
Proof. intros x y. unfold asc. apply _. Defined.

Definition order_asc {A} (f : A → Z) (l : list A) : list A := merge_sort (asc f) l.

(** [ORDER BY f DESC NULLS LAST] *)
Definition desc_nulls_last {A} (f : A → option Z) : relation A := λ x y,
  match f x, f y with
  | _, None => True
  | None, Some _ => False
  | Some a, Some b => b ≤ a
  end.
#[global] Instance desc_nulls_last_dec {A} (f : A → option Z) : RelDecision (desc_nulls_last f).
Proof. intros x y. unfold desc_nulls_last. destruct (f x), (f y); apply _. Defined.

Definition order_desc_nulls_last {A} (f : A → option Z) (l : list A) : list A :=
  merge_sort (desc_nulls_last f) l.

(** The rows for which a condition holds. *)
Definition where_ {K A} `{Countable K} (P : A → bool) (m : gmap K A) : list A :=
  List.filter P (rows m).

(** Write every row of a table; the number of rows a condition selects. *)
Definition update_where {K A} `{Countable K} (P : A → bool) (f : A → A) (m : gmap K A) : gmap K A :=
  (λ x, if P x then f x else x) <$> m.
Definition count_where {K A} `{Countable K} (P : A → bool) (m : gmap K A) : nat :=
  length (where_ P m).
Definition delete_where {K A} `{Countable K} (P : A → bool) (m : gmap K A) : gmap K A :=
  filter (λ kx, P kx.2 = false) m.

(** ** users *)
Definition store_user (u : User) : User :=
  MkUser (user_ID u) (user_Email u) (user_PasswordHash u) (timestamptz (user_CreatedAt u))
    (user_EmailVerified u) (user_VerificationToken u)
    (timestamptz <$> user_VerificationTokenExpiresAt u).

Definition insert_user (u : User) (d : DB) : result pg_error (User * DB) :=
  let u := store_user u in
  check require (negb (has (users d) (user_ID u))) (UniqueViolation "users_pkey") ;;
  check require (negb (taken email_key u (users d))) (UniqueViolation "users_email_key") ;;
  Ok (u, set_users d (<[user_ID u := u]> (users d))).

Definition select_user (id : uuid) (d : DB) : option User := users d !! id.

Definition has_email (email : string) (u : User) : bool :=
  String.eqb (citext_key (user_Email u)) (citext_key email).

Definition select_user_by_email (email : string) (d : DB) : option User :=
  find_row (has_email email) (users d).

(** [ORDER BY created_at DESC LIMIT 1] *)
Definition select_latest_user_by_email (email : string) (d : DB) : option User :=
  head (order_desc user_CreatedAt (where_ (has_email email) (users d))).

Definition with_token (token : string) (expiresAt : Z) (u : User) : User :=
  MkUser (user_ID u) (user_Email u) (user_PasswordHash u) (user_CreatedAt u)
    (user_EmailVerified u) (Some token) (Some (timestamptz expiresAt)).

Definition update_user_token (id : uuid) (token : string) (expiresAt : Z) (d : DB) : nat * DB :=
  match users d !! id with
  | Some u => (1%nat, set_users d (<[id := with_token token expiresAt u]> (users d)))
  | None => (0%nat, d)
  end.

(** [verification_token = $1 AND verification_token IS NOT NULL AND
    verification_token_expires_at > NOW()] *)
Definition token_valid (token : string) (now : Z) (u : User) : bool :=
  match user_VerificationToken u, user_VerificationTokenExpiresAt u with
  | Some t, Some e => String.eqb t token && (timestamptz now <? e)
  | _, _ => false
  end.

Definition select_user_by_token (token : string) (now : Z) (d : DB) : option User :=
  find_row (token_valid token now) (users d).

Definition verified (u : User) : User :=
  MkUser (user_ID u) (user_Email u) (user_PasswordHash u) (user_CreatedAt u) true None None.

(** [UPDATE ... RETURNING]: the new rows, and the first of them is scanned. *)
Definition update_verify_email (token : string) (now : Z) (d : DB) : list User * DB :=
  (verified <$> where_ (token_valid token now) (users d),
   set_users d (update_where (token_valid token now) verified (users d))).

(** ** agents *)
Definition store_agent (a : Agent) : Agent :=
  MkAgent (agent_ID a) (agent_DisplayName a) (agent_OwnerUserID a) (agent_APISecretHash a)
    (timestamptz (agent_CreatedAt a)).

Definition insert_agent (a : Agent) (d : DB) : result pg_error (Agent * DB) :=
  let a := store_agent a in
  check require (negb (has (agents d) (agent_ID a))) (UniqueViolation "agents_pkey") ;;
  check require (has (users d) (agent_OwnerUserID a))
    (ForeignKeyViolation "agents_owner_user_id_fkey") ;;
  Ok (a, set_agents d (<[agent_ID a := a]> (agents d))).

Definition select_agent (id : uuid) (d : DB) : option Agent := agents d !! id.

Definition sent_by (id : uuid) (r : ConnectionRequest) : bool := bool_decide (req_SenderID r = id).

(** [ON DELETE CASCADE] of [connection_requests_sender_id_fkey] *)
Definition delete_agent (id : uuid) (d : DB) : nat * DB :=
  match agents d !! id with
  | Some _ =>
      (1%nat, set_requests (set_agents d (base.delete id (agents d)))
                (delete_where (sent_by id) (connection_requests d)))
  | None => (0%nat, d)
  end.

Definition select_agents (d : DB) : list Agent :=
  order_desc agent_CreatedAt (rows (agents d)).

Definition owned_by (owner : uuid) (a : Agent) : bool := bool_decide (agent_OwnerUserID a = owner).

Definition select_agents_by_owner (owner : uuid) (d : DB) : list Agent :=
  order_desc agent_CreatedAt (where_ (owned_by owner) (agents d)).

Definition with_secret (hash : string) (a : Agent) : Agent :=
  MkAgent (agent_ID a) (agent_DisplayName a) (agent_OwnerUserID a) hash (agent_CreatedAt a).

Definition update_agent_secret (id : uuid) (hash : string) (d : DB) : nat * DB :=
  match agents d !! id with
  | Some a => (1%nat, set_agents d (<[id := with_secret hash a]> (agents d)))
  | None => (0%nat, d)
  end.

(** ** conversations *)
Definition store_conversation (c : Conversation) : Conversation :=
  MkConversation (conv_ID c) (conv_Type c) (conv_IDLow c) (conv_IDHigh c) (conv_GroupID c)
    (timestamptz (conv_CreatedAt c)) None (Some (timestamptz (conv_CreatedAt c))).

(** [last_message_id] is left out, [last_message_at] is [$6], the creation
    time. *)
Definition insert_conversation (c : Conversation) (d : DB) : result pg_error (Conversation * DB) :=
  let c := store_conversation c in
  check enum_value "conversation_type" conversation_types (conv_Type c) ;;
  check require (conv_check c) (CheckViolation "chk_conversations_direct_ids") ;;
  check require (negb (has (conversations d) (conv_ID c))) (UniqueViolation "conversations_pkey") ;;
  check require (negb (taken pair_key c (conversations d)))
    (UniqueViolation "uq_conversations_direct_pair") ;;
  check require (has_opt (chat_groups d) (conv_GroupID c))
    (ForeignKeyViolation "conversations_group_id_fkey") ;;
  Ok (c, set_conversations d (<[conv_ID c := c]> (conversations d))).

Definition select_conversation (id : uuid) (d : DB) : option Conversation := conversations d !! id.

Definition has_pair (low high : uuid) (c : Conversation) : bool :=
  bool_decide (pair_key c = Some (low, high)).

Definition select_conversation_by_pair (low high : uuid) (d : DB) : option Conversation :=
  find_row (has_pair low high) (conversations d).

Definition select_conversation_by_group (g : uuid) (d : DB) : option Conversation :=
  find_row (λ c, bool_decide (conv_GroupID c = Some g)) (conversations d).

Definition with_group (g : uuid) (c : Conversation) : Conversation :=
  MkConversation (conv_ID c) (conv_Type c) (conv_IDLow c) (conv_IDHigh c) (Some g)
    (conv_CreatedAt c) (conv_LastMessageID c) (conv_LastMessageAt c).

Definition update_conversation_group (id g : uuid) (d : DB) : result pg_error (nat * DB) :=
  match conversations d !! id with
  | Some c =>
      check require (has (chat_groups d) g) (ForeignKeyViolation "conversations_group_id_fkey") ;;
      Ok (1%nat, set_conversations d (<[id := with_group g c]> (conversations d)))
  | None => Ok (0%nat, d)
  end.

Definition participates (p : uuid) (kind : ParticipantType) (cp : ConversationParticipant) : bool :=
  bool_decide (part_ParticipantID cp = p) && String.eqb (part_ParticipantKind cp) kind.

(** [conversations c JOIN conversation_participants cp ON
    cp.conversation_id = c.id], restricted to one participant. *)
Definition joined (p : uuid) (kind : ParticipantType) (d : DB)
    : list (Conversation * ConversationParticipant) :=
  omap (λ cp, (λ c, (c, cp)) <$> conversations d !! part_ConversationID cp)
    (where_ (participates p kind) (participants d)).

Definition select_conversations_of (p : uuid) (kind : ParticipantType) (d : DB)
    : result pg_error (list Conversation) :=
  check enum_value "participant_type" participant_types kind ;;
  Ok (order_desc conv_CreatedAt (joined p kind d).*1).

Definition select_conversations_of_type (p : uuid) (kind : ParticipantType)
    (ty : ConversationType) (d : DB) : result pg_error (list Conversation) :=
  check enum_value "participant_type" participant_types kind ;;
  check enum_value "conversation_type" conversation_types ty ;;
  Ok (order_desc conv_CreatedAt
    (List.filter (λ c, String.eqb (conv_Type c) ty) (joined p kind d).*1)).

(** The peer of a direct conversation:
    [CASE WHEN c.id_low = $1 THEN c.id_high ELSE c.id_low END]. *)
Definition peer (p : uuid) (c : Conversation) : uuid :=
  default uuid_Nil
    (if bool_decide (conv_IDLow c = Some p) then conv_IDHigh c else conv_IDLow c).

(** The first branch of the [UNION ALL], for one joined row. *)
Definition direct_item (p : uuid) (d : DB) (c : Conversation) : ConversationListItem :=
  let ref := peer p c in
  MkItem (conv_ID c) ref
    (if has (users d) ref then EntityTypeUser else EntityTypeAgent)
    (match users d !! ref, agents d !! ref with
     | Some u, _ => user_Email u
     | None, Some a => agent_DisplayName a
     | None, None => "unknown"
     end)
    (conv_LastMessageAt c).

(** The second branch: an inner join with the group. *)
Definition group_item (d : DB) (c : Conversation) : option ConversationListItem :=
  match conv_GroupID c with
  | Some g =>
      (λ g, MkItem (conv_ID c) (group_ID g) EntityTypeGroup (group_Name g) (conv_LastMessageAt c))
        <$> chat_groups d !! g
  | None => None
  end.

(** The rows of the [UNION ALL] for the joined rows that satisfy [P]. *)
Definition list_items (p : uuid) (d : DB) (P : Conversation * ConversationParticipant → bool)
    (rows : list (Conversation * ConversationParticipant)) : list ConversationListItem :=
  ((λ ccp, direct_item p d ccp.1) <$>
     List.filter (λ ccp, String.eqb (conv_Type ccp.1) ConversationTypeDirect && P ccp) rows) ++
  omap (λ ccp, group_item d ccp.1)
    (List.filter (λ ccp, String.eqb (conv_Type ccp.1) ConversationTypeGroup && P ccp) rows).

Definition select_items (p : uuid) (kind : ParticipantType) (ty : option ConversationType) (d : DB)
    : result pg_error (list ConversationListItem) :=
  check enum_value "participant_type" participant_types kind ;;
  Ok (order_desc_nulls_last item_LastMessageAt
    (list_items p d
      (λ ccp, match ty with None => true | Some ty => String.eqb (conv_Type ccp.1) ty end)
      (joined p kind d))).

(** The instant up to which a participant has read:
    [COALESCE((SELECT mr.timestamp ... = cp.last_read_message_id), cp.joined_at)]. *)
Definition read_until (d : DB) (cp : ConversationParticipant) : Z :=
  match part_LastReadMessageID cp with
  | Some m => match messages d !! m with
              | Some m => msg_Timestamp m
              | None => part_JoinedAt cp
              end
  | None => part_JoinedAt cp
  end.

Definition in_conversation (c : uuid) (m : Message) : bool :=
  bool_decide (msg_ConversationID m = c).

Definition unread_count (d : DB) (ccp : Conversation * ConversationParticipant) : nat :=
  count_where (λ m, in_conversation (conv_ID ccp.1) m && (read_until d ccp.2 <? msg_Timestamp m))
    (messages d).

Definition select_unread (p : uuid) (kind : ParticipantType) (d : DB)
    : result pg_error (list ConversationListItem) :=
  check enum_value "participant_type" participant_types kind ;;
  Ok (order_desc_nulls_last item_LastMessageAt
    (list_items p d (λ ccp, (0 <? unread_count d ccp)%nat) (joined p kind d))).

(** ** conversation_participants *)
Definition store_participant (p : ConversationParticipant) : ConversationParticipant :=
  MkParticipant (part_ConversationID p) (part_ParticipantID p) (part_ParticipantKind p)
    (part_Muted p) (part_LastReadMessageID p) (timestamptz (part_JoinedAt p)).

(** [ON CONFLICT (...) DO NOTHING] *)
Definition insert_participant (p : ConversationParticipant) (d : DB) : result pg_error (nat * DB) :=
  let p := store_participant p in
  check enum_value "participant_type" participant_types (part_ParticipantKind p) ;;
  if has (participants d) (part_key p) then Ok (0%nat, d) else
  check require (has (conversations d) (part_ConversationID p))
    (ForeignKeyViolation "conversation_participants_conversation_id_fkey") ;;
  Ok (1%nat, set_participants d (<[part_key p := p]> (participants d))).

Definition delete_participant (c p : uuid) (kind : ParticipantType) (d : DB)
    : result pg_error (nat * DB) :=
  check enum_value "participant_type" participant_types kind ;;
  Ok (if has (participants d) (c, p, kind) then 1%nat else 0%nat,
      set_participants d (base.delete (c, p, kind) (participants d))).

Definition select_participants (c : uuid) (d : DB) : list ConversationParticipant :=
  order_asc part_JoinedAt
    (where_ (λ p, bool_decide (part_ConversationID p = c)) (participants d)).

Definition update_participant (c p : uuid) (kind : ParticipantType)
    (f : ConversationParticipant → ConversationParticipant) (d : DB) : result pg_error (nat * DB) :=
  check enum_value "participant_type" participant_types kind ;;
  match participants d !! (c, p, kind) with
  | Some cp => Ok (1%nat, set_participants d (<[(c, p, kind) := f cp]> (participants d)))
  | None => Ok (0%nat, d)
  end.

Definition with_muted (b : bool) (p : ConversationParticipant) : ConversationParticipant :=
  MkParticipant (part_ConversationID p) (part_ParticipantID p) (part_ParticipantKind p)
    b (part_LastReadMessageID p) (part_JoinedAt p).

Definition with_last_read (m : uuid) (p : ConversationParticipant) : ConversationParticipant :=
  MkParticipant (part_ConversationID p) (part_ParticipantID p) (part_ParticipantKind p)
    (part_Muted p) (Some m) (part_JoinedAt p).

(** ** chat_groups *)
Definition store_group (g : ChatGroup) : ChatGroup :=
  MkGroup (group_ID g) (group_Name g) (group_OwnerID g) (group_ConversationID g)
    (timestamptz (group_CreatedAt g)).

Definition insert_group (g : ChatGroup) (d : DB) : result pg_error (ChatGroup * DB) :=
  let g := store_group g in
  check require (negb (has (chat_groups d) (group_ID g))) (UniqueViolation "chat_groups_pkey") ;;
  check require (negb (taken name_key g (chat_groups d))) (UniqueViolation "chat_groups_name_key") ;;
  check require (has (users d) (group_OwnerID g))
    (ForeignKeyViolation "chat_groups_creator_id_fkey") ;;
  check require (has_opt (conversations d) (group_ConversationID g))
    (ForeignKeyViolation "chat_groups_conversation_id_fkey") ;;
  Ok (g, set_groups d (<[group_ID g := g]> (chat_groups d))).

Definition select_group (id : uuid) (d : DB) : option ChatGroup := chat_groups d !! id.

Definition select_groups (d : DB) : list ChatGroup :=
  order_desc group_CreatedAt (rows (chat_groups d)).

Definition with_conversation (c : uuid) (g : ChatGroup) : ChatGroup :=
  MkGroup (group_ID g) (group_Name g) (group_OwnerID g) (Some c) (group_CreatedAt g).

Definition update_group_conversation (id c : uuid) (d : DB) : result pg_error (nat * DB) :=
  match chat_groups d !! id with
  | Some g =>
      check require (has (conversations d) c) (ForeignKeyViolation "chat_groups_conversation_id_fkey") ;;
      Ok (1%nat, set_groups d (<[id := with_conversation c g]> (chat_groups d)))
  | None => Ok (0%nat, d)
  end.

(** ** messages

    The column [metadata] is [jsonb]: the row holds what a reader decodes. *)
Definition store_message (m : Message) : Message :=
  MkMessage (msg_ID m) (msg_FromID m) (msg_ConversationID m) (msg_ParticipantKind m)
    (msg_Tag m) (msg_Content m) ((λ md : gmap string any, json_norm <$> md) <$> msg_Metadata m)
    (timestamptz (msg_Timestamp m)).

Definition insert_message (m : Message) (d : DB) : result pg_error (Message * DB) :=
  let m := store_message m in
  check enum_value "participant_type" participant_types (msg_ParticipantKind m) ;;
  check require (negb (has (messages d) (msg_ID m))) (UniqueViolation "messages_pkey") ;;
  check require (has (conversations d) (msg_ConversationID m))
    (ForeignKeyViolation "messages_conversation_id_fkey") ;;
  Ok (m, set_messages d (<[msg_ID m := m]> (messages d))).

Definition with_last_message (m : uuid) (ts : Z) (c : Conversation) : Conversation :=
  MkConversation (conv_ID c) (conv_Type c) (conv_IDLow c) (conv_IDHigh c) (conv_GroupID c)
    (conv_CreatedAt c) (Some m) (Some (timestamptz ts)).

Definition update_last_message (id m : uuid) (ts : Z) (d : DB) : result pg_error (nat * DB) :=
  match conversations d !! id with
  | Some c =>
      check require (has (messages d) m) (ForeignKeyViolation "conversations_last_message_id_fkey") ;;
      Ok (1%nat, set_conversations d (<[id := with_last_message m ts c]> (conversations d)))
  | None => Ok (0%nat, d)
  end.

Definition select_message (id : uuid) (d : DB) : option Message := messages d !! id.

(** [$2::timestamptz IS NULL OR timestamp > $2], and the same for the id *)
Definition since (ts : option Z) (id : option uuid) (m : Message) : bool :=
  match ts with None => true | Some t => timestamptz t <? msg_Timestamp m end &&
  match id with None => true | Some i => uuid_ltb i (msg_ID m) end.

Definition select_messages (c : uuid) (limit : Z) (ts : option Z) (id : option uuid) (d : DB)
    : list Message :=
  take (Z.to_nat limit)
    (order_desc msg_Timestamp (where_ (λ m, in_conversation c m && since ts id m) (messages d))).

(** ** connection_requests *)
Definition store_request (r : ConnectionRequest) : ConnectionRequest :=
  MkRequest (req_ID r) (req_SenderID r) (req_FromID r) (req_FromKind r) (req_ToID r) (req_ToKind r)
    (req_Status r) (timestamptz (req_CreatedAt r)) (timestamptz (req_UpdatedAt r)).

Definition insert_request (r : ConnectionRequest) (d : DB)
    : result pg_error (ConnectionRequest * DB) :=
  let r := store_request r in
  check enum_value "entity_type" entity_types (req_FromKind r) ;;
  check enum_value "entity_type" entity_types (req_ToKind r) ;;
  check enum_value "connection_request_status" request_statuses (req_Status r) ;;
  check require (negb (has (connection_requests d) (req_ID r)))
    (UniqueViolation "connection_requests_pkey") ;;
  check require (negb (taken request_key r (connection_requests d)))
    (UniqueViolation "connection_requests_from_to_unique") ;;
  check require (has (agents d) (req_SenderID r))
    (ForeignKeyViolation "connection_requests_sender_id_fkey") ;;
  Ok (r, set_requests d (<[req_ID r := r]> (connection_requests d))).

Definition pending_for (to : uuid) (kind : EntityType) (r : ConnectionRequest) : bool :=
  bool_decide (req_ToID r = to) && String.eqb (req_ToKind r) kind &&
  String.eqb (req_Status r) ConnectionRequestStatusPending.

Definition select_pending (to : uuid) (kind : EntityType) (d : DB)
    : result pg_error (list ConnectionRequest) :=
  check enum_value "entity_type" entity_types kind ;;
  Ok (order_desc req_CreatedAt (where_ (pending_for to kind) (connection_requests d))).

Definition with_status (status : ConnectionRequestStatus) (now : Z) (r : ConnectionRequest)
    : ConnectionRequest :=
  MkRequest (req_ID r) (req_SenderID r) (req_FromID r) (req_FromKind r) (req_ToID r) (req_ToKind r)
    status (req_CreatedAt r) (timestamptz now).

Definition update_request_status (id : uuid) (status : ConnectionRequestStatus) (now : Z) (d : DB)
    : result pg_error (nat * DB) :=
  check enum_value "connection_request_status" request_statuses status ;;
  match connection_requests d !! id with
  | Some r =>
      Ok (1%nat, set_requests d (<[id := with_status status now r]> (connection_requests d)))
  | None => Ok (0%nat, d)
  end.

Definition request_between (f : uuid) (fk : EntityType) (t : uuid) (tk : EntityType)
    (r : ConnectionRequest) : bool := bool_decide (request_key r = Some (f, fk, t, tk)).

Definition select_request_between (f : uuid) (fk : EntityType) (t : uuid) (tk : EntityType) (d : DB)
    : result pg_error (option ConnectionRequest) :=
  check enum_value "entity_type" entity_types fk ;;
  check enum_value "entity_type" entity_types tk ;;
  Ok (find_row (request_between f fk t tk) (connection_requests d)).

(** ** blacklist_entries *)
Definition store_entry (e : BlacklistEntry) : BlacklistEntry :=
  MkEntry (entry_ID e) (entry_FromID e) (entry_FromKind e) (entry_ToID e) (entry_ToKind e)
    (timestamptz (entry_CreatedAt e)).

Definition insert_entry (e : BlacklistEntry) (d : DB) : result pg_error (BlacklistEntry * DB) :=
  let e := store_entry e in
  check enum_value "entity_type" entity_types (entry_FromKind e) ;;
  check enum_value "entity_type" entity_types (entry_ToKind e) ;;
  check require (negb (has (blacklist_entries d) (entry_ID e)))
    (UniqueViolation "blacklist_entries_pkey") ;;
  check require (negb (taken entry_key e (blacklist_entries d)))
    (UniqueViolation "blacklist_entries_from_to_unique") ;;
  Ok (e, set_blacklist d (<[entry_ID e := e]> (blacklist_entries d))).

Definition entry_between (f : uuid) (fk : EntityType) (t : uuid) (tk : EntityType)
    (e : BlacklistEntry) : bool := bool_decide (entry_key e = Some (f, fk, t, tk)).

Definition delete_entry (f : uuid) (fk : EntityType) (t : uuid) (tk : EntityType) (d : DB)
    : result pg_error (nat * DB) :=
  check enum_value "entity_type" entity_types fk ;;
  check enum_value "entity_type" entity_types tk ;;
  Ok (count_where (entry_between f fk t tk) (blacklist_entries d),
      set_blacklist d (delete_where (entry_between f fk t tk) (blacklist_entries d))).

Definition exists_entry (f : uuid) (fk : EntityType) (t : uuid) (tk : EntityType) (d : DB)
    : result pg_error bool :=
  check enum_value "entity_type" entity_types fk ;;
  check enum_value "entity_type" entity_types tk ;;
  Ok (exists_row (entry_between f fk t tk) (blacklist_entries d)).

Definition listed_by (f : uuid) (fk : EntityType) (e : BlacklistEntry) : bool :=
  bool_decide (entry_FromID e = f) && String.eqb (entry_FromKind e) fk.

Definition select_entries (f : uuid) (fk : EntityType) (d : DB)
    : result pg_error (list BlacklistEntry) :=
  check enum_value "entity_type" entity_types fk ;;
  Ok (order_desc entry_CreatedAt (where_ (listed_by f fk) (blacklist_entries d))).
End Schema.
