(* ===== verification/Invariant.v ===== *)
(** * The invariant of the database

    [db_inv] collects what holds of every state the server's handlers reach:
    the constraints of the schema (primary keys, unique keys, checks, foreign
    keys, enumerations) and three facts no constraint states, which the code
    maintains: the last message of a conversation is one of its own messages
    and carries its date; the two pointers between a group and its
    conversation agree; only the two members of its pair ever participate in
    a direct conversation.

    [db_le d d'] says what no handler ever undoes between [d] and a later
    [d']: users, conversations, groups and messages are never removed, and
    their identifying columns never change. *)

From S2P Require Import Prelude.
From S2P Require Import GoStrings.
From S2P Require Import GoTime.
From S2P Require Import GoValue.
From S2P Require Import Uuid.
From S2P Require Import Models.
From S2P Require Import Schema.

Open Scope string_scope.
Open Scope Z_scope.

(** The keys of [m] are keys of [m']. *)
Definition keys_le {K A} `{Countable K} (m m' : gmap K A) : Prop :=
  ∀ k, is_Some (m !! k) → is_Some (m' !! k).

Lemma keys_le_refl {K A} `{Countable K} (m : gmap K A) : keys_le m m.
Proof. by intros k. Qed.

Lemma keys_le_insert {K A} `{Countable K} (m : gmap K A) i x : keys_le m (<[i:=x]> m).
Proof. intros k Hk. apply lookup_insert_is_Some'. auto. Qed.

#[export] Hint Resolve keys_le_refl keys_le_insert : bobber.

Section Constraints.
Context {U : UuidPkg} {C : Citext}.
Implicit Types (us : gmap uuid User) (ags : gmap uuid Agent) (cs : gmap uuid Conversation)
  (ps : gmap participant_key ConversationParticipant) (gs : gmap uuid ChatGroup)
  (ms : gmap uuid Message) (rs : gmap uuid ConnectionRequest) (bs : gmap uuid BlacklistEntry).

(** ** Table by table *)
Record users_wf us : Prop := {
  users_key : map_Forall (λ k u, user_ID u = k) us;
  users_email : unique_on email_key us
}.

Record agents_wf us ags : Prop := {
  agents_key : map_Forall (λ k a, agent_ID a = k) ags;
  agents_owner : map_Forall (λ _ a, is_Some (us !! agent_OwnerUserID a)) ags
}.

(** The last message, if there is one, belongs to the conversation. *)
Definition last_ok ms (k : uuid) (c : Conversation) : Prop :=
  ∀ i, conv_LastMessageID c = Some i →
    ∃ m, ms !! i = Some m ∧ msg_ConversationID m = k ∧
         conv_LastMessageAt c = Some (msg_Timestamp m).

(** The group a conversation points to points back. *)
Definition backlink_ok gs (k : uuid) (c : Conversation) : Prop :=
  ∀ g, conv_GroupID c = Some g →
    conv_Type c = ConversationTypeGroup ∧
    ∃ gr, gs !! g = Some gr ∧ group_ConversationID gr = Some k.

Record conversations_wf gs ms cs : Prop := {
  conversations_key : map_Forall (λ k c, conv_ID c = k) cs;
  conversations_pair : unique_on pair_key cs;
  conversations_check : map_Forall (λ _ c, conv_check c = true) cs;
  conversations_last : map_Forall (last_ok ms) cs;
  conversations_group : map_Forall (backlink_ok gs) cs
}.

(** A participant of a direct conversation is one of its pair. *)
Definition member_ok cs (p : ConversationParticipant) : Prop :=
  ∃ c, cs !! part_ConversationID p = Some c ∧
    (conv_Type c = ConversationTypeDirect →
     conv_IDLow c = Some (part_ParticipantID p) ∨ conv_IDHigh c = Some (part_ParticipantID p)).

Record participants_wf cs ps : Prop := {
  participants_key_ok : map_Forall (λ k p, part_key p = k) ps;
  participants_kind : map_Forall (λ _ p, part_ParticipantKind p ∈ participant_types) ps;
  participants_member : map_Forall (λ _ p, member_ok cs p) ps
}.

Definition group_conv_ok cs (g : ChatGroup) : Prop :=
  ∀ c, group_ConversationID g = Some c →
    ∃ cv, cs !! c = Some cv ∧ conv_Type cv = ConversationTypeGroup.

Record groups_wf us cs gs : Prop := {
  groups_key : map_Forall (λ k g, group_ID g = k) gs;
  groups_name : unique_on name_key gs;
  groups_owner : map_Forall (λ _ g, is_Some (us !! group_OwnerID g)) gs;
  groups_conv : map_Forall (λ _ g, group_conv_ok cs g) gs
}.

Record messages_wf cs ms : Prop := {
  messages_key : map_Forall (λ k m, msg_ID m = k) ms;
  messages_kind : map_Forall (λ _ m, msg_ParticipantKind m ∈ participant_types) ms;
  messages_conv : map_Forall (λ _ m, is_Some (cs !! msg_ConversationID m)) ms
}.

Record requests_wf ags rs : Prop := {
  requests_key : map_Forall (λ k r, req_ID r = k) rs;
  requests_unique : unique_on request_key rs;
  requests_sender : map_Forall (λ _ r, is_Some (ags !! req_SenderID r)) rs;
  requests_enums : map_Forall (λ _ r, req_FromKind r ∈ entity_types ∧
    req_ToKind r ∈ entity_types ∧ req_Status r ∈ request_statuses) rs
}.

Record blacklist_wf bs : Prop := {
  blacklist_key : map_Forall (λ k e, entry_ID e = k) bs;
  blacklist_unique : unique_on entry_key bs;
  blacklist_enums : map_Forall (λ _ e, entry_FromKind e ∈ entity_types ∧
    entry_ToKind e ∈ entity_types) bs
}.

Record db_inv (d : DB) : Prop := {
  inv_users : users_wf (users d);
  inv_agents : agents_wf (users d) (agents d);
  inv_conversations : conversations_wf (chat_groups d) (messages d) (conversations d);
  inv_participants : participants_wf (conversations d) (participants d);
  inv_groups : groups_wf (users d) (conversations d) (chat_groups d);
  inv_messages : messages_wf (conversations d) (messages d);
  inv_requests : requests_wf (agents d) (connection_requests d);
  inv_blacklist : blacklist_wf (blacklist_entries d)
}.

(** ** What is never undone *)
Definition user_le (u u' : User) : Prop :=
  user_ID u' = user_ID u ∧ user_Email u' = user_Email u ∧
  user_PasswordHash u' = user_PasswordHash u ∧
  (user_EmailVerified u = true → user_EmailVerified u' = true).

Definition conv_le (c c' : Conversation) : Prop :=
  conv_ID c' = conv_ID c ∧ conv_Type c' = conv_Type c ∧ conv_IDLow c' = conv_IDLow c ∧
  conv_IDHigh c' = conv_IDHigh c.

(** Every row of [m] is still there in [m'], related by [R]. *)
Definition rows_le {A} (R : A → A → Prop) (m m' : gmap uuid A) : Prop :=
  ∀ k x, m !! k = Some x → ∃ x', m' !! k = Some x' ∧ R x x'.

Record db_le (d d' : DB) : Prop := {
  le_users : rows_le user_le (users d) (users d');
  le_conversations : rows_le conv_le (conversations d) (conversations d');
  le_groups : rows_le eq (chat_groups d) (chat_groups d');
  le_messages : rows_le eq (messages d) (messages d')
}.

(** ** Orders *)
#[global] Instance user_le_preorder : PreOrder user_le.
Proof. split; [done|]. unfold user_le. intros u v w ? ?. intuition congruence. Qed.

#[global] Instance conv_le_preorder : PreOrder conv_le.
Proof. split; [done|]. unfold conv_le. intros u v w ? ?. intuition congruence. Qed.

#[global] Instance rows_le_preorder {A} (R : A → A → Prop) : PreOrder R → PreOrder (rows_le R).
Proof.
  intros HR. split.
  - intros m k x Hx. exists x. split; [done|reflexivity].
  - intros m1 m2 m3 H12 H23 k x Hx. destruct (H12 k x Hx) as (y & Hy & Hxy).
    destruct (H23 k y Hy) as (z & Hz & Hyz). exists z. split; [done|]. by transitivity y.
Qed.

#[global] Instance db_le_preorder : PreOrder db_le.
Proof.
  split.
  - intros d. split; reflexivity.
  - intros d1 d2 d3 [] []. split; etransitivity; done.
Qed.

Lemma rows_le_insert_new {A} (R : A → A → Prop) `{!PreOrder R} m i x :
  m !! i = None → rows_le R m (<[i:=x]> m).
Proof.
  intros Hi k y Hy. exists y. split; [|reflexivity].
  rewrite lookup_insert_ne; [done|]. by intros ->; rewrite Hi in Hy.
Qed.

Lemma rows_le_insert_upd {A} (R : A → A → Prop) `{!PreOrder R} m i x y :
  m !! i = Some x → R x y → rows_le R m (<[i:=y]> m).
Proof.
  intros Hi HR k z Hz. destruct (decide (k = i)) as [->|].
  - rewrite Hi in Hz. injection Hz as <-. rewrite lookup_insert_eq. eauto.
  - rewrite lookup_insert_ne by done. exists z. split; [done|reflexivity].
Qed.

Lemma rows_le_update_where {A} (R : A → A → Prop) `{!PreOrder R} P f m :
  (∀ x, R x (f x)) → rows_le R m (update_where P f m).
Proof.
  intros Hf k x Hx. unfold update_where. rewrite lookup_fmap, Hx. simpl.
  eexists. split; [done|]. destruct (P x); [done|reflexivity].
Qed.

Lemma rows_le_keys {A} (R : A → A → Prop) m m' : rows_le R m m' → keys_le m m'.
Proof. intros H k [x Hx]. destruct (H k x Hx) as (y & Hy & _). eauto. Qed.

(** ** Monotonicity of the foreign keys *)
Lemma agents_wf_mono us us' ags : keys_le us us' → agents_wf us ags → agents_wf us' ags.
Proof. intros H [? Ho]. split; [done|]. intros k a Ha. apply H, (Ho k a Ha). Qed.

Lemma last_ok_mono ms ms' k c : rows_le eq ms ms' → last_ok ms k c → last_ok ms' k c.
Proof.
  intros H Hl i Hi. destruct (Hl i Hi) as (m & Hm & ? & ?).
  destruct (H i m Hm) as (? & ? & <-). eauto.
Qed.

Lemma backlink_ok_mono gs gs' k c : rows_le eq gs gs' → backlink_ok gs k c → backlink_ok gs' k c.
Proof.
  intros H Hl g Hg. destruct (Hl g Hg) as (Ht & gr & Hm & ?). split; [done|].
  destruct (H g gr Hm) as (? & ? & <-). eauto.
Qed.

Lemma conversations_wf_mono gs gs' ms ms' cs :
  rows_le eq gs gs' → rows_le eq ms ms' →
  conversations_wf gs ms cs → conversations_wf gs' ms' cs.
Proof.
  intros Hg Hm [? ? ? Hl Hb]. split; try done.
  - intros k c Hc. eapply last_ok_mono; [done|]. by apply (Hl k c).
  - intros k c Hc. eapply backlink_ok_mono; [done|]. by apply (Hb k c).
Qed.

Lemma member_ok_mono cs cs' p : rows_le conv_le cs cs' → member_ok cs p → member_ok cs' p.
Proof.
  intros H (c & Hc & Hm). destruct (H _ c Hc) as (c' & Hc' & (_ & Ht & Hl & Hh)).
  exists c'. split; [done|]. by rewrite Ht, Hl, Hh.
Qed.

Lemma participants_wf_mono cs cs' ps :
  rows_le conv_le cs cs' → participants_wf cs ps → participants_wf cs' ps.
Proof.
  intros H [? ? Hm]. split; try done. intros k p Hp. eapply member_ok_mono; [done|].
  by apply (Hm k p).
Qed.

Lemma group_conv_ok_mono cs cs' g : rows_le conv_le cs cs' → group_conv_ok cs g → group_conv_ok cs' g.
Proof.
  intros H Hg c Hc. destruct (Hg c Hc) as (cv & Hcv & Ht).
  destruct (H c cv Hcv) as (cv' & Hcv' & (_ & Ht' & _)). exists cv'. split; [done|congruence].
Qed.

Lemma groups_wf_mono us us' cs cs' gs :
  keys_le us us' → rows_le conv_le cs cs' → groups_wf us cs gs → groups_wf us' cs' gs.
Proof.
  intros Hu Hc [? ? Ho Hg]. split; try done.
  - intros k g Hk. apply Hu, (Ho k g Hk).
  - intros k g Hk. eapply group_conv_ok_mono; [done|]. by apply (Hg k g).
Qed.

Lemma messages_wf_mono cs cs' ms : keys_le cs cs' → messages_wf cs ms → messages_wf cs' ms.
Proof. intros H [? ? Hc]. split; try done. intros k m Hm. apply H, (Hc k m Hm). Qed.

Lemma requests_wf_mono ags ags' rs : keys_le ags ags' → requests_wf ags rs → requests_wf ags' rs.
Proof. intros H [? ? Hs ?]. split; try done. intros k r Hr. apply H, (Hs k r Hr). Qed.

Lemma empty_inv : db_inv empty_DB.
Proof.
  split; split; cbn; apply map_Forall_empty || apply unique_on_empty.
Qed.
End Constraints.
