(* ===== verification/Statements.v ===== *)
(** * The statements keep the invariant

    One lemma per statement that writes: when it succeeds from a state that
    satisfies [db_inv], it leaves a later state ([db_le]) that satisfies it
    too, and the row it returns is in its table.  Each lemma names the fact
    about its arguments the invariant needs beyond the constraints the server
    checks. *)

From S2P Require Import Prelude.
From S2P Require Import GoStrings.
From S2P Require Import GoTime.
From S2P Require Import GoValue.
From S2P Require Import Uuid.
From S2P Require Import Models.
From S2P Require Import Schema.
From S2P Require Import Invariant.

Open Scope string_scope.
Open Scope Z_scope.

Section Statements.
Context {U : UuidPkg} {C : Citext}.
Implicit Types (d : DB).

(** ** Inversion of the checks *)
Lemma check_require {A} b e (k : result pg_error A) r :
  (check require b e ;; k) = Ok r → b = true ∧ k = Ok r.
Proof. by destruct b. Qed.

Lemma check_enum {A} name values s (k : result pg_error A) r :
  (check enum_value name values s ;; k) = Ok r → s ∈ values ∧ k = Ok r.
Proof. unfold enum_value. case_bool_decide; [auto|done]. Qed.

Lemma has_true {K A} `{Countable K} (m : gmap K A) k : has m k = true ↔ is_Some (m !! k).
Proof. apply bool_decide_eq_true. Qed.

Lemma has_false {K A} `{Countable K} (m : gmap K A) k : has m k = false ↔ m !! k = None.
Proof. unfold has. rewrite bool_decide_eq_false. symmetry. apply eq_None_not_Some. Qed.

Lemma taken_false {K A B} `{Countable K} `{EqDecision B} (f : A → option B) x (m : gmap K A) i :
  unique_on f m → taken f x m = false → unique_on f (<[i:=x]> m).
Proof.
  intros Hu Ht. apply unique_on_insert; [done|]. intros j y k _ Hy Hx E.
  unfold taken in Ht. rewrite Hx in Ht. rewrite exists_row_false in Ht.
  specialize (Ht j y Hy). by rewrite bool_decide_eq_true_2 in Ht.
Qed.

Lemma unique_on_update_where {K A B} `{Countable K} (f : A → option B) P g (m : gmap K A) :
  (∀ x, f (g x) = f x) → unique_on f m → unique_on f (update_where P g m).
Proof.
  intros Hg Hu i j x y k Hi Hj Hx Hy. unfold update_where in *.
  rewrite lookup_fmap in Hi, Hj.
  destruct (m !! i) as [x0|] eqn:Ei; [|done]. destruct (m !! j) as [y0|] eqn:Ej; [|done].
  simpl in Hi, Hj. injection Hi as <-. injection Hj as <-.
  apply (Hu i j x0 y0 k Ei Ej).
  - rewrite <-Hx. by destruct (P x0).
  - rewrite <-Hy. by destruct (P y0).
Qed.

Lemma map_Forall_update_where {K A} `{Countable K} (Q : K → A → Prop) P g (m : gmap K A) :
  (∀ k x, Q k x → Q k (g x)) → map_Forall Q m → map_Forall Q (update_where P g m).
Proof.
  intros Hg Hm k x Hx. unfold update_where in Hx. rewrite lookup_fmap in Hx.
  destruct (m !! k) as [x0|] eqn:E; [|done]. simpl in Hx. injection Hx as <-.
  specialize (Hm k x0 E). simpl in Hm. destruct (P x0); auto.
Qed.

Lemma delete_where_subseteq {K A} `{Countable K} P (m : gmap K A) : delete_where P m ⊆ m.
Proof. apply map_filter_subseteq. Qed.

Lemma map_Forall_subseteq {K A} `{Countable K} (Q : K → A → Prop) (m m' : gmap K A) :
  m' ⊆ m → map_Forall Q m → map_Forall Q m'.
Proof. intros Hs Hm k x Hx. apply Hm. by eapply lookup_weaken. Qed.

Lemma elem_of_where {K A} `{Countable K} P (m : gmap K A) x :
  x ∈ where_ P m ↔ P x = true ∧ ∃ k, m !! k = Some x.
Proof.
  unfold where_. rewrite list_elem_of_In, filter_In, <-list_elem_of_In, elem_of_rows. tauto.
Qed.

Lemma db_le_refl d : db_le d d.
Proof. reflexivity. Qed.

(** Invert the checks of a statement that succeeded. *)
Ltac inv_checks :=
  repeat match goal with
  | H : match require _ _ with _ => _ end = Ok _ |- _ => apply check_require in H as [? H]
  | H : match enum_value _ _ _ with _ => _ end = Ok _ |- _ => apply check_enum in H as [? H]
  | H : negb _ = true |- _ => apply negb_true_iff in H
  | H : has _ _ = true |- _ => apply has_true in H
  | H : has _ _ = false |- _ => apply has_false in H
  end.

(** ** Replacing one table *)
Lemma set_users_ok d us :
  db_inv d → users_wf us → rows_le user_le (users d) us →
  db_inv (set_users d us) ∧ db_le d (set_users d us).
Proof.
  intros [] Hu Hle. pose proof (rows_le_keys _ _ _ Hle). split; split; cbn; try done; try reflexivity.
  - by eapply agents_wf_mono.
  - eapply groups_wf_mono; [done|reflexivity|done].
Qed.

Lemma set_agents_ok d ags :
  db_inv d → agents_wf (users d) ags → keys_le (agents d) ags →
  db_inv (set_agents d ags) ∧ db_le d (set_agents d ags).
Proof.
  intros [] Ha Hle. split; split; cbn; try done; try reflexivity.
  by eapply requests_wf_mono.
Qed.

Lemma set_conversations_ok d cs :
  db_inv d → conversations_wf (chat_groups d) (messages d) cs →
  rows_le conv_le (conversations d) cs →
  db_inv (set_conversations d cs) ∧ db_le d (set_conversations d cs).
Proof.
  intros [] Hc Hle. pose proof (rows_le_keys _ _ _ Hle). split; split; cbn; try done; try reflexivity.
  - by eapply participants_wf_mono.
  - by eapply groups_wf_mono; eauto with bobber.
  - by eapply messages_wf_mono.
Qed.

Lemma set_participants_ok d ps :
  db_inv d → participants_wf (conversations d) ps →
  db_inv (set_participants d ps) ∧ db_le d (set_participants d ps).
Proof. intros [] Hp. split; split; cbn; try done; reflexivity. Qed.

Lemma set_groups_ok d gs :
  db_inv d → groups_wf (users d) (conversations d) gs → rows_le eq (chat_groups d) gs →
  db_inv (set_groups d gs) ∧ db_le d (set_groups d gs).
Proof.
  intros [] Hg Hle. split; split; cbn; try done; try reflexivity.
  eapply conversations_wf_mono; [done|reflexivity|done].
Qed.

Lemma set_messages_ok d ms :
  db_inv d → messages_wf (conversations d) ms → rows_le eq (messages d) ms →
  db_inv (set_messages d ms) ∧ db_le d (set_messages d ms).
Proof.
  intros [] Hm Hle. split; split; cbn; try done; try reflexivity.
  eapply conversations_wf_mono; [reflexivity|done|done].
Qed.

Lemma set_requests_ok d rs :
  db_inv d → requests_wf (agents d) rs → db_inv (set_requests d rs) ∧ db_le d (set_requests d rs).
Proof. intros [] Hr. split; split; cbn; try done; reflexivity. Qed.

Lemma set_blacklist_ok d bs :
  db_inv d → blacklist_wf bs → db_inv (set_blacklist d bs) ∧ db_le d (set_blacklist d bs).
Proof. intros [] Hr. split; split; cbn; try done; reflexivity. Qed.

Lemma unchanged_ok d : db_inv d → db_inv d ∧ db_le d d.
Proof. intros. split; [done|reflexivity]. Qed.

(** ** users *)
Lemma insert_user_ok u d u' d' :
  db_inv d → insert_user u d = Ok (u', d') →
  (db_inv d' ∧ db_le d d') ∧ u' = store_user u ∧ users d' !! user_ID u = Some u' ∧
  users d !! user_ID u = None.
Proof.
  intros Hi H. unfold insert_user in H. cbv zeta in H. inv_checks. injection H as <- <-.
  cbn [store_user user_ID] in *. split; [|cbn; by rewrite lookup_insert_eq].
  destruct (inv_users _ Hi) as [Hk He]. apply set_users_ok; [done|..].
  - split; [by apply map_Forall_update|by apply taken_false].
  - by apply rows_le_insert_new; [apply _|].
Qed.

Lemma update_user_token_ok id t e d n d' :
  db_inv d → update_user_token id t e d = (n, d') → db_inv d' ∧ db_le d d'.
Proof.
  intros Hi H. unfold update_user_token in H.
  destruct (users d !! id) as [u|] eqn:E; injection H as <- <-; [|by apply unchanged_ok].
  destruct (inv_users _ Hi) as [Hk He]. apply set_users_ok; [done|..].
  - split; [apply map_Forall_update; [done|]; by apply (Hk id u)|].
    by eapply unique_on_update.
  - eapply rows_le_insert_upd; [apply _|done|]. done.
Qed.

Lemma update_verify_email_ok t now d l d' :
  db_inv d → update_verify_email t now d = (l, d') → db_inv d' ∧ db_le d d'.
Proof.
  intros Hi H. injection H as <- <-. destruct (inv_users _ Hi) as [Hk He].
  apply set_users_ok; [done|..].
  - split; [by apply map_Forall_update_where|by apply unique_on_update_where].
  - apply rows_le_update_where; [apply _|]. done.
Qed.

(** ** agents *)
Lemma insert_agent_ok a d a' d' :
  db_inv d → insert_agent a d = Ok (a', d') →
  (db_inv d' ∧ db_le d d') ∧ a' = store_agent a ∧ agents d' !! agent_ID a = Some a'.
Proof.
  intros Hi H. unfold insert_agent in H. cbv zeta in H. inv_checks. injection H as <- <-.
  split; [|cbn; by rewrite lookup_insert_eq].
  destruct (inv_agents _ Hi) as [Hk Ho]. apply set_agents_ok; [done|..].
  - split; by apply map_Forall_update.
  - auto with bobber.
Qed.

Lemma update_agent_secret_ok id h d n d' :
  db_inv d → update_agent_secret id h d = (n, d') → db_inv d' ∧ db_le d d'.
Proof.
  intros Hi H. unfold update_agent_secret in H.
  destruct (agents d !! id) as [a|] eqn:E; injection H as <- <-; [|by apply unchanged_ok].
  destruct (inv_agents _ Hi) as [Hk Ho]. apply set_agents_ok; [done|..].
  - split; apply map_Forall_update; try done; [by apply (Hk id a)|by apply (Ho id a)].
  - auto with bobber.
Qed.

Lemma delete_agent_ok id d n d' :
  db_inv d → delete_agent id d = (n, d') → db_inv d' ∧ db_le d d'.
Proof.
  intros Hi H. unfold delete_agent in H.
  destruct (agents d !! id) as [a|] eqn:E; injection H as <- <-; [|by apply unchanged_ok].
  destruct Hi as [Hu [Hk Ho] Hc Hp Hg Hm [Rk Ru Rs Re] Hb]. split; split; cbn; try done; try reflexivity.
  - split; by apply map_Forall_delete.
  - pose proof (delete_where_subseteq (sent_by id) (connection_requests d)) as Hs.
    split; try by eapply map_Forall_subseteq.
    + by eapply unique_on_subseteq.
    + intros k r Hr. apply map_lookup_filter_Some in Hr as [Hr Hne]. cbn in Hne.
      unfold sent_by in Hne. rewrite bool_decide_eq_false in Hne.
      rewrite lookup_delete_ne by congruence. by apply (Rs k r).
Qed.

(** ** conversations *)
Lemma insert_conversation_ok c d c' d' :
  db_inv d → conv_GroupID c = None → insert_conversation c d = Ok (c', d') →
  (db_inv d' ∧ db_le d d') ∧ c' = store_conversation c ∧
  conversations d' !! conv_ID c = Some c' ∧ conversations d !! conv_ID c = None.
Proof.
  intros Hi Hg H. unfold insert_conversation in H. cbv zeta in H. inv_checks. injection H as <- <-.
  cbn [store_conversation conv_ID] in *. split; [|cbn; by rewrite lookup_insert_eq].
  destruct (inv_conversations _ Hi) as [Hk Hp Hc Hl Hb]. apply set_conversations_ok; [done|..].
  - split; [by apply map_Forall_update|by apply taken_false|by apply map_Forall_update|..];
      (apply map_Forall_update; [done|]); intros i Hn; cbn in Hn; congruence.
  - by apply rows_le_insert_new; [apply _|].
Qed.

Lemma update_conversation_group_ok id g gr d n d' :
  db_inv d → chat_groups d !! g = Some gr → group_ConversationID gr = Some id →
  update_conversation_group id g d = Ok (n, d') → db_inv d' ∧ db_le d d'.
Proof.
  intros Hi Hg Hgc H. unfold update_conversation_group in H.
  destruct (conversations d !! id) as [c|] eqn:E.
  2:{ injection H as <- <-. by apply unchanged_ok. }
  inv_checks. injection H as <- <-.
  destruct (inv_conversations _ Hi) as [Hk Hp Hc Hl Hb]. apply set_conversations_ok; [done|..].
  - split; [apply map_Forall_update; [done|by apply (Hk id c)]|by eapply unique_on_update|..];
      (apply map_Forall_update; [done|]).
    + by apply (Hc id c).
    + by apply (Hl id c).
    + intros g' Hg'. cbn in Hg'. injection Hg' as <-. split; [|by eauto].
      destruct (groups_conv _ _ _ (inv_groups _ Hi) g gr Hg id Hgc) as (cv & Hcv & Ht).
      cbn. congruence.
  - by eapply rows_le_insert_upd; [apply _| |].
Qed.

(** ** conversation_participants *)
Lemma insert_participant_ok p d n d' :
  db_inv d → member_ok (conversations d) p → insert_participant p d = Ok (n, d') →
  (db_inv d' ∧ db_le d d') ∧ is_Some (participants d' !! part_key p).
Proof.
  intros Hi Hm H. unfold insert_participant in H. cbv zeta in H. inv_checks.
  change (part_key (store_participant p)) with (part_key p) in H.
  destruct (has (participants d) (part_key p)) eqn:E.
  { injection H as <- <-. split; [by apply unchanged_ok|by apply has_true]. }
  inv_checks. injection H as <- <-. split; [|cbn; rewrite lookup_insert_eq; eauto].
  destruct (inv_participants _ Hi) as [Hk Hd Hp]. apply set_participants_ok; [done|].
  split; apply map_Forall_update; done.
Qed.

Lemma delete_participant_ok c p k d n d' :
  db_inv d → delete_participant c p k d = Ok (n, d') →
  (db_inv d' ∧ db_le d d') ∧ participants d' !! (c, p, k) = None.
Proof.
  intros Hi H. unfold delete_participant in H. inv_checks. injection H as <- <-.
  split; [|cbn; by rewrite lookup_delete_eq].
  destruct (inv_participants _ Hi) as [Hk Hd Hp]. apply set_participants_ok; [done|].
  split; by apply map_Forall_delete.
Qed.

Lemma update_participant_ok c p k f d n d' :
  (∀ x, part_key (f x) = part_key x) →
  db_inv d → update_participant c p k f d = Ok (n, d') → db_inv d' ∧ db_le d d'.
Proof.
  intros Hf Hi H. unfold update_participant in H. inv_checks.
  destruct (participants d !! (c, p, k)) as [cp|] eqn:E; injection H as <- <-; [|by apply unchanged_ok].
  destruct (inv_participants _ Hi) as [Hk Hd Hp]. apply set_participants_ok; [done|].
  pose proof (Hf cp) as Hcp. unfold part_key in Hcp. injection Hcp as H1 H2 H3.
  split; apply map_Forall_update; try done.
  - rewrite Hf. by apply (Hk (c, p, k) cp).
  - rewrite H3. by apply (Hd (c, p, k) cp).
  - destruct (Hp _ cp E) as (cv & Hcv & Hm). exists cv. by rewrite H1, H2.
Qed.

(** ** chat_groups *)
Lemma insert_group_ok g d g' d' :
  db_inv d → group_conv_ok (conversations d) g → insert_group g d = Ok (g', d') →
  (db_inv d' ∧ db_le d d') ∧ g' = store_group g ∧ chat_groups d' !! group_ID g = Some g'.
Proof.
  intros Hi Hc H. unfold insert_group in H. cbv zeta in H. inv_checks. injection H as <- <-.
  cbn [store_group group_ID] in *. split; [|cbn; by rewrite lookup_insert_eq].
  destruct (inv_groups _ Hi) as [Hk Hn Ho Hg]. apply set_groups_ok; [done|..].
  - split; [by apply map_Forall_update|by apply taken_false|by apply map_Forall_update|].
    by apply map_Forall_update.
  - by apply rows_le_insert_new; [apply _|].
Qed.

(** ** messages *)
Lemma insert_message_ok m d m' d' :
  db_inv d → insert_message m d = Ok (m', d') →
  (db_inv d' ∧ db_le d d') ∧ m' = store_message m ∧ messages d' !! msg_ID m = Some m' ∧
  messages d !! msg_ID m = None ∧ conversations d' = conversations d.
Proof.
  intros Hi H. unfold insert_message in H. cbv zeta in H. inv_checks. injection H as <- <-.
  cbn [store_message msg_ID] in *. split; [|cbn; by rewrite lookup_insert_eq].
  destruct (inv_messages _ Hi) as [Hk Hd Hc]. apply set_messages_ok; [done|..].
  - split; by apply map_Forall_update.
  - by apply rows_le_insert_new; [apply _|].
Qed.

Lemma timestamptz_idem t : timestamptz (timestamptz t) = timestamptz t.
Proof. unfold timestamptz. by rewrite Z.div_mul. Qed.

Lemma update_last_message_ok c i m ts d n d' :
  db_inv d → messages d !! i = Some m → msg_ConversationID m = c → msg_Timestamp m = timestamptz ts →
  update_last_message c i ts d = Ok (n, d') →
  (db_inv d' ∧ db_le d d') ∧ messages d' = messages d ∧
  conversations d' = alter (with_last_message i ts) c (conversations d).
Proof.
  intros Hi Hm Hmc Hts H. unfold update_last_message in H.
  destruct (inv_conversations _ Hi) as [Hk Hp Hc Hl Hb].
  destruct (conversations d !! c) as [cv|] eqn:E.
  2:{ destruct (messages_conv _ _ (inv_messages _ Hi) i m Hm) as [x Hx]. rewrite Hmc in Hx. congruence. }
  inv_checks. injection H as <- <-. split.
  2:{ split; [done|]. cbn. apply map_eq. intros k. destruct (decide (k = c)) as [->|].
      - by rewrite lookup_insert_eq, lookup_alter_eq, E.
      - by rewrite lookup_insert_ne, lookup_alter_ne. }
  apply set_conversations_ok; [done|..].
  - split; [apply map_Forall_update; [done|by apply (Hk c cv)]|by eapply unique_on_update|..];
      (apply map_Forall_update; [done|]).
    + by apply (Hc c cv).
    + intros j Hj. cbn in Hj. injection Hj as <-. exists m. cbn. by rewrite Hts.
    + by apply (Hb c cv).
  - by eapply rows_le_insert_upd; [apply _| |].
Qed.

(** ** connection_requests *)
Lemma insert_request_ok r d r' d' :
  db_inv d → insert_request r d = Ok (r', d') →
  (db_inv d' ∧ db_le d d') ∧ r' = store_request r ∧ connection_requests d' !! req_ID r = Some r'.
Proof.
  intros Hi H. unfold insert_request in H. cbv zeta in H. inv_checks. injection H as <- <-.
  cbn [store_request req_ID] in *. split; [|cbn; by rewrite lookup_insert_eq].
  destruct (inv_requests _ Hi) as [Hk Hu Hs He]. apply set_requests_ok; [done|].
  split; [by apply map_Forall_update|by apply taken_false|by apply map_Forall_update|].
  by apply map_Forall_update.
Qed.

Lemma update_request_status_ok id st now d n d' :
  db_inv d → update_request_status id st now d = Ok (n, d') → db_inv d' ∧ db_le d d'.
Proof.
  intros Hi H. unfold update_request_status in H. inv_checks.
  destruct (connection_requests d !! id) as [r|] eqn:E; injection H as <- <-; [|by apply unchanged_ok].
  destruct (inv_requests _ Hi) as [Hk Hu Hs He]. apply set_requests_ok; [done|].
  split; [apply map_Forall_update; [done|by apply (Hk id r)]|by eapply unique_on_update|..];
    (apply map_Forall_update; [done|]).
  - by apply (Hs id r).
  - destruct (He id r E) as (? & ? & ?). done.
Qed.

(** ** blacklist_entries *)
Lemma insert_entry_ok e d e' d' :
  db_inv d → insert_entry e d = Ok (e', d') →
  (db_inv d' ∧ db_le d d') ∧ e' = store_entry e ∧ blacklist_entries d' !! entry_ID e = Some e'.
Proof.
  intros Hi H. unfold insert_entry in H. cbv zeta in H. inv_checks. injection H as <- <-.
  cbn [store_entry entry_ID] in *. split; [|cbn; by rewrite lookup_insert_eq].
  destruct (inv_blacklist _ Hi) as [Hk Hu He]. apply set_blacklist_ok; [done|].
  split; [by apply map_Forall_update|by apply taken_false|by apply map_Forall_update].
Qed.

Lemma delete_entry_ok f fk t tk d n d' :
  db_inv d → delete_entry f fk t tk d = Ok (n, d') →
  (db_inv d' ∧ db_le d d') ∧ exists_row (entry_between f fk t tk) (blacklist_entries d') = false.
Proof.
  intros Hi H. unfold delete_entry in H. inv_checks. injection H as <- <-. split.
  - destruct (inv_blacklist _ Hi) as [Hk Hu He].
    pose proof (delete_where_subseteq (entry_between f fk t tk) (blacklist_entries d)) as Hs.
    apply set_blacklist_ok; [done|].
    split; [by eapply map_Forall_subseteq|by eapply unique_on_subseteq|by eapply map_Forall_subseteq].
  - cbn. apply exists_row_false. intros k x Hx. by apply map_lookup_filter_Some in Hx as [_ Hx].
Qed.
End Statements.
