(* ===== verification/World.v ===== *)
(** * Programs over a shared world

    The server's goroutines share one database, one rate limiter and the
    outside.  A Go function that talks to them is a [prog]: a tree of atomic
    actions on the [World], so that two of them can be interleaved action by
    action.  [run] executes one alone; [pool_step] interleaves any number.

    Everything the program does not decide comes from the environment [Env],
    indexed by the number of actions executed so far: the clock, the random
    identifiers and bytes, the mail gateway, and the faults of the database
    connection.  A statement may fail before it reaches the server or after
    the server has executed it ([FailAfter]: the client sees an error, the
    effect stays).

    [wp p Q w] is the rely-guarantee weakest precondition of [p]: before each
    of its actions the others may move the database to any later state that
    satisfies the invariant; each action keeps the invariant and only moves
    the database to a later state; the result satisfies [Q]. *)

From S2P Require Import Prelude.
From S2P Require Import GoStrings.
From S2P Require Import GoTime.
From S2P Require Import GoValue.
From S2P Require Import Float64.
From S2P Require Import RateLimit.
From S2P Require Import Uuid.
From S2P Require Import Models.
From S2P Require Import Schema.
From S2P Require Import Invariant.

Open Scope string_scope.
Open Scope Z_scope.

(** The programs that keep the invariant (see [behaves] below). *)
Create HintDb behaves.

Inductive fault := NoFault | FailBefore | FailAfter.

(** [email.Message] *)
Record Email := MkEmail { mail_To : string; mail_Subject : string; mail_Text : string; mail_HTML : string }.

Class Env `{U : UuidPkg} := {
  (** [time.Now] and SQL's [NOW()] *)
  env_now : nat → Z;
  (** [uuid.New] *)
  env_uuid : nat → uuid;
  (** [rand.Read] of so many bytes *)
  env_random : nat → nat → result goerr string;
  (** the connection, at a statement; at the k-th request of a transaction *)
  env_fault : nat → fault;
  env_tx_fault : nat → nat → fault;
  (** the mail gateway: [Some err] refuses *)
  env_mail : nat → option goerr
}.

Section World.
Context {U : UuidPkg} {C : Citext} {E : Env}.

Record World := MkWorld {
  w_db : DB;
  (** the number of actions so far *)
  w_steps : nat;
  w_outbox : list Email;
  w_limiter : Ratelimit.Limiter;
  (** the increments of the metric [RateLimited], newest first *)
  w_rate_limited : list (string * string)
}.

Definition set_db (w : World) (d : DB) : World :=
  MkWorld d (w_steps w) (w_outbox w) (w_limiter w) (w_rate_limited w).
Definition tick (w : World) : World :=
  MkWorld (w_db w) (S (w_steps w)) (w_outbox w) (w_limiter w) (w_rate_limited w).

Inductive prog (A : Type) : Type :=
| Ret (a : A)
| Act {B : Type} (op : World → B * World) (k : B → prog A).
Arguments Ret {A} a.
Arguments Act {A B} op k.

Fixpoint bind {A B} (p : prog A) (f : A → prog B) : prog B :=
  match p with
  | Ret a => f a
  | Act op k => Act op (λ b, bind (k b) f)
  end.

(** An atomic action, told its own index. *)
Definition act {A} (f : nat → World → A * World) : prog A :=
  Act (λ w, let '(a, w') := f (w_steps w) w in (a, tick w')) Ret.

(** ** The actions *)
Definition time_Now : prog Z := act (λ n w, (env_now n, w)).
Definition uuid_New : prog uuid := act (λ n w, (env_uuid n, w)).
Definition rand_Read (len : nat) : prog (result goerr string) := act (λ n w, (env_random n len, w)).

(** [Sender.SendEmail] *)
Definition SendEmail (m : Email) : prog (option goerr) :=
  act (λ n w,
    match env_mail n with
    | Some e => (Some e, w)
    | None => (None, MkWorld (w_db w) (w_steps w) (w_outbox w ++ [m]) (w_limiter w) (w_rate_limited w))
    end).

(** One statement: its result, and whether the connection delivered it. *)
Definition exec_op {A} (f : Z → DB → result pg_error (A * DB)) (n : nat) (w : World)
    : result goerr A * World :=
  match env_fault n with
  | FailBefore => (Err (DriverError "connection lost"), w)
  | ft =>
      match f (env_now n) (w_db w) with
      | Err e => (Err (PgError e), w)
      | Ok (a, d') =>
          (match ft with
           | FailAfter => Err (DriverError "connection lost")
           | _ => Ok a
           end, set_db w d')
      end
  end.

(** [Pool().Exec]: the number of rows affected. *)
Definition Exec (f : Z → DB → result pg_error (nat * DB)) : prog (result goerr nat) := act (exec_op f).

(** [Pool().QueryRow(...).Scan] of a statement that writes. *)
Definition QueryRow {A} (f : Z → DB → result pg_error (option A * DB)) : prog (result goerr A) :=
  bind (act (exec_op f)) (λ r,
    Ret (match r with
         | Ok (Some a) => Ok a
         | Ok None => Err ErrNoRows
         | Err e => Err e
         end)).

(** The same for a [SELECT]. *)
Definition SelectRow {A} (f : Z → DB → result pg_error (option A)) : prog (result goerr A) :=
  QueryRow (λ t d, match f t d with Ok a => Ok (a, d) | Err e => Err e end).

(** [Pool().Query] and the loop over [rows.Next]: the error of [Query]
    itself, or the rows read and [rows.Err()].  What the server reports
    arrives with the rows. *)
Definition Query {A} (f : Z → DB → result pg_error (list A)) : prog (result goerr (list A * option goerr)) :=
  act (λ n w,
    (match env_fault n with
     | FailBefore => Err (DriverError "connection lost")
     | FailAfter => Ok ([], Some (DriverError "connection lost"))
     | NoFault => match f (env_now n) (w_db w) with
                  | Ok l => Ok (l, None)
                  | Err e => Ok ([], Some (PgError e))
                  end
     end, w)).

(** ** Alone *)
Fixpoint run {A} (p : prog A) (w : World) : A * World :=
  match p with
  | Ret a => (a, w)
  | Act op k => let '(b, w') := op w in run (k b) w'
  end.

Lemma run_bind {A B} (p : prog A) (f : A → prog B) w :
  run (bind p f) w = let '(a, w') := run p w in run (f a) w'.
Proof.
  revert w. induction p as [a|B' op k IH]; intros w; simpl; [done|].
  destruct (op w) as [b w']. apply IH.
Qed.

(** A statement alone, on a connection without faults. *)
Lemma run_exec {A} (f : Z → DB → result pg_error (A * DB)) w :
  env_fault (w_steps w) = NoFault →
  run (act (exec_op f)) w =
    match f (env_now (w_steps w)) (w_db w) with
    | Ok (a, d') => (Ok a, tick (set_db w d'))
    | Err e => (Err (PgError e), tick w)
    end.
Proof.
  intros Hf. cbn. unfold exec_op. rewrite Hf. by destruct (f _ _) as [[a d']|e].
Qed.

(** A statement alone, whatever the connection does. *)
Lemma run_exec_cases {A} (f : Z → DB → result pg_error (A * DB)) w r w' :
  run (act (exec_op f)) w = (r, w') →
  w_steps w' = S (w_steps w) ∧
  ((∃ e, r = Err e) ∧ w_db w' = w_db w ∨
   ∃ a, f (env_now (w_steps w)) (w_db w) = Ok (a, w_db w') ∧ (r = Ok a ∨ ∃ e, r = Err e)).
Proof.
  cbn. unfold exec_op.
  destruct (env_fault _), (f _ _) as [[a d']|e]; cbn; intros [= <- <-]; split; eauto 6.
Qed.

Lemma run_QueryRow {A} (f : Z → DB → result pg_error (option A * DB)) w :
  env_fault (w_steps w) = NoFault →
  run (QueryRow f) w =
    match f (env_now (w_steps w)) (w_db w) with
    | Ok (Some a, d') => (Ok a, tick (set_db w d'))
    | Ok (None, d') => (Err ErrNoRows, tick (set_db w d'))
    | Err e => (Err (PgError e), tick w)
    end.
Proof.
  intros Hf. unfold QueryRow. rewrite run_bind, run_exec by done.
  by destruct (f _ _) as [[[a|] d']|e].
Qed.

Lemma run_time_Now w : run time_Now w = (env_now (w_steps w), tick w).
Proof. done. Qed.

Lemma run_uuid_New w : run uuid_New w = (env_uuid (w_steps w), tick w).
Proof. done. Qed.

Lemma set_db_same w : set_db w (w_db w) = w.
Proof. by destruct w. Qed.

Lemma run_SelectRow {A} (f : Z → DB → result pg_error (option A)) w :
  env_fault (w_steps w) = NoFault →
  run (SelectRow f) w =
    (match f (env_now (w_steps w)) (w_db w) with
     | Ok (Some a) => Ok a
     | Ok None => Err ErrNoRows
     | Err e => Err (PgError e)
     end, tick w).
Proof.
  intros Hf. unfold SelectRow. rewrite run_QueryRow by done.
  destruct (f _ _) as [[a|]|e]; by rewrite ?set_db_same.
Qed.

Lemma run_QueryRow_cases {A} (f : Z → DB → result pg_error (option A * DB)) w r w' :
  run (QueryRow f) w = (r, w') →
  w_steps w' = S (w_steps w) ∧
  ((∃ e, r = Err e) ∧ w_db w' = w_db w ∨
   ∃ a, f (env_now (w_steps w)) (w_db w) = Ok (a, w_db w') ∧
     ((∃ x, a = Some x ∧ r = Ok x) ∨ ∃ e, r = Err e)).
Proof.
  unfold QueryRow. rewrite run_bind. destruct (run (act (exec_op f)) w) as [r0 w0] eqn:E0.
  apply run_exec_cases in E0 as (Hs & Hc). cbn. intros [= <- <-]. split; [done|].
  destruct Hc as [([e ->] & Hdb)|(a & Hf & [->|[e ->]])]; [by left; eauto|..]; right; exists a;
    (split; [done|]); [|by right; eauto]. destruct a as [x|]; eauto.
Qed.

Lemma run_SelectRow_cases {A} (f : Z → DB → result pg_error (option A)) w r w' :
  run (SelectRow f) w = (r, w') →
  w_steps w' = S (w_steps w) ∧ w_db w' = w_db w ∧
  ((∃ e, r = Err e) ∨ ∃ x, f (env_now (w_steps w)) (w_db w) = Ok (Some x) ∧ r = Ok x).
Proof.
  intros H. apply run_QueryRow_cases in H as (Hs & Hc). split; [done|].
  destruct Hc as [(? & ?)|(a & Hf & Hc)]; [by auto|].
  destruct (f _ _) as [o|e]; [|done]. injection Hf as -> Hdb. split; [done|].
  destruct Hc as [(x & -> & ->)|?]; eauto.
Qed.

(** [alone p w Q]: executed alone from [w], [p] ends with [Q]. *)
Definition alone {A} (p : prog A) (w : World) (Q : A → World → Prop) : Prop :=
  Q (run p w).1 (run p w).2.

Lemma alone_bind {A B} (p : prog A) (f : A → prog B) w Q :
  alone p w (λ a w', alone (f a) w' Q) → alone (bind p f) w Q.
Proof. unfold alone. rewrite run_bind. by destruct (run p w). Qed.

Lemma alone_mono {A} (p : prog A) w (P Q : A → World → Prop) :
  (∀ a w', P a w' → Q a w') → alone p w P → alone p w Q.
Proof. unfold alone. auto. Qed.

Lemma alone_ret {A} (a : A) w (Q : A → World → Prop) : Q a w → alone (Ret a) w Q.
Proof. done. Qed.

(** ** Together *)
Definition world_inv (w : World) : Prop := db_inv (w_db w).
Definition world_le (w w' : World) : Prop := db_le (w_db w) (w_db w').

#[global] Instance world_le_preorder : PreOrder world_le.
Proof.
  split; [intros w; unfold world_le; reflexivity|].
  intros w1 w2 w3 ??. unfold world_le in *. by etransitivity.
Qed.

Lemma world_le_db w w' : w_db w = w_db w' → world_le w w'.
Proof. unfold world_le. intros ->. reflexivity. Qed.

Fixpoint wp {A} (p : prog A) (Q : A → World → Prop) (w : World) : Prop :=
  match p with
  | Ret a => Q a w
  | Act op k =>
      ∀ w', world_le w w' → world_inv w' →
        world_inv (op w').2 ∧ world_le w' (op w').2 ∧ wp (k (op w').1) Q (op w').2
  end.

Lemma wp_mono {A} (p : prog A) (Q Q' : A → World → Prop) w :
  (∀ a w, Q a w → Q' a w) → wp p Q w → wp p Q' w.
Proof.
  intros HQ. revert w. induction p as [a|B op k IH]; intros w; simpl; [apply HQ|].
  intros Hw w' Hle Hinv. destruct (Hw w' Hle Hinv) as (? & ? & ?). auto.
Qed.

Lemma wp_bind {A B} (p : prog A) (f : A → prog B) Q w :
  wp p (λ a w, wp (f a) Q w) w → wp (bind p f) Q w.
Proof.
  revert w. induction p as [a|B' op k IH]; intros w; simpl; [done|].
  intros Hw w' Hle Hinv. destruct (Hw w' Hle Hinv) as (? & ? & ?). auto.
Qed.

(** What holds at the start still holds of the start, and the end is later. *)
Lemma wp_frame {A} (p : prog A) Q w w0 :
  world_le w0 w → wp p Q w → wp p (λ a w', Q a w' ∧ world_le w0 w') w.
Proof.
  revert w. induction p as [a|B op k IH]; intros w Hle; simpl; [done|].
  intros Hw w' Hle' Hinv. destruct (Hw w' Hle' Hinv) as (? & ? & ?).
  split; [done|]. split; [done|]. apply IH; [|done]. by do 2 (etransitivity; [done|]).
Qed.

(** An action that does not touch the database. *)
Lemma wp_act_pure {A} (f : nat → World → A * World) Q w :
  (∀ n w', w_db (f n w').2 = w_db w') →
  (∀ n w' w'', world_le w w' → world_inv w' → w_db w'' = w_db w' → Q (f n w').1 w'') →
  wp (act f) Q w.
Proof.
  intros Hf HQ w' Hle Hinv. cbn.
  pose proof (Hf (w_steps w') w') as Hdb. pose proof (HQ (w_steps w') w') as HQ'.
  destruct (f (w_steps w') w') as [a w'']. cbn in *.
  unfold world_inv, world_le in *. cbn. rewrite Hdb.
  split; [done|]. split; [reflexivity|]. by apply HQ'.
Qed.

(** A statement: it must keep the invariant and only move forward. *)
Lemma wp_exec {A} (f : Z → DB → result pg_error (A * DB)) (Q : result goerr A → World → Prop) w :
  (∀ t d a d', db_inv d → db_le (w_db w) d → f t d = Ok (a, d') → db_inv d' ∧ db_le d d') →
  (∀ t w' w'' a, world_le w w' → world_inv w' → f t (w_db w') = Ok (a, w_db w'') →
     world_inv w'' → Q (Ok a) w'') →
  (∀ w'' e, world_le w w'' → world_inv w'' → e ≠ ErrNoRows → Q (Err e) w'') →
  wp (act (exec_op f)) Q w.
Proof.
  intros Hf Hok Herr w' Hle Hinv. cbn. unfold exec_op.
  destruct (env_fault (w_steps w')) eqn:Ef.
  2:{ cbn. split; [exact Hinv|]. split; [by apply world_le_db|].
      apply Herr; [exact Hle|exact Hinv|done]. }
  all: destruct (f (env_now (w_steps w')) (w_db w')) as [[a d']|e] eqn:E1; cbn;
    [|split; [exact Hinv|]; split; [by apply world_le_db|]; apply Herr; [exact Hle|exact Hinv|done]].
  all: destruct (Hf _ _ _ _ Hinv Hle E1) as [Hi Hl];
    (split; [exact Hi|]); (split; [exact Hl|]).
  - by eapply Hok; [exact Hle|exact Hinv|exact E1|].
  - apply Herr; [|exact Hi|done]. unfold world_le in *. cbn. by etransitivity.
Qed.

Lemma wp_QueryRow {A} (f : Z → DB → result pg_error (option A * DB)) (Q : result goerr A → World → Prop) w :
  (∀ t d a d', db_inv d → db_le (w_db w) d → f t d = Ok (a, d') → db_inv d' ∧ db_le d d') →
  (∀ t w' w'' a, world_le w w' → world_inv w' → f t (w_db w') = Ok (Some a, w_db w'') →
     world_inv w'' → Q (Ok a) w'') →
  (∀ w'' e, world_le w w'' → world_inv w'' → Q (Err e) w'') →
  wp (QueryRow f) Q w.
Proof.
  intros Hf Hok Herr. unfold QueryRow. apply wp_bind, wp_exec; [done|..]; cbn.
  - intros t w' w'' [a|] Hle Hinv Heq Hinv''; [by eapply Hok|]. apply Herr; [|done].
    destruct (Hf t (w_db w') None (w_db w'')) as [_ Hl]; try done.
    unfold world_le in *. by etransitivity.
  - intros. by apply Herr.
Qed.

Lemma alone_pure {A} (f : nat → World → A * World) w (Q : A → World → Prop) :
  (∀ n w', w_db (f n w').2 = w_db w') →
  (∀ a w', w_db w' = w_db w → w_steps w' = S (w_steps (f (w_steps w) w).2) → Q a w') → alone (act f) w Q.
Proof.
  intros Hf HQ. unfold alone. cbn. specialize (Hf (w_steps w) w).
  destruct (f (w_steps w) w) as [a w'] eqn:Ea. cbn in *. by apply HQ.
Qed.

(** A [SELECT] for one row: what it returns is in the database. *)
Lemma wp_SelectRow {A} (f : Z → DB → result pg_error (option A)) (Q : result goerr A → World → Prop) w :
  (∀ t w' a, world_le w w' → world_inv w' → f t (w_db w') = Ok (Some a) → Q (Ok a) w') →
  (∀ w' e, world_le w w' → world_inv w' → Q (Err e) w') →
  wp (SelectRow f) Q w.
Proof.
  intros Hok Herr. unfold SelectRow. apply wp_QueryRow; [..|done].
  - intros t d a d' Hd _ H. destruct (f t d); [|done]. injection H as <- <-. split; [done|reflexivity].
  - intros t w' w'' a Hle Hinv H Hinv''. destruct (f t (w_db w')) as [o|] eqn:Ef; [|done].
    injection H as -> Hdb. rewrite Hdb in Ef. eapply (Hok t w''); try done.
    unfold world_le in *. by rewrite <-Hdb.
Qed.

Lemma wp_Query {A} (f : Z → DB → result pg_error (list A))
    (Q : result goerr (list A * option goerr) → World → Prop) w :
  (∀ t w' l, world_le w w' → world_inv w' → f t (w_db w') = Ok l → Q (Ok (l, None)) w') →
  (∀ w' e, world_le w w' → world_inv w' → Q (Err e) w') →
  (∀ w' e, world_le w w' → world_inv w' → Q (Ok ([], Some e)) w') →
  wp (Query f) Q w.
Proof.
  intros Hok He1 He2. apply wp_act_pure; [done|]. cbn.
  intros n w' w'' Hle Hinv Hdb. assert (world_le w w'') as Hle' by (unfold world_le in *; by rewrite Hdb).
  assert (world_inv w'') as Hinv' by (unfold world_inv in *; by rewrite Hdb).
  destruct (env_fault n); [|by apply He1|by apply He2].
  destruct (f (env_now n) (w_db w')) as [l|e] eqn:Ef; [|by apply He2].
  apply (Hok (env_now n)); try done. by rewrite Hdb.
Qed.

Lemma wp_run {A} (p : prog A) Q w :
  world_inv w → wp p Q w →
  Q (run p w).1 (run p w).2 ∧ world_inv (run p w).2 ∧ world_le w (run p w).2.
Proof.
  revert w. induction p as [a|B op k IH]; intros w Hinv Hw; simpl.
  - split; [done|]. split; [done|]. reflexivity.
  - destruct (Hw w) as (Hi & Hl & Hk); [reflexivity|done|].
    destruct (op w) as [b w']. cbn in *. destruct (IH b w' Hi Hk) as (? & ? & ?).
    split; [done|]. split; [done|]. by etransitivity.
Qed.

(** ** Specifications

    [spec p w Q]: started at [w], [p] keeps the invariant and moves forward
    under any interference, and its result satisfies [Q]. *)
Definition spec {A} (p : prog A) (w : World) (Q : A → World → Prop) : Prop :=
  world_inv w → wp p (λ a w', world_le w w' ∧ world_inv w' ∧ Q a w') w.

(** A postcondition that speaks of the successful results only. *)
Definition on_ok {A} (P : A → World → Prop) (r : result goerr A) (w : World) : Prop :=
  match r with Ok a => P a w | Err _ => True end.

Definition any_result {A} (r : A) (w : World) : Prop := True.

Lemma spec_ret {A} (a : A) w (Q : A → World → Prop) : Q a w → spec (Ret a) w Q.
Proof. intros HQ Hi. cbn. split; [reflexivity|done]. Qed.

Lemma spec_mono {A} (p : prog A) w (P Q : A → World → Prop) :
  (∀ a w', world_le w w' → P a w' → Q a w') → spec p w P → spec p w Q.
Proof.
  intros HPQ Hp Hi. eapply wp_mono; [|by apply Hp]. cbn. intros a w' (? & ? & ?). auto.
Qed.

Lemma spec_any {A} (p : prog A) w (P : A → World → Prop) : spec p w P → spec p w any_result.
Proof. by apply spec_mono. Qed.

Lemma spec_bind {A B} (p : prog A) (f : A → prog B) w P (Q : B → World → Prop) :
  spec p w P → (∀ a w', world_le w w' → P a w' → spec (f a) w' Q) → spec (bind p f) w Q.
Proof.
  intros Hp Hf Hi. apply wp_bind. eapply wp_mono; [|by apply Hp]. cbn.
  intros a w' (Hle & Hi' & HP). eapply wp_mono; [|by apply Hf]. cbn.
  intros b w'' (? & ? & ?). split; [by etransitivity|done].
Qed.

Lemma spec_try {A B} (p : prog (result goerr A)) (f : A → prog (result goerr B)) w P Q :
  spec p w (on_ok P) → (∀ a w', world_le w w' → P a w' → spec (f a) w' (on_ok Q)) →
  spec (bind p (λ r, match r with Ok a => f a | Err e => Ret (Err e) end)) w (on_ok Q).
Proof.
  intros Hp Hf. eapply spec_bind; [exact Hp|]. intros [a|e] w' Hle HP; [by apply Hf|].
  by apply spec_ret.
Qed.

Lemma spec_try_any {A B} (p : prog (result goerr A)) (f : A → prog (result goerr B)) w Q :
  spec p w any_result → (∀ a w', world_le w w' → spec (f a) w' (on_ok Q)) →
  spec (bind p (λ r, match r with Ok a => f a | Err e => Ret (Err e) end)) w (on_ok Q).
Proof.
  intros Hp Hf. eapply spec_try; [|intros a w' Hle _; by apply Hf].
  eapply (spec_mono _ _ any_result (on_ok (λ _ _, True))); [|done]. by intros [].
Qed.

Lemma spec_act_pure {A} (f : nat → World → A * World) w (Q : A → World → Prop) :
  (∀ n w', w_db (f n w').2 = w_db w') →
  (∀ n w' w'', w_db w'' = w_db w' → Q (f n w').1 w'') → spec (act f) w Q.
Proof.
  intros Hf HQ Hi. apply wp_act_pure; [done|]. intros n w' w'' Hle Hi' Hdb.
  split; [unfold world_le in *; by rewrite Hdb|]. split; [unfold world_inv in *; by rewrite Hdb|].
  by apply (HQ n w').
Qed.

Lemma spec_time_Now w : spec time_Now w any_result.
Proof. by apply spec_act_pure. Qed.

Lemma spec_uuid_New w : spec uuid_New w any_result.
Proof. by apply spec_act_pure. Qed.

Lemma spec_Exec (f : Z → DB → result pg_error (nat * DB)) w (P : DB → Prop) :
  (∀ t d n d', db_inv d → db_le (w_db w) d → f t d = Ok (n, d') → (db_inv d' ∧ db_le d d') ∧ P d') →
  spec (Exec f) w (on_ok (λ _ w', P (w_db w'))).
Proof.
  intros Hf Hi. apply wp_exec.
  - intros t d n d' Hd Hle H. by destruct (Hf t d n d' Hd Hle H).
  - intros t w' w'' n Hle Hi' H Hi''. destruct (Hf t _ _ _ Hi' Hle H) as [[_ Hl] HP].
    split; [unfold world_le in *; by etransitivity|]. done.
  - intros w'' e Hle Hi'' _. done.
Qed.

Lemma spec_QueryRow {A} (f : Z → DB → result pg_error (option A * DB)) w (P : A → DB → Prop) :
  (∀ t d a d', db_inv d → db_le (w_db w) d → f t d = Ok (a, d') →
     (db_inv d' ∧ db_le d d') ∧ ∀ x, a = Some x → P x d') →
  spec (QueryRow f) w (on_ok (λ a w', P a (w_db w'))).
Proof.
  intros Hf Hi. apply wp_QueryRow.
  - intros t d n d' Hd Hle H. by destruct (Hf t d n d' Hd Hle H).
  - intros t w' w'' n Hle Hi' H Hi''. destruct (Hf t _ _ _ Hi' Hle H) as [[_ Hl] HP].
    split; [unfold world_le in *; by etransitivity|]. split; [done|]. by apply HP.
  - intros w'' e Hle Hi''. done.
Qed.

Lemma spec_SelectRow {A} (f : Z → DB → result pg_error (option A)) w (P : A → DB → Prop) :
  (∀ t d a, db_inv d → db_le (w_db w) d → f t d = Ok (Some a) → P a d) →
  spec (SelectRow f) w (on_ok (λ a w', P a (w_db w'))).
Proof.
  intros Hf Hi. apply wp_SelectRow; [|done].
  intros t w' a Hle Hi' H. split; [done|]. split; [done|]. by eapply Hf.
Qed.

Lemma spec_Query {A} (f : Z → DB → result pg_error (list A)) w (P : list A → DB → Prop) :
  (∀ t d l, db_inv d → db_le (w_db w) d → f t d = Ok l → P l d) →
  spec (Query f) w (on_ok (λ le w', match le with
                                     | (l, None) => P l (w_db w')
                                     | (_, Some _) => True end)).
Proof.
  intros Hf Hi. apply wp_Query; [|done|done].
  intros t w' l Hle Hi' H. split; [done|]. split; [done|]. by eapply Hf.
Qed.

(** On a connection without faults a [SELECT] for one row misses nothing: an
    error means that there was no row. *)
Lemma spec_SelectRow_misses {A} (f : Z → DB → result pg_error (option A)) w (P : A → DB → Prop) :
  (∀ t d a, db_inv d → db_le (w_db w) d → f t d = Ok (Some a) → P a d) →
  spec (SelectRow f) w (λ r w', match r with
    | Ok a => P a (w_db w')
    | Err _ => (∀ n, env_fault n = NoFault) → ∃ t, ¬ ∃ a, f t (w_db w') = Ok (Some a)
    end).
Proof.
  intros Hf Hi. unfold SelectRow, QueryRow. apply wp_bind. apply wp_act_pure.
  { intros n w'. unfold exec_op. by destruct (env_fault n), (f (env_now n) (w_db w')). }
  intros n w' w'' Hle Hi' Hdb. cbn.
  assert (world_le w w'') as Hle'' by (unfold world_le in *; by rewrite Hdb).
  assert (world_inv w'') as Hi'' by (unfold world_inv in *; by rewrite Hdb).
  unfold exec_op. destruct (env_fault n) eqn:Hn.
  - destruct (f (env_now n) (w_db w')) as [[a|]|e] eqn:Hr; cbn; (split; [done|]); (split; [done|]).
    + apply (Hf (env_now n)); [done|done|by rewrite Hdb].
    + intros _. exists (env_now n). rewrite Hdb, Hr. by intros [a Ha].
    + intros _. exists (env_now n). rewrite Hdb, Hr. by intros [a Ha].
  - cbn. split; [done|]. split; [done|]. intros Hno. by rewrite Hno in Hn.
  - destruct (f (env_now n) (w_db w')) as [[a|]|e] eqn:Hr; cbn; (split; [done|]); (split; [done|]);
      intros Hno; by rewrite Hno in Hn.
Qed.

(** ** Pools of goroutines *)
Section Pool.
Context {A : Type}.

(** [serves p]: a goroutine the server may start at any moment. *)
Variable serves : prog A → Prop.

Inductive pool_step : list (prog A) * World → list (prog A) * World → Prop :=
| step_thread ps1 ps2 B (op : World → B * World) k w :
    pool_step ((ps1 ++ Act op k :: ps2)%list, w) ((ps1 ++ k (op w).1 :: ps2)%list, (op w).2)
| step_spawn ps w p :
    serves p → pool_step (ps, w) ((ps ++ [p])%list, w).

(** A thread that satisfied its [wp] at an earlier world. *)
Definition thread_ok (w : World) (Q : A → World → Prop) (p : prog A) : Prop :=
  ∃ w0, world_le w0 w ∧ wp p Q w0.

Lemma thread_ok_later Q w w' p : world_le w w' → thread_ok w Q p → thread_ok w' Q p.
Proof. intros Hle (w0 & H0 & Hp). exists w0. split; [by etransitivity|done]. Qed.

Lemma threads_later Qs w w' ps :
  world_le w w' → Forall2 (thread_ok w) Qs ps → Forall2 (thread_ok w') Qs ps.
Proof. intros Hle Hf. eapply Forall2_impl; [exact Hf|]. intros Q p. by apply thread_ok_later. Qed.

Lemma pool_step_ok Q0 Qs ps w ps' w' :
  (∀ p w, serves p → world_inv w → wp p Q0 w) →
  pool_step (ps, w) (ps', w') →
  world_inv w → Forall2 (thread_ok w) Qs ps →
  world_inv w' ∧ world_le w w' ∧ ∃ n, Forall2 (thread_ok w') (Qs ++ replicate n Q0) ps'.
Proof.
  intros Hs Hst Hi Hf. inversion Hst as [ps1 ps2 B op k w1|ps1 w1 p Hp]; subst.
  - apply Forall2_app_inv_r in Hf as (Qs1 & Qs2 & Hf1 & Hf2 & ->).
    apply Forall2_cons_inv_r in Hf2 as (Q & Qs2' & (w0 & Hle & Hwp) & Hf2 & ->).
    destruct (Hwp w Hle Hi) as (Hi' & Hl' & Hk). split; [done|]. split; [done|].
    exists 0%nat. rewrite app_nil_r. apply Forall2_app; [by eapply threads_later|].
    apply Forall2_cons. split; [|by eapply threads_later].
    exists (op w).2. split; [reflexivity|done].
  - split; [done|]. split; [reflexivity|]. exists 1%nat.
    apply Forall2_app; [done|]. apply Forall2_cons. split; [|by apply Forall2_nil].
    exists w'. split; [reflexivity|]. by apply Hs.
Qed.

(** Whatever the interleaving, the invariant holds, the database only
    moved forward, and every goroutine is still on its way to its own
    postcondition. *)
Lemma pool_invariant Q0 Qs ps w ps' w' :
  (∀ p w, serves p → world_inv w → wp p Q0 w) →
  rtc pool_step (ps, w) (ps', w') →
  world_inv w → Forall2 (thread_ok w) Qs ps →
  world_inv w' ∧ world_le w w' ∧ ∃ n, Forall2 (thread_ok w') (Qs ++ replicate n Q0) ps'.
Proof.
  intros Hs Hrtc. remember (ps, w) as s eqn:Es. remember (ps', w') as s' eqn:Es'.
  revert Qs ps w Es. induction Hrtc as [s|s1 [ps2 w2] s3 Hst Hrtc IH]; intros Qs ps w Es Hi Hf.
  - rewrite Es in Es'. injection Es' as <- <-. split; [done|]. split; [reflexivity|].
    exists 0%nat. by rewrite app_nil_r.
  - subst s1. destruct (pool_step_ok _ _ _ _ _ _ Hs Hst Hi Hf) as (Hi2 & Hl2 & n & Hf2).
    destruct (IH Es' _ _ _ eq_refl Hi2 Hf2) as (Hi3 & Hl3 & n' & Hf3).
    split; [done|]. split; [by etransitivity|]. exists (n + n')%nat.
    by rewrite replicate_add, app_assoc.
Qed.

(** Running one thread to its end is a run of the pool. *)
Lemma pool_run ps1 p ps2 w :
  rtc pool_step ((ps1 ++ p :: ps2)%list, w) ((ps1 ++ Ret (run p w).1 :: ps2)%list, (run p w).2).
Proof.
  revert w. induction p as [a|B op k IH]; intros w; cbn; [done|].
  eapply rtc_l; [apply step_thread|]. destruct (op w) as [b w1] eqn:E1.
  cbn. apply (IH b w1).
Qed.

Lemma pool_run2 p1 p2 w :
  rtc pool_step ([p1; p2], w)
    ([Ret (run p1 w).1; Ret (run p2 (run p1 w).2).1], (run p2 (run p1 w).2).2).
Proof.
  etransitivity; [apply (pool_run [] p1 [p2])|]. apply (pool_run [Ret (run p1 w).1] p2 []).
Qed.
End Pool.

(** ** Any server

    [behaves p]: whatever the world, [p] keeps the invariant and only moves
    the database forward; every handler of the server does (file Server).
    In the following theorem the named goroutines [ps] run among any number
    of such others, started at any time. *)
Definition behaves {A} (p : prog A) : Prop := ∀ w, spec p w any_result.

Lemma behaves_bind {A B} (p : prog A) (f : A → prog B) :
  behaves p → (∀ a, behaves (f a)) → behaves (bind p f).
Proof. intros Hp Hf w. eapply spec_bind; [apply Hp|]. intros a w' _ _. apply Hf. Qed.

Lemma behaves_ret {A} (a : A) : behaves (Ret a).
Proof. intros w. by apply spec_ret. Qed.

Lemma behaves_run {A} (p : prog A) w : behaves p → world_inv w → world_inv (run p w).2.
Proof. intros Hp Hi. by apply (wp_run p _ w Hi (Hp w Hi)). Qed.

Lemma pool_posts {A} (Qs : list (A → World → Prop)) (ps ps' : list (prog A)) w w' :
  Forall2 (λ Q p, spec p w Q) Qs ps →
  world_inv w → rtc (pool_step behaves) (ps, w) (ps', w') →
  world_inv w' ∧ world_le w w' ∧
  ∀ i a Q, Qs !! i = Some Q → ps' !! i = Some (Ret a) → ∃ w0, world_le w0 w' ∧ Q a w0.
Proof.
  intros Hf Hi Hrtc.
  set (lift := λ (Q : A → World → Prop) a w', world_le w w' ∧ world_inv w' ∧ Q a w').
  destruct (pool_invariant behaves any_result (lift <$> Qs) ps w ps' w') as (Hi' & Hl' & n & Hf').
  - intros p w1 Hp Hi1. eapply wp_mono; [|by apply Hp]. done.
  - done.
  - done.
  - apply Forall2_fmap_l. eapply Forall2_impl; [exact Hf|]. intros Q p Hp. exists w.
    split; [reflexivity|]. by apply Hp.
  - split; [done|]. split; [done|]. intros i a Q HQ Hp.
    assert (((lift <$> Qs) ++ replicate n any_result)%list !! i = Some (lift Q)) as HQ'.
    { apply lookup_app_l_Some. by rewrite list_lookup_fmap, HQ. }
    destruct (Forall2_lookup_lr _ _ _ _ _ _ Hf' HQ' Hp) as (w0 & Hle & Hwp).
    destruct Hwp as (_ & _ & Hr). by exists w0.
Qed.
End World.

Arguments Ret {U A} a.
Arguments Act {U A B} op k.
#[global] Arguments bind : simpl never.
#[global] Arguments wp : simpl never.

(** [let! x := p in k] runs [p] and goes on with its result; [let? x := p in k]
    is the idiom [x, err := p; if err != nil { return err }]. *)
Notation "'let!' x ':=' p 'in' k" := (bind p (λ x, k))
  (at level 10, x name, p at level 100, k at level 200) : go_scope.
Notation "'let?' x ':=' p 'in' k" :=
  (bind p (λ r, match r with Ok x => k | Err e => Ret (Err e) end))
  (at level 10, x pattern, p at level 100, k at level 200) : go_scope.

(** Dispose of a guard that returns an error at once, and of a parse error. *)
Ltac refuse :=
  lazymatch goal with |- spec (if ?b then Ret _ else _) _ _ => destruct b; [by apply spec_ret|] end.
Ltac parse x H :=
  lazymatch goal with
  | |- spec (match ?r with Ok _ => _ | Err _ => Ret _ end) _ _ => destruct r as [x|?] eqn:H; [|by apply spec_ret]
  end.

(** ** An example world, for the witnesses

    A server without faults whose clock advances by one second per action,
    whose identifiers and random bytes are numbered by the action that draws
    them, on an initially empty database. *)
Module Example.
#[global] Instance citext : Citext := { citext_key := ascii_lower }.

#[global] Instance env : Env := {
  env_now n := 1700000000 * Second + Z.of_nat n * Second;
  env_uuid n := ascii_of_nat (S n);
  env_random n len := Ok (String.string_of_list_ascii (replicate len (ascii_of_nat n)));
  env_fault _ := NoFault;
  env_tx_fault _ _ := NoFault;
  env_mail _ := None
}.

Definition world (d : DB) : World :=
  MkWorld d 0 [] (Ratelimit.New Ratelimit.DefaultConfig) [].

Lemma empty_world_inv : world_inv (world empty_DB).
Proof. apply empty_inv. Qed.
End Example.
