(* ===== verification/Interfaces.v ===== *)
(** * The interfaces of the repositories

    The interfaces at the head of
    [backend/internal/persistence/repositories.go], as classes of operations,
    each with the laws the services rely on.  The services of [Auth],
    [Conversation] and [Registry] are written and verified against these; [RepositorySpecs]
    has the instances of PostgreSQL. *)

From S2P Require Import Prelude.
From S2P Require Import GoStrings.
From S2P Require Import GoTime.
From S2P Require Import GoValue.
From S2P Require Import Uuid.
From S2P Require Import Models.
From S2P Require Import Schema.
From S2P Require Import Invariant.
From S2P Require Import World.

Open Scope string_scope.
Open Scope Z_scope.

Module AgentRepository.
Section Interface.
Context {U : UuidPkg}.

Class AgentRepository := {
  Create : Agent → prog (result goerr Agent);
  GetByID : uuid → prog (result goerr Agent);
  Delete : uuid → prog (result goerr unit);
  ListAll : prog (result goerr (list Agent));
  ListByOwner : uuid → prog (result goerr (list Agent))
}.

(** A created agent is stored as it was given, an agent is found under its
    identifier, and the list is that of all agents, the newest first. *)
Class Laws {C : Citext} {R : AgentRepository} : Prop := {
  Create_spec a w : spec (Create a) w (on_ok (λ a' w', agents (w_db w') !! agent_ID a' = Some a' ∧
    agent_OwnerUserID a' = agent_OwnerUserID a ∧ agent_DisplayName a' = agent_DisplayName a ∧
    agent_APISecretHash a' = agent_APISecretHash a));
  GetByID_spec id w : spec (GetByID id) w (on_ok (λ a w', agents (w_db w') !! id = Some a));
  Delete_spec id : behaves (Delete id);
  ListAll_spec w : spec ListAll w (on_ok (λ l w', l = select_agents (w_db w')))
}.
End Interface.
End AgentRepository.

Module UserRepository.
Section Interface.
Context {U : UuidPkg}.

Class UserRepository := {
  Create : User → prog (result goerr User);
  GetByEmail : string → prog (result goerr User);
  GetByID : uuid → prog (result goerr User);
  SetVerificationToken : uuid → string → Z → prog (result goerr unit);
  VerifyEmail : string → prog (result goerr User);
  GetByVerificationToken : string → prog (result goerr User)
}.

(** A created user is stored with the address in lower case, a user is found
    as stored, and a token that was consumed is gone. *)
Class Laws {C : Citext} {UT : UnicodeTables} {R : UserRepository} : Prop := {
  Create_spec u w : spec (Create u) w (on_ok (λ u' w', users (w_db w') !! user_ID u' = Some u' ∧
    user_Email u' = ToLower (TrimSpace (user_Email u)) ∧
    user_PasswordHash u' = user_PasswordHash u ∧ user_EmailVerified u' = user_EmailVerified u));
  GetByEmail_spec email w : spec (GetByEmail email) w (on_ok (λ u w', users (w_db w') !! user_ID u = Some u));
  GetByID_spec id w : spec (GetByID id) w (on_ok (λ u w', users (w_db w') !! id = Some u));
  SetVerificationToken_spec id t e : behaves (SetVerificationToken id t e);
  VerifyEmail_spec t w : spec (VerifyEmail t) w (on_ok (λ u w', users (w_db w') !! user_ID u = Some u ∧
    user_EmailVerified u = true ∧ user_VerificationToken u = None))
}.
End Interface.
End UserRepository.

Module ConversationRepository.
Section Interface.
Context {U : UuidPkg}.

Class ConversationRepository := {
  Create : Conversation → prog (result goerr Conversation);
  GetByID : uuid → prog (result goerr Conversation);
  GetByGroupID : uuid → prog (result goerr Conversation);
  GetDirectByPair : uuid → uuid → prog (result goerr Conversation);
  UpdateGroupID : uuid → uuid → prog (result goerr unit);
  ListByParticipant : uuid → ParticipantType → prog (result goerr (list Conversation));
  ListByParticipantAndType : uuid → ParticipantType → ConversationType → prog (result goerr (list Conversation));
  ListItems : uuid → ParticipantType → option ConversationType → prog (result goerr (list ConversationListItem));
  ListUnreadByParticipant : uuid → ParticipantType → prog (result goerr (list ConversationListItem))
}.

(** A created conversation is stored as it was given, with no group; what is
    found for a pair names that pair; and a group is tied to the conversation
    it points to. *)
Class Laws {C : Citext} {R : ConversationRepository} : Prop := {
  Create_spec c w : conv_GroupID c = None →
    spec (Create c) w (on_ok (λ c' w', conversations (w_db w') !! conv_ID c' = Some c' ∧
      conv_Type c' = conv_Type c ∧ conv_IDLow c' = conv_IDLow c ∧ conv_IDHigh c' = conv_IDHigh c));
  GetDirectByPair_spec l h w : spec (GetDirectByPair l h) w (on_ok (λ c w',
    conversations (w_db w') !! conv_ID c = Some c ∧ conv_IDLow c = Some l ∧ conv_IDHigh c = Some h));
  UpdateGroupID_spec c g gr w : chat_groups (w_db w) !! g = Some gr → group_ConversationID gr = Some c →
    spec (UpdateGroupID c g) w any_result;
  ListItems_spec p k ty w :
    spec (ListItems p k ty) w (on_ok (λ l w', select_items p k ty (w_db w') = Ok l));
  ListUnread_spec p k w :
    spec (ListUnreadByParticipant p k) w (on_ok (λ l w', select_unread p k (w_db w') = Ok l))
}.
End Interface.
End ConversationRepository.

Module ConversationParticipantRepository.
Section Interface.
Context {U : UuidPkg}.

Class ConversationParticipantRepository := {
  Add : ConversationParticipant → prog (result goerr unit);
  Remove : uuid → uuid → ParticipantType → prog (result goerr unit);
  ListByConversation : uuid → prog (result goerr (list ConversationParticipant));
  UpdateMuted : uuid → uuid → ParticipantType → bool → prog (result goerr unit);
  UpdateLastRead : uuid → uuid → ParticipantType → uuid → prog (result goerr unit)
}.

(** A member that may be added is there afterwards, and one removed is not. *)
Class Laws {C : Citext} {R : ConversationParticipantRepository} : Prop := {
  Add_spec p w : member_ok (conversations (w_db w)) p →
    spec (Add p) w (on_ok (λ _ w', is_Some (participants (w_db w') !! part_key p)));
  Remove_spec c p k w : spec (Remove c p k) w (on_ok (λ _ w', participants (w_db w') !! (c, p, k) = None))
}.
End Interface.
End ConversationParticipantRepository.

Module ChatGroupRepository.
Section Interface.
Context {U : UuidPkg}.

Class ChatGroupRepository := {
  Create : ChatGroup → prog (result goerr ChatGroup);
  GetByID : uuid → prog (result goerr ChatGroup);
  ListAll : prog (result goerr (list ChatGroup));
  SetConversationID : uuid → uuid → prog (result goerr unit)
}.

(** A created group is stored as it was given, if its conversation can be the
    conversation of a group; a group is found under its identifier. *)
Class Laws {C : Citext} {R : ChatGroupRepository} : Prop := {
  Create_spec g w : group_conv_ok (conversations (w_db w)) g →
    spec (Create g) w (on_ok (λ g' w', chat_groups (w_db w') !! group_ID g' = Some g' ∧
      group_Name g' = group_Name g ∧ group_OwnerID g' = group_OwnerID g ∧
      group_ConversationID g' = group_ConversationID g));
  GetByID_spec id w : spec (GetByID id) w (on_ok (λ g w', chat_groups (w_db w') !! id = Some g))
}.
End Interface.
End ChatGroupRepository.

Module MessageRepository.
Section Interface.
Context {U : UuidPkg}.

Class MessageRepository := {
  Save : Message → prog (result goerr Message);
  GetByID : uuid → prog (result goerr Message);
  GetByConversation : uuid → Z → option Z → option uuid → prog (result goerr (list Message))
}.
End Interface.
End MessageRepository.

Module ConnectionRequestRepository.
Section Interface.
Context {U : UuidPkg}.

Class ConnectionRequestRepository := {
  Create : ConnectionRequest → prog (result goerr ConnectionRequest);
  GetPendingByTarget : uuid → EntityType → prog (result goerr (list ConnectionRequest));
  UpdateStatus : uuid → ConnectionRequestStatus → prog (result goerr unit);
  GetByFromAndTo : uuid → EntityType → uuid → EntityType → prog (result goerr ConnectionRequest)
}.
End Interface.
End ConnectionRequestRepository.

Module BlacklistRepository.
Section Interface.
Context {U : UuidPkg}.

Class BlacklistRepository := {
  Create : BlacklistEntry → prog (result goerr BlacklistEntry);
  Delete : uuid → EntityType → uuid → EntityType → prog (result goerr unit);
  IsBlocked : uuid → EntityType → uuid → EntityType → prog (result goerr bool);
  ListByEntity : uuid → EntityType → prog (result goerr (list BlacklistEntry))
}.
End Interface.
End BlacklistRepository.
