(* ===== verification/Repositories.v ===== *)
(** * The repositories

    [backend/internal/persistence/repositories.go]: one Module per repository,
    one definition per method.  A method is the program of its statements,
    with the defaults it fills in and the errors it wraps. *)

From S2P Require Import Prelude.
From S2P Require Import GoStrings.
From S2P Require Import GoTime.
From S2P Require Import GoValue.
From S2P Require Import Uuid.
From S2P Require Import Models.
From S2P Require Import Schema.
From S2P Require Import Invariant.
From S2P Require Import Statements.
From S2P Require Import World.
From S2P Require Import Interfaces.

Open Scope string_scope.
Open Scope Z_scope.

(** The tail of the functions [scanAgent], [scanMessage], ...: the name of the
    row and the result of [Scan]. *)
Definition scan {A} (name : string) (r : result goerr A) : result goerr A :=
  match r with
  | Ok a => Ok a
  | Err e => if errors_Is e ErrNoRows then Err ErrNotFound else Err (WrapError name e)
  end.

Definition wrap {A} (name : string) (r : result goerr A) : result goerr A :=
  match r with Ok a => Ok a | Err e => Err (WrapError name e) end.

(** [if err != nil { wrap }; if res.RowsAffected() == 0 { ErrNotFound }] *)
Definition affected (name : string) (r : result goerr nat) : result goerr unit :=
  match r with
  | Err e => Err (WrapError name e)
  | Ok 0%nat => Err ErrNotFound
  | Ok _ => Ok tt
  end.

(** [rows, err := Query; for rows.Next() {...}; rows.Err()] *)
Definition collect {A} (query iterate : string) (r : result goerr (list A * option goerr))
    : result goerr (list A) :=
  match r with
  | Err e => Err (WrapError query e)
  | Ok (_, Some e) => Err (WrapError iterate e)
  | Ok (l, None) => Ok l
  end.

(** A statement that cannot violate a constraint. *)
Definition total {A} (r : A) : result pg_error A := Ok r.

Section Defaults.
Context {U : UuidPkg} {C : Citext} {E : Env}.

(** [if x.ID == uuid.Nil { x.ID = uuid.New() }] *)
Definition fresh_ID (id : uuid) : prog uuid :=
  if bool_decide (id = uuid_Nil) then uuid_New else Ret id.

(** [if x.T.IsZero() { x.T = time.Now().UTC() }] *)
Definition fresh_time (t : Z) : prog Z := if IsZero t then time_Now else Ret t.
End Defaults.

(** The row scanners; what they do with the columns is in the type of the row. *)
Section Scanners.
Context {U : UuidPkg}.

Definition scanAgent (r : result goerr Agent) : result goerr Agent := scan "scan agent" r.
Definition scanConversation (r : result goerr Conversation) : result goerr Conversation := scan "scan conversation" r.
Definition scanMessage (r : result goerr Message) : result goerr Message := scan "scan message" r.
Definition scanConnectionRequest (r : result goerr ConnectionRequest) : result goerr ConnectionRequest :=
  scan "scan connection request" r.
Definition scanBlacklistEntry (r : result goerr BlacklistEntry) : result goerr BlacklistEntry :=
  scan "scan blacklist entry" r.
End Scanners.

Module Agents.
Section Repo.
Context {U : UuidPkg} {C : Citext} {E : Env}.

Definition Create (agent : Agent) : prog (result goerr Agent) :=
  let! id := fresh_ID (agent_ID agent) in
  let! now := fresh_time (agent_CreatedAt agent) in
  let agent := MkAgent id (agent_DisplayName agent) (agent_OwnerUserID agent)
                 (agent_APISecretHash agent) now in
  let! r := QueryRow (λ _ d, match insert_agent agent d with
                             | Ok (a, d') => Ok (Some a, d') | Err e => Err e end) in
  Ret (scanAgent r).

Definition GetByID (agentID : uuid) : prog (result goerr Agent) :=
  let! r := SelectRow (λ _ d, total (select_agent agentID d)) in
  Ret (scanAgent r).

Definition Delete (agentID : uuid) : prog (result goerr unit) :=
  let! r := Exec (λ _ d, total (delete_agent agentID d)) in
  Ret (affected "delete agent" r).

Definition ListAll : prog (result goerr (list Agent)) :=
  let! r := Query (λ _ d, total (select_agents d)) in
  Ret (collect "list agents" "iterate agents" r).

Definition ListByOwner (ownerUserID : uuid) : prog (result goerr (list Agent)) :=
  let! r := Query (λ _ d, total (select_agents_by_owner ownerUserID d)) in
  Ret (collect "list agents by owner" "iterate agents by owner" r).
End Repo.
End Agents.

Module Users.
Section Repo.
Context {U : UuidPkg} {C : Citext} {E : Env} {UT : UnicodeTables}.

Definition Create (user : User) : prog (result goerr User) :=
  let! id := fresh_ID (user_ID user) in
  let! now := fresh_time (user_CreatedAt user) in
  let user := MkUser id (ToLower (TrimSpace (user_Email user))) (user_PasswordHash user) now
                (user_EmailVerified user) (user_VerificationToken user)
                (user_VerificationTokenExpiresAt user) in
  let! r := QueryRow (λ _ d, match insert_user user d with
                             | Ok (u, d') => Ok (Some u, d') | Err e => Err e end) in
  Ret (wrap "create user" r).

Definition GetByEmail (email : string) : prog (result goerr User) :=
  let! r := SelectRow (λ _ d, total (select_user_by_email (ToLower (TrimSpace email)) d)) in
  Ret (scan "get user by email" r).

Definition GetByID (userID : uuid) : prog (result goerr User) :=
  let! r := SelectRow (λ _ d, total (select_user userID d)) in
  Ret (scan "get user by id" r).

Definition SetVerificationToken (userID : uuid) (token : string) (expiresAt : Z)
    : prog (result goerr unit) :=
  let! r := Exec (λ _ d, total (update_user_token userID token expiresAt d)) in
  Ret (affected "set verification token" r).

Definition VerifyEmail (token : string) : prog (result goerr User) :=
  let! r := QueryRow (λ now d, let '(l, d') := update_verify_email token now d in
                               total (head l, d')) in
  Ret (scan "verify email" r).

Definition GetByVerificationToken (token : string) : prog (result goerr User) :=
  let! r := SelectRow (λ now d, total (select_user_by_token token now d)) in
  Ret (scan "get user by verification token" r).
End Repo.
End Users.

Module Conversations.
Section Repo.
Context {U : UuidPkg} {C : Citext} {E : Env}.

Definition Create (conv : Conversation) : prog (result goerr Conversation) :=
  let! id := fresh_ID (conv_ID conv) in
  let! now := fresh_time (conv_CreatedAt conv) in
  let conv := MkConversation id (conv_Type conv) (conv_IDLow conv) (conv_IDHigh conv)
                (conv_GroupID conv) now (conv_LastMessageID conv) (conv_LastMessageAt conv) in
  let! r := QueryRow (λ _ d, match insert_conversation conv d with
                             | Ok (c, d') => Ok (Some c, d') | Err e => Err e end) in
  Ret (scanConversation r).

Definition GetByID (id : uuid) : prog (result goerr Conversation) :=
  let! r := SelectRow (λ _ d, total (select_conversation id d)) in
  Ret (scanConversation r).

Definition GetDirectByPair (idLow idHigh : uuid) : prog (result goerr Conversation) :=
  let! r := SelectRow (λ _ d, total (select_conversation_by_pair idLow idHigh d)) in
  Ret (scanConversation r).

Definition GetByGroupID (groupID : uuid) : prog (result goerr Conversation) :=
  let! r := SelectRow (λ _ d, total (select_conversation_by_group groupID d)) in
  Ret (scanConversation r).

Definition UpdateGroupID (conversationID groupID : uuid) : prog (result goerr unit) :=
  let! r := Exec (λ _ d, update_conversation_group conversationID groupID d) in
  Ret (affected "update conversation group_id" r).

Definition ListByParticipant (participantID : uuid) (kind : ParticipantType)
    : prog (result goerr (list Conversation)) :=
  let! r := Query (λ _ d, select_conversations_of participantID kind d) in
  Ret (collect "list conversations by participant" "iterate conversations by participant" r).

Definition ListByParticipantAndType (participantID : uuid) (kind : ParticipantType)
    (convType : ConversationType) : prog (result goerr (list Conversation)) :=
  let! r := Query (λ _ d, select_conversations_of_type participantID kind convType d) in
  Ret (collect "list conversations by participant and type"
         "iterate conversations by participant and type" r).

Definition ListItems (participantID : uuid) (kind : ParticipantType)
    (convType : option ConversationType) : prog (result goerr (list ConversationListItem)) :=
  let! r := Query (λ _ d, select_items participantID kind convType d) in
  Ret (collect "list conversation items" "iterate conversation list items" r).

Definition ListUnreadByParticipant (participantID : uuid) (kind : ParticipantType)
    : prog (result goerr (list ConversationListItem)) :=
  let! r := Query (λ _ d, select_unread participantID kind d) in
  Ret (collect "list unread conversations" "iterate unread conversation items" r).
End Repo.
End Conversations.

Module ConversationParticipants.
Section Repo.
Context {U : UuidPkg} {C : Citext} {E : Env}.

Definition Add (p : ConversationParticipant) : prog (result goerr unit) :=
  let! now := fresh_time (part_JoinedAt p) in
  let p := MkParticipant (part_ConversationID p) (part_ParticipantID p) (part_ParticipantKind p)
             (part_Muted p) (part_LastReadMessageID p) now in
  let! r := Exec (λ _ d, insert_participant p d) in
  Ret (check wrap "add conversation participant" r ;; Ok tt).

Definition Remove (conversationID participantID : uuid) (kind : ParticipantType)
    : prog (result goerr unit) :=
  let! r := Exec (λ _ d, delete_participant conversationID participantID kind d) in
  Ret (check wrap "remove conversation participant" r ;; Ok tt).

Definition ListByConversation (conversationID : uuid)
    : prog (result goerr (list ConversationParticipant)) :=
  let! r := Query (λ _ d, total (select_participants conversationID d)) in
  Ret (collect "list conversation participants" "iterate conversation participants" r).

Definition UpdateMuted (conversationID participantID : uuid) (kind : ParticipantType) (muted : bool)
    : prog (result goerr unit) :=
  let! r := Exec (λ _ d, update_participant conversationID participantID kind (with_muted muted) d) in
  Ret (affected "update conversation participant muted" r).

Definition UpdateLastRead (conversationID participantID : uuid) (kind : ParticipantType)
    (messageID : uuid) : prog (result goerr unit) :=
  let! r := Exec (λ _ d, update_participant conversationID participantID kind
                           (with_last_read messageID) d) in
  Ret (affected "update conversation participant last read" r).
End Repo.
End ConversationParticipants.

Module Groups.
Section Repo.
Context {U : UuidPkg} {C : Citext} {E : Env}.

Definition Create (group : ChatGroup) : prog (result goerr ChatGroup) :=
  let! id := fresh_ID (group_ID group) in
  let! now := fresh_time (group_CreatedAt group) in
  let group := MkGroup id (group_Name group) (group_OwnerID group) (group_ConversationID group) now in
  let! r := QueryRow (λ _ d, match insert_group group d with
                             | Ok (g, d') => Ok (Some g, d') | Err e => Err e end) in
  Ret (wrap "create chat group" r).

Definition GetByID (groupID : uuid) : prog (result goerr ChatGroup) :=
  let! r := SelectRow (λ _ d, total (select_group groupID d)) in
  Ret (scan "get chat group" r).

Definition ListAll : prog (result goerr (list ChatGroup)) :=
  let! r := Query (λ _ d, total (select_groups d)) in
  Ret (collect "list chat groups" "iterate chat groups" r).

Definition SetConversationID (groupID conversationID : uuid) : prog (result goerr unit) :=
  let! r := Exec (λ _ d, update_group_conversation groupID conversationID d) in
  Ret (affected "set chat group conversation id" r).
End Repo.
End Groups.

Module Messages.
Section Repo.
Context {U : UuidPkg} {C : Citext} {E : Env}.

(** The transaction of [Save]: nothing is visible, and nothing remains,
    unless [Commit] reaches the server. *)
Definition save_tx (message : Message) (n : nat) (w : World) : result goerr Message * World :=
  let lost k := match env_tx_fault n k with NoFault => false | _ => true end in
  let conn := DriverError "connection lost" in
  if lost 0%nat then (Err (WrapError "begin tx" conn), w) else
  match insert_message message (w_db w) with
  | Err e => (scanMessage (Err (PgError e)), w)
  | Ok (out, d1) =>
      if lost 1%nat then (scanMessage (Err conn), w) else
      match update_last_message (msg_ConversationID out) (msg_ID out) (msg_Timestamp out) d1 with
      | Err e => (Err (WrapError "update conversation last message" (PgError e)), w)
      | Ok (_, d2) =>
          if lost 2%nat then (Err (WrapError "update conversation last message" conn), w) else
          match env_tx_fault n 3%nat with
          | FailBefore => (Err (WrapError "commit tx" conn), w)
          | FailAfter => (Err (WrapError "commit tx" conn), set_db w d2)
          | NoFault => (Ok out, set_db w d2)
          end
      end
  end.

Definition Save (message : Message) : prog (result goerr Message) :=
  let! ts := fresh_time (msg_Timestamp message) in
  let message := MkMessage (msg_ID message) (msg_FromID message) (msg_ConversationID message)
                   (msg_ParticipantKind message) (msg_Tag message) (msg_Content message)
                   (msg_Metadata message) ts in
  if match msg_Metadata message with Some md => json_encodable (AMap md) | None => true end
  then act (save_tx message)
  else Ret (Err (WrapError "marshal message metadata" (ExternalError "unsupported value"))).

Definition GetByID (messageID : uuid) : prog (result goerr Message) :=
  let! r := SelectRow (λ _ d, total (select_message messageID d)) in
  Ret (scanMessage r).

Definition GetByConversation (conversationID : uuid) (limit : Z) (sinceTS : option Z)
    (sinceID : option uuid) : prog (result goerr (list Message)) :=
  let limit := if limit <=? 0 then 50 else limit in
  let! r := Query (λ _ d, total (select_messages conversationID limit sinceTS sinceID d)) in
  Ret (collect "get messages by conversation" "iterate messages by conversation" r).
End Repo.
End Messages.

Module ConnectionRequests.
Section Repo.
Context {U : UuidPkg} {C : Citext} {E : Env}.

Definition Create (req : ConnectionRequest) : prog (result goerr ConnectionRequest) :=
  let! id := fresh_ID (req_ID req) in
  let! now := time_Now in
  let created := if IsZero (req_CreatedAt req) then now else req_CreatedAt req in
  let updated := if IsZero (req_UpdatedAt req) then now else req_UpdatedAt req in
  let status := if String.eqb (req_Status req) "" then ConnectionRequestStatusPending
                else req_Status req in
  let req := MkRequest id (req_SenderID req) (req_FromID req) (req_FromKind req) (req_ToID req)
               (req_ToKind req) status created updated in
  let! r := QueryRow (λ _ d, match insert_request req d with
                             | Ok (x, d') => Ok (Some x, d') | Err e => Err e end) in
  Ret (scanConnectionRequest r).

Definition GetPendingByTarget (toID : uuid) (toKind : EntityType)
    : prog (result goerr (list ConnectionRequest)) :=
  let! r := Query (λ _ d, select_pending toID toKind d) in
  Ret (collect "get pending connection requests" "iterate pending connection requests" r).

Definition UpdateStatus (requestID : uuid) (status : ConnectionRequestStatus)
    : prog (result goerr unit) :=
  let! r := Exec (λ now d, update_request_status requestID status now d) in
  Ret (affected "update connection request status" r).

Definition GetByFromAndTo (fromID : uuid) (fromKind : EntityType) (toID : uuid) (toKind : EntityType)
    : prog (result goerr ConnectionRequest) :=
  let! r := SelectRow (λ _ d, select_request_between fromID fromKind toID toKind d) in
  Ret (scanConnectionRequest r).
End Repo.
End ConnectionRequests.

Module Blacklist.
Section Repo.
Context {U : UuidPkg} {C : Citext} {E : Env}.

Definition Create (entry : BlacklistEntry) : prog (result goerr BlacklistEntry) :=
  let! id := fresh_ID (entry_ID entry) in
  let! now := fresh_time (entry_CreatedAt entry) in
  let entry := MkEntry id (entry_FromID entry) (entry_FromKind entry) (entry_ToID entry)
                 (entry_ToKind entry) now in
  let! r := QueryRow (λ _ d, match insert_entry entry d with
                             | Ok (x, d') => Ok (Some x, d') | Err e => Err e end) in
  Ret (scanBlacklistEntry r).

Definition Delete (fromID : uuid) (fromKind : EntityType) (toID : uuid) (toKind : EntityType)
    : prog (result goerr unit) :=
  let! r := Exec (λ _ d, delete_entry fromID fromKind toID toKind d) in
  Ret (check wrap "delete blacklist entry" r ;; Ok tt).

Definition IsBlocked (fromID : uuid) (fromKind : EntityType) (toID : uuid) (toKind : EntityType)
    : prog (result goerr bool) :=
  let! r := SelectRow (λ _ d, match exists_entry fromID fromKind toID toKind d with
                              | Ok b => Ok (Some b) | Err e => Err e end) in
  Ret (wrap "check blacklist entry" r).

Definition ListByEntity (entityID : uuid) (entityKind : EntityType)
    : prog (result goerr (list BlacklistEntry)) :=
  let! r := Query (λ _ d, select_entries entityID entityKind d) in
  Ret (collect "list blacklist entries" "iterate blacklist entries" r).
End Repo.
End Blacklist.

(** ** The repositories of PostgreSQL

    What [NewPostgresRepositories] puts behind each interface. *)
Section Instances.
Context {U : UuidPkg} {C : Citext} {E : Env}.

#[export] Instance pgAgentRepository : AgentRepository.AgentRepository := {
  AgentRepository.Create := Agents.Create;
  AgentRepository.GetByID := Agents.GetByID;
  AgentRepository.Delete := Agents.Delete;
  AgentRepository.ListAll := Agents.ListAll;
  AgentRepository.ListByOwner := Agents.ListByOwner
}.

#[export] Instance pgUserRepository {UT : UnicodeTables} : UserRepository.UserRepository := {
  UserRepository.Create := Users.Create;
  UserRepository.GetByEmail := Users.GetByEmail;
  UserRepository.GetByID := Users.GetByID;
  UserRepository.SetVerificationToken := Users.SetVerificationToken;
  UserRepository.VerifyEmail := Users.VerifyEmail;
  UserRepository.GetByVerificationToken := Users.GetByVerificationToken
}.

#[export] Instance pgConversationRepository : ConversationRepository.ConversationRepository := {
  ConversationRepository.Create := Conversations.Create;
  ConversationRepository.GetByID := Conversations.GetByID;
  ConversationRepository.GetByGroupID := Conversations.GetByGroupID;
  ConversationRepository.GetDirectByPair := Conversations.GetDirectByPair;
  ConversationRepository.UpdateGroupID := Conversations.UpdateGroupID;
  ConversationRepository.ListByParticipant := Conversations.ListByParticipant;
  ConversationRepository.ListByParticipantAndType := Conversations.ListByParticipantAndType;
  ConversationRepository.ListItems := Conversations.ListItems;
  ConversationRepository.ListUnreadByParticipant := Conversations.ListUnreadByParticipant
}.

#[export] Instance pgConversationParticipantRepository :
    ConversationParticipantRepository.ConversationParticipantRepository := {
  ConversationParticipantRepository.Add := ConversationParticipants.Add;
  ConversationParticipantRepository.Remove := ConversationParticipants.Remove;
  ConversationParticipantRepository.ListByConversation := ConversationParticipants.ListByConversation;
  ConversationParticipantRepository.UpdateMuted := ConversationParticipants.UpdateMuted;
  ConversationParticipantRepository.UpdateLastRead := ConversationParticipants.UpdateLastRead
}.

#[export] Instance pgChatGroupRepository : ChatGroupRepository.ChatGroupRepository := {
  ChatGroupRepository.Create := Groups.Create;
  ChatGroupRepository.GetByID := Groups.GetByID;
  ChatGroupRepository.ListAll := Groups.ListAll;
  ChatGroupRepository.SetConversationID := Groups.SetConversationID
}.

#[export] Instance pgMessageRepository : MessageRepository.MessageRepository := {
  MessageRepository.Save := Messages.Save;
  MessageRepository.GetByID := Messages.GetByID;
  MessageRepository.GetByConversation := Messages.GetByConversation
}.

#[export] Instance pgConnectionRequestRepository : ConnectionRequestRepository.ConnectionRequestRepository := {
  ConnectionRequestRepository.Create := ConnectionRequests.Create;
  ConnectionRequestRepository.GetPendingByTarget := ConnectionRequests.GetPendingByTarget;
  ConnectionRequestRepository.UpdateStatus := ConnectionRequests.UpdateStatus;
  ConnectionRequestRepository.GetByFromAndTo := ConnectionRequests.GetByFromAndTo
}.

#[export] Instance pgBlacklistRepository : BlacklistRepository.BlacklistRepository := {
  BlacklistRepository.Create := Blacklist.Create;
  BlacklistRepository.Delete := Blacklist.Delete;
  BlacklistRepository.IsBlocked := Blacklist.IsBlocked;
  BlacklistRepository.ListByEntity := Blacklist.ListByEntity
}.
End Instances.
