(* ===== verification/RepositorySpecs.v ===== *)
(** * What the repositories guarantee

    One [spec] per method: under any interference of the other goroutines and
    any fault of the connection it keeps the invariant, and what a successful
    result says of the database.  The services are verified against these
    specifications, not against the statements. *)

From S2P Require Import Prelude.
From S2P Require Import GoStrings.
From S2P Require Import GoTime.
From S2P Require Import GoValue.
From S2P Require Import Uuid.
From S2P Require Import Models.
From S2P Require Import Schema.
From S2P Require Import Invariant.
From S2P Require Import Statements.
From S2P Require Import World.
From S2P Require Import Interfaces.
From S2P Require Import Repositories.

Open Scope string_scope.
Open Scope Z_scope.

Section Specs.
Context {U : UuidPkg} {C : Citext} {E : Env} {UT : UnicodeTables}.

(** ** The shapes of the methods *)
Lemma spec_scan {A} (p : prog (result goerr A)) name w P :
  spec p w (on_ok P) → spec (bind p (λ r, Ret (scan name r))) w (on_ok P).
Proof.
  intros Hp. eapply spec_bind; [exact Hp|]. intros [a|e] w' _ HP; apply spec_ret; [done|].
  unfold scan. by destruct (errors_Is e ErrNoRows).
Qed.

Lemma spec_wrap {A} (p : prog (result goerr A)) name w P :
  spec p w (on_ok P) → spec (bind p (λ r, Ret (wrap name r))) w (on_ok P).
Proof.
  intros Hp. eapply spec_bind; [exact Hp|]. by intros [a|e] w' _ HP; apply spec_ret.
Qed.

Lemma spec_wrap_unit {A} (p : prog (result goerr A)) name w (P : World → Prop) :
  spec p w (on_ok (λ _, P)) →
  spec (bind p (λ r, Ret (check wrap name r ;; Ok tt))) w (on_ok (λ _ : unit, P)).
Proof.
  intros Hp. eapply spec_bind; [exact Hp|]. by intros [a|e] w' _ HP; apply spec_ret.
Qed.

Lemma spec_affected (p : prog (result goerr nat)) name w (P : World → Prop) :
  spec p w (on_ok (λ _, P)) →
  spec (bind p (λ r, Ret (affected name r))) w (on_ok (λ _ : unit, P)).
Proof.
  intros Hp. eapply spec_bind; [exact Hp|]. by intros [[|n]|e] w' _ HP; apply spec_ret.
Qed.

Lemma spec_collect {A} (f : Z → DB → result pg_error (list A)) n1 n2 w (P : list A → DB → Prop) :
  (∀ t d l, db_inv d → db_le (w_db w) d → f t d = Ok l → P l d) →
  spec (bind (Query f) (λ r, Ret (collect n1 n2 r))) w (on_ok (λ l w', P l (w_db w'))).
Proof.
  intros Hf. eapply spec_bind; [by apply spec_Query, Hf|].
  by intros [[l [e|]]|e] w' _ HP; apply spec_ret.
Qed.

Lemma spec_fresh_ID id w : spec (fresh_ID id) w any_result.
Proof. unfold fresh_ID. case_bool_decide; [apply spec_uuid_New|by apply spec_ret]. Qed.

Lemma spec_fresh_time t w : spec (fresh_time t) w any_result.
Proof. unfold fresh_time. destruct (IsZero t); [apply spec_time_Now|by apply spec_ret]. Qed.

(** An [INSERT ... RETURNING], whose statement returns the row it wrote. *)
Lemma spec_insert {A} (ins : DB → result pg_error (A * DB)) w (P : A → DB → Prop) :
  (∀ d a d', db_inv d → db_le (w_db w) d → ins d = Ok (a, d') → (db_inv d' ∧ db_le d d') ∧ P a d') →
  spec (QueryRow (λ _ d, match ins d with Ok (a, d') => Ok (Some a, d') | Err e => Err e end)) w
    (on_ok (λ a w', P a (w_db w'))).
Proof.
  intros Hins. apply spec_QueryRow. intros _ d a d' Hd Hle H.
  destruct (ins d) as [[x d'']|e] eqn:Ei; [|done]. injection H as <- <-.
  destruct (Hins d x d'' Hd Hle Ei) as [? ?]. split; [done|]. by intros ? [= <-].
Qed.

(** Skip the defaults a [Create] fills in. *)
Ltac skip_defaults :=
  repeat (eapply spec_bind;
    [first [apply spec_fresh_ID | apply spec_fresh_time | apply spec_time_Now]
    | intros ? ? _ _; cbv zeta]).

(** ** Agents *)
Lemma Agents_Create_spec a w :
  spec (Agents.Create a) w (on_ok (λ a' w', agents (w_db w') !! agent_ID a' = Some a' ∧
    agent_OwnerUserID a' = agent_OwnerUserID a ∧ agent_DisplayName a' = agent_DisplayName a ∧
    agent_APISecretHash a' = agent_APISecretHash a)).
Proof.
  unfold Agents.Create. skip_defaults. apply spec_scan.
  apply (spec_insert (insert_agent _) _ (λ a' d, agents d !! agent_ID a' = Some a' ∧
    agent_OwnerUserID a' = agent_OwnerUserID a ∧ agent_DisplayName a' = agent_DisplayName a ∧
    agent_APISecretHash a' = agent_APISecretHash a)).
  intros d a' d' Hd _ H. by destruct (insert_agent_ok _ _ _ _ Hd H) as (Hok & -> & Hl).
Qed.

Lemma Agents_GetByID_spec id w :
  spec (Agents.GetByID id) w (on_ok (λ a w', agents (w_db w') !! id = Some a)).
Proof. apply spec_scan, (spec_SelectRow _ _ (λ a d, agents d !! id = Some a)). by intros _ d a _ _ [= H]. Qed.

Lemma Agents_Delete_spec id w : spec (Agents.Delete id) w any_result.
Proof.
  eapply spec_any, spec_affected, (spec_Exec _ _ (λ _, True)). intros _ d n d' Hd _ [= H].
  split; [|done]. by eapply delete_agent_ok.
Qed.

Lemma Agents_ListAll_spec w :
  spec Agents.ListAll w (on_ok (λ l w', l = select_agents (w_db w'))).
Proof. apply (spec_collect _ _ _ _ (λ l d, l = select_agents d)). by intros _ d l _ _ [= H]. Qed.

Lemma Agents_ListByOwner_spec o w :
  spec (Agents.ListByOwner o) w (on_ok (λ l w', l = select_agents_by_owner o (w_db w'))).
Proof. apply (spec_collect _ _ _ _ (λ l d, l = select_agents_by_owner o d)). by intros _ d l _ _ [= H]. Qed.

(** ** Users *)
Lemma Users_Create_spec u w :
  spec (Users.Create u) w (on_ok (λ u' w', users (w_db w') !! user_ID u' = Some u' ∧
    user_Email u' = ToLower (TrimSpace (user_Email u)) ∧
    user_PasswordHash u' = user_PasswordHash u ∧ user_EmailVerified u' = user_EmailVerified u)).
Proof.
  unfold Users.Create. skip_defaults. apply spec_wrap.
  apply (spec_insert (insert_user _) _ (λ u' d, users d !! user_ID u' = Some u' ∧
    user_Email u' = ToLower (TrimSpace (user_Email u)) ∧
    user_PasswordHash u' = user_PasswordHash u ∧ user_EmailVerified u' = user_EmailVerified u)).
  intros d a' d' Hd _ H. by destruct (insert_user_ok _ _ _ _ Hd H) as (Hok & -> & Hl & _).
Qed.

Lemma Users_GetByEmail_spec email w :
  spec (Users.GetByEmail email) w (on_ok (λ u w', users (w_db w') !! user_ID u = Some u)).
Proof.
  apply spec_scan, (spec_SelectRow _ _ (λ u d, users d !! user_ID u = Some u)).
  intros _ d a Hd _ [= H]. apply find_row_Some in H as [[k Hk] _].
  pose proof (users_key _ (inv_users _ Hd) k a Hk) as E0. simpl in E0. by subst.
Qed.

Lemma Users_GetByID_spec id w :
  spec (Users.GetByID id) w (on_ok (λ u w', users (w_db w') !! id = Some u)).
Proof. apply spec_scan, (spec_SelectRow _ _ (λ a d, users d !! id = Some a)). by intros _ d a _ _ [= H]. Qed.

Lemma Users_SetVerificationToken_spec id t e w :
  spec (Users.SetVerificationToken id t e) w any_result.
Proof.
  eapply spec_any, spec_affected, (spec_Exec _ _ (λ _, True)). intros _ d n d' Hd _ [= H].
  split; [|done]. by eapply update_user_token_ok.
Qed.

Lemma Users_VerifyEmail_spec t w :
  spec (Users.VerifyEmail t) w (on_ok (λ u w', users (w_db w') !! user_ID u = Some u ∧
    user_EmailVerified u = true ∧ user_VerificationToken u = None)).
Proof.
  apply spec_scan, (spec_QueryRow _ _ (λ u d, users d !! user_ID u = Some u ∧
    user_EmailVerified u = true ∧ user_VerificationToken u = None)).
  intros now d a d' Hd _ H. destruct (update_verify_email t now d) as [l d1] eqn:Eu.
  injection H as <- <-. split; [by eapply update_verify_email_ok|].
  intros u Hu. unfold update_verify_email in Eu. injection Eu as <- <-.
  assert (u ∈ verified <$> where_ (token_valid t now) (users d)) as Hin.
  { destruct (verified <$> _); [done|]. injection Hu as ->. apply list_elem_of_here. }
  apply list_elem_of_fmap in Hin as (u0 & -> & Hin). apply elem_of_where in Hin as [Hv [k Hk]].
  pose proof (users_key _ (inv_users _ Hd) k u0 Hk) as E0. simpl in E0. subst k.
  split; [|done]. cbn. unfold update_where. rewrite lookup_fmap, Hk. cbn. by rewrite Hv.
Qed.

(** ** Conversations *)
Lemma Conversations_Create_spec c w :
  conv_GroupID c = None →
  spec (Conversations.Create c) w (on_ok (λ c' w', conversations (w_db w') !! conv_ID c' = Some c' ∧
    conv_Type c' = conv_Type c ∧ conv_IDLow c' = conv_IDLow c ∧ conv_IDHigh c' = conv_IDHigh c)).
Proof.
  intros Hg. unfold Conversations.Create. skip_defaults. apply spec_scan.
  apply (spec_insert (insert_conversation _) _ (λ c' d, conversations d !! conv_ID c' = Some c' ∧
    conv_Type c' = conv_Type c ∧ conv_IDLow c' = conv_IDLow c ∧ conv_IDHigh c' = conv_IDHigh c)).
  intros d a' d' Hd _ H. apply insert_conversation_ok in H; [|done..].
  by destruct H as (Hok & -> & Hl & _).
Qed.

Lemma Conversations_GetDirectByPair_spec l h w :
  spec (Conversations.GetDirectByPair l h) w (on_ok (λ c w',
    conversations (w_db w') !! conv_ID c = Some c ∧ conv_IDLow c = Some l ∧ conv_IDHigh c = Some h)).
Proof.
  apply spec_scan, (spec_SelectRow _ _ (λ c d,
    conversations d !! conv_ID c = Some c ∧ conv_IDLow c = Some l ∧ conv_IDHigh c = Some h)).
  intros _ d c Hd _ [= H]. apply find_row_Some in H as [[k Hk] Hp].
  pose proof (conversations_key _ _ _ (inv_conversations _ Hd) k c Hk) as E0. simpl in E0. subst k.
  split; [done|]. unfold has_pair in Hp. apply bool_decide_eq_true in Hp.
  unfold pair_key in Hp. destruct (conv_IDLow c), (conv_IDHigh c); naive_solver.
Qed.

Lemma Conversations_UpdateGroupID_spec c g gr w :
  chat_groups (w_db w) !! g = Some gr → group_ConversationID gr = Some c →
  spec (Conversations.UpdateGroupID c g) w any_result.
Proof.
  intros Hg Hc. eapply spec_any, spec_affected, (spec_Exec _ _ (λ _, True)).
  intros _ d n d' Hd Hle H. split; [|done].
  destruct (le_groups _ _ Hle g gr Hg) as (? & Hg' & <-). by eapply update_conversation_group_ok.
Qed.

Lemma Conversations_ListItems_spec p k ty w :
  spec (Conversations.ListItems p k ty) w (on_ok (λ l w', select_items p k ty (w_db w') = Ok l)).
Proof. by apply (spec_collect _ _ _ _ (λ l d, select_items p k ty d = Ok l)). Qed.

Lemma Conversations_ListUnread_spec p k w :
  spec (Conversations.ListUnreadByParticipant p k) w (on_ok (λ l w', select_unread p k (w_db w') = Ok l)).
Proof. by apply (spec_collect _ _ _ _ (λ l d, select_unread p k d = Ok l)). Qed.

(** ** Participants *)
Lemma Participants_Add_spec p w :
  member_ok (conversations (w_db w)) p →
  spec (ConversationParticipants.Add p) w (on_ok (λ _ w', is_Some (participants (w_db w') !! part_key p))).
Proof.
  intros Hm. unfold ConversationParticipants.Add.
  eapply spec_bind; [apply spec_fresh_time|]. intros now w1 Hle _. cbv zeta.
  apply (spec_wrap_unit _ _ _ (λ w', is_Some (participants (w_db w') !! part_key p))).
  apply (spec_Exec _ _ (λ d, is_Some (participants d !! part_key p))).
  intros _ d n d' Hd Hle' H. apply insert_participant_ok in H; [|done|]; [exact H|].
  apply (member_ok_mono (conversations (w_db w))); [|done]. apply le_conversations.
  unfold world_le in Hle. by etransitivity.
Qed.

Lemma Participants_Remove_spec c p k w :
  spec (ConversationParticipants.Remove c p k) w (on_ok (λ _ w', participants (w_db w') !! (c, p, k) = None)).
Proof.
  apply (spec_wrap_unit _ _ _ (λ w', participants (w_db w') !! (c, p, k) = None)).
  apply (spec_Exec _ _ (λ d, participants d !! (c, p, k) = None)).
  intros _ d n d' Hd _ H. by eapply delete_participant_ok.
Qed.

Lemma Participants_UpdateMuted_spec c p k b w :
  spec (ConversationParticipants.UpdateMuted c p k b) w any_result.
Proof.
  eapply spec_any, spec_affected, (spec_Exec _ _ (λ _, True)). intros _ d n d' Hd _ H.
  split; [|done]. by eapply (update_participant_ok _ _ _ (with_muted b)).
Qed.

Lemma Participants_UpdateLastRead_spec c p k m w :
  spec (ConversationParticipants.UpdateLastRead c p k m) w any_result.
Proof.
  eapply spec_any, spec_affected, (spec_Exec _ _ (λ _, True)). intros _ d n d' Hd _ H.
  split; [|done]. by eapply (update_participant_ok _ _ _ (with_last_read m)).
Qed.
(** ** Groups *)
Lemma Groups_Create_spec g w :
  group_conv_ok (conversations (w_db w)) g →
  spec (Groups.Create g) w (on_ok (λ g' w', chat_groups (w_db w') !! group_ID g' = Some g' ∧
    group_Name g' = group_Name g ∧ group_OwnerID g' = group_OwnerID g ∧
    group_ConversationID g' = group_ConversationID g)).
Proof.
  intros Hc. unfold Groups.Create.
  eapply spec_bind; [apply spec_fresh_ID|]. intros id w1 Hle1 _.
  eapply spec_bind; [apply spec_fresh_time|]. intros now w2 Hle2 _. cbv zeta. apply spec_wrap.
  apply (spec_insert (insert_group _) _ (λ g' d, chat_groups d !! group_ID g' = Some g' ∧
    group_Name g' = group_Name g ∧ group_OwnerID g' = group_OwnerID g ∧
    group_ConversationID g' = group_ConversationID g)).
  intros d a' d' Hd Hle H. apply insert_group_ok in H; [|done|].
  - by destruct H as (Hok & -> & Hl).
  - apply (group_conv_ok_mono (conversations (w_db w))); [|done]. apply le_conversations.
    unfold world_le in *. etransitivity; [exact Hle1|]. by etransitivity.
Qed.

Lemma Groups_GetByID_spec id w :
  spec (Groups.GetByID id) w (on_ok (λ g w', chat_groups (w_db w') !! id = Some g)).
Proof. apply spec_scan, (spec_SelectRow _ _ (λ a d, chat_groups d !! id = Some a)). by intros _ d a _ _ [= H]. Qed.

(** Without faults a group that exists is found. *)
Lemma Groups_GetByID_finds id w :
  spec (Groups.GetByID id) w (λ r w', match r with
    | Ok g => chat_groups (w_db w') !! id = Some g
    | Err _ => (∀ n, env_fault n = NoFault) → chat_groups (w_db w') !! id = None
    end).
Proof.
  unfold Groups.GetByID. eapply spec_bind.
  - apply (spec_SelectRow_misses _ _ (λ g d, chat_groups d !! id = Some g)). by intros _ d a _ _ [= H].
  - intros [g|e] w' _ H; apply spec_ret; [done|]. unfold scan.
    assert ((∀ n, env_fault n = NoFault) → chat_groups (w_db w') !! id = None) as Hn.
    { intros Hno. destruct (H Hno) as [_ Hno']. destruct (chat_groups (w_db w') !! id) eqn:Hg; [|done].
      destruct Hno'. eexists. unfold total, select_group. by rewrite Hg. }
    by destruct (errors_Is e ErrNoRows).
Qed.

(** ** Messages *)
(** The message is there, with the fields it was given (the metadata as they
    come back from JSON), and it is the last
    one of its conversation. *)
Definition saved (m out : Message) (d : DB) : Prop :=
  messages d !! msg_ID m = Some out ∧ msg_ConversationID out = msg_ConversationID m ∧
  msg_FromID out = msg_FromID m ∧ msg_ParticipantKind out = msg_ParticipantKind m ∧
  msg_Tag out = msg_Tag m ∧ msg_Content out = msg_Content m ∧
  msg_Metadata out = (λ md : gmap string any, json_norm <$> md) <$> msg_Metadata m ∧
  ∃ c, conversations d !! msg_ConversationID m = Some c ∧
    conv_LastMessageID c = Some (msg_ID m) ∧ conv_LastMessageAt c = Some (msg_Timestamp out).

(** The two statements of the transaction. *)
Lemma save_statements_ok m d out d1 n d2 :
  db_inv d → insert_message m d = Ok (out, d1) →
  update_last_message (msg_ConversationID out) (msg_ID out) (msg_Timestamp out) d1 = Ok (n, d2) →
  (db_inv d2 ∧ db_le d d2) ∧ saved m out d2.
Proof.
  intros Hd H1 H2. destruct (insert_message_ok _ _ _ _ Hd H1) as ([Hd1 Hl1] & Hout & Hm & _ & Hcs).
  subst out. eapply update_last_message_ok in H2 as ([Hd2 Hl2] & Hms & Hcv); try done.
  2:{ cbn. by rewrite timestamptz_idem. }
  split; [split; [done|by etransitivity]|]. split; [by rewrite Hms|]. do 6 (split; [done|]).
  destruct (messages_conv _ _ (inv_messages _ Hd1) _ _ Hm) as [c Hc].
  cbn in Hc. exists (with_last_message (msg_ID m) (timestamptz (msg_Timestamp m)) c).
  rewrite Hcv. cbn. rewrite lookup_alter_eq, Hc. cbn. by rewrite timestamptz_idem.
Qed.

Lemma save_tx_cases m n w :
  world_inv w →
  let '(r, w') := Messages.save_tx m n w in
  (world_inv w' ∧ world_le w w') ∧
  match r with Ok out => saved m out (w_db w') | Err _ => True end.
Proof.
  intros Hi. unfold Messages.save_tx. cbv zeta.
  assert ((world_inv w ∧ world_le w w) ∧ True) as Hsame by (split; [split; [done|reflexivity]|done]).
  destruct (env_tx_fault n 0); [|exact Hsame..].
  destruct (insert_message m (w_db w)) as [[out d1]|e] eqn:H1.
  2:{ by cbn. }
  destruct (env_tx_fault n 1); [|by cbn..].
  destruct (update_last_message _ _ _ d1) as [[k d2]|e] eqn:H2; [|exact Hsame].
  destruct (env_tx_fault n 2); [|exact Hsame..].
  destruct (save_statements_ok _ _ _ _ _ _ Hi H1 H2) as [Hok Hs].
  destruct (env_tx_fault n 3); [by split|exact Hsame|by split].
Qed.

Lemma Messages_Save_spec m w :
  spec (Messages.Save m) w (on_ok (λ out w', saved m out (w_db w'))).
Proof.
  unfold Messages.Save. eapply spec_bind; [apply spec_fresh_time|]. intros ts w1 _ _. cbv zeta.
  destruct (match msg_Metadata _ with Some _ => _ | None => _ end); [|by apply spec_ret].
  intros Hi w2 Hle Hi2. cbn.
  pose proof (save_tx_cases (MkMessage (msg_ID m) (msg_FromID m) (msg_ConversationID m)
    (msg_ParticipantKind m) (msg_Tag m) (msg_Content m) (msg_Metadata m) ts) (w_steps w2) w2 Hi2) as Hs.
  destruct (Messages.save_tx _ _ w2) as [r w3]. cbn. destruct Hs as [[Hi3 Hl3] Hr].
  split; [exact Hi3|]. split; [exact Hl3|]. split; [|split; [exact Hi3|by destruct r]].
  etransitivity; [exact Hle|exact Hl3].
Qed.

Lemma Messages_GetByConversation_spec c limit ts id w :
  spec (Messages.GetByConversation c limit ts id) w (on_ok (λ l w',
    l = select_messages c (if limit <=? 0 then 50 else limit) ts id (w_db w'))).
Proof.
  apply (spec_collect _ _ _ _ (λ l d, l = select_messages c (if limit <=? 0 then 50 else limit) ts id d)).
  by intros _ d l _ _ [= H].
Qed.

Lemma Messages_GetByID_spec id w :
  spec (Messages.GetByID id) w (on_ok (λ m w', messages (w_db w') !! id = Some m)).
Proof. apply spec_scan, (spec_SelectRow _ _ (λ a d, messages d !! id = Some a)). by intros _ d a _ _ [= H]. Qed.

(** ** Connection requests *)
Lemma Requests_Create_spec r w :
  spec (ConnectionRequests.Create r) w (on_ok (λ r' w',
    connection_requests (w_db w') !! req_ID r' = Some r' ∧ request_key r' = request_key r ∧
    req_SenderID r' = req_SenderID r ∧
    req_Status r' = (if String.eqb (req_Status r) "" then ConnectionRequestStatusPending else req_Status r))).
Proof.
  unfold ConnectionRequests.Create. skip_defaults. apply spec_scan.
  apply (spec_insert (insert_request _) _ (λ r' d,
    connection_requests d !! req_ID r' = Some r' ∧ request_key r' = request_key r ∧
    req_SenderID r' = req_SenderID r ∧
    req_Status r' = (if String.eqb (req_Status r) "" then ConnectionRequestStatusPending else req_Status r))).
  intros d a' d' Hd _ H. by destruct (insert_request_ok _ _ _ _ Hd H) as (Hok & -> & Hl).
Qed.

Lemma Requests_GetPending_spec t k w :
  spec (ConnectionRequests.GetPendingByTarget t k) w (on_ok (λ l w', select_pending t k (w_db w') = Ok l)).
Proof. by apply (spec_collect _ _ _ _ (λ l d, select_pending t k d = Ok l)). Qed.

Lemma Requests_UpdateStatus_spec id st w :
  spec (ConnectionRequests.UpdateStatus id st) w any_result.
Proof.
  eapply spec_any, spec_affected, (spec_Exec _ _ (λ _, True)). intros t d n d' Hd _ H.
  split; [|done]. by eapply update_request_status_ok.
Qed.

(** ** Blacklist *)
Lemma Blacklist_Create_spec e w :
  spec (Blacklist.Create e) w (on_ok (λ e' w',
    blacklist_entries (w_db w') !! entry_ID e' = Some e' ∧ entry_key e' = entry_key e)).
Proof.
  unfold Blacklist.Create. skip_defaults. apply spec_scan.
  apply (spec_insert (insert_entry _) _ (λ e' d,
    blacklist_entries d !! entry_ID e' = Some e' ∧ entry_key e' = entry_key e)).
  intros d a' d' Hd _ H. by destruct (insert_entry_ok _ _ _ _ Hd H) as (Hok & -> & Hl).
Qed.

Lemma Blacklist_Delete_spec f fk t tk w :
  spec (Blacklist.Delete f fk t tk) w (on_ok (λ _ w',
    exists_row (entry_between f fk t tk) (blacklist_entries (w_db w')) = false)).
Proof.
  apply (spec_wrap_unit _ _ _ (λ w', exists_row (entry_between f fk t tk) (blacklist_entries (w_db w')) = false)).
  apply (spec_Exec _ _ (λ d, exists_row (entry_between f fk t tk) (blacklist_entries d) = false)).
  intros _ d n d' Hd _ H. by eapply delete_entry_ok.
Qed.

Lemma Blacklist_ListByEntity_spec f fk w :
  spec (Blacklist.ListByEntity f fk) w (on_ok (λ l w', select_entries f fk (w_db w') = Ok l)).
Proof. by apply (spec_collect _ _ _ _ (λ l d, select_entries f fk d = Ok l)). Qed.

(** ** The laws of the interfaces *)
#[export] Instance pgAgentRepository_laws : AgentRepository.Laws.
Proof.
  split; intros; [apply Agents_Create_spec|apply Agents_GetByID_spec|intros ?; apply Agents_Delete_spec|
    apply Agents_ListAll_spec].
Qed.

#[export] Instance pgUserRepository_laws : UserRepository.Laws.
Proof.
  split; intros; [apply Users_Create_spec|apply Users_GetByEmail_spec|apply Users_GetByID_spec|
    intros ?; apply Users_SetVerificationToken_spec|apply Users_VerifyEmail_spec].
Qed.

#[export] Instance pgConversationRepository_laws : ConversationRepository.Laws.
Proof.
  split; intros; [by apply Conversations_Create_spec|apply Conversations_GetDirectByPair_spec|
    by eapply Conversations_UpdateGroupID_spec|apply Conversations_ListItems_spec|apply Conversations_ListUnread_spec].
Qed.

#[export] Instance pgConversationParticipantRepository_laws : ConversationParticipantRepository.Laws.
Proof. split; intros; [by apply Participants_Add_spec|apply Participants_Remove_spec]. Qed.

#[export] Instance pgChatGroupRepository_laws : ChatGroupRepository.Laws.
Proof. split; intros; [by apply Groups_Create_spec|apply Groups_GetByID_spec]. Qed.

(** ** Properties *)

Lemma messages_sorted c ts id d :
  StronglySorted (desc msg_Timestamp)
    (order_desc msg_Timestamp (where_ (λ m, in_conversation c m && since ts id m) (messages d))).
Proof.
  apply StronglySorted_merge_sort.
  - intros x y z. unfold desc. lia.
  - intros x y. unfold desc. lia.
Qed.

Lemma elem_of_messages_sorted c ts id d m :
  m ∈ order_desc msg_Timestamp (where_ (λ m, in_conversation c m && since ts id m) (messages d)) ↔
  msg_ConversationID m = c ∧ since ts id m = true ∧ ∃ k, messages d !! k = Some m.
Proof.
  unfold order_desc. rewrite merge_sort_Permutation, elem_of_where, andb_true_iff.
  unfold in_conversation. rewrite bool_decide_eq_true. tauto.
Qed.

(** A message past the cursor: later than its time, and with an identifier
    above its own. *)
Definition past_cursor (ts : option Z) (id : option uuid) (m : Message) : Prop :=
  (∀ t, ts = Some t → timestamptz t < msg_Timestamp m) ∧ (∀ i, id = Some i → uuid_ltb i (msg_ID m) = true).

Lemma since_past_cursor ts id m : since ts id m = true ↔ past_cursor ts id m.
Proof.
  unfold since, past_cursor. rewrite andb_true_iff. f_equiv.
  - destruct ts as [t|]; [|by split]. rewrite Z.ltb_lt. split; [by intros ? ? [= <-]|]. by intros Ht; apply Ht.
  - destruct id as [i|]; [|by split]. split; [by intros ? ? [= <-]|]. by intros Hi; apply Hi.
Qed.

(** C34 Polling: under any interference and any faults, what
    [GetByConversation] returns are messages of that conversation that are
    later than the time of the cursor, if it has one, and whose identifier is
    above that of the cursor, if it has one; the latest first, at most the
    limit, or fifty when the limit is not positive; every matching message
    left out is no later than those returned, and none is left out unless the
    limit is reached. *)
Theorem GetByConversation_latest c limit ts id w :
  spec (Messages.GetByConversation c limit ts id) w (on_ok (λ l w',
    let n := if limit <=? 0 then 50%nat else Z.to_nat limit in
    let asked m := msg_ConversationID m = c ∧ (∀ t, ts = Some t → timestamptz t < msg_Timestamp m) ∧
                   (∀ i, id = Some i → uuid_ltb i (msg_ID m) = true) in
    StronglySorted (λ a b, msg_Timestamp b ≤ msg_Timestamp a) l ∧ (length l ≤ n)%nat ∧
    (∀ m, m ∈ l → asked m ∧ ∃ k, messages (w_db w') !! k = Some m) ∧
    (∀ k m, messages (w_db w') !! k = Some m → asked m →
       m ∈ l ∨ (length l = n ∧ ∀ x, x ∈ l → msg_Timestamp m ≤ msg_Timestamp x)))).
Proof.
  eapply spec_mono, Messages_GetByConversation_spec. intros [l|e] w' _ Hl; [|done]. cbn in *. subst l.
  replace (if limit <=? 0 then 50%nat else Z.to_nat limit) with (Z.to_nat (if limit <=? 0 then 50 else limit))
    by (by destruct (limit <=? 0)).
  set (n := Z.to_nat _). pose proof (messages_sorted c ts id (w_db w')) as Hs.
  destruct (take_sorted _ n _ Hs) as (Hlen & Hst & Hin & Hout). unfold select_messages. fold n.
  split; [done|]. split; [lia|]. split.
  - intros m Hm. apply Hin, elem_of_messages_sorted in Hm as (? & ?%since_past_cursor & ?). by split.
  - intros k m Hk [Hc Hsince%since_past_cursor]. set (L := order_desc _ _) in *.
    assert (m ∈ L) as HmL by (apply elem_of_messages_sorted; eauto).
    destruct (decide (n ≤ length L)%nat) as [Hge|Hlt].
    + destruct (Hout m HmL) as [?|Hle]; [by left|right]. split; [lia|]. intros x Hx. by apply Hle.
    + left. by rewrite take_ge by lia.
Qed.

(** C5 Saving is all or nothing: whichever of its requests the connection
    fails at, [Save] leaves the database either exactly as it was, or with
    the message stored and its conversation pointing to it; and when it
    reports success it is the latter. *)
Theorem Save_atomic m w r w' :
  world_inv w → run (Messages.Save m) w = (r, w') →
  (w_db w' = w_db w ∧ is_ok r = false) ∨ ∃ out, saved m out (w_db w') ∧ (is_ok r = true → r = Ok out).
Proof.
  intros Hi. unfold Messages.Save, fresh_time. rewrite run_bind.
  assert (∃ ts w1, run (if IsZero (msg_Timestamp m) then time_Now else Ret (msg_Timestamp m)) w = (ts, w1) ∧
    w_db w1 = w_db w) as (ts & w1 & -> & Hdb) by (destruct (IsZero _); by eexists _, _).
  cbv zeta. destruct (match msg_Metadata _ with Some _ => _ | None => _ end).
  2:{ cbn. intros [= <- <-]. by left. }
  set (m' := MkMessage _ _ _ _ _ _ _ _). cbn. unfold Messages.save_tx. cbv zeta.
  assert (world_inv w1) as Hi1 by (unfold world_inv; by rewrite Hdb).
  destruct (env_tx_fault _ 0); [|cbn; intros [= <- <-]; by left..].
  destruct (insert_message m' (w_db w1)) as [[out d1]|e] eqn:H1; [|cbn; intros [= <- <-]; by left].
  destruct (env_tx_fault _ 1); [|cbn; intros [= <- <-]; by left..].
  destruct (update_last_message _ _ _ d1) as [[k d2]|e] eqn:H2; [|cbn; intros [= <- <-]; by left].
  destruct (env_tx_fault _ 2); [|cbn; intros [= <- <-]; by left..].
  destruct (save_statements_ok _ _ _ _ _ _ Hi1 H1 H2) as [_ Hs].
  destruct (env_tx_fault _ 3); cbn; intros [= <- <-].
  - right. by exists out.
  - by left.
  - right. by exists out.
Qed.
End Specs.
