(* ===== verification/Conversation.v ===== *)
(** * The conversation service

    [backend/internal/conversation/conversation.go].  A [Service] is either
    configured with a database or not (a nil receiver or a nil [db]).  It is
    written over the interfaces of its repositories, and verified against their
    laws; the last part runs it on those of PostgreSQL. *)

From S2P Require Import Prelude.
From S2P Require Import GoStrings.
From S2P Require Import GoTime.
From S2P Require Import GoValue.
From S2P Require Import Uuid.
From S2P Require Import Models.
From S2P Require Import Schema.
From S2P Require Import Invariant.
From S2P Require Import Statements.
From S2P Require Import World.
From S2P Require Import Interfaces.
From S2P Require Import Repositories.
From S2P Require Import RepositorySpecs.

Open Scope string_scope.
Open Scope Z_scope.

Module Conversation.
Section Service.
Context {U : UuidPkg} {C : Citext} {E : Env} {UT : UnicodeTables}.
Context {Conversations : ConversationRepository.ConversationRepository}.
Context {ConversationParticipants : ConversationParticipantRepository.ConversationParticipantRepository}.
Context {Groups : ChatGroupRepository.ChatGroupRepository}.

(** [s != nil && s.db != nil] *)
Definition Service := bool.
Definition NewService (db : bool) : Service := db.

Definition is_empty (s : string) : bool := String.eqb s "".

(** A zero [Conversation] / [ChatGroup] / [ConversationParticipant] with the
    fields the service sets. *)
Definition new_conversation (ty : ConversationType) (low high : option uuid) : Conversation :=
  MkConversation uuid_Nil ty low high None zero_time None None.
Definition new_group (name : string) (owner conv : uuid) : ChatGroup :=
  MkGroup uuid_Nil name owner (Some conv) zero_time.
Definition new_participant (conv id : uuid) (kind : ParticipantType) : ConversationParticipant :=
  MkParticipant conv id kind false None zero_time.

Definition CreateGroup (s : Service) (name creatorID : string) : prog (result goerr ChatGroup) :=
  if negb s || is_empty name || is_empty creatorID then Ret (Err ErrInvalidInput) else
  match uuid_Parse creatorID with
  | Err e => Ret (Err e)
  | Ok cid =>
      let? conv := ConversationRepository.Create (new_conversation ConversationTypeGroup None None) in
      let? group := ChatGroupRepository.Create (new_group name cid (conv_ID conv)) in
      let? _ := ConversationRepository.UpdateGroupID (conv_ID conv) (group_ID group) in
      let? _ := ConversationParticipantRepository.Add
                  (new_participant (conv_ID conv) cid ParticipantTypeUser) in
      Ret (Ok group)
  end.

Definition GetGroup (s : Service) (groupID : string) : prog (result goerr ChatGroup) :=
  if negb s || is_empty groupID then Ret (Err ErrInvalidInput) else
  match uuid_Parse groupID with
  | Err e => Ret (Err e)
  | Ok gid => ChatGroupRepository.GetByID gid
  end.

Definition ListConversationsByType (s : Service) (participantID : uuid) (kind : ParticipantType)
    (convType : ConversationType) : prog (result goerr (list Conversation)) :=
  if negb s then Ret (Err ErrInvalidInput) else
  if bool_decide (participantID = uuid_Nil) then Ret (Err ErrInvalidInput) else
  ConversationRepository.ListByParticipantAndType participantID kind convType.

Definition ListConversationItems (s : Service) (participantID : uuid) (kind : ParticipantType)
    (convType : option ConversationType) : prog (result goerr (list ConversationListItem)) :=
  if negb s then Ret (Err ErrInvalidInput) else
  if bool_decide (participantID = uuid_Nil) then Ret (Err ErrInvalidInput) else
  ConversationRepository.ListItems participantID kind convType.

Definition ListUnreadConversations (s : Service) (participantID : uuid) (kind : ParticipantType)
    : prog (result goerr (list ConversationListItem)) :=
  if negb s then Ret (Err ErrInvalidInput) else
  if bool_decide (participantID = uuid_Nil) then Ret (Err ErrInvalidInput) else
  ConversationRepository.ListUnreadByParticipant participantID kind.

Definition LeaveGroup (s : Service) (groupID participantID : string) (kind : ParticipantType)
    : prog (result goerr unit) :=
  if negb s || is_empty groupID || is_empty participantID || is_empty kind
  then Ret (Err ErrInvalidInput) else
  match uuid_Parse groupID with
  | Err e => Ret (Err e)
  | Ok gid =>
      match uuid_Parse participantID with
      | Err e => Ret (Err e)
      | Ok pid =>
          let? group := ChatGroupRepository.GetByID gid in
          match group_ConversationID group with
          | None => Ret (Err (NewError "group has no conversation"))
          | Some c => ConversationParticipantRepository.Remove c pid kind
          end
      end
  end.

(** The canonical order of the two members: [id1.String() > id2.String()]
    swaps them. *)
Definition canonical (id1 id2 : uuid) (kind1 kind2 : ParticipantType)
    : (uuid * uuid) * (ParticipantType * ParticipantType) :=
  if uuid_ltb id2 id1 then ((id2, id1), (kind2, kind1)) else ((id1, id2), (kind1, kind2)).

Definition GetOrCreateDirect (s : Service) (id1 id2 : uuid) (kind1 kind2 : ParticipantType)
    : prog (result goerr Conversation) :=
  if negb s then Ret (Err ErrInvalidInput) else
  if bool_decide (id1 = uuid_Nil) || bool_decide (id2 = uuid_Nil)
  then Ret (Err ErrInvalidInput) else
  let '((idLow, idHigh), (kindLow, kindHigh)) := canonical id1 id2 kind1 kind2 in
  let! found := ConversationRepository.GetDirectByPair idLow idHigh in
  match found with
  | Ok conv => Ret (Ok conv)
  | Err e =>
      if negb (errors_Is e ErrNotFound) then Ret (Err e) else
      let? conv := ConversationRepository.Create
                     (new_conversation ConversationTypeDirect (Some idLow) (Some idHigh)) in
      let? _ := ConversationParticipantRepository.Add (new_participant (conv_ID conv) idLow kindLow) in
      let? _ := ConversationParticipantRepository.Add (new_participant (conv_ID conv) idHigh kindHigh) in
      Ret (Ok conv)
  end.

(** ** Specifications *)
Context {CL : ConversationRepository.Laws} {PL : ConversationParticipantRepository.Laws} {GL : ChatGroupRepository.Laws}.

(** A direct conversation of two members, in whichever order it names them. *)
Definition direct_between (id1 id2 : uuid) (d : DB) (id : uuid) : Prop :=
  ∃ c, conversations d !! id = Some c ∧ conv_Type c = ConversationTypeDirect ∧
    (pair_key c = Some (id1, id2) ∨ pair_key c = Some (id2, id1)).

Lemma canonical_cases id1 id2 k1 k2 :
  canonical id1 id2 k1 k2 = ((id1, id2), (k1, k2)) ∨ canonical id1 id2 k1 k2 = ((id2, id1), (k2, k1)).
Proof. unfold canonical. destruct (uuid_ltb id2 id1); auto. Qed.

Lemma direct_between_canonical id1 id2 k1 k2 low high kinds d id c :
  canonical id1 id2 k1 k2 = ((low, high), kinds) →
  conversations d !! id = Some c → conv_Type c = ConversationTypeDirect →
  pair_key c = Some (low, high) → direct_between id1 id2 d id.
Proof.
  intros Hcan Hc Ht Hp. exists c. split; [done|]. split; [done|].
  destruct (canonical_cases id1 id2 k1 k2) as [H|H]; rewrite H in Hcan; injection Hcan as -> -> _; auto.
Qed.

(** Conversations that name a pair are direct, and name it in order. *)
Lemma pair_key_direct d id c low high :
  db_inv d → conversations d !! id = Some c → pair_key c = Some (low, high) →
  conv_Type c = ConversationTypeDirect ∧ uuid_ltb low high = true.
Proof.
  intros Hd Hc Hp. pose proof (conversations_check _ _ _ (inv_conversations _ Hd) _ _ Hc) as Hk.
  cbn in Hk. unfold conv_check, pair_key in *.
  destruct (conv_IDLow c), (conv_IDHigh c); try done. injection Hp as -> ->.
  by apply andb_true_iff in Hk as [?%String.eqb_eq ?].
Qed.

Lemma direct_between_le id1 id2 d d' id :
  db_le d d' → direct_between id1 id2 d id → direct_between id1 id2 d' id.
Proof.
  intros Hle (c & Hc & Ht & Hp). destruct (le_conversations _ _ Hle id c Hc) as (c' & Hc' & (_ & Ht' & Hl & Hh)).
  exists c'. split; [done|]. unfold pair_key in *. by rewrite Ht', Hl, Hh.
Qed.

Lemma GetOrCreateDirect_spec s id1 id2 k1 k2 w :
  spec (GetOrCreateDirect s id1 id2 k1 k2) w
    (on_ok (λ c w', direct_between id1 id2 (w_db w') (conv_ID c))).
Proof.
  unfold GetOrCreateDirect. refuse.
  refuse.
  destruct (canonical id1 id2 k1 k2) as [[low high] [kl kh]] eqn:Hcan.
  eapply spec_bind; [apply ConversationRepository.GetDirectByPair_spec|].
  intros [c|e] w1 Hle1 HP.
  - intros Hi. apply spec_ret; [|done]. destruct HP as (Hc & Hl & Hh).
    assert (pair_key c = Some (low, high)) as Hp by (unfold pair_key; by rewrite Hl, Hh).
    destruct (pair_key_direct _ _ _ _ _ Hi Hc Hp) as [Ht _]. by eapply direct_between_canonical.
  - refuse.
    eapply spec_try; [by apply ConversationRepository.Create_spec|]. cbn.
    intros c w2 Hle2 (Hc & Ht & Hl & Hh).
    assert (direct_between id1 id2 (w_db w2) (conv_ID c)) as Hd.
    { eapply direct_between_canonical; try done. unfold pair_key. by rewrite Hl, Hh. }
    eapply spec_try.
    { apply ConversationParticipantRepository.Add_spec. exists c. split; [done|]. left. done. }
    intros _ w3 Hle3 _. eapply spec_try.
    { apply ConversationParticipantRepository.Add_spec. destruct (le_conversations _ _ Hle3 _ _ Hc) as (c' & Hc' & (_ & _ & Hl' & Hh')).
      exists c'. split; [done|]. right. cbn. congruence. }
    intros _ w4 Hle4 _. apply spec_ret. cbn.
    eapply direct_between_le; [exact Hle4|]. by eapply direct_between_le.
Qed.

(** A group, the conversation it owns and its first participant. *)
Definition group_created (name : string) (cid : uuid) (g : ChatGroup) (d : DB) : Prop :=
  chat_groups d !! group_ID g = Some g ∧ group_Name g = name ∧ group_OwnerID g = cid ∧
  ∃ k c, group_ConversationID g = Some k ∧ conversations d !! k = Some c ∧
    conv_Type c = ConversationTypeGroup ∧
    is_Some (participants d !! (k, cid, ParticipantTypeUser)).

Lemma CreateGroup_spec s name creator w :
  spec (CreateGroup s name creator) w
    (on_ok (λ g w', ∃ cid, uuid_Parse creator = Ok cid ∧ group_created name cid g (w_db w'))).
Proof.
  unfold CreateGroup. refuse.
  parse cid Hp.
  eapply spec_try; [by apply ConversationRepository.Create_spec|]. cbn.
  intros c w1 Hle1 (Hc & Ht & Hl & Hh).
  eapply spec_try.
  { apply ChatGroupRepository.Create_spec. intros k Hk. cbn in Hk. injection Hk as <-. by exists c. }
  cbn. intros g w2 Hle2 (Hg & Hn & Ho & Hgc).
  eapply spec_try_any; [by eapply ConversationRepository.UpdateGroupID_spec|].
  intros _ w3 Hle3.
  assert (∃ c3, conversations (w_db w3) !! conv_ID c = Some c3 ∧ conv_Type c3 = ConversationTypeGroup)
    as (c3 & Hc3 & Ht3).
  { destruct (le_conversations _ _ Hle2 _ _ Hc) as (c2 & Hc2 & (_ & Ht2 & _)).
    destruct (le_conversations _ _ Hle3 _ _ Hc2) as (c3 & Hc3 & (_ & Ht3 & _)).
    exists c3. split; [done|congruence]. }
  eapply spec_try.
  { apply ConversationParticipantRepository.Add_spec. exists c3. split; [done|]. by rewrite Ht3. }
  intros u w4 Hle4 Hadd. apply spec_ret. cbn. exists cid. split; [done|].
  destruct (le_groups _ _ Hle3 _ _ Hg) as (? & Hg3 & <-).
  destruct (le_groups _ _ Hle4 _ _ Hg3) as (? & Hg4 & <-).
  destruct (le_conversations _ _ Hle4 _ _ Hc3) as (c4 & Hc4 & (_ & Ht4 & _)).
  split; [done|]. split; [done|]. split; [done|]. exists (conv_ID c), c4.
  split; [done|]. split; [done|]. split; [congruence|done].
Qed.

Lemma LeaveGroup_spec s g p k w :
  spec (LeaveGroup s g p k) w (on_ok (λ _ w', ∃ gid pid gr c,
    uuid_Parse g = Ok gid ∧ uuid_Parse p = Ok pid ∧
    chat_groups (w_db w') !! gid = Some gr ∧ group_ConversationID gr = Some c ∧
    participants (w_db w') !! (c, pid, k) = None)).
Proof.
  unfold LeaveGroup. refuse.
  parse gid Hg.
  parse pid Hp.
  eapply spec_try; [apply ChatGroupRepository.GetByID_spec|]. intros gr w1 Hle1 Hgr.
  destruct (group_ConversationID gr) as [c|] eqn:Hc; [|by apply spec_ret].
  eapply spec_mono; [|apply ConversationParticipantRepository.Remove_spec]. intros [[]|e] w2 Hle2 Hr; [|done]. cbn in *.
  destruct (le_groups _ _ Hle2 _ _ Hgr) as (? & Hgr2 & <-). eauto 10.
Qed.
End Service.

Section Properties.
Context {U : UuidPkg} {L : UuidLaws} {C : Citext} {E : Env} {UT : UnicodeTables}.
Context {Conversations : ConversationRepository.ConversationRepository}.
Context {ConversationParticipants : ConversationParticipantRepository.ConversationParticipantRepository}.
Context {Groups : ChatGroupRepository.ChatGroupRepository}.
Context {CL : ConversationRepository.Laws} {PL : ConversationParticipantRepository.Laws} {GL : ChatGroupRepository.Laws}.

Lemma canonical_comm id1 id2 k1 k2 :
  id1 ≠ id2 → canonical id1 id2 k1 k2 = canonical id2 id1 k2 k1.
Proof.
  intros Hne. unfold canonical. destruct (uuid_ltb_total _ _ Hne) as [H|H];
    by rewrite H, (uuid_ltb_asym _ _ H).
Qed.

Lemma direct_between_comm id1 id2 d k : direct_between id1 id2 d k → direct_between id2 id1 d k.
Proof. intros (c & Hc & Ht & Hp). exists c. split_and!; [done|done|tauto]. Qed.

(** The order of the pair is the one [canonical] computes. *)
Lemma direct_between_pair id1 id2 k1 k2 low high kinds d k :
  db_inv d → canonical id1 id2 k1 k2 = ((low, high), kinds) → direct_between id1 id2 d k →
  ∃ c, conversations d !! k = Some c ∧ pair_key c = Some (low, high).
Proof.
  intros Hd Hcan (c & Hc & _ & Hp). exists c. split; [done|]. unfold canonical in Hcan.
  destruct Hp as [Hp|Hp]; destruct (pair_key_direct _ _ _ _ _ Hd Hc Hp) as [_ Hlt].
  - rewrite (uuid_ltb_asym _ _ Hlt) in Hcan. by injection Hcan as -> -> _.
  - rewrite Hlt in Hcan. by injection Hcan as -> -> _.
Qed.

Lemma direct_between_unique id1 id2 d k k' :
  db_inv d → direct_between id1 id2 d k → direct_between id1 id2 d k' → k = k'.
Proof.
  intros Hd H H'. destruct (canonical id1 id2 "" "") as [[low high] kinds] eqn:Hcan.
  destruct (direct_between_pair _ _ _ _ _ _ _ _ _ Hd Hcan H) as (c & Hc & Hp).
  destruct (direct_between_pair _ _ _ _ _ _ _ _ _ Hd Hcan H') as (c' & Hc' & Hp').
  by apply (conversations_pair _ _ _ (inv_conversations _ Hd) k k' c c' _ Hc Hc' Hp Hp').
Qed.

(** A group that was created is complete: under any interference and any
    faults, when [CreateGroup] succeeds, the group is stored with the name
    given and the creator as its owner, it points to a stored conversation of
    type group, and the creator participates in that conversation as a user. *)
Theorem CreateGroup_complete s name creator w :
  spec (CreateGroup s name creator) w
    (on_ok (λ g w', ∃ cid, uuid_Parse creator = Ok cid ∧ group_created name cid g (w_db w'))).
Proof. apply CreateGroup_spec. Qed.

(** Leaving works: under any interference and any faults, when [LeaveGroup]
    succeeds, the group exists, and the participant it names is, at the
    moment of the answer, no member (of that kind) of the group's
    conversation. *)
Theorem LeaveGroup_removes s g p k w :
  spec (LeaveGroup s g p k) w (on_ok (λ _ w', ∃ gid pid gr c,
    uuid_Parse g = Ok gid ∧ uuid_Parse p = Ok pid ∧
    chat_groups (w_db w') !! gid = Some gr ∧ group_ConversationID gr = Some c ∧
    participants (w_db w') !! (c, pid, k) = None)).
Proof. apply LeaveGroup_spec. Qed.

(** The order in which the two members are named does not matter: for two
    different members, naming them the other way round is the same program,
    statement for statement. *)
Theorem GetOrCreateDirect_symmetric s id1 id2 k1 k2 :
  id1 ≠ id2 → GetOrCreateDirect s id1 id2 k1 k2 = GetOrCreateDirect s id2 id1 k2 k1.
Proof.
  intros Hne. unfold GetOrCreateDirect. rewrite orb_comm. by rewrite canonical_comm.
Qed.

(** C2 At most one direct conversation per pair: two goroutines that ask for
    the conversation of the same two members, in either order and with
    whatever kinds, interleaved with each other and with any other
    goroutines of the server, under any faults of the connection, never
    obtain two different conversations. *)
Theorem direct_conversation_unique s s' id1 id2 k1 k2 k1' k2' w w' ps c1 c2 :
  world_inv w →
  rtc (pool_step behaves)
    ([GetOrCreateDirect s id1 id2 k1 k2; GetOrCreateDirect s' id2 id1 k1' k2'], w) (ps, w') →
  ps !! 0%nat = Some (Ret (Ok c1)) → ps !! 1%nat = Some (Ret (Ok c2)) →
  conv_ID c1 = conv_ID c2.
Proof.
  intros Hi Hrtc H1 H2.
  set (Q := on_ok (λ c w', direct_between id1 id2 (w_db w') (conv_ID c))).
  destruct (pool_posts [Q; Q] _ _ _ _ ltac:(
    apply Forall2_cons; split; [apply GetOrCreateDirect_spec|];
    apply Forall2_cons; split; [|by apply Forall2_nil];
    eapply spec_mono, GetOrCreateDirect_spec;
    intros [c|e] ? _ Hc; [exact (direct_between_comm _ _ _ _ Hc)|done]) Hi Hrtc) as (Hi' & _ & Hposts).
  destruct (Hposts 0%nat _ Q eq_refl H1) as (w1 & Hle1 & HQ1).
  destruct (Hposts 1%nat _ Q eq_refl H2) as (w2 & Hle2 & HQ2).
  apply (direct_between_unique id1 id2 (w_db w')); [exact Hi'|..].
  - eapply direct_between_le; [exact Hle1|exact HQ1].
  - eapply direct_between_le; [exact Hle2|exact HQ2].
Qed.

(** A conversation with oneself is never created: the two members of the
    pair would be equal, and the schema's check refuses them. *)
Theorem no_self_conversation s id k1 k2 w w' ps r :
  world_inv w →
  rtc (pool_step behaves) ([GetOrCreateDirect s id id k1 k2], w) (ps, w') →
  ps !! 0%nat = Some (Ret r) → is_ok r = false.
Proof.
  intros Hi Hrtc H1.
  set (Q := on_ok (λ c w', direct_between id id (w_db w') (conv_ID c))).
  destruct (pool_posts [Q] _ _ _ _ ltac:(
    apply Forall2_cons; split; [apply GetOrCreateDirect_spec|by apply Forall2_nil]) Hi Hrtc)
    as (Hi' & _ & Hposts).
  destruct (Hposts 0%nat _ Q eq_refl H1) as (w1 & Hle1 & HQ1).
  destruct r as [c|e]; [|done]. cbn in HQ1.
  apply (direct_between_le _ _ _ (w_db w')) in HQ1 as (c' & Hc' & _ & Hp); [|done].
  assert (pair_key c' = Some (id, id)) as Hp' by tauto.
  destruct (pair_key_direct _ _ _ _ _ Hi' Hc' Hp') as [_ Hlt]. by rewrite uuid_ltb_irrefl in Hlt.
Qed.

End Properties.

(** ** On PostgreSQL *)
Section Runs.
Context {U : UuidPkg} {L : UuidLaws} {C : Citext} {E : Env} {UT : UnicodeTables}.

(** Finding before creating: when the two members already have their
    conversation, asking for it returns that conversation, whichever of
    them is named first, and writes nothing. *)
Theorem GetOrCreateDirect_existing id1 id2 k1 k2 w k :
  world_inv w → env_fault (w_steps w) = NoFault →
  id1 ≠ uuid_Nil → id2 ≠ uuid_Nil → direct_between id1 id2 (w_db w) k →
  ∃ c, run (GetOrCreateDirect true id1 id2 k1 k2) w = (Ok c, tick w) ∧ conv_ID c = k.
Proof.
  intros Hi Hft H1 H2 Hd. unfold GetOrCreateDirect. cbn [negb].
  rewrite !bool_decide_eq_false_2 by done. cbn [orb].
  destruct (canonical id1 id2 k1 k2) as [[low high] [kl kh]] eqn:Hcan.
  destruct (direct_between_pair _ _ _ _ _ _ _ _ _ Hi Hcan Hd) as (c & Hc & Hp).
  change (ConversationRepository.GetDirectByPair low high) with (Conversations.GetDirectByPair low high).
  unfold Conversations.GetDirectByPair. rewrite !run_bind, run_SelectRow by done.
  unfold total, select_conversation_by_pair.
  destruct (find_row (has_pair low high) (conversations (w_db w))) as [c'|] eqn:Ef.
  2:{ rewrite find_row_None in Ef. specialize (Ef k c Hc). unfold has_pair in Ef.
      by rewrite bool_decide_eq_true_2 in Ef. }
  cbn. exists c'. split; [done|].
  apply find_row_Some in Ef as [[k' Hk'] Hp']. unfold has_pair in Hp'.
  apply bool_decide_eq_true in Hp'.
  rewrite (conversations_key _ _ _ (inv_conversations _ Hi) _ _ Hk').
  by apply (conversations_pair _ _ _ (inv_conversations _ Hi) k' k c' c _ Hk' Hc Hp' Hp).
Qed.

(** ** Runs without faults *)
Definition no_faults : Prop := ∀ n, env_fault n = NoFault.

(** [n] actions later, with another database. *)
Fixpoint ticks (n : nat) (w : World) : World :=
  match n with O => w | S n => tick (ticks n w) end.
Definition later (n : nat) (w : World) (d : DB) : World := set_db (ticks n w) d.

Lemma run_Conversations_Create ty low high w c d' :
  no_faults →
  insert_conversation (MkConversation (env_uuid (w_steps w)) ty low high None
    (env_now (S (w_steps w))) None None) (w_db w) = Ok (c, d') →
  run (ConversationRepository.Create (new_conversation ty low high)) w = (Ok c, later 3 w d').
Proof.
  intros Hft Hins. change ConversationRepository.Create with Conversations.Create. unfold Conversations.Create, new_conversation, fresh_ID, fresh_time.
  cbn [conv_ID conv_CreatedAt conv_Type conv_IDLow conv_IDHigh conv_GroupID conv_LastMessageID
    conv_LastMessageAt].
  rewrite bool_decide_eq_true_2 by done. change (IsZero zero_time) with true. cbv iota.
  rewrite run_bind, run_uuid_New, run_bind, run_time_Now. cbv zeta.
  rewrite run_bind, run_QueryRow by done. cbn [tick w_steps w_db]. by rewrite Hins.
Qed.

Lemma run_Participants_Add conv id kind w n d' :
  no_faults →
  insert_participant (MkParticipant conv id kind false None (env_now (w_steps w))) (w_db w) = Ok (n, d') →
  run (ConversationParticipantRepository.Add (new_participant conv id kind)) w = (Ok tt, later 2 w d').
Proof.
  intros Hft Hins. change ConversationParticipantRepository.Add with ConversationParticipants.Add. unfold ConversationParticipants.Add, new_participant, fresh_time.
  cbn [part_JoinedAt part_ConversationID part_ParticipantID part_ParticipantKind part_Muted
    part_LastReadMessageID].
  change (IsZero zero_time) with true. cbv iota.
  rewrite run_bind, run_time_Now. cbv zeta. unfold Exec.
  rewrite run_bind, run_exec by done. cbn [tick w_steps w_db]. by rewrite Hins.
Qed.

Lemma check_require_true {A} b e (k : result pg_error A) : b = true → (check require b e ;; k) = k.
Proof. by intros ->. Qed.

Lemma check_enum_in {A} name l s (k : result pg_error A) :
  s ∈ l → (check enum_value name l s ;; k) = k.
Proof. intros. unfold enum_value. by rewrite bool_decide_eq_true_2. Qed.

Lemma has_some {K A} `{Countable K} (m : gmap K A) k x : m !! k = Some x → has m k = true.
Proof. intros Hx. apply has_true. by exists x. Qed.

Lemma has_none {K A} `{Countable K} (m : gmap K A) k : m !! k = None → has m k = false.
Proof. apply has_false. Qed.

(** A participant is added when its conversation exists. *)
Lemma insert_participant_new p c d :
  part_ParticipantKind p ∈ participant_types → conversations d !! part_ConversationID p = Some c →
  ∃ n d', insert_participant p d = Ok (n, d') ∧ conversations d' = conversations d ∧
    is_Some (participants d' !! part_key p) ∧
    (∀ k, is_Some (participants d !! k) → is_Some (participants d' !! k)).
Proof.
  intros Hk Hc. unfold insert_participant. cbv zeta. rewrite check_enum_in by done.
  change (part_key (store_participant p)) with (part_key p).
  destruct (has (participants d) (part_key p)) eqn:Eh.
  - exists 0%nat, d. split; [done|]. split; [done|]. split; [by apply has_true|done].
  - rewrite check_require_true by (by eapply has_some).
    eexists _, _. split; [done|]. cbn. split; [done|].
    split; [rewrite lookup_insert_eq; by eexists|]. intros k Hk'. by apply lookup_insert_is_Some'; right.
Qed.

Lemma canonical_lt id1 id2 k1 k2 :
  id1 ≠ id2 → uuid_ltb (canonical id1 id2 k1 k2).1.1 (canonical id1 id2 k1 k2).1.2 = true.
Proof.
  intros Hne. unfold canonical. destruct (uuid_ltb id2 id1) eqn:Hlt; [done|]. cbn.
  by destruct (uuid_ltb_total _ _ Hne) as [?|?]; [|congruence].
Qed.

Lemma insert_direct_ok id low high t d :
  uuid_ltb low high = true → conversations d !! id = None →
  select_conversation_by_pair low high d = None →
  ∃ c d', insert_conversation (MkConversation id ConversationTypeDirect (Some low) (Some high) None t None None) d
    = Ok (c, d') ∧ conv_ID c = id ∧ conversations d' !! id = Some c ∧ participants d' = participants d.
Proof.
  intros Hlt Hid Hpair. unfold insert_conversation. cbv zeta. cbn [store_conversation conv_Type conv_ID conv_GroupID].
  rewrite check_enum_in by (unfold conversation_types; set_solver).
  rewrite check_require_true by (by unfold conv_check; cbn; rewrite Hlt).
  rewrite check_require_true by (by rewrite has_none).
  rewrite check_require_true.
  2:{ unfold taken, pair_key. cbn. apply negb_true_iff, exists_row_false. intros k x Hx.
      by apply (proj1 (find_row_None _ _) Hpair) in Hx. }
  eexists _, _. split; [done|]. cbn. by rewrite lookup_insert_eq.
Qed.

(** The part of [GetOrCreateDirect] that creates: the conversation and then
    its two participants. *)
Lemma run_create_direct low high kl kh w :
  no_faults → uuid_ltb low high = true → kl ∈ participant_types → kh ∈ participant_types →
  select_conversation_by_pair low high (w_db w) = None →
  conversations (w_db w) !! env_uuid (w_steps w) = None →
  ∃ c w', run (
      let? conv := ConversationRepository.Create
                     (new_conversation ConversationTypeDirect (Some low) (Some high)) in
      let? _ := ConversationParticipantRepository.Add (new_participant (conv_ID conv) low kl) in
      let? _ := ConversationParticipantRepository.Add (new_participant (conv_ID conv) high kh) in
      Ret (Ok conv)) w = (Ok c, w') ∧ conv_ID c = env_uuid (w_steps w) ∧
    is_Some (participants (w_db w') !! (conv_ID c, low, kl)) ∧
    is_Some (participants (w_db w') !! (conv_ID c, high, kh)).
Proof.
  intros Hft Hlt Hkl Hkh Hsel Hfresh.
  destruct (insert_direct_ok (env_uuid (w_steps w)) low high (env_now (S (w_steps w))) (w_db w))
    as (c & d1 & Hins & Hid & Hc & Hps); try done.
  rewrite run_bind. erewrite run_Conversations_Create; [|done|exact Hins].
  destruct (insert_participant_new (MkParticipant (conv_ID c) low kl false None
    (env_now (w_steps (later 3 w d1)))) c d1) as (n1 & d2 & Hadd1 & Hc1 & Hin1 & Hmono1);
    [done|by cbn; rewrite Hid|].
  rewrite run_bind. erewrite run_Participants_Add; [|done|exact Hadd1].
  destruct (insert_participant_new (MkParticipant (conv_ID c) high kh false None
    (env_now (w_steps (later 2 (later 3 w d1) d2)))) c d2) as (n2 & d3 & Hadd2 & Hc2 & Hin2 & Hmono2);
    [done|by cbn; rewrite Hc1, Hid|].
  rewrite run_bind. erewrite run_Participants_Add; [|done|exact Hadd2]. cbn.
  eexists _, _. split; [done|]. split; [done|]. cbn.
  apply Hmono2 in Hin1. by unfold part_key in Hin1, Hin2.
Qed.

(** C33 Creating when there is none: for two different members that have no
    conversation yet, on a connection without faults and with a fresh
    identifier, the call succeeds; the conversation it returns is the direct
    conversation of the two, and both participate in it. *)
Theorem GetOrCreateDirect_creates id1 id2 k1 k2 w :
  no_faults → id1 ≠ id2 → id1 ≠ uuid_Nil → id2 ≠ uuid_Nil →
  k1 ∈ participant_types → k2 ∈ participant_types →
  (∀ k, ¬ direct_between id1 id2 (w_db w) k) → world_inv w →
  conversations (w_db w) !! env_uuid (S (w_steps w)) = None →
  ∃ c w', run (GetOrCreateDirect true id1 id2 k1 k2) w = (Ok c, w') ∧
    conv_ID c = env_uuid (S (w_steps w)) ∧ direct_between id1 id2 (w_db w') (conv_ID c) ∧
    is_Some (participants (w_db w') !! (conv_ID c, id1, k1)) ∧
    is_Some (participants (w_db w') !! (conv_ID c, id2, k2)).
Proof.
  intros Hft Hne H1 H2 Hk1 Hk2 Hnone Hi Hfresh.
  pose proof (GetOrCreateDirect_spec true id1 id2 k1 k2 w Hi) as Hspec.
  apply (wp_run _ _ _ Hi) in Hspec as (Hpost & _).
  assert (∃ c w', run (GetOrCreateDirect true id1 id2 k1 k2) w = (Ok c, w') ∧
    conv_ID c = env_uuid (S (w_steps w)) ∧
    is_Some (participants (w_db w') !! (conv_ID c, id1, k1)) ∧
    is_Some (participants (w_db w') !! (conv_ID c, id2, k2))) as (c & w' & Hrun & Hid & Hp1 & Hp2).
  2:{ rewrite Hrun in Hpost. destruct Hpost as (_ & _ & Hd). eauto 10. }
  clear Hpost. unfold GetOrCreateDirect. cbn [negb].
  rewrite !bool_decide_eq_false_2 by done. cbn [orb].
  pose proof (canonical_lt id1 id2 k1 k2 Hne) as Hlt. pose proof (canonical_cases id1 id2 k1 k2) as Hor.
  destruct (canonical id1 id2 k1 k2) as [[low high] [kl kh]] eqn:Hcan. cbn in Hlt.
  assert (kl ∈ participant_types ∧ kh ∈ participant_types) as [Hkl Hkh]
    by (destruct Hor as [[= -> -> -> ->]|[= -> -> -> ->]]; done).
  assert (select_conversation_by_pair low high (w_db w) = None) as Hsel.
  { apply find_row_None. intros k c Hc. unfold has_pair. rewrite bool_decide_eq_false. intros Hp.
    destruct (pair_key_direct _ _ _ _ _ Hi Hc Hp) as [Ht _].
    apply (Hnone k). by eapply direct_between_canonical. }
  change (ConversationRepository.GetDirectByPair low high) with (Conversations.GetDirectByPair low high).
  unfold Conversations.GetDirectByPair. rewrite !run_bind, run_SelectRow by done.
  unfold total. rewrite Hsel. cbn [scanConversation scan run].
  change (errors_Is ErrNoRows ErrNoRows) with true. cbv iota.
  change (errors_Is ErrNotFound ErrNotFound) with true. cbn [negb].
  destruct (run_create_direct low high kl kh (tick w)) as (c & w' & -> & Hid & Hp1 & Hp2); try done.
  exists c, w'. split; [done|]. split; [done|].
  destruct Hor as [[= -> -> -> ->]|[= -> -> -> ->]]; done.
Qed.

(** C38 Creating a group is not atomic: when the name is already taken, the
    call fails, but the conversation it created first stays behind, of type
    group, with no group and no participant. *)
Theorem CreateGroup_leaves_orphan name creator cid w gid g :
  no_faults → world_inv w → name ≠ "" → creator ≠ "" → uuid_Parse creator = Ok cid →
  chat_groups (w_db w) !! gid = Some g → group_Name g = name →
  conversations (w_db w) !! env_uuid (w_steps w) = None →
  let '(r, w') := run (CreateGroup true name creator) w in
  is_ok r = false ∧ chat_groups (w_db w') = chat_groups (w_db w) ∧
  (∃ c, conversations (w_db w') !! env_uuid (w_steps w) = Some c ∧
     conv_Type c = ConversationTypeGroup ∧ conv_GroupID c = None) ∧
  (∀ k g, chat_groups (w_db w') !! k = Some g → group_ConversationID g ≠ Some (env_uuid (w_steps w))) ∧
  (∀ p k, participants (w_db w') !! (env_uuid (w_steps w), p, k) = None).
Proof.
  intros Hft Hi Hn Hc Hparse Hg Hgn Hfresh. unfold CreateGroup, is_empty.
  rewrite (proj2 (String.eqb_neq name "")), (proj2 (String.eqb_neq creator "")) by done.
  cbn [negb orb]. rewrite Hparse, run_bind.
  assert (∃ c d', insert_conversation (MkConversation (env_uuid (w_steps w)) ConversationTypeGroup None None
    None (env_now (S (w_steps w))) None None) (w_db w) = Ok (c, d') ∧
    conversations d' = <[env_uuid (w_steps w) := c]> (conversations (w_db w)) ∧
    chat_groups d' = chat_groups (w_db w) ∧ participants d' = participants (w_db w) ∧
    conv_Type c = ConversationTypeGroup ∧ conv_GroupID c = None) as (c & d' & Hins & Hcs & Hgs & Hps & Ht & Hcg).
  { unfold insert_conversation. cbv zeta. cbn [store_conversation conv_Type conv_ID conv_GroupID].
    rewrite check_enum_in by (unfold conversation_types; set_solver).
    rewrite !check_require_true by (done || by rewrite has_none). by eexists _, _. }
  erewrite run_Conversations_Create; [|done|exact Hins].
  change ChatGroupRepository.Create with Groups.Create. unfold Groups.Create, new_group, fresh_ID, fresh_time.
  cbn [group_ID group_Name group_OwnerID group_ConversationID group_CreatedAt].
  rewrite bool_decide_eq_true_2 by done. change (IsZero zero_time) with true. cbv iota.
  rewrite !run_bind, run_uuid_New, run_bind, run_time_Now. cbv zeta.
  rewrite run_bind, run_QueryRow by done.
  assert (∀ x, group_Name x = name → ∃ e, insert_group x d' = Err e) as Hgrp.
  { intros x Hx. unfold insert_group. cbv zeta. cbn [store_group group_ID].
    destruct (negb (has (chat_groups d') (group_ID x))); [|by eexists]. cbn [require].
    replace (taken name_key _ _) with true; [by eexists|]. symmetry.
    unfold taken, name_key. cbn. apply exists_row_true. exists gid, g. rewrite Hgs.
    split; [done|]. apply bool_decide_eq_true. by rewrite Hgn, Hx. }
  match goal with |- context [insert_group ?x ?d] => destruct (Hgrp x eq_refl) as [e He] end.
  cbn [later tick w_db w_steps set_db ticks] in He |- *. rewrite He. cbn.
  split; [done|]. split; [done|]. rewrite Hgs, Hps, Hcs. split; [|split].
  - exists c. by rewrite lookup_insert_eq.
  - intros k g' Hk Hgc. destruct (groups_conv _ _ _ (inv_groups _ Hi) k g' Hk _ Hgc) as (cv & Hcv & _). congruence.
  - intros p k. destruct (participants (w_db w) !! _) as [x|] eqn:Ex; [|done].
    pose proof (participants_key_ok _ _ (inv_participants _ Hi) _ _ Ex) as Hkey. simpl in Hkey.
    destruct (participants_member _ _ (inv_participants _ Hi) _ _ Ex) as (cv & Hcv & _).
    injection Hkey as Hk1 _ _. rewrite Hk1 in Hcv. congruence.
Qed.
End Runs.

(** ** Witnesses *)
Module Witnesses.
Import Example.
#[local] Instance no_unicode : UnicodeTables := λ s, s.

Definition alice : uuid := "A"%char.
Definition bob : uuid := "B"%char.
Definition users_db : DB := set_users empty_DB
  {[ alice := MkUser alice "alice@example.org" "hash" 0 true None None ]}.

Lemma example_no_faults : no_faults.
Proof. done. Qed.

Lemma users_db_inv : world_inv (world users_db).
Proof.
  apply set_users_ok; [apply empty_inv|..].
  - split; [by apply map_Forall_singleton|]. intros i j x y k Hi Hj _ _.
    apply lookup_singleton_Some in Hi as [<- _], Hj as [<- _]. done.
  - intros k x Hx. by cbn in Hx; rewrite lookup_empty in Hx.
Qed.

Lemma GetOrCreateDirect_symmetric_witness :
  alice ≠ bob ∧
  GetOrCreateDirect true alice bob "user" "agent" = GetOrCreateDirect true bob alice "agent" "user".
Proof.
  assert (alice ≠ bob) as Hne by done. split; [exact Hne|].
  exact (GetOrCreateDirect_symmetric true alice bob "user" "agent" Hne).
Defined.

Definition dm1 := GetOrCreateDirect true alice bob "user" "user".
Definition dm2 := GetOrCreateDirect true bob alice "user" "user".
Definition w1 := (run dm1 (world empty_DB)).2.
Definition w2 := (run dm2 w1).2.

Lemma dm_results :
  ∃ c1 c2, (run dm1 (world empty_DB)).1 = Ok c1 ∧ (run dm2 w1).1 = Ok c2.
Proof.
  destruct (is_ok_inv (run dm1 (world empty_DB)).1) as [c1 H1]; [vm_compute; reflexivity|].
  destruct (is_ok_inv (run dm2 w1).1) as [c2 H2]; [vm_compute; reflexivity|]. exists c1, c2. split; [exact H1|exact H2].
Qed.

(** One goroutine after the other: both succeed, with one conversation. *)
Lemma direct_conversation_unique_witness :
  ∃ c1 c2, (run dm1 (world empty_DB)).1 = Ok c1 ∧ (run dm2 w1).1 = Ok c2 ∧ conv_ID c1 = conv_ID c2.
Proof.
  destruct dm_results as (c1 & c2 & H1 & H2). exists c1, c2. split; [exact H1|]. split; [exact H2|].
  pose proof (pool_run2 behaves dm1 dm2 (world empty_DB)) as Hrtc.
  fold w1 in Hrtc. rewrite H1, H2 in Hrtc.
  exact (direct_conversation_unique true true alice bob "user" "user" "user" "user"
    (world empty_DB) _ _ c1 c2 empty_world_inv Hrtc eq_refl eq_refl).
Defined.

Lemma no_self_conversation_witness :
  let p := GetOrCreateDirect true alice alice "user" "user" in
  is_ok (run p (world empty_DB)).1 = false.
Proof.
  intros p. pose proof (pool_run behaves [] p [] (world empty_DB)) as Hrtc.
  exact (no_self_conversation true alice "user" "user" (world empty_DB) _ _ _
    empty_world_inv Hrtc eq_refl).
Defined.

Lemma dm_exists : direct_between alice bob (w_db w1) (env_uuid 1).
Proof.
  destruct (some_test_inv (λ c, String.eqb (conv_Type c) ConversationTypeDirect && has_pair alice bob c)
    (conversations (w_db w1) !! env_uuid 1)) as (c & Hc & Ht); [vm_compute; reflexivity|].
  apply andb_true_iff in Ht as [Ht%String.eqb_eq Hp]. exists c. split; [exact Hc|]. split; [exact Ht|].
  left. by apply bool_decide_eq_true in Hp.
Qed.

Lemma w1_inv : world_inv w1.
Proof.
  apply (wp_run dm1 _ _ empty_world_inv (GetOrCreateDirect_spec true alice bob "user" "user" _ empty_world_inv)).
Qed.

Lemma GetOrCreateDirect_existing_witness :
  ∃ c, run dm2 w1 = (Ok c, tick w1) ∧ conv_ID c = (env_uuid 1).
Proof.
  apply (GetOrCreateDirect_existing bob alice "user" "user" w1 (env_uuid 1)).
  - exact w1_inv.
  - reflexivity.
  - done.
  - done.
  - apply (direct_between_comm alice bob), dm_exists.
Defined.

Lemma GetOrCreateDirect_creates_witness :
  ∃ c w', run dm1 (world empty_DB) = (Ok c, w') ∧
    conv_ID c = env_uuid 1 ∧ direct_between alice bob (w_db w') (conv_ID c) ∧
    is_Some (participants (w_db w') !! (conv_ID c, alice, "user")) ∧
    is_Some (participants (w_db w') !! (conv_ID c, bob, "user")).
Proof.
  apply (GetOrCreateDirect_creates alice bob "user" "user" (world empty_DB)).
  - exact example_no_faults.
  - done.
  - done.
  - done.
  - unfold participant_types. set_solver.
  - unfold participant_types. set_solver.
  - intros k (c & Hc & _). cbn in Hc. by rewrite lookup_empty in Hc.
  - apply empty_world_inv.
  - reflexivity.
Defined.

Definition ops := CreateGroup true "ops" (uuid_String alice).
Definition w3 := (run ops (world users_db)).2.

Lemma w3_inv : world_inv w3.
Proof.
  apply (wp_run ops _ _ users_db_inv (CreateGroup_spec true "ops" (uuid_String alice) _ users_db_inv)).
Qed.

Lemma CreateGroup_leaves_orphan_witness :
  ∃ r w', run ops w3 = (r, w') ∧ is_ok r = false ∧
    ∃ c, conversations (w_db w') !! env_uuid (w_steps w3) = Some c ∧ conv_GroupID c = None.
Proof.
  assert (∃ gid g, chat_groups (w_db w3) !! gid = Some g ∧ group_Name g = "ops") as (gid & g & Hg & Hn).
  { destruct (some_test_inv (λ g, String.eqb (group_Name g) "ops") (chat_groups (w_db w3) !! env_uuid 3))
      as (g & Hg & Hn%String.eqb_eq); [vm_compute; reflexivity|]. exists (env_uuid 3), g. split; [exact Hg|exact Hn]. }
  assert (conversations (w_db w3) !! env_uuid (w_steps w3) = None) as Hfresh.
  { apply has_false. vm_compute. reflexivity. }
  pose proof (CreateGroup_leaves_orphan "ops" (uuid_String alice) alice w3 gid g
    example_no_faults w3_inv ltac:(done) ltac:(done) (Parse_String alice) Hg Hn
    Hfresh) as H.
  fold ops in H. destruct (run ops w3) as [r w']. destruct H as (Hr & _ & (c & Hc & _ & Hcg) & _).
  exists r, w'. split; [reflexivity|]. split; [exact Hr|]. exists c. split; [exact Hc|exact Hcg].
Defined.
End Witnesses.
End Conversation.
