(* ===== verification/Registry.v ===== *)
(** * The agent registry

    [backend/internal/registry/registry.go], over the interface of the agents'
    repository. *)

From S2P Require Import Prelude.
From S2P Require Import GoStrings.
From S2P Require Import GoTime.
From S2P Require Import GoValue.
From S2P Require Import Uuid.
From S2P Require Import Models.
From S2P Require Import Schema.
From S2P Require Import Invariant.
From S2P Require Import Statements.
From S2P Require Import World.
From S2P Require Import Interfaces.

Open Scope string_scope.
Open Scope Z_scope.

Module Registry.
Section Service.
Context {U : UuidPkg} {C : Citext} {E : Env} {Agents : AgentRepository.AgentRepository}.

(** [s != nil && s.db != nil] *)
Definition Service := bool.
Definition NewService (db : bool) : Service := db.

Record DiscoveryQuery := MkQuery { SupportedTags : list string; Limit : Z }.

(** [agent] may be a nil pointer. *)
Definition Register (s : Service) (agent : option Agent) : prog (result goerr unit) :=
  match agent with
  | None => Ret (Err ErrInvalidInput)
  | Some agent =>
      if negb s then Ret (Err ErrInvalidInput) else
      let? _ := AgentRepository.Create agent in
      Ret (Ok tt)
  end.

Definition Deregister (s : Service) (agentID : string) : prog (result goerr unit) :=
  if negb s || String.eqb agentID "" then Ret (Err ErrInvalidInput) else
  match uuid_Parse agentID with
  | Err e => Ret (Err e)
  | Ok id => AgentRepository.Delete id
  end.

Definition Heartbeat (s : Service) (agentID : string) : prog (result goerr unit) := Ret (Ok tt).

Definition Discover (s : Service) (query : DiscoveryQuery) : prog (result goerr (list Agent)) :=
  if negb s then Ret (Err ErrInvalidInput) else
  let limit := if Limit query <=? 0 then 10 else Limit query in
  let? agents := AgentRepository.ListAll in
  let agents := if limit <? Z.of_nat (length agents) then take (Z.to_nat limit) agents else agents in
  Ret (Ok agents).

Definition GetAgent (s : Service) (agentID : string) : prog (result goerr Agent) :=
  if negb s || String.eqb agentID "" then Ret (Err ErrInvalidInput) else
  match uuid_Parse agentID with
  | Err e => Ret (Err e)
  | Ok id => AgentRepository.GetByID id
  end.

(** ** Specifications *)
Context {L : AgentRepository.Laws}.

Lemma Register_behaves s a : behaves (Register s a).
Proof.
  intros w. unfold Register. destruct a as [a|]; [|by apply spec_ret].
  refuse. eapply spec_any, (spec_try _ _ _ _ (λ _ _, True)).
  - apply AgentRepository.Create_spec.
  - intros. by apply spec_ret.
Qed.

Lemma Deregister_behaves s id : behaves (Deregister s id).
Proof.
  intros w. unfold Deregister. refuse.
  destruct (uuid_Parse id); [apply AgentRepository.Delete_spec|by apply spec_ret].
Qed.

Lemma GetAgent_behaves s id : behaves (GetAgent s id).
Proof.
  intros w. unfold GetAgent. refuse.
  destruct (uuid_Parse id); [eapply spec_any, AgentRepository.GetByID_spec|by apply spec_ret].
Qed.

Definition effective_limit (limit : Z) : nat := Z.to_nat (if limit <=? 0 then 10 else limit).

(** The agents of a database that a query of this limit shows: the newest
    first, ten when no positive limit is given. *)
Definition discoverable (limit : Z) (d : DB) : list Agent :=
  take (effective_limit limit) (select_agents d).

Lemma Discover_spec s q w :
  spec (Discover s q) w (on_ok (λ l w', l = discoverable (Limit q) (w_db w'))).
Proof.
  unfold Discover. refuse.
  eapply spec_try; [apply AgentRepository.ListAll_spec|]. intros l w1 _ ->. apply spec_ret. cbn.
  unfold discoverable, effective_limit. destruct (_ <? Z.of_nat _) eqn:El; [done|].
  symmetry. apply take_ge. destruct (Limit q <=? 0) eqn:El'; lia.
Qed.
End Service.

Section Properties.
Context {U : UuidPkg} {C : Citext} {E : Env} {Agents : AgentRepository.AgentRepository} {L : AgentRepository.Laws}.

Lemma select_agents_sorted d : StronglySorted (desc agent_CreatedAt) (select_agents d).
Proof.
  apply StronglySorted_merge_sort.
  - intros x y z. unfold desc. lia.
  - intros x y. unfold desc. lia.
Qed.

Lemma elem_of_select_agents d a : a ∈ select_agents d ↔ ∃ k, agents d !! k = Some a.
Proof. unfold select_agents, order_desc. by rewrite merge_sort_Permutation, elem_of_rows. Qed.

(** C39 Discovery does not look at the tags a query asks for: whatever they
    are, [Discover] returns registered agents, newest first, as many as the
    limit (ten when the query gives none or a negative one) unless there are
    fewer, and an agent that is left out is no newer than any returned; under
    any interference and any faults.  The documents promise more: a filter by
    tag and an order by availability. *)
Theorem Discover_newest s tags limit w :
  spec (Discover s (MkQuery tags limit)) w (on_ok (λ l w',
    let shown := if decide (0 < limit) then Z.to_nat limit else 10%nat in
    length l = Nat.min shown (size (agents (w_db w'))) ∧
    StronglySorted (λ a b, agent_CreatedAt b ≤ agent_CreatedAt a) l ∧
    (∀ a, a ∈ l → ∃ k, agents (w_db w') !! k = Some a) ∧
    (∀ k a, agents (w_db w') !! k = Some a → a ∈ l ∨ ∀ b, b ∈ l → agent_CreatedAt a ≤ agent_CreatedAt b))).
Proof.
  eapply spec_mono, Discover_spec. intros [l|e] w' _ Hl; [|done]. cbn [on_ok Limit] in *. subst l. cbv zeta.
  assert ((if decide (0 < limit) then Z.to_nat limit else 10%nat) = effective_limit limit) as ->.
  { unfold effective_limit. destruct (decide (0 < limit)), (limit <=? 0) eqn:El; try done; lia. }
  destruct (take_sorted _ (effective_limit limit) _ (select_agents_sorted (w_db w'))) as (Hlen & Hs & Hin & Hout).
  split; [|split; [exact Hs|split]].
  - unfold discoverable. rewrite Hlen. f_equal. unfold select_agents, order_desc, rows.
    by rewrite merge_sort_Permutation, length_fmap, length_map_to_list.
  - intros a Ha. apply elem_of_select_agents. by apply Hin.
  - intros k a Ha. apply Hout, elem_of_select_agents. by exists k.
Qed.
End Properties.
End Registry.
