(* ===== verification/Base64.v ===== *)
(** * Binary-to-text encodings of the standard library

    [hex.EncodeToString], [base64.RawURLEncoding] and
    [base64.RawStdEncoding]: the encoders and the decoder [auth.go] uses, on
    byte strings.  The decoder skips carriage returns and line feeds and does
    not insist on zero trailing bits, as Go's does when not strict. *)

From S2P Require Import Prelude.
From S2P Require Import GoStrings.

Open Scope string_scope.
Open Scope Z_scope.

Definition byte_val (a : ascii) : Z := Z.of_N (N_of_ascii a).
Definition byte_of (z : Z) : ascii := ascii_of_N (Z.to_N (z mod 256)).

(** ** Hexadecimal *)
Definition hex_char (z : Z) : ascii := byte_of (if z <? 10 then 48 + z else 87 + z).

Fixpoint hex_EncodeToString (s : string) : string :=
  match s with
  | "" => ""
  | String a s => String (hex_char (byte_val a / 16))
                    (String (hex_char (byte_val a mod 16)) (hex_EncodeToString s))
  end.

(** ** Base 64 *)
Inductive b64_alphabet := RawStdEncoding | RawURLEncoding.

Definition b64_char (al : b64_alphabet) (v : Z) : ascii :=
  if v <? 26 then byte_of (65 + v)
  else if v <? 52 then byte_of (71 + v)
  else if v <? 62 then byte_of (v - 4)
  else match al with
       | RawStdEncoding => if v =? 62 then "+"%char else "/"%char
       | RawURLEncoding => if v =? 62 then "-"%char else "_"%char
       end.

Definition b64_val (al : b64_alphabet) (a : ascii) : option Z :=
  let z := byte_val a in
  if (65 <=? z) && (z <=? 90) then Some (z - 65)
  else if (97 <=? z) && (z <=? 122) then Some (z - 71)
  else if (48 <=? z) && (z <=? 57) then Some (z + 4)
  else match al with
       | RawStdEncoding => if z =? 43 then Some 62 else if z =? 47 then Some 63 else None
       | RawURLEncoding => if z =? 45 then Some 62 else if z =? 95 then Some 63 else None
       end.

Fixpoint EncodeToString (al : b64_alphabet) (s : string) : string :=
  match s with
  | "" => ""
  | String a "" =>
      let x := byte_val a in
      String (b64_char al (x / 4)) (String (b64_char al (x mod 4 * 16)) "")
  | String a (String b "") =>
      let x := byte_val a in
      let y := byte_val b in
      String (b64_char al (x / 4)) (String (b64_char al (x mod 4 * 16 + y / 16))
        (String (b64_char al (y mod 16 * 4)) ""))
  | String a (String b (String c s)) =>
      let x := byte_val a in
      let y := byte_val b in
      let z := byte_val c in
      String (b64_char al (x / 4)) (String (b64_char al (x mod 4 * 16 + y / 16))
        (String (b64_char al (y mod 16 * 4 + z / 64)) (String (b64_char al (z mod 64))
          (EncodeToString al s))))
  end.

(** Carriage returns and line feeds are skipped. *)
Fixpoint strip_newlines (s : string) : string :=
  match s with
  | "" => ""
  | String a s => if byte_is 10 a || byte_is 13 a then strip_newlines s else String a (strip_newlines s)
  end.

Fixpoint decode_groups (al : b64_alphabet) (s : string) : option string :=
  match s with
  | "" => Some ""
  | String _ "" => None
  | String a (String b "") =>
      match b64_val al a, b64_val al b with
      | Some p, Some q => Some (String (byte_of (p * 4 + q / 16)) "")
      | _, _ => None
      end
  | String a (String b (String c "")) =>
      match b64_val al a, b64_val al b, b64_val al c with
      | Some p, Some q, Some r =>
          Some (String (byte_of (p * 4 + q / 16)) (String (byte_of (q mod 16 * 16 + r / 4)) ""))
      | _, _, _ => None
      end
  | String a (String b (String c (String d s))) =>
      match b64_val al a, b64_val al b, b64_val al c, b64_val al d, decode_groups al s with
      | Some p, Some q, Some r, Some t, Some rest =>
          Some (String (byte_of (p * 4 + q / 16)) (String (byte_of (q mod 16 * 16 + r / 4))
            (String (byte_of (r mod 4 * 64 + t)) rest)))
      | _, _, _, _, _ => None
      end
  end.

Definition DecodeString (al : b64_alphabet) (s : string) : option string :=
  decode_groups al (strip_newlines s).

(** ** Round trip *)
Lemma byte_val_range a : 0 ≤ byte_val a < 256.
Proof. unfold byte_val. pose proof (N_ascii_bounded a). lia. Qed.

Lemma byte_of_val a z : z = byte_val a → byte_of z = a.
Proof.
  intros ->. unfold byte_of. rewrite Z.mod_small by apply byte_val_range.
  unfold byte_val. by rewrite N2Z.id, ascii_N_embedding.
Qed.

Lemma byte_val_of z : 0 ≤ z < 256 → byte_val (byte_of z) = z.
Proof.
  intros Hz. unfold byte_val, byte_of. rewrite Z.mod_small by done.
  rewrite N_ascii_embedding by lia. lia.
Qed.

(** A property of the 64 digits, checked one by one. *)
Lemma digits64 (P : Z → bool) :
  forallb P (map Z.of_nat (seq 0 64)) = true → ∀ v, 0 ≤ v < 64 → P v = true.
Proof.
  intros H v Hv. rewrite forallb_forall in H. apply H, in_map_iff.
  exists (Z.to_nat v). split; [lia|]. apply in_seq. lia.
Qed.

Lemma b64_val_char al v : 0 ≤ v < 64 → b64_val al (b64_char al v) = Some v.
Proof.
  intros Hv. apply (digits64 (λ v, bool_decide (b64_val al (b64_char al v) = Some v))) in Hv.
  - by apply bool_decide_eq_true in Hv.
  - by destruct al; vm_compute.
Qed.

(** The characters of both alphabets. *)
Definition b64_ascii (a : ascii) : bool :=
  byte_in 65 90 a || byte_in 97 122 a || byte_in 48 57 a || byte_is 43 a || byte_is 47 a ||
  byte_is 45 a || byte_is 95 a.

Lemma b64_char_ascii al v : 0 ≤ v < 64 → b64_ascii (b64_char al v) = true.
Proof.
  apply (digits64 (λ v, b64_ascii (b64_char al v))). by destruct al; vm_compute.
Qed.

(** Induction on the groups of three bytes. *)
Lemma string_ind3 (P : string → Prop) :
  P "" → (∀ a, P (String a "")) → (∀ a b, P (String a (String b ""))) →
  (∀ a b c s, P s → P (String a (String b (String c s)))) → ∀ s, P s.
Proof.
  intros H0 H1 H2 H3. fix IH 1. intros [|a [|b [|c s]]]; [exact H0|exact (H1 a)|exact (H2 a b)|].
  apply H3, IH.
Qed.

Lemma EncodeToString_ascii al s : str_forallb b64_ascii (EncodeToString al s) = true.
Proof.
  induction s as [|a|a b|a b c s IH] using string_ind3; [done|..]; cbn [EncodeToString str_forallb];
    repeat (rewrite b64_char_ascii;
      [|pose proof (byte_val_range a); try pose proof (byte_val_range b);
        try pose proof (byte_val_range c); Z.to_euclidean_division_equations; lia]); done.
Qed.

Lemma strip_newlines_id s : str_forallb b64_ascii s = true → strip_newlines s = s.
Proof.
  induction s as [|a s IH]; [done|]. cbn. intros [Ha Hs]%andb_true_iff. rewrite (IH Hs).
  replace (byte_is 10 a || byte_is 13 a) with false; [done|].
  unfold b64_ascii, byte_in, byte_is in *. lia.
Qed.

(** Decoding an encoded string gives it back. *)
Lemma Decode_Encode al s : DecodeString al (EncodeToString al s) = Some s.
Proof.
  unfold DecodeString. rewrite strip_newlines_id by apply EncodeToString_ascii.
  induction s as [|a|a b|a b c s IH] using string_ind3; [done|..]; cbn [EncodeToString decode_groups];
    rewrite !b64_val_char by (pose proof (byte_val_range a); try pose proof (byte_val_range b);
        try pose proof (byte_val_range c); Z.to_euclidean_division_equations; lia).
  - do 2 f_equal. apply byte_of_val. pose proof (byte_val_range a).
    Z.to_euclidean_division_equations; lia.
  - pose proof (byte_val_range a). pose proof (byte_val_range b).
    do 3 f_equal; [apply byte_of_val..|f_equal; apply byte_of_val]; Z.to_euclidean_division_equations; lia.
  - rewrite IH. pose proof (byte_val_range a). pose proof (byte_val_range b). pose proof (byte_val_range c).
    rewrite (byte_of_val a), (byte_of_val b), (byte_of_val c); [done|..];
      Z.to_euclidean_division_equations; lia.
Qed.
