(* ===== verification/Sha256.v ===== *)
(** * SHA-256, HMAC and padded base 64

    [crypto/sha256], [crypto/hmac] and [base64.StdEncoding] of the standard
    library, on byte strings, as FIPS 180-4, RFC 2104 and RFC 4648 define
    them; words are 32-bit numbers ([Z], reduced after every addition).  The
    test vectors of the standards are checked at the end. *)

From S2P Require Import Prelude.
From S2P Require Import GoStrings.
From S2P Require Import Base64.

Open Scope string_scope.
Open Scope Z_scope.

(** ** Words and bytes *)
Definition wrap32 (z : Z) : Z := z mod 2 ^ 32.
Definition rotr (n x : Z) : Z := Z.lor (Z.shiftr x n) (wrap32 (Z.shiftl x (32 - n))).

Fixpoint bytes_of (s : string) : list Z :=
  match s with "" => [] | String a s => byte_val a :: bytes_of s end.
Fixpoint string_of (l : list Z) : string :=
  match l with [] => "" | b :: l => String (byte_of b) (string_of l) end.

(** The big-endian bytes of a number. *)
Fixpoint big_endian (n : nat) (z : Z) : list Z :=
  match n with
  | O => []
  | S n => Z.shiftr z (8 * Z.of_nat n) mod 256 :: big_endian n z
  end.

Fixpoint words (l : list Z) : list Z :=
  match l with
  | a :: b :: c :: d :: l => ((a * 256 + b) * 256 + c) * 256 + d :: words l
  | _ => []
  end.

(** ** SHA-256 *)

(** The constants are the first 32 bits after the point of the roots of the
    first primes: cube roots for the rounds, square roots for the state. *)
Definition is_prime (p : Z) : bool := forallb (λ d, negb (p mod d =? 0)) (seqZ 2 (p - 2)).
Definition first_primes : list Z := List.filter is_prime (seqZ 2 310).

(** The cube root, bit by bit from bit [n - 1] on. *)
Fixpoint cube_root (n : nat) (x r : Z) : Z :=
  match n with
  | O => r
  | S n =>
      let r' := r + 2 ^ Z.of_nat n in
      cube_root n x (if r' * r' * r' <=? x then r' else r)
  end.

Definition K : list Z := Eval vm_compute in map (λ p, wrap32 (cube_root 36 (p * 2 ^ 96) 0)) first_primes.

Record state := MkState { ha : Z; hb : Z; hc : Z; hd : Z; he : Z; hf : Z; hg : Z; hh : Z }.

Definition initial : state :=
  Eval vm_compute in
  match map (λ p, wrap32 (Z.sqrt (p * 2 ^ 64))) (take 8 first_primes) with
  | [a; b; c; d; e; f; g; h] => MkState a b c d e f g h
  | _ => MkState 0 0 0 0 0 0 0 0
  end.

Definition small_sigma0 (x : Z) : Z := Z.lxor (rotr 7 x) (Z.lxor (rotr 18 x) (Z.shiftr x 3)).
Definition small_sigma1 (x : Z) : Z := Z.lxor (rotr 17 x) (Z.lxor (rotr 19 x) (Z.shiftr x 10)).
Definition big_sigma0 (x : Z) : Z := Z.lxor (rotr 2 x) (Z.lxor (rotr 13 x) (rotr 22 x)).
Definition big_sigma1 (x : Z) : Z := Z.lxor (rotr 6 x) (Z.lxor (rotr 11 x) (rotr 25 x)).
Definition Ch (x y z : Z) : Z := Z.lxor (Z.land x y) (Z.land (Z.lxor x 0xffffffff) z).
Definition Maj (x y z : Z) : Z := Z.lxor (Z.land x y) (Z.lxor (Z.land x z) (Z.land y z)).

(** The message schedule; [w] holds the sixteen words before the next one. *)
Fixpoint schedule (n : nat) (w : list Z) : list Z :=
  match n with
  | O => []
  | S n =>
      let next := wrap32 (small_sigma1 (nth 14 w 0) + nth 9 w 0 + small_sigma0 (nth 1 w 0) + nth 0 w 0) in
      nth 0 w 0 :: schedule n (tl w ++ [next])%list
  end.

Definition round (s : state) (kw : Z * Z) : state :=
  let t1 := hh s + big_sigma1 (he s) + Ch (he s) (hf s) (hg s) + kw.1 + kw.2 in
  let t2 := big_sigma0 (ha s) + Maj (ha s) (hb s) (hc s) in
  MkState (wrap32 (t1 + t2)) (ha s) (hb s) (hc s) (wrap32 (hd s + t1)) (he s) (hf s) (hg s).

Definition block (s : state) (w : list Z) : state :=
  let r := foldl round s (zip K (schedule 64 w)) in
  MkState (wrap32 (ha s + ha r)) (wrap32 (hb s + hb r)) (wrap32 (hc s + hc r)) (wrap32 (hd s + hd r))
    (wrap32 (he s + he r)) (wrap32 (hf s + hf r)) (wrap32 (hg s + hg r)) (wrap32 (hh s + hh r)).

(** A one bit, zeros, and the length in bits, up to a multiple of 64 bytes. *)
Definition pad (l : list Z) : list Z :=
  let n := Z.of_nat (length l) in
  (l ++ [128] ++ repeat 0 (Z.to_nat ((55 - n) mod 64)) ++ big_endian 8 (8 * n))%list.

Fixpoint blocks (n : nat) (s : state) (w : list Z) : state :=
  match n with
  | O => s
  | S n => blocks n (block s (take 16 w)) (drop 16 w)
  end.

Definition digest (s : state) : list Z :=
  mbind (big_endian 4) [ha s; hb s; hc s; hd s; he s; hf s; hg s; hh s].

Definition sha256_bytes (l : list Z) : list Z :=
  let w := words (pad l) in digest (blocks (length w / 16) initial w).

Definition sha256 (s : string) : string := string_of (sha256_bytes (bytes_of s)).

(** ** HMAC-SHA256 *)
Definition hmac_key (key : list Z) : list Z :=
  let key := if (64 <? Z.of_nat (length key)) then sha256_bytes key else key in
  (key ++ repeat 0 (64 - length key))%list.

Definition hmac_sha256 (key data : string) : string :=
  let key := hmac_key (bytes_of key) in
  let inner := sha256_bytes (map (Z.lxor 0x36) key ++ bytes_of data) in
  string_of (sha256_bytes (map (Z.lxor 0x5c) key ++ inner)).

(** ** [base64.StdEncoding] *)
Definition padding (n : nat) : string :=
  match n with 1%nat => "==" | 2%nat => "=" | _ => "" end.

Definition StdEncode (s : string) : string :=
  EncodeToString RawStdEncoding s +:+ padding (String.length s mod 3).

Fixpoint decode_padded (s : string) : option string :=
  match s with
  | "" => Some ""
  | String a (String b (String c (String d rest))) =>
      if Ascii.eqb d "=" then
        if negb (String.eqb rest "") then None
        else if Ascii.eqb c "=" then decode_groups RawStdEncoding (String a (String b ""))
        else decode_groups RawStdEncoding (String a (String b (String c "")))
      else
        group ← decode_groups RawStdEncoding (String a (String b (String c (String d ""))));
        rest ← decode_padded rest;
        Some (group +:+ rest)
  | _ => None
  end.

Definition StdDecode (s : string) : option string := decode_padded (strip_newlines s).

(** ** Test vectors *)
Example sha256_empty :
  hex_EncodeToString (sha256 "") = "e3b0c44298fc1c149afbf4c8996fb92427ae41e4649b934ca495991b7852b855".
Proof. vm_compute. reflexivity. Qed.
Example sha256_abc :
  hex_EncodeToString (sha256 "abc") = "ba7816bf8f01cfea414140de5dae2223b00361a396177a9cb410ff61f20015ad".
Proof. vm_compute. reflexivity. Qed.
Example sha256_two_blocks :
  hex_EncodeToString (sha256 "abcdbcdecdefdefgefghfghighijhijkijkljklmklmnlmnomnopnopq") =
  "248d6a61d20638b8e5c026930c3e6039a33ce45964ff2167f6ecedd419db06c1".
Proof. vm_compute. reflexivity. Qed.
Example hmac_sha256_jefe :
  hex_EncodeToString (hmac_sha256 "Jefe" "what do ya want for nothing?") =
  "5bdcc146bf60754e6a042426089575c75a003f089d2739839dec58b964ec3843".
Proof. vm_compute. reflexivity. Qed.
Example hmac_sha256_long_key :
  hex_EncodeToString (hmac_sha256 (string_of (repeat 0xaa 131)) "Test Using Larger Than Block-Size Key - Hash Key First") =
  "60e431591ee0b67f0d8a26aacbf5b77f8e0bc6213728c5140546040f0ee37f54".
Proof. vm_compute. reflexivity. Qed.
Example StdEncode_vectors : map StdEncode ["f"; "fo"; "foo"; "foob"] = ["Zg=="; "Zm8="; "Zm9v"; "Zm9vYg=="].
Proof. reflexivity. Qed.
Example StdDecode_vectors :
  map StdDecode ["Zg=="; "Zm8="; "Zm9v"; "Zm9v"; "Zg"; "Z==="; "Zg==Zg=="] =
  [Some "f"; Some "fo"; Some "foo"; Some "foo"; None; None; None].
Proof. reflexivity. Qed.

(** ** The encoding is read back *)
Lemma b64_char_not_eq al v : 0 ≤ v < 64 → Ascii.eqb (b64_char al v) "=" = false.
Proof.
  intros Hv. apply (digits64 (λ v, negb (Ascii.eqb (b64_char al v) "="))) in Hv.
  - by apply negb_true_iff in Hv.
  - by destruct al; vm_compute.
Qed.

Lemma strip_newlines_encoded s p : str_forallb (Ascii.eqb "=") p = true →
  strip_newlines (EncodeToString RawStdEncoding s +:+ p) = EncodeToString RawStdEncoding s +:+ p.
Proof.
  intros Hp. pose proof (EncodeToString_ascii RawStdEncoding s) as He. induction (EncodeToString _ s) as [|a e IH].
  - change ("" +:+ p) with p. induction p as [|a p IH]; [done|]. cbn [str_forallb] in Hp.
    apply andb_true_iff in Hp as [Ha Hp]. apply Ascii.eqb_eq in Ha as <-. cbn. by rewrite IH.
  - cbn [str_forallb] in He. apply andb_true_iff in He as [Ha He]. rewrite string_app_cons. cbn [strip_newlines].
    rewrite IH by done. replace (byte_is 10 a || byte_is 13 a) with false; [done|].
    unfold b64_ascii, byte_in, byte_is in *. lia.
Qed.

Lemma decode_one_group a b c :
  let s := String a (String b (String c "")) in decode_groups RawStdEncoding (EncodeToString RawStdEncoding s) = Some s.
Proof.
  cbv zeta. pose proof (Decode_Encode RawStdEncoding (String a (String b (String c "")))) as H. unfold DecodeString in H.
  by rewrite strip_newlines_id in H by apply EncodeToString_ascii.
Qed.

Lemma StdDecode_StdEncode s : StdDecode (StdEncode s) = Some s.
Proof.
  unfold StdDecode, StdEncode. rewrite strip_newlines_encoded by (by destruct (_ mod 3)%nat as [|[|[]]]).
  induction s as [|a|a b|a b c s IH] using string_ind3; [done| | |].
  - pose proof (Decode_Encode RawStdEncoding (String a "")) as H. unfold DecodeString in H.
    rewrite strip_newlines_id in H by apply EncodeToString_ascii. exact H.
  - pose proof (Decode_Encode RawStdEncoding (String a (String b ""))) as H. unfold DecodeString in H.
    rewrite strip_newlines_id in H by apply EncodeToString_ascii. cbn [EncodeToString] in *.
    change (padding _) with "=". rewrite !string_app_cons. change ("" +:+ "=") with "=".
    cbn [decode_padded]. change (Ascii.eqb "=" "=") with true. cbv match.
    change (negb (String.eqb "" "")) with false. cbv match. rewrite b64_char_not_eq; [exact H|].
    pose proof (byte_val_range b). Z.to_euclidean_division_equations; lia.
  - pose proof (decode_one_group a b c) as H. cbv zeta in H. cbn [EncodeToString] in *.
    assert (String.length (String a (String b (String c s))) mod 3 = String.length s mod 3)%nat as ->.
    { cbn [String.length]. replace (S (S (S (String.length s)))) with (String.length s + 1 * 3)%nat by lia.
      by rewrite Nat.Div0.mod_add. }
    rewrite !string_app_cons. cbn [decode_padded]. rewrite b64_char_not_eq by (pose proof (byte_val_range c); Z.to_euclidean_division_equations; lia).
    rewrite H, IH. done.
Qed.
