(* ===== verification/JsonString.v ===== *)
(** * UTF-8 and the strings of [encoding/json]

    Runes as [unicode/utf8] decodes them (a byte that belongs to no valid
    sequence counts as U+FFFD), the quoting of [json.Marshal] (HTML escaping
    on, as by default) and the unquoting of [json.Unmarshal]; what quoting
    and unquoting leave of a string is its [to_valid] form. *)

From S2P Require Import Prelude.
From S2P Require Import GoStrings.
From S2P Require Import Base64.

Open Scope string_scope.
Open Scope Z_scope.

Fixpoint str_drop (n : nat) (s : string) : string :=
  match n, s with
  | S n, String _ s => str_drop n s
  | _, _ => s
  end.

(** ** UTF-8 *)

Definition cont (a : ascii) : bool := byte_in 128 191 a.
Definition lead3 (a b : ascii) : bool :=
  (byte_is 224 a && byte_in 160 191 b)
  || ((byte_in 225 236 a || byte_in 238 239 a) && cont b)
  || (byte_is 237 a && byte_in 128 159 b).
Definition lead4 (a b : ascii) : bool :=
  (byte_is 240 a && byte_in 144 191 b) || (byte_in 241 243 a && cont b)
  || (byte_is 244 a && byte_in 128 143 b).

(** The sequence at the head of a string, if valid, and the number of its
    bytes after the first ([utf8.DecodeRune]). *)
Definition utf8_at (s : string) : option (string * nat) :=
  match s with
  | "" => None
  | String a r =>
      if byte_in 0 127 a then Some (String a "", 0%nat) else
      match r with
      | "" => None
      | String b r =>
          if byte_in 194 223 a && cont b then Some (String a (String b ""), 1%nat) else
          match r with
          | "" => None
          | String c r =>
              if lead3 a b && cont c then Some (String a (String b (String c "")), 2%nat) else
              match r with
              | "" => None
              | String d _ =>
                  if lead4 a b && cont c && cont d
                  then Some (String a (String b (String c (String d ""))), 3%nat)
                  else None
              end
          end
      end
  end.

(** U+FFFD *)
Definition replacement : string := String "239" (String "191" (String "189" "")).

(** [utf8.AppendRune] *)
Definition encode_rune (r : Z) : string :=
  let c n := byte_of (128 + n mod 64) in
  if (r <? 0) || (1114111 <? r) || ((55296 <=? r) && (r <=? 57343)) then replacement
  else if r <? 128 then String (byte_of r) ""
  else if r <? 2048 then String (byte_of (192 + r / 64)) (String (c r) "")
  else if r <? 65536 then
    String (byte_of (224 + r / 4096)) (String (c (r / 64)) (String (c r) ""))
  else
    String (byte_of (240 + r / 262144))
      (String (c (r / 4096)) (String (c (r / 64)) (String (c r) ""))).

(** Every byte outside a valid sequence replaced by U+FFFD; [skip] bytes of
    the current sequence remain to be passed over. *)
Fixpoint to_valid_from (skip : nat) (s : string) : string :=
  match s with
  | "" => ""
  | String a r =>
      match skip with
      | S k => to_valid_from k r
      | O => match utf8_at s with
             | Some (bs, n) => bs +:+ to_valid_from n r
             | None => replacement +:+ to_valid_from 0 r
             end
      end
  end.
Definition to_valid : string → string := to_valid_from 0.

(** [utf8.ValidString] *)
Definition valid_utf8 (s : string) : bool := String.eqb (to_valid s) s.

(** ** Quoting *)

Definition DQ : ascii := "034".

Definition hex4 (z : Z) : string :=
  String "\" (String "u" (String (hex_char (z / 4096)) (String (hex_char (z / 256 mod 16))
    (String (hex_char (z / 16 mod 16)) (String (hex_char (z mod 16)) ""))))).

(** One ASCII byte inside a string literal. *)
Definition escape (a : ascii) : string :=
  if Ascii.eqb a DQ || Ascii.eqb a "\" then String "\" (String a "")
  else if byte_is 8 a then "\b"
  else if byte_is 12 a then "\f"
  else if byte_is 10 a then "\n"
  else if byte_is 13 a then "\r"
  else if byte_is 9 a then "\t"
  else if byte_in 0 31 a || Ascii.eqb a "<" || Ascii.eqb a ">" || Ascii.eqb a "&"
  then hex4 (byte_val a)
  else String a "".

(** U+2028 and U+2029 *)
Definition line_sep (bs : string) : option string :=
  match bs with
  | String a (String b (String c "")) =>
      if byte_is 226 a && byte_is 128 b then
        if byte_is 168 c then Some "\u2028" else if byte_is 169 c then Some "\u2029" else None
      else None
  | _ => None
  end.

Fixpoint quote_from (skip : nat) (s : string) : string :=
  match s with
  | "" => ""
  | String a r =>
      match skip with
      | S k => quote_from k r
      | O =>
          if byte_in 0 127 a then escape a +:+ quote_from 0 r
          else match utf8_at s with
               | Some (bs, n) => default bs (line_sep bs) +:+ quote_from n r
               | None => "\ufffd" +:+ quote_from 0 r
               end
      end
  end.
Definition quote (s : string) : string := String DQ (quote_from 0 s +:+ String DQ "").

(** ** Unquoting *)

Definition hex_val (a : ascii) : option Z :=
  let z := byte_val a in
  if (48 <=? z) && (z <=? 57) then Some (z - 48)
  else if (97 <=? z) && (z <=? 102) then Some (z - 87)
  else if (65 <=? z) && (z <=? 70) then Some (z - 55)
  else None.

(** [getu4]: the number after a [\u] at the head. *)
Definition getu4 (s : string) : option Z :=
  match s with
  | String x (String y (String h3 (String h2 (String h1 (String h0 _))))) =>
      if Ascii.eqb x "\" && Ascii.eqb y "u" then
        h3 ← hex_val h3; h2 ← hex_val h2; h1 ← hex_val h1; h0 ← hex_val h0;
        Some (h3 * 4096 + h2 * 256 + h1 * 16 + h0)
      else None
  | _ => None
  end.

Definition is_surrogate (r : Z) : bool := (55296 <=? r) && (r <=? 57343).
(** [utf16.DecodeRune] of a proper pair. *)
Definition surrogate_pair (r1 r2 : Z) : option Z :=
  if (55296 <=? r1) && (r1 <=? 56319) && (56320 <=? r2) && (r2 <=? 57343)
  then Some (65536 + (r1 - 55296) * 1024 + (r2 - 56320)) else None.

(** What the escape at the head stands for, and the number of its bytes after
    the first. *)
Definition escape_at (s : string) : option (string * nat) :=
  match s with
  | String _ (String e _) =>
      if Ascii.eqb e DQ || Ascii.eqb e "\" || Ascii.eqb e "/" then Some (String e "", 1%nat)
      else if Ascii.eqb e "b" then Some (String "008" "", 1%nat)
      else if Ascii.eqb e "f" then Some (String "012" "", 1%nat)
      else if Ascii.eqb e "n" then Some (String "010" "", 1%nat)
      else if Ascii.eqb e "r" then Some (String "013" "", 1%nat)
      else if Ascii.eqb e "t" then Some (String "009" "", 1%nat)
      else
        r ← getu4 s;
        if is_surrogate r then
          match getu4 (str_drop 6 s) ≫= surrogate_pair r with
          | Some r => Some (encode_rune r, 11%nat)
          | None => Some (replacement, 5%nat)
          end
        else Some (encode_rune r, 5%nat)
  | _ => None
  end.

(** The rest of a string literal, after its opening quote: its value and what
    follows the closing quote. *)
Fixpoint unquote_from (skip : nat) (s : string) : option (string * string) :=
  match s with
  | "" => None
  | String a r =>
      match skip with
      | S k => unquote_from k r
      | O =>
          let prepend bs n := '(v, rest) ← unquote_from n r; Some (bs +:+ v, rest) in
          if Ascii.eqb a DQ then Some ("", r)
          else if Ascii.eqb a "\" then
            match escape_at s with Some (bs, n) => prepend bs n | None => None end
          else if byte_in 0 31 a then None
          else match utf8_at s with
               | Some (bs, n) => prepend bs n
               | None => prepend replacement 0%nat
               end
      end
  end.

(** ** Lemmas: skipping *)

Lemma to_valid_skip n s : to_valid_from n s = to_valid (str_drop n s).
Proof. revert n. induction s as [|a s IH]; intros [|n]; cbn; try done. Qed.

Lemma quote_skip n s : quote_from n s = quote_from 0 (str_drop n s).
Proof. revert n. induction s as [|a s IH]; intros [|n]; cbn [str_drop quote_from]; try done. Qed.

Lemma unquote_skip n s : unquote_from n s = unquote_from 0 (str_drop n s).
Proof. revert n. induction s as [|a s IH]; intros [|n]; cbn [str_drop unquote_from]; try done. Qed.

Lemma str_drop_app s t : str_drop (String.length s) (s +:+ t) = t.
Proof. induction s as [|a s IH]; [done|]. rewrite string_app_cons. exact IH. Qed.

Lemma str_drop_length n s : (String.length (str_drop n s) ≤ String.length s)%nat.
Proof. revert n. induction s as [|a s IH]; intros [|n]; cbn; [done..|]. specialize (IH n). lia. Qed.

(** ** Lemmas: the sequence at the head *)

(** A string with a valid head is that head followed by the rest. *)
Lemma utf8_at_split s bs n :
  utf8_at s = Some (bs, n) →
  String.length bs = S n ∧ s = bs +:+ str_drop (S n) s ∧ (∀ t, utf8_at (bs +:+ t) = Some (bs, n)).
Proof.
  intros H. destruct s as [|a r]; [done|]. unfold utf8_at in H.
  destruct (byte_in 0 127 a) eqn:Ha.
  { injection H as <- <-. split; [done|]. split; [by destruct r|]. intros t.
    rewrite string_app_cons. cbn. by rewrite Ha. }
  destruct r as [|b r]; [done|]. destruct (byte_in 194 223 a && cont b) eqn:Hb.
  { injection H as <- <-. split; [done|]. split; [by destruct r|]. intros t.
    rewrite !string_app_cons. cbn. by rewrite Ha, Hb. }
  destruct r as [|c r]; [done|]. destruct (lead3 a b && cont c) eqn:Hc.
  { injection H as <- <-. split; [done|]. split; [by destruct r|]. intros t.
    rewrite !string_app_cons. cbn. by rewrite Ha, Hb, Hc. }
  destruct r as [|d r]; [done|]. destruct (lead4 a b && cont c && cont d) eqn:Hd; [|done].
  injection H as <- <-. split; [done|]. split; [by destruct r|]. intros t.
  rewrite !string_app_cons. cbn. by rewrite Ha, Hb, Hc, Hd.
Qed.

Lemma utf8_at_ascii a r : byte_in 0 127 a = true → utf8_at (String a r) = Some (String a "", 0%nat).
Proof. intros Ha. cbn. by rewrite Ha. Qed.

(** The rest of a string is shorter. *)
Lemma utf8_at_shorter a r bs n :
  utf8_at (String a r) = Some (bs, n) → (String.length (str_drop n r) < String.length (String a r))%nat.
Proof. intros _. pose proof (str_drop_length n r). cbn. lia. Qed.

(** Induction on a string rune by rune: a valid sequence, or one stray byte. *)
Lemma string_rune_ind (P : string → Prop) :
  P "" →
  (∀ a r bs n, utf8_at (String a r) = Some (bs, n) → P (str_drop n r) → P (String a r)) →
  (∀ a r, utf8_at (String a r) = None → P r → P (String a r)) →
  ∀ s, P s.
Proof.
  intros H0 Hv Hi s. remember (String.length s) as k eqn:Hk. revert s Hk.
  induction k as [k IH] using lt_wf_ind. intros [|a r] ->; [done|].
  destruct (utf8_at (String a r)) as [[bs n]|] eqn:E.
  - eapply Hv; [exact E|]. eapply IH; [|reflexivity]. by eapply utf8_at_shorter.
  - apply Hi; [exact E|]. eapply IH; [|reflexivity]. cbn. lia.
Qed.

Lemma to_valid_valid a r bs n :
  utf8_at (String a r) = Some (bs, n) → to_valid (String a r) = bs +:+ to_valid (str_drop n r).
Proof. intros E. unfold to_valid at 1. cbn [to_valid_from]. by rewrite E, to_valid_skip. Qed.

Lemma to_valid_stray a r :
  utf8_at (String a r) = None → to_valid (String a r) = replacement +:+ to_valid r.
Proof. intros E. unfold to_valid at 1. cbn [to_valid_from]. by rewrite E. Qed.

Lemma to_valid_app bs n s : utf8_at bs = Some (bs, n) → to_valid (bs +:+ s) = bs +:+ to_valid s.
Proof.
  intros E. destruct (utf8_at_split _ _ _ E) as (Hl & _ & Happ).
  destruct bs as [|a bs]; [done|]. specialize (Happ s). rewrite string_app_cons in *.
  rewrite (to_valid_valid _ _ _ _ Happ). cbn in Hl. injection Hl as <-. by rewrite str_drop_app.
Qed.

(** Replacing is done once and for all. *)
Lemma to_valid_idem s : to_valid (to_valid s) = to_valid s.
Proof.
  induction s as [|a r bs n E IH|a r E IH] using string_rune_ind; [done|..].
  - rewrite (to_valid_valid _ _ _ _ E).
    destruct (utf8_at_split _ _ _ E) as (_ & _ & Happ). specialize (Happ "").
    rewrite string_app_nil_r in Happ. by rewrite (to_valid_app _ n _ Happ), IH.
  - rewrite (to_valid_stray _ _ E). rewrite (to_valid_app replacement 2) by done. by rewrite IH.
Qed.

Lemma ascii_valid_utf8 s : str_forallb (byte_in 0 127) s = true → to_valid s = s.
Proof.
  induction s as [|a s IH]; [done|]. cbn [str_forallb]. intros [Ha Hs]%andb_true_iff.
  rewrite (to_valid_valid a s (String a "") 0); [|by apply utf8_at_ascii].
  cbn [str_drop]. rewrite IH by done. done.
Qed.

(** ** Unquoting what was quoted *)

Lemma unquote_escape a rest :
  byte_in 0 127 a = true →
  unquote_from 0 (escape a +:+ rest) = ('(v, rest) ← unquote_from 0 rest; Some (String a v, rest)).
Proof.
  intros Ha. destruct a as [[] [] [] [] [] [] [] []]; try done; clear Ha.
Qed.

Lemma unquote_stray rest :
  unquote_from 0 ("\ufffd" +:+ rest) = ('(v, rest) ← unquote_from 0 rest; Some (replacement +:+ v, rest)).
Proof. reflexivity. Qed.

Lemma unquote_line_sep bs esc rest :
  line_sep bs = Some esc →
  unquote_from 0 (esc +:+ rest) = ('(v, rest) ← unquote_from 0 rest; Some (bs +:+ v, rest)).
Proof.
  destruct bs as [|a [|b [|c [|]]]]; try done. cbn [line_sep].
  destruct (byte_is 226 a && byte_is 128 b) eqn:Hab; [|done].
  assert (∀ n x, byte_is n x = true → x = ascii_of_N n) as Hbyte.
  { intros n x Hx. apply N.eqb_eq in Hx. by rewrite <-Hx, ascii_N_embedding. }
  apply andb_true_iff in Hab as [->%Hbyte ->%Hbyte].
  destruct (byte_is 168 c) eqn:Hc; [|destruct (byte_is 169 c) eqn:Hc'; [|done]]; intros [= <-].
  - apply Hbyte in Hc as ->. reflexivity.
  - apply Hbyte in Hc' as ->. reflexivity.
Qed.

Lemma unquote_sequence a r bs n rest :
  utf8_at (String a r) = Some (bs, n) → byte_in 0 127 a = false →
  unquote_from 0 (bs +:+ rest) = ('(v, rest) ← unquote_from 0 rest; Some (bs +:+ v, rest)).
Proof.
  intros E Ha. destruct (utf8_at_split _ _ _ E) as (Hl & Hs & Happ).
  destruct bs as [|a' bs]; [done|]. rewrite string_app_cons in Hs. injection Hs as <- _.
  specialize (Happ rest). rewrite string_app_cons in *. cbn [unquote_from].
  assert (Ascii.eqb a DQ = false ∧ Ascii.eqb a "\" = false ∧ byte_in 0 31 a = false) as (-> & -> & ->).
  { split_and!; [apply Ascii.eqb_neq; intros ->; done..|]. unfold byte_in in *. lia. }
  rewrite Happ. cbn in Hl. injection Hl as <-. by rewrite unquote_skip, str_drop_app.
Qed.

(** A quoted string is read back, in valid form, up to its closing quote. *)
Lemma unquote_quote s rest :
  unquote_from 0 (quote_from 0 s +:+ String DQ rest) = Some (to_valid s, rest).
Proof.
  induction s as [|a r bs n Ev IH|a r Ev IH] using string_rune_ind; [done|..]; cbn [quote_from]; rewrite Ev.
  - rewrite (to_valid_valid _ _ _ _ Ev). destruct (byte_in 0 127 a) eqn:Ha.
    + rewrite utf8_at_ascii in Ev by done. injection Ev as <- <-. cbn [str_drop] in IH.
      by rewrite <-string_app_assoc, unquote_escape, IH by done.
    + rewrite <-string_app_assoc, quote_skip. destruct (line_sep bs) as [esc|] eqn:Hsep; cbn [default].
      * by rewrite (unquote_line_sep _ _ _ Hsep), IH.
      * by rewrite (unquote_sequence _ _ _ _ _ Ev Ha), IH.
  - destruct (byte_in 0 127 a) eqn:Ha; [by rewrite utf8_at_ascii in Ev|].
    by rewrite (to_valid_stray _ _ Ev), <-string_app_assoc, unquote_stray, IH.
Qed.
