(* ===== verification/Json.v ===== *)
(** * JSON texts: [encoding/json] at the level of syntax

    The syntax tree of a JSON text ([json]: members in the order of the text,
    duplicates included; numbers as they are written), [print], the text
    [json.Marshal] writes for it, and [parse], the grammar [json.Unmarshal]
    accepts, with its bound of 10000 on the nesting of arrays and objects.

    [parse] is recursive descent on fuel; [parse_terminates] shows that twice
    the length of the text is enough, and [parse_print] that a printed tree is
    read back, up to the replacement of invalid UTF-8. *)

From S2P Require Import Prelude.
From S2P Require Import GoStrings.
From S2P Require Import JsonString.

Open Scope string_scope.
Open Scope Z_scope.

Inductive json : Type :=
| JNull
| JBool (b : bool)
| JNum (lit : string)
| JStr (s : string)
| JArr (l : list json)
| JObj (l : list (string * json)).

Section Induction.
Context (P : json → Prop).
Hypothesis P_null : P JNull.
Hypothesis P_bool : ∀ b, P (JBool b).
Hypothesis P_num : ∀ lit, P (JNum lit).
Hypothesis P_str : ∀ s, P (JStr s).
Hypothesis P_arr : ∀ l, Forall P l → P (JArr l).
Hypothesis P_obj : ∀ l, Forall (λ kv, P kv.2) l → P (JObj l).

(** Induction through the lists of elements and members. *)
Fixpoint json_nested_ind (t : json) : P t :=
  match t with
  | JNull => P_null
  | JBool b => P_bool b
  | JNum lit => P_num lit
  | JStr s => P_str s
  | JArr l => P_arr l
      ((fix go (l : list json) : Forall P l :=
          match l with
          | [] => Forall_nil_2 _
          | t :: l => Forall_cons_2 _ _ _ (json_nested_ind t) (go l)
          end) l)
  | JObj l => P_obj l
      ((fix go (l : list (string * json)) : Forall (λ kv, P kv.2) l :=
          match l with
          | [] => Forall_nil_2 _
          | kv :: l => Forall_cons_2 _ _ _ (json_nested_ind kv.2) (go l)
          end) l)
  end.
End Induction.

(** ** Printing *)
Definition print_member (print : json → string) (kv : string * json) : string :=
  quote kv.1 +:+ ":" +:+ print kv.2.

Fixpoint print (t : json) : string :=
  match t with
  | JNull => "null"
  | JBool b => if b then "true" else "false"
  | JNum lit => lit
  | JStr s => quote s
  | JArr l => "[" +:+ Join (map print l) "," +:+ "]"
  | JObj l => "{" +:+ Join (map (print_member print) l) "," +:+ "}"
  end.

(** ** Reading: white space and numbers *)
Definition is_ws (a : ascii) : bool := byte_is 32 a || byte_is 9 a || byte_is 13 a || byte_is 10 a.

Fixpoint skip_ws (s : string) : string :=
  match s with
  | String a r => if is_ws a then skip_ws r else s
  | "" => ""
  end.

Fixpoint span_digits (s : string) : string * string :=
  match s with
  | String a r => if isDigit a then let '(d, r) := span_digits r in (String a d, r) else ("", s)
  | "" => ("", "")
  end.

(** The integer part: no leading zero. *)
Definition scan_int (s : string) : option (string * string) :=
  match s with
  | String a r => if Ascii.eqb a "0" then Some ("0", r)
                  else if isDigit a then Some (span_digits s) else None
  | "" => None
  end.

Definition scan_frac (s : string) : option (string * string) :=
  match s with
  | String a r =>
      if Ascii.eqb a "." then
        match span_digits r with ("", _) => None | (d, r) => Some (String a d, r) end
      else Some ("", s)
  | "" => Some ("", "")
  end.

Definition is_e (a : ascii) : bool := Ascii.eqb a "e" || Ascii.eqb a "E".
Definition is_sign (a : ascii) : bool := Ascii.eqb a "+" || Ascii.eqb a "-".

Definition scan_exp (s : string) : option (string * string) :=
  match s with
  | String a r =>
      if is_e a then
        let '(sign, r) := match r with
                          | String b r' => if is_sign b then (String b "", r') else ("", r)
                          | "" => ("", "")
                          end in
        match span_digits r with ("", _) => None | (d, r) => Some (String a (sign +:+ d), r) end
      else Some ("", s)
  | "" => Some ("", "")
  end.

(** A number literal at the head, and what follows it. *)
Definition scan_unsigned (s : string) : option (string * string) :=
  '(i, s) ← scan_int s; '(f, s) ← scan_frac s; '(e, s) ← scan_exp s; Some (i +:+ f +:+ e, s).

Definition scan_number (s : string) : option (string * string) :=
  match s with
  | String a r => if Ascii.eqb a "-" then '(l, s) ← scan_unsigned r; Some (String a l, s)
                  else scan_unsigned s
  | "" => None
  end.

Definition is_number (lit : string) : Prop := scan_number lit = Some (lit, "").

(** ** Reading: values

    [Fuel] is the answer of a run cut short, [Bad] that of a syntax error. *)
Inductive presult (A : Type) : Type :=
| Fuel
| Bad
| Good (v : A) (rest : string).
Arguments Fuel {A}.
Arguments Bad {A}.
Arguments Good {A} v rest.

Definition pmap {A B} (f : A → B) (r : presult A) : presult B :=
  match r with Good v rest => Good (f v) rest | Bad => Bad | Fuel => Fuel end.

Definition maxNestingDepth : Z := 10000.

Definition literal (s : string) : presult json :=
  if HasPrefix s "null" then Good JNull (TrimPrefix s "null")
  else if HasPrefix s "true" then Good (JBool true) (TrimPrefix s "true")
  else if HasPrefix s "false" then Good (JBool false) (TrimPrefix s "false")
  else match scan_number s with Some (lit, rest) => Good (JNum lit) rest | None => Bad end.

(** [depth] is the number of arrays and objects that are open. *)
Fixpoint value (fuel : nat) (depth : Z) (s : string) : presult json :=
  match fuel with
  | O => Fuel
  | S fuel =>
      match s with
      | "" => Bad
      | String a r =>
          if Ascii.eqb a DQ then
            match unquote_from 0 r with Some (v, rest) => Good (JStr v) rest | None => Bad end
          else if Ascii.eqb a "[" then
            if maxNestingDepth <=? depth then Bad else
            match skip_ws r with
            | "" => Bad
            | String b r' => if Ascii.eqb b "]" then Good (JArr []) r'
                             else pmap JArr (elements fuel (depth + 1) (skip_ws r))
            end
          else if Ascii.eqb a "{" then
            if maxNestingDepth <=? depth then Bad else
            match skip_ws r with
            | "" => Bad
            | String b r' => if Ascii.eqb b "}" then Good (JObj []) r'
                             else pmap JObj (members fuel (depth + 1) (skip_ws r))
            end
          else literal s
      end
  end
with elements (fuel : nat) (depth : Z) (s : string) : presult (list json) :=
  match fuel with
  | O => Fuel
  | S fuel =>
      match value fuel depth s with
      | Fuel => Fuel
      | Bad => Bad
      | Good v rest =>
          match skip_ws rest with
          | "" => Bad
          | String c r =>
              if Ascii.eqb c "," then pmap (cons v) (elements fuel depth (skip_ws r))
              else if Ascii.eqb c "]" then Good [v] r
              else Bad
          end
      end
  end
with members (fuel : nat) (depth : Z) (s : string) : presult (list (string * json)) :=
  match fuel with
  | O => Fuel
  | S fuel =>
      match s with
      | "" => Bad
      | String a r =>
          if negb (Ascii.eqb a DQ) then Bad else
          match unquote_from 0 r with
          | None => Bad
          | Some (k, rest) =>
              match skip_ws rest with
              | "" => Bad
              | String c r =>
                  if negb (Ascii.eqb c ":") then Bad else
                  match value fuel depth (skip_ws r) with
                  | Fuel => Fuel
                  | Bad => Bad
                  | Good v rest =>
                      match skip_ws rest with
                      | "" => Bad
                      | String c r =>
                          if Ascii.eqb c "," then pmap (cons (k, v)) (members fuel depth (skip_ws r))
                          else if Ascii.eqb c "}" then Good [(k, v)] r
                          else Bad
                      end
                  end
              end
          end
      end
  end.

Definition enough (s : string) : nat := 2 * String.length s + 1.

(** A whole text. *)
Definition parse_fuel (fuel : nat) (s : string) : presult json :=
  match value fuel 0 (skip_ws s) with
  | Good v rest => if String.eqb (skip_ws rest) "" then Good v "" else Bad
  | r => r
  end.
Definition parse (s : string) : option json :=
  match parse_fuel (enough s) s with Good v _ => Some v | _ => None end.

(** ** Numbers are read up to their end *)

(** What cannot continue a number. *)
Definition num_stop (t : string) : bool :=
  match t with
  | "" => true
  | String a _ => negb (isDigit a || Ascii.eqb a "." || is_e a)
  end.

Lemma num_stop_head a t : num_stop (String a t) = true →
  isDigit a = false ∧ Ascii.eqb a "." = false ∧ is_e a = false.
Proof. cbn. by intros [[? ?]%orb_false_iff ?]%negb_true_iff%orb_false_iff. Qed.

Lemma span_digits_app s t :
  num_stop t = true → span_digits (s +:+ t) = ((span_digits s).1, (span_digits s).2 +:+ t).
Proof.
  intros Ht. induction s as [|a s IH].
  - destruct t as [|b t]; [done|]. apply num_stop_head in Ht as (Hd & _ & _).
    change ("" +:+ String b t) with (String b t). cbn. by rewrite Hd.
  - rewrite string_app_cons. cbn [span_digits]. destruct (isDigit a); [|done].
    rewrite IH. by destruct (span_digits s).
Qed.

Lemma scan_int_app s t i r :
  num_stop t = true → scan_int s = Some (i, r) → scan_int (s +:+ t) = Some (i, r +:+ t).
Proof.
  intros Ht. destruct s as [|a s]; [done|]. rewrite string_app_cons. cbn [scan_int].
  destruct (Ascii.eqb a "0"); [by intros [= <- <-]|]. destruct (isDigit a) eqn:Ha; [|done].
  rewrite <-string_app_cons, span_digits_app by done.
  destruct (span_digits (String a s)) as [d q]. by intros [= <- <-].
Qed.

Lemma scan_frac_app s t i r :
  num_stop t = true → scan_frac s = Some (i, r) → scan_frac (s +:+ t) = Some (i, r +:+ t).
Proof.
  intros Ht. destruct s as [|a s].
  - intros [= <- <-]. destruct t as [|b t]; [done|]. apply num_stop_head in Ht as (_ & Hp & _).
    change ("" +:+ String b t) with (String b t). cbn. by rewrite Hp.
  - rewrite string_app_cons. cbn [scan_frac]. destruct (Ascii.eqb a "."); [|by intros [= <- <-]].
    rewrite span_digits_app by done. destruct (span_digits s) as [[|x d] q]; [done|]. by intros [= <- <-].
Qed.

Lemma scan_exp_app s t i r :
  num_stop t = true → scan_exp s = Some (i, r) → scan_exp (s +:+ t) = Some (i, r +:+ t).
Proof.
  intros Ht. destruct s as [|a s].
  - intros [= <- <-]. destruct t as [|b t]; [done|]. apply num_stop_head in Ht as (_ & _ & He).
    change ("" +:+ String b t) with (String b t). cbn. by rewrite He.
  - rewrite string_app_cons. cbn [scan_exp]. destruct (is_e a); [|by intros [= <- <-]].
    destruct s as [|b s]; [done|]. rewrite string_app_cons. destruct (is_sign b).
    + rewrite span_digits_app by done. destruct (span_digits s) as [[|x d] q]; [done|]. by intros [= <- <-].
    + rewrite <-string_app_cons, span_digits_app by done.
      destruct (span_digits (String b s)) as [[|x d] q]; [done|]. by intros [= <- <-].
Qed.

Lemma scan_unsigned_app s t l r :
  num_stop t = true → scan_unsigned s = Some (l, r) → scan_unsigned (s +:+ t) = Some (l, r +:+ t).
Proof.
  intros Ht. unfold scan_unsigned.
  destruct (scan_int s) as [[i s1]|] eqn:E1; [|done]. rewrite (scan_int_app _ _ _ _ Ht E1). cbn.
  destruct (scan_frac s1) as [[f s2]|] eqn:E2; [|done]. rewrite (scan_frac_app _ _ _ _ Ht E2). cbn.
  destruct (scan_exp s2) as [[e s3]|] eqn:E3; [|done]. rewrite (scan_exp_app _ _ _ _ Ht E3). cbn.
  by intros [= <- <-].
Qed.

Lemma scan_number_app lit t :
  is_number lit → num_stop t = true → scan_number (lit +:+ t) = Some (lit, t).
Proof.
  unfold is_number. intros Hl Ht. destruct lit as [|a lit]; [done|].
  rewrite string_app_cons. cbn [scan_number] in *. destruct (Ascii.eqb a "-").
  - destruct (scan_unsigned lit) as [[l r]|] eqn:E; [|done]. cbn in Hl. injection Hl as -> ->.
    by rewrite (scan_unsigned_app _ _ _ _ Ht E).
  - rewrite <-string_app_cons. by rewrite (scan_unsigned_app _ _ _ _ Ht Hl).
Qed.

(** A number begins with a digit or a minus sign. *)
Lemma is_number_head lit : is_number lit → ∃ a r, lit = String a r ∧ (isDigit a || Ascii.eqb a "-") = true.
Proof.
  unfold is_number. destruct lit as [|a lit]; [done|]. cbn [scan_number]. intros H. exists a, lit.
  split; [done|]. destruct (Ascii.eqb a "-"); [by rewrite orb_true_r|]. rewrite orb_false_r.
  destruct (isDigit a) eqn:Hd; [done|]. unfold scan_unsigned, scan_int in H.
  destruct (Ascii.eqb_spec a "0") as [->|]; [done|]. by rewrite Hd in H.
Qed.

(** Decimal numerals are numbers. *)
Lemma span_digits_all s : str_forallb isDigit s = true → span_digits s = (s, "").
Proof.
  induction s as [|a s IH]; [done|]. cbn. intros [-> Hs]%andb_true_iff. by rewrite IH.
Qed.

(** ** Termination *)

Abbreviation len := String.length.

Lemma len_skip_ws s : (len (skip_ws s) ≤ len s)%nat.
Proof. induction s as [|a s IH]; [done|]. cbn. destruct (is_ws a); cbn; lia. Qed.

Lemma len_app s t : len (s +:+ t) = (len s + len t)%nat.
Proof. induction s as [|a s IH]; [done|]. rewrite string_app_cons. cbn. by rewrite IH. Qed.

Lemma len_unquote n s v rest : unquote_from n s = Some (v, rest) → (len rest < len s)%nat.
Proof.
  revert n v rest. induction s as [|a s IH]; intros n v rest; [done|]. cbn [unquote_from len].
  destruct n as [|n]; [|intros H; apply IH in H; lia].
  assert (∀ bs k, ('(v, rest) ← unquote_from k s; Some (bs +:+ v, rest)) = Some (v, rest) →
    (len rest < S (len s))%nat) as Hk.
  { intros bs k. destruct (unquote_from k s) as [[v' rest']|] eqn:E; [|done].
    intros [= _ <-]. apply IH in E. lia. }
  destruct (Ascii.eqb a DQ); [intros [= _ <-]; lia|].
  destruct (Ascii.eqb a "\"); [destruct (escape_at _) as [[bs k]|]; [apply Hk|done]|].
  destruct (byte_in 0 31 a); [done|]. destruct (utf8_at _) as [[bs k]|]; apply Hk.
Qed.

Lemma len_span_digits s : (len (span_digits s).2 ≤ len s)%nat.
Proof.
  induction s as [|a s IH]; [done|]. cbn. destruct (isDigit a); [|done].
  destruct (span_digits s). cbn in *. lia.
Qed.

Lemma len_scan_unsigned s l r : scan_unsigned s = Some (l, r) → (len r < len s)%nat.
Proof.
  unfold scan_unsigned. destruct (scan_int s) as [[i s1]|] eqn:E1; [|done]. cbn.
  destruct (scan_frac s1) as [[f s2]|] eqn:E2; [|done]. cbn.
  destruct (scan_exp s2) as [[e s3]|] eqn:E3; [|done]. cbn. intros [= _ <-].
  assert (len s1 < len s)%nat.
  { destruct s as [|a s]; [done|]. cbn [scan_int] in E1.
    destruct (Ascii.eqb a "0"); [injection E1 as _ <-; cbn; lia|].
    destruct (isDigit a) eqn:Ha; [|done]. cbn [span_digits] in E1. rewrite Ha in E1.
    pose proof (len_span_digits s). destruct (span_digits s). injection E1 as _ <-. cbn in *. lia. }
  assert (len s2 ≤ len s1)%nat.
  { destruct s1 as [|a s1]; [injection E2 as _ <-; lia|]. cbn [scan_frac] in E2.
    destruct (Ascii.eqb a "."); [|injection E2 as _ <-; lia]. pose proof (len_span_digits s1).
    destruct (span_digits s1) as [[|x d] q]; [done|]. injection E2 as _ <-. cbn in *. lia. }
  assert (len s3 ≤ len s2)%nat; [|lia].
  destruct s2 as [|a s2]; [injection E3 as _ <-; lia|]. cbn [scan_exp] in E3.
  destruct (is_e a); [|injection E3 as _ <-; lia]. destruct s2 as [|b s2]; [done|].
  destruct (is_sign b).
  - pose proof (len_span_digits s2). destruct (span_digits s2) as [[|x d] q]; [done|].
    injection E3 as _ <-. cbn in *. lia.
  - pose proof (len_span_digits (String b s2)). destruct (span_digits (String b s2)) as [[|x d] q]; [done|].
    injection E3 as _ <-. cbn in *. lia.
Qed.

Lemma len_scan_number s l r : scan_number s = Some (l, r) → (len r < len s)%nat.
Proof.
  destruct s as [|a s]; [done|]. cbn [scan_number]. destruct (Ascii.eqb a "-").
  - destruct (scan_unsigned s) as [[l' r']|] eqn:E1; [|done]. cbn. intros [= _ <-].
    apply len_scan_unsigned in E1. cbn. lia.
  - intros E1%len_scan_unsigned. done.
Qed.

Lemma HasPrefix_split s p : HasPrefix s p = true → s = p +:+ TrimPrefix s p.
Proof.
  intros H. unfold TrimPrefix. rewrite H. revert s H. induction p as [|b p IH]; intros s H; [by destruct s|].
  destruct s as [|a s]; [done|]. cbn in H. apply andb_true_iff in H as [->%Ascii.eqb_eq H].
  rewrite string_app_cons. cbn. f_equal. by apply IH.
Qed.

(** What a successful reader leaves is shorter than what it was given. *)
Definition shorter {A} (s : string) (r : presult A) : Prop :=
  match r with Good _ rest => (len rest < len s)%nat | _ => True end.

Lemma shorter_mono {A} s s' (r : presult A) : (len s ≤ len s')%nat → shorter s r → shorter s' r.
Proof. destruct r; cbn; [done..|lia]. Qed.

Lemma shorter_pmap {A B} (f : A → B) s r : shorter s r → shorter s (pmap f r).
Proof. by destruct r. Qed.

Lemma literal_shorter s : shorter s (literal s).
Proof.
  assert (∀ p v, p ≠ "" → HasPrefix s p = true → shorter s (Good (v : json) (TrimPrefix s p))) as Hp.
  { intros p v Hne H. cbn. apply HasPrefix_split in H. rewrite H at 2. rewrite len_app.
    destruct p; [done|]. cbn. lia. }
  unfold literal. destruct (HasPrefix s "null") eqn:H1; [by apply Hp|].
  destruct (HasPrefix s "true") eqn:H2; [by apply Hp|]. destruct (HasPrefix s "false") eqn:H3; [by apply Hp|].
  destruct (scan_number s) as [[l r]|] eqn:H4; [|done]. by apply len_scan_number in H4.
Qed.

Lemma literal_not_fuel s : literal s ≠ Fuel.
Proof. unfold literal. by repeat case_match. Qed.

Lemma readers_shorter fuel : ∀ depth s,
  shorter s (value fuel depth s) ∧ shorter s (elements fuel depth s) ∧ shorter s (members fuel depth s).
Proof.
  induction fuel as [|fuel IH]; intros depth s; [done|].
  assert (∀ d s', shorter s' (value fuel d s')) as Hv by apply IH.
  assert (∀ d s', shorter s' (elements fuel d s')) as He by apply IH.
  assert (∀ d s', shorter s' (members fuel d s')) as Hm by apply IH. clear IH.
  split; [|split]; cbn [value elements members].
  - destruct s as [|a r]; [done|]. destruct (Ascii.eqb a DQ).
    { destruct (unquote_from 0 r) as [[v rest]|] eqn:E; [|done]. apply len_unquote in E. cbn. lia. }
    pose proof (len_skip_ws r) as Hws.
    destruct (Ascii.eqb a "["); [|destruct (Ascii.eqb a "{"); [|apply literal_shorter]];
      (destruct (maxNestingDepth <=? depth); [done|]);
      (destruct (skip_ws r) as [|b r'] eqn:Er; [done|]); rewrite <-Er in *.
    + destruct (Ascii.eqb b "]"); [rewrite Er in Hws; cbn in *; lia|].
      apply shorter_pmap, (shorter_mono (skip_ws r)); [cbn; lia|apply He].
    + destruct (Ascii.eqb b "}"); [rewrite Er in Hws; cbn in *; lia|].
      apply shorter_pmap, (shorter_mono (skip_ws r)); [cbn; lia|apply Hm].
  - pose proof (Hv depth s) as Hvs. destruct (value fuel depth s) as [| |v rest]; [done..|]. cbn in Hvs.
    pose proof (len_skip_ws rest) as Hws. destruct (skip_ws rest) as [|c r]; [done|]. cbn [len] in Hws.
    destruct (Ascii.eqb c ",").
    { apply shorter_pmap, (shorter_mono (skip_ws r)); [|apply He]. pose proof (len_skip_ws r). lia. }
    destruct (Ascii.eqb c "]"); [|done]. cbn. lia.
  - destruct s as [|a r]; [done|]. destruct (negb _); [done|].
    destruct (unquote_from 0 r) as [[k rest]|] eqn:E; [|done]. apply len_unquote in E.
    pose proof (len_skip_ws rest) as Hws. destruct (skip_ws rest) as [|c r1]; [done|]. cbn [len] in Hws.
    destruct (negb _); [done|]. pose proof (Hv depth (skip_ws r1)) as Hvs. pose proof (len_skip_ws r1).
    destruct (value fuel depth (skip_ws r1)) as [| |v rest1]; [done..|]. cbn in Hvs.
    pose proof (len_skip_ws rest1) as Hws1. destruct (skip_ws rest1) as [|c' r2]; [done|]. cbn [len] in Hws1.
    destruct (Ascii.eqb c' ",").
    { apply shorter_pmap, (shorter_mono (skip_ws r2)); [|apply Hm]. pose proof (len_skip_ws r2). cbn. lia. }
    destruct (Ascii.eqb c' "}"); [|done]. cbn. lia.
Qed.

Lemma value_shorter fuel depth s : shorter s (value fuel depth s).
Proof. apply readers_shorter. Qed.

Lemma pmap_not_fuel {A B} (f : A → B) r : r ≠ Fuel → pmap f r ≠ Fuel.
Proof. by destruct r. Qed.

Lemma readers_total fuel : ∀ depth s,
  (2 * len s + 1 ≤ fuel → value fuel depth s ≠ Fuel)%nat ∧
  (2 * len s + 2 ≤ fuel → elements fuel depth s ≠ Fuel)%nat ∧
  (2 * len s + 2 ≤ fuel → members fuel depth s ≠ Fuel)%nat.
Proof.
  induction fuel as [|fuel IH]; intros depth s; [lia|].
  assert (∀ d s', 2 * len s' + 1 ≤ fuel → value fuel d s' ≠ Fuel)%nat as Hv by apply IH.
  assert (∀ d s', 2 * len s' + 2 ≤ fuel → elements fuel d s' ≠ Fuel)%nat as He by apply IH.
  assert (∀ d s', 2 * len s' + 2 ≤ fuel → members fuel d s' ≠ Fuel)%nat as Hm by apply IH. clear IH.
  split; [|split]; intros Hf; cbn [value elements members].
  - destruct s as [|a r]; [done|]. cbn [len] in Hf. destruct (Ascii.eqb a DQ); [by repeat case_match|].
    pose proof (len_skip_ws r).
    destruct (Ascii.eqb a "["); [|destruct (Ascii.eqb a "{"); [|apply literal_not_fuel]];
      (destruct (maxNestingDepth <=? depth); [done|]);
      (destruct (skip_ws r) as [|b r'] eqn:Er; [done|]); rewrite <-Er in *.
    + destruct (Ascii.eqb b "]"); [done|]. apply pmap_not_fuel, He. lia.
    + destruct (Ascii.eqb b "}"); [done|]. apply pmap_not_fuel, Hm. lia.
  - pose proof (Hv depth s ltac:(lia)) as Hvs. pose proof (value_shorter fuel depth s) as Hs.
    destruct (value fuel depth s) as [| |v rest]; [done..|]. cbn in Hs.
    pose proof (len_skip_ws rest) as Hws. destruct (skip_ws rest) as [|c r]; [done|]. cbn [len] in Hws.
    destruct (Ascii.eqb c ","); [|by case_match].
    apply pmap_not_fuel, He. pose proof (len_skip_ws r). lia.
  - destruct s as [|a r]; [done|]. destruct (negb _); [done|]. cbn [len] in Hf.
    destruct (unquote_from 0 r) as [[k rest]|] eqn:E; [|done]. apply len_unquote in E.
    pose proof (len_skip_ws rest) as Hws. destruct (skip_ws rest) as [|c r1]; [done|]. cbn [len] in Hws.
    destruct (negb _); [done|]. pose proof (len_skip_ws r1).
    pose proof (Hv depth (skip_ws r1) ltac:(lia)) as Hvs.
    pose proof (value_shorter fuel depth (skip_ws r1)) as Hs.
    destruct (value fuel depth (skip_ws r1)) as [| |v rest1]; [done..|]. cbn in Hs.
    pose proof (len_skip_ws rest1) as Hws1. destruct (skip_ws rest1) as [|c' r2]; [done|]. cbn [len] in Hws1.
    destruct (Ascii.eqb c' ","); [|by case_match].
    apply pmap_not_fuel, Hm. pose proof (len_skip_ws r2). lia.
Qed.

Lemma parse_fuel_total s : parse_fuel (enough s) s ≠ Fuel.
Proof.
  unfold parse_fuel. pose proof (len_skip_ws s).
  assert (value (enough s) 0 (skip_ws s) ≠ Fuel) as Hv by (apply readers_total; unfold enough; lia).
  destruct (value _ _ _); [done..|]. by case_match.
Qed.

(** ** Reading what was printed *)

(** The tree with every string in valid UTF-8. *)
Fixpoint scrub (t : json) : json :=
  match t with
  | JStr s => JStr (to_valid s)
  | JArr l => JArr (map scrub l)
  | JObj l => JObj (map (λ kv, (to_valid kv.1, scrub kv.2)) l)
  | _ => t
  end.

Fixpoint numbers_ok (t : json) : bool :=
  match t with
  | JNum lit => bool_decide (scan_number lit = Some (lit, ""))
  | JArr l => forallb numbers_ok l
  | JObj l => forallb (λ kv, numbers_ok kv.2) l
  | _ => true
  end.

Definition max_of {A} (f : A → Z) (l : list A) : Z := foldr (λ x, Z.max (f x)) 0 l.

Fixpoint nesting (t : json) : Z :=
  match t with
  | JArr l => 1 + max_of nesting l
  | JObj l => 1 + max_of (λ kv, nesting kv.2) l
  | _ => 0
  end.

Lemma max_of_cons {A} (f : A → Z) x l : max_of f (x :: l) = Z.max (f x) (max_of f l).
Proof. done. Qed.

Lemma max_of_nonneg {A} (f : A → Z) l : 0 ≤ max_of f l.
Proof. induction l; [done|]. rewrite max_of_cons. lia. Qed.

Lemma HasPrefix_head a s b p : Ascii.eqb a b = false → HasPrefix (String a s) (String b p) = false.
Proof. intros H. cbn. by rewrite H. Qed.

(** No printed value begins like white space or a closing bracket. *)
Lemma print_head t : numbers_ok t = true → ∃ a r, print t = String a r ∧
  is_ws a = false ∧ Ascii.eqb a "]" = false.
Proof.
  destruct t as [|[]|lit|s|l|l]; cbn; intros Hn; try (by eexists _, _).
  apply bool_decide_eq_true in Hn. destruct (is_number_head _ Hn) as (a & r & -> & Ha).
  exists a, r. split; [done|]. destruct (Ascii.eqb_spec a "]") as [->|_]; [done|]. split; [|done].
  unfold is_ws, isDigit, byte_is, byte_in in *. destruct (Ascii.eqb_spec a "-") as [->|_]; [done|]. lia.
Qed.

Lemma skip_ws_print t rest : numbers_ok t = true → skip_ws (print t +:+ rest) = print t +:+ rest.
Proof.
  intros Hn. destruct (print_head t Hn) as (a & r & -> & Hws & _).
  rewrite string_app_cons. cbn. by rewrite Hws.
Qed.

Lemma literal_number lit rest :
  is_number lit → num_stop rest = true → literal (lit +:+ rest) = Good (JNum lit) rest.
Proof.
  intros Hn Hr. unfold literal. rewrite (scan_number_app _ _ Hn Hr).
  destruct (is_number_head _ Hn) as (a & r & -> & Ha). rewrite !string_app_cons.
  rewrite !HasPrefix_head; [done|..]; apply Ascii.eqb_neq; intros ->; done.
Qed.

(** What is to be shown of a tree. *)
Definition reads_back (t : json) : Prop := ∀ fuel depth rest,
  numbers_ok t = true → depth + nesting t ≤ maxNestingDepth → num_stop rest = true →
  (2 * len (print t) + 1 ≤ fuel)%nat → value fuel depth (print t +:+ rest) = Good (scrub t) rest.

Lemma Join_cons2 x y l sep : Join (x :: y :: l) sep = x +:+ sep +:+ Join (y :: l) sep.
Proof. done. Qed.

Lemma elements_print t l fuel depth rest :
  Forall reads_back (t :: l) → forallb numbers_ok (t :: l) = true →
  depth + max_of nesting (t :: l) ≤ maxNestingDepth →
  (2 * len (Join (map print (t :: l)) ",") + 2 ≤ fuel)%nat →
  elements fuel depth (Join (map print (t :: l)) "," +:+ String "]" rest) = Good (map scrub (t :: l)) rest.
Proof.
  revert t fuel. induction l as [|t' l IH]; intros t fuel Hall Hn Hd Hf;
    apply Forall_cons in Hall as [Ht Hl]; cbn [forallb] in Hn; apply andb_true_iff in Hn as [Hnt Hnl];
    rewrite max_of_cons in Hd; (destruct fuel as [|fuel]; [lia|]).
  - cbn [map Join] in *. cbn [elements]. pose proof (max_of_nonneg nesting []).
    rewrite Ht by (done || lia). done.
  - cbn [map] in *. rewrite Join_cons2 in *. rewrite !len_app in Hf. cbn [len] in Hf.
    rewrite <-!string_app_assoc. cbn [elements]. pose proof (max_of_nonneg nesting (t' :: l)).
    rewrite Ht by (done || lia). rewrite string_app_cons.
    change (skip_ws (String "," ?x)) with (String "," x). cbv match.
    change (Ascii.eqb "," ",") with true. cbv match. change ("" +:+ ?x) with x.
    assert (skip_ws (Join (print t' :: map print l) "," +:+ String "]" rest)
            = Join (print t' :: map print l) "," +:+ String "]" rest) as ->.
    { cbn [forallb] in Hnl. apply andb_true_iff in Hnl as [Hnt' _].
      destruct l; cbn [map Join]; rewrite <- ?string_app_assoc; by apply skip_ws_print. }
    by rewrite (IH t' fuel Hl Hnl) by lia.
Qed.

(** The name and the colon of a printed member, and then its value. *)
Lemma members_name k v rest fuel depth :
  members (S fuel) depth (print_member print (k, v) +:+ rest) =
  match value fuel depth (skip_ws (print v +:+ rest)) with
  | Fuel => Fuel
  | Bad => Bad
  | Good v rest =>
      match skip_ws rest with
      | "" => Bad
      | String c r =>
          if Ascii.eqb c "," then pmap (cons (to_valid k, v)) (members fuel depth (skip_ws r))
          else if Ascii.eqb c "}" then Good [(to_valid k, v)] r
          else Bad
      end
  end.
Proof.
  unfold print_member, quote. cbn [fst snd]. rewrite !string_app_cons.
  change (members (S fuel) depth (String DQ ?tail)) with
    (match unquote_from 0 tail with
     | None => Bad
     | Some (k, rest) =>
         match skip_ws rest with
         | "" => Bad
         | String c r =>
             if negb (Ascii.eqb c ":") then Bad else
             match value fuel depth (skip_ws r) with
             | Fuel => Fuel
             | Bad => Bad
             | Good v rest =>
                 match skip_ws rest with
                 | "" => Bad
                 | String c r =>
                     if Ascii.eqb c "," then pmap (cons (k, v)) (members fuel depth (skip_ws r))
                     else if Ascii.eqb c "}" then Good [(k, v)] r
                     else Bad
                 end
             end
         end
     end).
  rewrite <- !string_app_assoc, !string_app_cons. change ("" +:+ ?x) with x.
  by rewrite unquote_quote.
Qed.

Lemma len_member k v : (len (print_member print (k, v)) ≥ len (print v) + 2)%nat.
Proof. unfold print_member, quote. cbn [fst snd]. rewrite !len_app. cbn [len]. rewrite ?len_app. cbn. lia. Qed.

Lemma members_print kv l fuel depth rest :
  Forall (λ kv, reads_back kv.2) (kv :: l) → forallb (λ kv, numbers_ok kv.2) (kv :: l) = true →
  depth + max_of (λ kv, nesting kv.2) (kv :: l) ≤ maxNestingDepth →
  (2 * len (Join (map (print_member print) (kv :: l)) ",") + 2 ≤ fuel)%nat →
  members fuel depth (Join (map (print_member print) (kv :: l)) "," +:+ String "}" rest)
    = Good (map (λ kv, (to_valid kv.1, scrub kv.2)) (kv :: l)) rest.
Proof.
  revert kv fuel. induction l as [|kv' l IH]; intros [k v] fuel Hall Hn Hd Hf;
    apply Forall_cons in Hall as [Hv Hl]; cbn [forallb] in Hn; apply andb_true_iff in Hn as [Hnv Hnl];
    rewrite max_of_cons in Hd; (destruct fuel as [|fuel]; [lia|]); pose proof (len_member k v).
  - cbn [map Join] in *. pose proof (max_of_nonneg (λ kv : string * json, nesting kv.2) []).
    rewrite members_name, skip_ws_print by done. cbn [fst snd] in *. by rewrite Hv by (done || lia).
  - cbn [map] in *. rewrite Join_cons2 in *. rewrite !len_app in Hf. cbn [len] in Hf.
    rewrite <- !string_app_assoc. rewrite members_name, skip_ws_print by done. cbn [fst snd] in *.
    pose proof (max_of_nonneg (λ kv : string * json, nesting kv.2) (kv' :: l)).
    rewrite Hv by (done || lia). rewrite string_app_cons.
    change (skip_ws (String "," ?x)) with (String "," x). cbv match.
    change (Ascii.eqb "," ",") with true. cbv match. change ("" +:+ ?x) with x.
    assert (skip_ws (Join (print_member print kv' :: map (print_member print) l) "," +:+ String "}" rest)
            = Join (print_member print kv' :: map (print_member print) l) "," +:+ String "}" rest) as ->
      by (by destruct l).
    by rewrite (IH kv' fuel Hl Hnl) by lia.
Qed.

(** An object ends by itself, whatever follows it. *)
Lemma object_reads_back l fuel depth rest :
  Forall (λ kv, reads_back kv.2) l → numbers_ok (JObj l) = true →
  depth + nesting (JObj l) ≤ maxNestingDepth → (2 * len (print (JObj l)) + 1 ≤ fuel)%nat →
  value fuel depth (print (JObj l) +:+ rest) = Good (scrub (JObj l)) rest.
Proof.
  intros IH Hn Hd Hf. destruct fuel as [|fuel]; [lia|].
  cbn [numbers_ok nesting] in *. pose proof (max_of_nonneg (λ kv : string * json, nesting kv.2) l).
  change (print (JObj l)) with (String "{" (Join (map (print_member print) l) "," +:+ "}")) in *.
  cbn [len] in Hf. rewrite len_app in Hf. cbn [len] in Hf.
  rewrite string_app_cons. cbn [value]. change (Ascii.eqb "{" DQ) with false.
  change (Ascii.eqb "{" "[") with false. change (Ascii.eqb "{" "{") with true. cbv match.
  replace (maxNestingDepth <=? depth) with false by lia.
  rewrite <-string_app_assoc, string_app_cons. change ("" +:+ rest) with rest.
  destruct l as [|[k v] l]; [done|].
  assert (∃ r, Join (map (print_member print) ((k, v) :: l)) "," +:+ String "}" rest = String DQ r) as (r & Hj).
  { destruct l; cbn [map Join]; unfold print_member, quote; cbn [fst snd]; rewrite !string_app_cons;
      by eexists. }
  rewrite Hj. change (skip_ws (String DQ r)) with (String DQ r). cbv match.
  change (Ascii.eqb DQ "}") with false. cbv match. rewrite <-Hj.
  rewrite members_print by (done || lia). done.
Qed.

Lemma print_reads_back t : reads_back t.
Proof.
  induction t as [|b|lit|s|l IH|l IH] using json_nested_ind; intros fuel depth rest Hn Hd Hr Hf;
    (destruct fuel as [|fuel]; [lia|]).
  - by destruct rest.
  - by destruct b, rest.
  - cbn [print numbers_ok] in *. apply bool_decide_eq_true in Hn. cbn [scrub]. rewrite <-(literal_number _ _ Hn Hr).
    destruct (is_number_head _ Hn) as (a & r & -> & Ha). rewrite string_app_cons. cbn [value].
    destruct (Ascii.eqb_spec a DQ) as [->|_]; [done|]. destruct (Ascii.eqb_spec a "[") as [->|_]; [done|].
    by destruct (Ascii.eqb_spec a "{") as [->|_].
  - cbn [print]. unfold quote. rewrite string_app_cons. cbn [value]. rewrite Ascii.eqb_refl.
    rewrite <-string_app_assoc, string_app_cons. change ("" +:+ rest) with rest. by rewrite unquote_quote.
  - cbn [numbers_ok nesting] in *. pose proof (max_of_nonneg nesting l).
    change (print (JArr l)) with (String "[" (Join (map print l) "," +:+ "]")) in *.
    cbn [len] in Hf. rewrite len_app in Hf. cbn [len] in Hf.
    rewrite string_app_cons. cbn [value]. change (Ascii.eqb "[" DQ) with false.
    change (Ascii.eqb "[" "[") with true. cbv match.
    replace (maxNestingDepth <=? depth) with false by lia.
    rewrite <-string_app_assoc, string_app_cons. change ("" +:+ rest) with rest.
    destruct l as [|t l]; [done|].
    assert (∃ a r, Join (map print (t :: l)) "," +:+ String "]" rest = String a r ∧
      is_ws a = false ∧ Ascii.eqb a "]" = false) as (a & r & Hj & Hws & Hb).
    { cbn [forallb] in Hn. apply andb_true_iff in Hn as [Hn _].
      destruct (print_head t Hn) as (a & r & Hp & Hws & Hb).
      destruct l; cbn [map Join]; rewrite Hp; rewrite ?string_app_cons; by eexists _, _. }
    assert (skip_ws (String a r) = String a r) as Hsk by (cbn; by rewrite Hws).
    rewrite Hj, Hsk. cbv match. rewrite Hb, <-Hj.
    rewrite elements_print by (done || lia). done.
  - by apply object_reads_back.
Qed.

(** ** Properties *)

(** Reading always ends: on every text the reader answers, with a tree or a
    syntax error, within twice the length of the text in nested calls. *)
Theorem parse_terminates s : parse_fuel (enough s) s = Bad ∨ ∃ t, parse_fuel (enough s) s = Good t "".
Proof.
  pose proof (parse_fuel_total s) as Hf. revert Hf. unfold parse_fuel.
  destruct (value _ _ _) as [| |v rest]; [done|by left|]. case_match; [|by left]. intros _. right. by exists v.
Qed.

(** The text printed for a tree is accepted and read back as that tree, its
    strings in valid UTF-8, provided its numbers are number literals and it is
    nested no deeper than the reader allows. *)
Lemma parse_print_scrub t :
  numbers_ok t = true → nesting t ≤ maxNestingDepth → parse (print t) = Some (scrub t).
Proof.
  intros Hn Hd. unfold parse, parse_fuel. pose proof (print_reads_back t (enough (print t)) 0 "") as H.
  pose proof (skip_ws_print t "" Hn) as Hws. rewrite string_app_nil_r in *. rewrite Hws.
  rewrite H; [done..|]. unfold enough. lia.
Qed.
