(* ===== verification/FloatText.v ===== *)
(** * Floating-point numbers as text: [strconv.ParseFloat] and [FormatFloat]

    [ParseFloat] rounds the decimal number correctly (to nearest, ties to
    even); [shortest] finds the fewest decimal digits that read back as the
    number, the closest of them, as [FormatFloat] with precision -1 does. *)

From S2P Require Import Prelude.
From S2P Require Import GoStrings.
From S2P Require Import GoValue.
From S2P Require Import Json.

Open Scope string_scope.
Open Scope Z_scope.

#[global] Instance spec_float_eq_dec : EqDecision spec_float.
Proof. solve_decision. Defined.

(** ** From decimal to binary64 *)

(** [coef * 10^ex], correctly rounded. *)
Definition round_decimal (neg : bool) (coef ex : Z) : float64 :=
  if coef =? 0 then S754_zero neg
  else if 0 <=? ex then
    binary_normalize 53 1024 ((if neg then -1 else 1) * (coef * 10 ^ ex)) 0 neg
  else SFdiv 53 1024 (S754_finite neg (Z.to_pos coef) 0) (S754_finite false (Z.to_pos (10 ^ (- ex))) 0).

Definition finite (f : float64) : bool :=
  match f with S754_zero _ | S754_finite _ _ _ => true | _ => false end.

(** [strconv] stops counting an exponent at 10000. *)
Fixpoint exponent_digits (acc : Z) (s : string) : Z :=
  match s with
  | String a r =>
      exponent_digits (if acc <? 10000 then acc * 10 + default 0 (digit_val a) else acc) r
  | "" => acc
  end.

Definition exponent (e : string) : Z :=
  match e with
  | String _ (String c r) =>
      if Ascii.eqb c "-" then - exponent_digits 0 r
      else if Ascii.eqb c "+" then exponent_digits 0 r
      else exponent_digits 0 (String c r)
  | _ => 0
  end.

(** The value of an unsigned number literal. *)
Definition unsigned_float (neg : bool) (s : string) : option float64 :=
  '(i, s) ← scan_int s; '(f, s) ← scan_frac s; '(e, s) ← scan_exp s;
  let frac := TrimPrefix f "." in
  coef ← digits_acc 0 (i +:+ frac);
  let r := round_decimal neg coef (exponent e - Z.of_nat (String.length frac)) in
  if String.eqb s "" && finite r then Some r else None.

(** [ParseFloat(lit, 64)] for a JSON number literal; out of range is an error. *)
Definition ParseFloat (lit : string) : option float64 :=
  match lit with
  | String a r => if Ascii.eqb a "-" then unsigned_float true r else unsigned_float false lit
  | "" => None
  end.

(** ** From binary64 to the shortest decimal *)

(** [m * 2^e] as a fraction. *)
Definition fraction (m : positive) (e : Z) : Z * Z :=
  if 0 <=? e then (Zpos m * 2 ^ e, 1) else (Zpos m, 2 ^ (- e)).

(** [num * 10^k / den] as a fraction. *)
Definition scale10 (num den k : Z) : Z * Z :=
  if 0 <=? k then (num * 10 ^ k, den) else (num, den * 10 ^ (- k)).

(** The least [k] from [k] on with [num / den < 10^k]. *)
Fixpoint decimal_point (fuel : nat) (num den k : Z) : Z :=
  match fuel with
  | O => k
  | S fuel => let '(n, d) := scale10 num den (- k) in
              if n <? d then k else decimal_point fuel num den (k + 1)
  end.

(** Where to start: [2^l <= num / den * 2], and 30103/100000 is just above the
    logarithm of 2; the search takes at most five steps. *)
Definition decimal_point_of (num den : Z) : Z :=
  let l := Z.log2 num - Z.log2 den - 1 in
  decimal_point 5 num den (l * 30103 / 100000 - 1).

(** The [n]-digit decimals next to the number, as coefficient and exponent:
    the nearest that reads back, if one does. *)
Definition candidate (v : float64) (num den k n : Z) : option (Z * Z) :=
  let '(p, q) := scale10 num den (n - k) in
  let f := p / q in
  let r := p mod q in
  let back c := bool_decide (round_decimal false c (k - n) = v) in
  let nearer_up := (q <? 2 * r) || ((2 * r =? q) && Z.odd f) in
  if back f && (negb nearer_up || negb (back (f + 1))) then Some (f, k - n)
  else if back (f + 1) then Some (f + 1, k - n)
  else None.

(** Seventeen digits always suffice. *)
Fixpoint shortest_from (fuel : nat) (v : float64) (num den k n : Z) : Z * Z :=
  match candidate v num den k n with
  | Some c => c
  | None => match fuel with
            | O => (num, 0)
            | S fuel => shortest_from fuel v num den k (n + 1)
            end
  end.

Fixpoint strip_zeros (s : string) : string :=
  match s with
  | String a r =>
      let r := strip_zeros r in
      if Ascii.eqb a "0" && String.eqb r "" then "" else String a r
  | "" => ""
  end.

(** The digits of a positive number and the position of the decimal point
    before them: [0.digits * 10^dp]. *)
Definition shortest (m : positive) (e : Z) : string * Z :=
  let '(num, den) := fraction m e in
  let '(c, ex) := shortest_from 16 (S754_finite false m e) num den (decimal_point_of num den) 1 in
  let ds := Itoa c in
  (strip_zeros ds, Z.of_nat (String.length ds) + ex).

Fixpoint zeros (n : nat) : string := match n with O => "" | S n => String "0" (zeros n) end.

Fixpoint str_take (n : nat) (s : string) : string :=
  match n, s with
  | S n, String a s => String a (str_take n s)
  | _, _ => ""
  end.

(** The format ['f']: no exponent. *)
Definition fmt_f (ds : string) (dp : Z) : string :=
  let nd := Z.of_nat (String.length ds) in
  if dp <=? 0 then "0." +:+ zeros (Z.to_nat (- dp)) +:+ ds
  else if nd <=? dp then ds +:+ zeros (Z.to_nat (dp - nd))
  else str_take (Z.to_nat dp) ds +:+ "." +:+ JsonString.str_drop (Z.to_nat dp) ds.

(** The format ['e'], its exponent of at least [width] digits. *)
Definition fmt_e (width : nat) (ds : string) (dp : Z) : string :=
  let ex := dp - 1 in
  let digits := Itoa (Z.abs ex) in
  str_take 1 ds +:+ (if String.eqb (JsonString.str_drop 1 ds) "" then "" else "." +:+ JsonString.str_drop 1 ds)
  +:+ (if ex <? 0 then "e-" else "e+")
  +:+ zeros (width - String.length digits) +:+ digits.

Definition signed (neg : bool) (s : string) : string := if neg then String "-" s else s.

(** [FormatFloat(v, 'f', -1, 64)] *)
Definition FormatFloat_f (v : float64) : string :=
  match v with
  | S754_zero neg => signed neg "0"
  | S754_finite neg m e => let '(ds, dp) := shortest m e in signed neg (fmt_f ds dp)
  | S754_infinity neg => if neg then "-Inf" else "+Inf"
  | S754_nan => "NaN"
  end.

(** [FormatFloat(v, 'g', -1, 64)], which [%v] of [fmt] uses: scientific notation
    when the exponent is below -4 or above 5. *)
Definition FormatFloat_g (v : float64) : string :=
  match v with
  | S754_finite neg m e =>
      let '(ds, dp) := shortest m e in
      signed neg (if (dp - 1 <? -4) || (6 <=? dp - 1) then fmt_e 2 ds dp else fmt_f ds dp)
  | _ => FormatFloat_f v
  end.

(** The number literal [json.Marshal] writes; it fails on what is not finite. *)
Definition json_float (v : float64) : option string :=
  match v with
  | S754_zero neg => Some (signed neg "0")
  | S754_finite neg m e =>
      let '(ds, dp) := shortest m e in
      let abs := S754_finite false m e in
      Some (signed neg
        (if fltb abs (round_decimal false 1 (-6)) || fleb (f64_of_Z (10 ^ 21)) abs
         then fmt_e 1 ds dp else fmt_f ds dp))
  | _ => None
  end.

(** ** Integers *)

Lemma num_digits_lower fuel z n : 0 < z → num_digits fuel z = S n → 10 ^ Z.of_nat n ≤ z.
Proof.
  revert z n. induction fuel as [|fuel IH]; intros z n Hz; cbn [num_digits]; [intros [= <-]; cbn; lia|].
  destruct (z <? 10) eqn:E; [intros [= <-]; cbn; lia|]. intros [= Hn].
  destruct (num_digits_pos fuel (z / 10)) as [k Hk]. rewrite Hk in Hn. subst n.
  assert (0 < z / 10) as Hq by (apply Z.div_str_pos; lia). apply IH in Hk; [|done].
  rewrite Nat2Z.inj_succ, Z.pow_succ_r by lia. pose proof (Z.mul_div_le z 10). lia.
Qed.

(** The first of [n + 1] digits. *)
Lemma dec_digits_head n z : 10 ^ Z.of_nat n ≤ z < 10 ^ Z.of_nat (S n) →
  ∃ d r, 1 ≤ d < 10 ∧ dec_digits (S n) z = String (digit_char d) r.
Proof.
  revert z. induction n as [|n IH]; intros z Hz.
  - exists z, "". cbn in Hz. split; [lia|]. cbn. by rewrite Z.mod_small by lia.
  - destruct (IH (z / 10)) as (d & r & Hd & Hr).
    { rewrite !Nat2Z.inj_succ, !Z.pow_succ_r in * by lia.
      split; [apply Z.div_le_lower_bound; lia|apply Z.div_lt_upper_bound; lia]. }
    exists d, (r +:+ String (digit_char (z mod 10)) ""). split; [done|].
    change (dec_digits (S (S n)) z) with (dec_digits (S n) (z / 10) +:+ String (digit_char (z mod 10)) "").
    rewrite Hr. by rewrite string_app_cons.
Qed.

Lemma scan_int_Itoa z : 0 ≤ z < 10 ^ 20 → scan_int (Itoa z) = Some (Itoa z, "").
Proof.
  intros Hz. destruct (Z.eq_dec z 0) as [->|Hne]; [done|]. unfold Itoa. replace (z <? 0) with false by lia.
  pose proof (dec_digits_digits (num_digits 19 z) z) as Hall.
  destruct (num_digits_pos 19 z) as [n Hn]. rewrite Hn in *.
  pose proof (num_digits_bound 19 z ltac:(done)) as Hu. rewrite Hn in Hu.
  pose proof (num_digits_lower 19 z n ltac:(lia) Hn) as Hl.
  destruct (dec_digits_head n z (conj Hl Hu)) as (d & r & Hd & Hr). rewrite Hr in *.
  cbn [scan_int]. replace (Ascii.eqb (digit_char d) "0") with false.
  2:{ symmetry. apply Ascii.eqb_neq. intros H. apply (f_equal N_of_ascii) in H. unfold digit_char in H.
      rewrite N_ascii_embedding in H by lia. cbn in H. lia. }
  pose proof Hall as Hall'. cbn in Hall'. apply andb_true_iff in Hall' as [-> _].
  by rewrite span_digits_all.
Qed.

Lemma digits_Itoa z : 0 ≤ z < 10 ^ 20 → digits_acc 0 (Itoa z) = Some z.
Proof.
  intros Hz. pose proof (parse_digits_num_digits z Hz) as H. unfold Itoa. replace (z <? 0) with false by lia.
  destruct (num_digits_pos 19 z) as [n Hn]. rewrite Hn in *.
  destruct (dec_digits_cons n z) as (a & r & Hr & _). by rewrite Hr in *.
Qed.

Lemma scan_unsigned_Itoa z : 0 ≤ z < 10 ^ 20 → scan_unsigned (Itoa z) = Some (Itoa z, "").
Proof.
  intros Hz. unfold scan_unsigned. rewrite scan_int_Itoa by done. cbn.
  change ("" +:+ "") with "". by rewrite string_app_nil_r.
Qed.

Lemma unsigned_Itoa neg z :
  0 ≤ z < 10 ^ 20 → finite (round_decimal neg z 0) = true →
  scan_unsigned (Itoa z) = Some (Itoa z, "") ∧ unsigned_float neg (Itoa z) = Some (round_decimal neg z 0).
Proof.
  intros Hz Hf. split; [by apply scan_unsigned_Itoa|]. unfold unsigned_float.
  rewrite scan_int_Itoa by done. cbn. rewrite string_app_nil_r, digits_Itoa by done. cbn.
  change (0 - Z.of_nat 0) with 0. by rewrite Hf.
Qed.

Lemma round_decimal_int neg z : 0 < z → round_decimal neg z 0 = f64_of_Z ((if neg then -1 else 1) * z).
Proof.
  intros Hz. unfold round_decimal, f64_of_Z. replace (z =? 0) with false by lia. cbn [Z.leb].
  change (0 <=? 0) with true. cbv match. rewrite Z.mul_1_r.
  destruct neg; [replace (-1 * z) with (- z) by lia|replace (1 * z) with z by lia]; by destruct z.
Qed.

Lemma Itoa_neg z : z < 0 → Itoa z = String "-" (Itoa (- z)).
Proof. intros Hz. unfold Itoa. replace (z <? 0) with true by lia. by replace (- z <? 0) with false by lia. Qed.

Lemma Itoa_pos_head z : 0 ≤ z → ∃ a r, Itoa z = String a r ∧ Ascii.eqb a "-" = false.
Proof.
  intros Hz. pose proof (Itoa_nonempty z) as Hne. pose proof (Itoa_no_byte "-" z eq_refl Hz) as Hm.
  destruct (Itoa z) as [|a r]; [done|]. cbn in Hm. apply andb_true_iff in Hm as [Hm%negb_true_iff _]. by exists a, r.
Qed.

Lemma Itoa_literal z : in_int64 z = true → is_number (Itoa z).
Proof.
  unfold in_int64, int64_min, int64_max. intros Hz. unfold is_number, scan_number.
  destruct (Z_lt_le_dec z 0) as [Hneg|Hpos].
  - rewrite Itoa_neg by done. change (Ascii.eqb "-" "-") with true. cbv match.
    by rewrite scan_unsigned_Itoa by lia.
  - pose proof (scan_unsigned_Itoa z ltac:(lia)) as Hs.
    destruct (Itoa_pos_head z Hpos) as (a & r & Hi & Ha). rewrite Hi in *. by rewrite Ha.
Qed.

(** The numeral of an [int] is a number literal, read back as its rounding. *)
Lemma Itoa_number z : in_int64 z = true → finite (f64_of_Z z) = true →
  is_number (Itoa z) ∧ ParseFloat (Itoa z) = Some (f64_of_Z z).
Proof.
  intros Hin Hf. split; [by apply Itoa_literal|].
  unfold in_int64, int64_min, int64_max in Hin. unfold ParseFloat.
  destruct (Z_lt_le_dec z 0) as [Hneg|Hpos].
  - rewrite Itoa_neg by done. change (Ascii.eqb "-" "-") with true. cbv match.
    assert (round_decimal true (- z) 0 = f64_of_Z z) as Hr by (rewrite round_decimal_int by lia; f_equal; lia).
    destruct (unsigned_Itoa true (- z)) as [_ ->]; [lia|by rewrite Hr|]. by rewrite Hr.
  - assert (round_decimal false z 0 = f64_of_Z z) as Hr.
    { destruct (Z.eq_dec z 0) as [->|]; [done|]. rewrite round_decimal_int by lia. f_equal. lia. }
    destruct (unsigned_Itoa false z) as [_ Hu]; [lia|by rewrite Hr|]. rewrite Hr in Hu.
    destruct (Itoa_pos_head z Hpos) as (a & r & Hi & Ha). rewrite Hi in *. by rewrite Ha.
Qed.
