(* ===== verification/JsonValue.v ===== *)
(** * [encoding/json] on dynamically typed values

    [Marshal] and [Unmarshal] of an [any], the decoding of the fields of a
    struct, and [fmt.Sprint] of a decoded value.

    [Unmarshal_Marshal] justifies [json_norm], the effect the other files
    assume of a trip through JSON. *)

From S2P Require Import Prelude.
From S2P Require Import GoStrings.
From S2P Require Import GoValue.
From S2P Require Import JsonString.
From S2P Require Import Json.
From S2P Require Import FloatText.

Open Scope string_scope.
Open Scope Z_scope.

(** ** Writing *)

(** The keys of a map are written in the order of their bytes. *)
Definition key_le {A} (x y : string * A) : Prop := str_ltb y.1 x.1 = false.
#[global] Instance key_le_dec {A} : RelDecision (@key_le A).
Proof. intros x y. unfold key_le. apply _. Defined.

Definition by_key {A} (m : gmap string A) : list (string * A) := merge_sort key_le (map_to_list m).

Definition lift_member {A} (kv : string * option A) : option (string * A) :=
  v ← kv.2; Some (kv.1, v).

(** The tree [json.Marshal] writes; it fails on NaN and the infinities. *)
Fixpoint tree_of (a : any) : option json :=
  match a with
  | ANil => Some JNull
  | ABool b => Some (JBool b)
  | AInt z => Some (JNum (Itoa z))
  | AFloat f => JNum <$> json_float f
  | AString s => Some (JStr s)
  | AList l => JArr <$> mapM tree_of l
  | AStrings l => Some (JArr (JStr <$> l))
  | AMap m => JObj <$> mapM lift_member (by_key (tree_of <$> m))
  end.

Definition Marshal (a : any) : option string := print <$> tree_of a.

(** ** Reading *)
Definition of_members {A} (l : list (string * A)) : gmap string A :=
  foldl (λ m kv, <[kv.1 := kv.2]> m) ∅ l.

(** Into an [any]; a number out of range is an error. *)
Fixpoint of_json (t : json) : option any :=
  match t with
  | JNull => Some ANil
  | JBool b => Some (ABool b)
  | JNum lit => AFloat <$> ParseFloat lit
  | JStr s => Some (AString s)
  | JArr l => AList <$> mapM of_json l
  | JObj l => (λ l, AMap (of_members l)) <$> mapM (λ kv, v ← of_json kv.2; Some (kv.1, v)) l
  end.

Definition Unmarshal (s : string) : option any := parse s ≫= of_json.

(** ** Structs

    [A] is the state of the struct while it is decoded; a field is named by
    its tag and matched exactly or else without regard to case (of the
    non-ASCII runes only U+017F and U+212A fold to letters). *)
Fixpoint fold_name (s : string) : string :=
  match s with
  | "" => ""
  | String a r =>
      if byte_is 197 a then
        match r with
        | String b r' => if byte_is 191 b then String "S" (fold_name r') else String a (fold_name r)
        | "" => String a ""
        end
      else if byte_is 226 a then
        match r with
        | String b (String c r') =>
            if byte_is 132 b && byte_is 170 c then String "K" (fold_name r') else String a (fold_name r)
        | _ => String a (fold_name r)
        end
      else String (if byte_in 97 122 a then ascii_of_N (N_of_ascii a - 32) else a) (fold_name r)
  end.

Definition field {A} := (string * (json → A → option A))%type.

(** The field a key belongs to. *)
Definition find_field {A} (fields : list (@field A)) (key : string) : option (json → A → option A) :=
  let by_name n := find (λ f : @field A, String.eqb f.1 n) fields in
  match by_name key with
  | Some f => Some f.2
  | None => snd <$> find (λ f : @field A, String.eqb (fold_name f.1) (fold_name key)) fields
  end.

(** The members of an object, in the order of the text; [strict] is
    [DisallowUnknownFields]. *)
Fixpoint decode_members {A} (strict : bool) (fields : list (@field A)) (l : list (string * json)) (a : A)
    : option A :=
  match l with
  | [] => Some a
  | (k, t) :: l =>
      match find_field fields k with
      | Some f => a ← f t a; decode_members strict fields l a
      | None => if strict then None else decode_members strict fields l a
      end
  end.

(** A struct: [null] leaves it as it is, anything but an object is an error. *)
Definition decode_struct {A} (strict : bool) (fields : list (@field A)) (t : json) (a : A) : option A :=
  match t with
  | JNull => Some a
  | JObj l => decode_members strict fields l a
  | _ => None
  end.

Definition string_field {A} (set : string → A → A) (t : json) (a : A) : option A :=
  match t with JNull => Some a | JStr s => Some (set s a) | _ => None end.

Definition any_field {A} (set : any → A → A) (t : json) (a : A) : option A :=
  v ← of_json t; Some (set v a).

(** An [int]: the literal must be an integer in range. *)
Definition int_field {A} (set : Z → A → A) (t : json) (a : A) : option A :=
  match t with JNull => Some a | JNum lit => z ← Atoi lit; Some (set z a) | _ => None end.

Definition bool_field {A} (set : bool → A → A) (t : json) (a : A) : option A :=
  match t with JNull => Some a | JBool b => Some (set b a) | _ => None end.

(** A [map[string]any]: [null] makes it nil, an object adds its members to
    what is there. *)
Definition map_field {A} (get : A → option (gmap string any)) (set : option (gmap string any) → A → A)
    (t : json) (a : A) : option A :=
  match t with
  | JNull => Some (set None a)
  | JObj l =>
      l ← mapM (λ kv, v ← of_json kv.2; Some (kv.1, v)) l;
      Some (set (Some (foldl (λ m kv, <[kv.1 := kv.2]> m) (default ∅ (get a)) l)) a)
  | _ => None
  end.

(** A slice: [null] makes it nil; the elements of an array are read over those
    that are there, so that what an element does not say stays (elements cut
    off by an earlier occurrence of the member are taken as gone). *)
Fixpoint read_elements {B} (zero : B) (dec : json → B → option B) (l : list json) (old : list B) : option (list B) :=
  match l with
  | [] => Some []
  | t :: l => e ← dec t (hd zero old); r ← read_elements zero dec l (tl old); Some (e :: r)
  end.

Definition slice_field {A B} (zero : B) (dec : json → B → option B) (get : A → list B) (set : list B → A → A)
    (t : json) (a : A) : option A :=
  match t with
  | JNull => Some (set [] a)
  | JArr l => v ← read_elements zero dec l (get a); Some (set v a)
  | _ => None
  end.

(** Writing a struct: a member that [omitempty] drops when [empty]. *)
Definition omitempty (empty : bool) (name : string) (t : json) : list (string * json) :=
  if empty then [] else [(name, t)].

Definition is_nil (v : any) : bool := match v with ANil => true | _ => false end.
Definition is_empty_map (m : option (gmap string any)) : bool := bool_decide (default ∅ m = ∅).
Definition map_tree (m : option (gmap string any)) : option json :=
  match m with None => Some JNull | Some m => tree_of (AMap m) end.

(** ** [fmt.Sprint] *)
Fixpoint Sprint (a : any) : string :=
  match a with
  | ANil => "<nil>"
  | ABool b => if b then "true" else "false"
  | AInt z => Itoa z
  | AFloat f => FormatFloat_g f
  | AString s => s
  | AList l => "[" +:+ Join (map Sprint l) " " +:+ "]"
  | AStrings l => "[" +:+ Join l " " +:+ "]"
  | AMap m => "map[" +:+ Join ((λ kv, kv.1 +:+ ":" +:+ kv.2) <$> by_key (Sprint <$> m)) " " +:+ "]"
  end.

(** ** Induction on values *)

Fixpoint any_size (a : any) : nat :=
  match a with
  | AList l => S (sum_list (any_size <$> l))
  | AMap m => S (sum_list (map_to_list (any_size <$> m)).*2)
  | _ => 0
  end.

Lemma elem_of_sum_list n l : n ∈ l → (n ≤ sum_list l)%nat.
Proof. induction l as [|x l IH]; [by intros ?%elem_of_nil|]. intros [->|H]%elem_of_cons; cbn; [lia|]. apply IH in H. lia. Qed.

Lemma any_nested_ind (P : any → Prop) :
  P ANil → (∀ b, P (ABool b)) → (∀ z, P (AInt z)) → (∀ f, P (AFloat f)) → (∀ s, P (AString s)) →
  (∀ l, Forall P l → P (AList l)) → (∀ l, P (AStrings l)) → (∀ m, map_Forall (λ _, P) m → P (AMap m)) →
  ∀ a, P a.
Proof.
  intros Hn Hb Hi Hf Hs Hl Hss Hm a. remember (any_size a) as n eqn:E. revert a E.
  induction n as [n IH] using lt_wf_ind. intros [] ->; auto.
  - apply Hl, Forall_forall. intros x Hx. eapply IH; [|reflexivity]. cbn [any_size].
    pose proof (elem_of_sum_list (any_size x) (any_size <$> l)) as H.
    rewrite list_elem_of_fmap in H. assert (any_size x ≤ sum_list (any_size <$> l))%nat; [|lia]. apply H. by exists x.
  - apply Hm. intros k x Hx. eapply IH; [|reflexivity]. cbn [any_size].
    assert (any_size x ≤ sum_list (map_to_list (any_size <$> m)).*2)%nat; [|lia].
    apply elem_of_sum_list, list_elem_of_fmap. exists (k, any_size x). split; [done|].
    apply elem_of_map_to_list. by rewrite lookup_fmap, Hx.
Qed.

(** ** Sorted members *)

Lemma by_key_fmap {A B} (f : A → B) (m : gmap string A) :
  ∃ L, L ≡ₚ map_to_list m ∧ by_key (f <$> m) = prod_map id f <$> L.
Proof.
  pose proof (merge_sort_Permutation key_le (map_to_list (f <$> m))) as Hp.
  rewrite map_to_list_fmap in Hp. apply Permutation_map_inv in Hp as (L & HL & HP).
  exists L. split; [by symmetry|]. unfold by_key. by rewrite map_to_list_fmap.
Qed.

Lemma of_members_foldl {A} (l : list (string * A)) (m : gmap string A) :
  NoDup l.*1 → (∀ k, k ∈ l.*1 → m !! k = None) →
  foldl (λ m kv, <[kv.1 := kv.2]> m) m l = list_to_map l ∪ m.
Proof.
  revert m. induction l as [|[k v] l IH]; intros m Hnd Hm; [cbn; by rewrite map_empty_union|].
  rewrite fmap_cons in Hnd. apply NoDup_cons in Hnd as [Hk Hnd]. cbn [foldl fst snd].
  rewrite IH; [|done|].
  - rewrite list_to_map_cons, <-insert_union_l. symmetry.
    apply insert_union_r. by apply not_elem_of_list_to_map.
  - intros k' Hk'. rewrite lookup_insert_ne; [|by intros ->]. apply Hm. rewrite fmap_cons. by right.
Qed.

Lemma of_members_nodup {A} (l : list (string * A)) : NoDup l.*1 → of_members l = list_to_map l.
Proof.
  intros H. unfold of_members. rewrite of_members_foldl, map_union_empty; [done..|].
  intros. apply lookup_empty.
Qed.

(** Members in any order give their map back. *)
Lemma of_members_perm {A} (m : gmap string A) l : l ≡ₚ map_to_list m → of_members l = m.
Proof.
  intros Hp. assert (NoDup l.*1) as Hnd by (rewrite Hp; apply NoDup_fst_map_to_list).
  rewrite of_members_nodup by done. rewrite (list_to_map_proper l (map_to_list m)) by done.
  apply list_to_map_to_list.
Qed.

(** ** What survives the trip *)

(** The float is finite, and the literal written for it reads back. *)
Definition float_ok (f : float64) : bool :=
  match json_float f with
  | Some lit => bool_decide (scan_number lit = Some (lit, "")) && bool_decide (ParseFloat lit = Some f)
  | None => false
  end.

(** Numbers in range, texts in UTF-8. *)
Fixpoint json_ok (a : any) : bool :=
  match a with
  | AInt z => in_int64 z && finite (f64_of_Z z)
  | AFloat f => float_ok f
  | AString s => valid_utf8 s
  | AList l => forallb json_ok l
  | AStrings l => forallb valid_utf8 l
  | AMap m => bool_decide (map_Forall (λ k b, valid_utf8 k && b = true) (json_ok <$> m))
  | _ => true
  end.

Definition round_trips (a : any) : Prop :=
  json_ok a = true → ∃ t, tree_of a = Some t ∧ numbers_ok t = true ∧ of_json (scrub t) = Some (json_norm a).

Lemma valid_utf8_eq s : valid_utf8 s = true → to_valid s = s.
Proof. apply String.eqb_eq. Qed.

Lemma list_round_trips l : Forall round_trips l → forallb json_ok l = true →
  ∃ ts, mapM tree_of l = Some ts ∧ forallb numbers_ok ts = true ∧
    mapM of_json (map scrub ts) = Some (json_norm <$> l).
Proof.
  induction l as [|a l IH]; intros Hall Hok; [by exists []|].
  apply Forall_cons in Hall as [Ha Hl]. cbn in Hok. apply andb_true_iff in Hok as [Hoa Hol].
  destruct (Ha Hoa) as (t & Ht & Hn & Hb). destruct (IH Hl Hol) as (ts & Hts & Hns & Hbs).
  exists (t :: ts). cbn. rewrite Ht, Hn, Hb. cbn. rewrite Hts, Hns, Hbs. done.
Qed.

Lemma members_round_trip (l : list (string * any)) :
  Forall (λ kv, round_trips kv.2 ∧ json_ok kv.2 = true ∧ valid_utf8 kv.1 = true) l →
  ∃ ts, mapM lift_member (prod_map id tree_of <$> l) = Some ts ∧
    forallb (λ kv, numbers_ok kv.2) ts = true ∧
    mapM (λ kv, v ← of_json kv.2; Some (kv.1, v)) (map (λ kv, (to_valid kv.1, scrub kv.2)) ts)
      = Some (prod_map id json_norm <$> l).
Proof.
  induction l as [|[k a] l IH]; intros Hall; [by exists []|].
  apply Forall_cons in Hall as [(Ha & Hoa & Hk) Hl]. cbn [fst snd] in *.
  destruct (Ha Hoa) as (t & Ht & Hn & Hb). destruct (IH Hl) as (ts & Hts & Hns & Hbs).
  exists ((k, t) :: ts). apply valid_utf8_eq in Hk.
  cbn. rewrite Ht. cbn. rewrite Hn, Hk, Hb. cbn. rewrite Hns.
  split; [by rewrite Hts|]. split; [done|]. by rewrite Hbs.
Qed.

Lemma any_round_trips a : round_trips a.
Proof.
  induction a as [|b|z|f|s|l IH|l|m IH] using any_nested_ind; intros Hok; cbn [json_ok tree_of json_norm] in *.
  - by exists JNull.
  - by exists (JBool b).
  - apply andb_true_iff in Hok as [Hz Hf]. destruct (Itoa_number z Hz Hf) as [Hn Hp].
    eexists. split; [done|]. cbn. split; [by apply bool_decide_eq_true|]. by rewrite Hp.
  - unfold float_ok in Hok. destruct (json_float f) as [lit|]; [|done].
    apply andb_true_iff in Hok as [Hn Hp]. eexists. split; [done|]. cbn. split; [done|].
    apply bool_decide_eq_true in Hp. by rewrite Hp.
  - eexists. split; [done|]. cbn. split; [done|]. by rewrite valid_utf8_eq.
  - destruct (list_round_trips l IH Hok) as (ts & -> & Hn & Hb). exists (JArr ts).
    split; [done|]. split; [exact Hn|]. cbn. by rewrite Hb.
  - exists (JArr (JStr <$> l)). split; [done|]. cbn. clear -Hok. induction l as [|s l IH]; [done|].
    cbn in Hok. apply andb_true_iff in Hok as [Hs%valid_utf8_eq Hl]. destruct (IH Hl) as [Hn Hb].
    cbn. rewrite Hs. split; [exact Hn|]. cbn in Hb.
    destruct (mapM of_json (map scrub _)) as [r|]; [|done]. cbn in *. by injection Hb as ->.
  - destruct (by_key_fmap tree_of m) as (L & HL & Hk). rewrite Hk.
    destruct (members_round_trip L) as (ts & Hts & Hn & Hb).
    { apply Forall_forall. intros [k a] Hin. rewrite HL in Hin. apply elem_of_map_to_list in Hin. cbn.
      apply bool_decide_eq_true in Hok. specialize (Hok k (json_ok a)). rewrite lookup_fmap, Hin in Hok.
      specialize (Hok eq_refl). apply andb_true_iff in Hok as [? ?]. split_and!; [|done..]. by eapply IH. }
    exists (JObj ts). rewrite Hts. split; [done|]. split; [exact Hn|]. cbn [scrub of_json]. rewrite Hb. cbn.
    do 2 f_equal. apply of_members_perm. rewrite HL. by rewrite map_to_list_fmap.
Qed.

Lemma Marshal_Unmarshal a t :
  json_ok a = true → tree_of a = Some t → nesting t ≤ maxNestingDepth →
  Marshal a = Some (print t) ∧ Unmarshal (print t) = Some (json_norm a).
Proof.
  intros Hok Ht Hd. destruct (any_round_trips a Hok) as (t' & Ht' & Hn & Hb). rewrite Ht' in Ht. injection Ht as ->.
  unfold Marshal, Unmarshal. rewrite Ht'. split; [done|]. by rewrite (parse_print_scrub t Hn Hd).
Qed.

(** ** Structs, written and read back *)

(** Printable, and nested no deeper than [d]. *)
Definition fits (d : Z) (t : json) : Prop := numbers_ok t = true ∧ nesting t ≤ d.

Lemma fits_obj d l : 0 ≤ d → Forall (λ kv, fits d kv.2) l → fits (1 + d) (JObj l).
Proof.
  intros Hd Hl. unfold fits. cbn [numbers_ok nesting].
  induction Hl as [|[k t] l [Hn Ht] _ [IHn IHt]]; [cbn; split; [done|lia]|].
  rewrite max_of_cons. cbn [forallb snd] in *. rewrite Hn. split; [done|lia].
Qed.

Lemma fits_omitempty d b n t : fits d t → Forall (λ kv, fits d kv.2) (omitempty b n t).
Proof. intros. destruct b; repeat constructor; apply H. Qed.

Lemma fits_str d s : 0 ≤ d → fits d (JStr s).
Proof. done. Qed.

Lemma fits_int d z : 0 ≤ d → in_int64 z = true → fits d (JNum (Itoa z)).
Proof. intros Hd Hz. split; [|done]. by apply bool_decide_eq_true, Itoa_literal. Qed.

Lemma fits_parse t : fits maxNestingDepth t → parse (print t) = Some (scrub t).
Proof. intros []. by apply parse_print_scrub. Qed.

(** Values that JSON keeps, nested no deeper than [d]. *)
Definition portable (d : Z) (v : any) : Prop :=
  json_ok v = true ∧ ∀ t, tree_of v = Some t → nesting t ≤ d.

Lemma portable_tree d v : portable d v → ∃ t, tree_of v = Some t ∧ fits d t ∧ of_json (scrub t) = Some (json_norm v).
Proof. intros [Hok Hd]. destruct (any_round_trips v Hok) as (t & Ht & Hn & Hb). exists t. split_and!; auto. split; auto. Qed.

Lemma portable_nil d : 0 ≤ d → portable d ANil.
Proof. intros Hd. split; [done|]. by intros ? [= <-]. Qed.

Lemma portable_string d s : 0 ≤ d → valid_utf8 s = true → portable d (AString s).
Proof. intros Hd Hs. split; [done|]. by intros ? [= <-]. Qed.

Lemma portable_mono d d' v : d ≤ d' → portable d v → portable d' v.
Proof. intros Hd [Hok Hn]. split; [done|]. intros t Ht. specialize (Hn t Ht). lia. Qed.

Lemma portable_map d m :
  0 ≤ d → map_Forall (λ k v, valid_utf8 k = true ∧ portable d v) m → portable (1 + d) (AMap m).
Proof.
  intros Hd Hm. split.
  - cbn. apply bool_decide_eq_true. intros k b Hb. rewrite lookup_fmap in Hb.
    destruct (m !! k) as [v|] eqn:Hk; [|done]. injection Hb as <-. by destruct (Hm k v Hk) as [-> [-> _]].
  - intros t. cbn. destruct (mapM _ _) as [l|] eqn:Hl; [|done]. intros [= <-]. cbn.
    apply mapM_Some in Hl. assert (Forall (λ kv, nesting kv.2 ≤ d) l) as Hall.
    { apply Forall_forall. intros [k t] Hin. apply list_elem_of_lookup in Hin as [i Hi].
      destruct (Forall2_lookup_r _ _ _ _ _ Hl Hi) as ([k' o] & Hk' & Hlift).
      apply list_elem_of_lookup_2 in Hk'. unfold by_key in Hk'. rewrite merge_sort_Permutation in Hk'.
      apply elem_of_map_to_list in Hk'. rewrite lookup_fmap in Hk'. destruct (m !! k') as [v|] eqn:Hv; [|done].
      injection Hk' as <-. unfold lift_member in Hlift. cbn in Hlift. destruct (tree_of v) as [tv|] eqn:Ht; [|done].
      injection Hlift as <- <-. by apply (Hm k' v Hv). }
    clear Hl. induction Hall as [|kv l Hkv _ IH]; [cbn; lia|]. rewrite max_of_cons. lia.
Qed.

Definition scrub_member (kv : string * json) : string * json := (to_valid kv.1, scrub kv.2).

Lemma scrub_obj l : scrub (JObj l) = JObj (map scrub_member l).
Proof. done. Qed.

Lemma decode_members_app {A} strict (fields : list (@field A)) l l' a :
  decode_members strict fields (l ++ l') a =
  a ← decode_members strict fields l a; decode_members strict fields l' a.
Proof.
  revert a. induction l as [|[k t] l IH]; intros a; [done|]. cbn. destruct (find_field fields k) as [f|].
  - destruct (f t a); cbn; [apply IH|done].
  - destruct strict; [done|apply IH].
Qed.

Lemma decode_omitempty {A} strict (fields : list (@field A)) b n t a f :
  find_field fields n = Some f → to_valid n = n →
  decode_members strict fields (map scrub_member (omitempty b n t)) a =
  if b then Some a else f (scrub t) a.
Proof.
  intros Hf Hn. destruct b; [done|]. cbn. rewrite Hn, Hf. by destruct (f _ a).
Qed.

Lemma decode_member {A} strict (fields : list (@field A)) n t l a f :
  find_field fields n = Some f → to_valid n = n →
  decode_members strict fields (map scrub_member ((n, t) :: l)) a =
  a ← f (scrub t) a; decode_members strict fields (map scrub_member l) a.
Proof. intros Hf Hn. cbn. by rewrite Hn, Hf. Qed.

Lemma decode_fields_app {A} strict (fields : list (@field A)) l l' a :
  decode_members strict fields (map scrub_member (l ++ l')) a =
  a ← decode_members strict fields (map scrub_member l) a; decode_members strict fields (map scrub_member l') a.
Proof. by rewrite map_app, decode_members_app. Qed.

Lemma string_field_scrub {A} (set : string → A → A) s a :
  valid_utf8 s = true → string_field set (scrub (JStr s)) a = Some (set s a).
Proof. intros Hs%valid_utf8_eq. cbn. by rewrite Hs. Qed.

Lemma int_field_scrub {A} (set : Z → A → A) z a :
  in_int64 z = true → int_field set (scrub (JNum (Itoa z))) a = Some (set z a).
Proof. intros Hz. cbn. by rewrite Atoi_Itoa. Qed.

Lemma any_field_scrub {A} (set : any → A → A) t v a :
  of_json (scrub t) = Some v → any_field set (scrub t) a = Some (set v a).
Proof. intros Hv. unfold any_field. by rewrite Hv. Qed.

(** Members with [omitempty], of a field that still has its zero value. *)
Lemma decode_any {A} strict (fields : list (@field A)) n t a set v :
  find_field fields n = Some (any_field set) → to_valid n = n →
  of_json (scrub t) = Some (json_norm v) → set ANil a = a →
  decode_members strict fields (map scrub_member (omitempty (is_nil v) n t)) a = Some (set (json_norm v) a).
Proof.
  intros Hf Hn Hv Ha. erewrite decode_omitempty by done. unfold any_field. rewrite Hv.
  by destruct v; cbn; rewrite ?Ha.
Qed.

Lemma decode_string {A} strict (fields : list (@field A)) n a set s :
  find_field fields n = Some (string_field set) → to_valid n = n →
  valid_utf8 s = true → set "" a = a →
  decode_members strict fields (map scrub_member (omitempty (String.eqb s "") n (JStr s))) a = Some (set s a).
Proof.
  intros Hf Hn Hs Ha. erewrite decode_omitempty by done. rewrite string_field_scrub by done.
  destruct (String.eqb_spec s "") as [->|]; by rewrite ?Ha.
Qed.

Lemma map_field_round_trip {A} (get : A → option (gmap string any)) set d m t a :
  portable d (AMap m) → get a = None → tree_of (AMap m) = Some t →
  map_field get set (scrub t) a = Some (set (Some (json_norm <$> m)) a).
Proof.
  intros Hp Hg Ht. destruct (portable_tree _ _ Hp) as (t' & Ht' & _ & Hb). rewrite Ht in Ht'. injection Ht' as <-.
  cbn [tree_of] in Ht. destruct (mapM _ _) as [l|]; [|done]. injection Ht as <-. rewrite scrub_obj in *.
  cbn [of_json map_field] in *. rewrite Hg. destruct (mapM _ _) as [l'|]; [|done]. injection Hb as Hb. cbn.
  unfold of_members in Hb. by rewrite Hb.
Qed.

Lemma decode_int {A} strict (fields : list (@field A)) n a set z :
  find_field fields n = Some (int_field set) → to_valid n = n →
  in_int64 z = true → set 0 a = a →
  decode_members strict fields (map scrub_member (omitempty (z =? 0) n (JNum (Itoa z)))) a = Some (set z a).
Proof.
  intros Hf Hn Hz Ha. erewrite decode_omitempty by done. rewrite int_field_scrub by done.
  destruct (Z.eqb_spec z 0) as [->|]; by rewrite ?Ha.
Qed.

(** A map as its reader has it: dropped when empty. *)
Definition norm_map (p : option (gmap string any)) : option (gmap string any) :=
  if is_empty_map p then None else (λ p : gmap string any, json_norm <$> p) <$> p.

Lemma map_tree_fits d p : (∀ m, p = Some m → portable d (AMap m)) → 0 ≤ d → ∃ t, map_tree p = Some t ∧ fits d t.
Proof.
  destruct p as [m|]; intros Hp Hd; [|by exists JNull].
  destruct (portable_tree _ _ (Hp m eq_refl)) as (t & Ht & Hf & _). by exists t.
Qed.

Lemma decode_map {A} strict (fields : list (@field A)) n t a get set d p :
  find_field fields n = Some (map_field get set) → to_valid n = n →
  (∀ m, p = Some m → portable d (AMap m)) → map_tree p = Some t → get a = None → set None a = a →
  decode_members strict fields (map scrub_member (omitempty (is_empty_map p) n t)) a = Some (set (norm_map p) a).
Proof.
  intros Hf Hn Hp Ht Hg Ha. erewrite decode_omitempty by done. unfold norm_map.
  assert (is_empty_map None = true) as Hnone by by apply bool_decide_eq_true_2.
  destruct p as [m|]; [|by rewrite Hnone, Ha].
  destruct (is_empty_map (Some m)); [by rewrite Ha|]. erewrite map_field_round_trip; [done|by apply Hp|done..].
Qed.

(** Decode one member after the other; [simp] reduces the fields of the
    record so far. *)
Ltac decode_using simp :=
  repeat first
    [ rewrite decode_fields_app
    | erewrite decode_any by (reflexivity || eassumption)
    | erewrite decode_string by (reflexivity || eassumption)
    | erewrite decode_int by (reflexivity || eassumption)
    | erewrite decode_map by (reflexivity || eassumption)
    | erewrite decode_omitempty by reflexivity
    | erewrite decode_member by reflexivity
    | rewrite string_field_scrub by done
    | rewrite int_field_scrub by done
    | progress change (map scrub_member []) with (@nil (string * json))
    | progress cbn [snd mbind option_bind decode_members]; simp ].
Ltac decode := decode_using idtac.

(** ** Properties *)

(** Writing a value as JSON and reading it back gives the value in the form
    JSON keeps, whatever the keys and the nesting up to the reader's limit:
    ints as floats, [[]string] as [[]any], maps by their keys. *)
Theorem Unmarshal_Marshal a s :
  json_ok a = true → Marshal a = Some s → (∀ t, tree_of a = Some t → nesting t ≤ maxNestingDepth) →
  Unmarshal s = Some (json_norm a).
Proof.
  intros Hok Hs Hd. unfold Marshal in Hs. destruct (tree_of a) as [t|] eqn:Ht; [|done]. injection Hs as <-.
  by apply (Marshal_Unmarshal a t Hok Ht (Hd t eq_refl)).
Qed.
