(* ===== verification/Auth.v ===== *)
(** * Authentication

    [backend/internal/auth/auth.go].  The packages bcrypt, argon2 and jwt are
    not part of the repository: their functions are parameters ([Bcrypt],
    [Argon2], [Jwt]), with the documented behaviour the program relies on as
    laws.  The service is written over the interfaces of the repositories of
    users and agents; it reads and rotates secrets by statements of its own. *)

From S2P Require Import Prelude.
From S2P Require Import GoStrings.
From S2P Require Import GoTime.
From S2P Require Import GoValue.
From S2P Require Import Base64.
From S2P Require Import Uuid.
From S2P Require Import Models.
From S2P Require Import Schema.
From S2P Require Import Invariant.
From S2P Require Import Statements.
From S2P Require Import World.
From S2P Require Import Interfaces.
From S2P Require Import Repositories.
From S2P Require Import RepositorySpecs.

Open Scope string_scope.
Open Scope Z_scope.

(** [golang.org/x/crypto/bcrypt]; the salt is the package's own, so hashing is
    indexed by the action. *)
Class Bcrypt := {
  bcrypt_DefaultCost : Z;
  bcrypt_GenerateFromPassword : nat → string → Z → result goerr string;
  bcrypt_CompareHashAndPassword : string → string → option goerr
}.

(** [golang.org/x/crypto/argon2] *)
Class Argon2 := {
  argon2_Version : Z;
  (** password, salt, time, memory, threads, key length *)
  argon2_IDKey : string → string → Z → Z → Z → Z → string
}.

Class Argon2Laws `{A : Argon2} : Prop := {
  argon2_Version_range : 0 ≤ argon2_Version < 2 ^ 31;
  argon2_IDKey_length p s t m th n : 0 ≤ n → Z.of_nat (String.length (argon2_IDKey p s t m th n)) = n
}.

Record jwtTokenClaims := MkClaims {
  claims_UserID : string;
  claims_Subject : string;
  claims_IssuedAt : Z;
  claims_ExpiresAt : Z
}.

(** [github.com/golang-jwt/jwt/v5].  The key function receives the name of the
    token's signing method. *)
Class Jwt := {
  jwt_NewNumericDate : Z → Z;
  jwt_SignedString : string → jwtTokenClaims → string → result goerr string;
  jwt_ParseWithClaims : (string → result goerr string) → Z → string → result goerr (jwtTokenClaims * bool)
}.

Definition SigningMethodHS256 := "HS256".

Class JwtLaws `{J : Jwt} : Prop := {
  (** a date is kept to the second *)
  jwt_NewNumericDate_second t : jwt_NewNumericDate t = t / Second * Second;
  (** a signed token with dates of whole seconds is accepted under its key
      until it expires *)
  jwt_parse_signed alg c key tok keyfunc now :
    claims_IssuedAt c mod Second = 0 → claims_ExpiresAt c mod Second = 0 →
    jwt_SignedString alg c key = Ok tok → keyfunc alg = Ok key → now < claims_ExpiresAt c →
    jwt_ParseWithClaims keyfunc now tok = Ok (c, true);
  (** the compact form of a token is printable *)
  jwt_printable alg c key tok : jwt_SignedString alg c key = Ok tok → is_graph tok = true ∧ tok ≠ "";
  (** a token is not accepted when the key function refuses its method *)
  jwt_parse_keyfunc keyfunc now tok r :
    jwt_ParseWithClaims keyfunc now tok = Ok r → ∃ alg key, keyfunc alg = Ok key
}.

Module Auth.

(** ** Secrets: encoding of an argon2id hash *)
Section Secrets.
Context {A2 : Argon2}.

Definition timeCost : Z := 3.
Definition memoryCost : Z := 64 * 1024.
Definition parallelism : Z := 2.
Definition hashLen : Z := 32.
Definition saltLen : nat := 16.

Definition encode_argon2 (salt hash : string) : string :=
  "$argon2id$v=" +:+ Itoa argon2_Version +:+ "$m=" +:+ Itoa memoryCost +:+ ",t=" +:+ Itoa timeCost
    +:+ ",p=" +:+ Itoa parallelism +:+ "$" +:+ EncodeToString RawStdEncoding salt
    +:+ "$" +:+ EncodeToString RawStdEncoding hash.

(** [fmt.Sscanf(s, "v=%d", &version)]: white space (but no newline) may
    precede the number, what follows it is ignored. *)
Fixpoint digit_prefix (s : string) : string :=
  match s with
  | "" => ""
  | String a s => if isDigit a then String a (digit_prefix s) else ""
  end.

Definition Sscanf_v (s : string) : option Z :=
  if negb (HasPrefix s "v=") then None else
  let rest := TrimPrefix s "v=" in
  let body := trim_left rest in
  let skipped := String.substring 0 (String.length rest - String.length body) rest in
  if Contains skipped (String "010" "") then None else
  match body with
  | String a t =>
      if byte_is 43 a then Atoi (digit_prefix t)
      else if byte_is 45 a then Atoi (String a (digit_prefix t))
      else Atoi (digit_prefix body)
  | "" => None
  end.

(** [decodeArgon2Hash]: memory, iterations, parallelism, salt, hash. *)
Definition decodeArgon2Hash (encodedHash : string) : result goerr (Z * Z * Z * string * string) :=
  match Split encodedHash "$" with
  | [_; p1; p2; p3; p4; p5] =>
      if negb (String.eqb p1 "argon2id") then Err (NewError "not argon2id hash") else
      match Sscanf_v p2 with
      | None => Err (ExternalError "sscanf")
      | Some version =>
          if negb (version =? argon2_Version) then Err (NewError "incompatible argon2 version") else
          match Split p3 "," with
          | [k0; k1; k2] =>
              match ParseUint (TrimPrefix k0 "m=") 32 with
              | None => Err (ExternalError "strconv")
              | Some m =>
                  match ParseUint (TrimPrefix k1 "t=") 32 with
                  | None => Err (ExternalError "strconv")
                  | Some t =>
                      match ParseUint (TrimPrefix k2 "p=") 8 with
                      | None => Err (ExternalError "strconv")
                      | Some p =>
                          match DecodeString RawStdEncoding p4 with
                          | None => Err (ExternalError "base64")
                          | Some salt =>
                              match DecodeString RawStdEncoding p5 with
                              | None => Err (ExternalError "base64")
                              | Some hash => Ok (m, t, p, salt, hash)
                              end
                          end
                      end
                  end
              end
          | _ => Err (NewError "invalid argon2 params")
          end
      end
  | _ => Err (NewError "invalid argon2 hash format")
  end.

(** [uint32(len(hash))] wraps; [subtle.ConstantTimeCompare] compares. *)
Definition verifySecretArgon2id (encodedHash secret : string) : bool :=
  match decodeArgon2Hash encodedHash with
  | Err _ => false
  | Ok (memory, iterations, par, salt, hash) =>
      let otherHash := argon2_IDKey secret salt iterations memory par
                         (Z.of_nat (String.length hash) mod 2 ^ 32) in
      String.eqb hash otherHash
  end.
End Secrets.

Section SecretLaws.
Context {A2 : Argon2} {A2L : Argon2Laws}.

Lemma digit_prefix_digits s : str_forallb isDigit s = true → digit_prefix s = s.
Proof.
  induction s as [|a s IH]; [done|]. cbn. intros [Ha Hs]%andb_true_iff. by rewrite Ha, IH.
Qed.

Lemma Sscanf_v_Itoa z : 0 ≤ z < 2 ^ 31 → Sscanf_v ("v=" +:+ Itoa z) = Some z.
Proof.
  intros Hz. unfold Sscanf_v.
  rewrite HasPrefix_app, TrimPrefix_app. cbn [negb]. cbv zeta.
  pose proof (Itoa_digits z ltac:(lia)) as Hd. pose proof (Itoa_nonempty z) as Hne.
  pose proof (trim_left_digits (Itoa z) "" Hd Hne) as Ht. rewrite string_app_nil_r in Ht.
  rewrite Ht, Nat.sub_diag.
  replace (Contains (String.substring 0 0 (Itoa z)) (String "010" "")) with false
    by (by destruct (Itoa z)).
  pose proof (Atoi_Itoa z) as Hat. destruct (Itoa z) as [|a t] eqn:E; [done|].
  assert (isDigit a = true) as Ha by (cbn in Hd; by apply andb_true_iff in Hd as [? _]).
  replace (byte_is 43 a) with false by (unfold isDigit, byte_in, byte_is in *; lia).
  replace (byte_is 45 a) with false by (unfold isDigit, byte_in, byte_is in *; lia).
  rewrite digit_prefix_digits by done. apply Hat. unfold in_int64, int64_min, int64_max. lia.
Qed.

Lemma b64_no_byte c al s :
  b64_ascii c = false → str_forallb (λ a, negb (Ascii.eqb a c)) (EncodeToString al s) = true.
Proof.
  intros Hc. pose proof (EncodeToString_ascii al s) as Hs. revert Hs. apply str_forallb_impl.
  intros a Ha. destruct (Ascii.eqb_spec a c) as [->|_]; [congruence|done].
Qed.

(** The six fields of an encoded hash. *)
Lemma Split_encode_argon2 salt hash :
  Split (encode_argon2 salt hash) "$" =
    [""; "argon2id"; "v=" +:+ Itoa argon2_Version; "m=65536,t=3,p=2";
     EncodeToString RawStdEncoding salt; EncodeToString RawStdEncoding hash].
Proof.
  pose proof argon2_Version_range as Hv.
  assert (encode_argon2 salt hash =
    "" +:+ String "$" ("argon2id" +:+ String "$" (("v=" +:+ Itoa argon2_Version) +:+ String "$"
      ("m=65536,t=3,p=2" +:+ String "$" (EncodeToString RawStdEncoding salt +:+ String "$"
        (EncodeToString RawStdEncoding hash)))))) as ->.
  { unfold encode_argon2. rewrite <-string_app_assoc. reflexivity. }
  rewrite !Split_app_sep; try done.
  - rewrite Split_no_sep by by apply b64_no_byte. done.
  - by apply b64_no_byte.
  - rewrite str_forallb_app, Itoa_no_byte by (done || lia). done.
Qed.

Lemma decode_encode_argon2 salt hash :
  decodeArgon2Hash (encode_argon2 salt hash) = Ok (memoryCost, timeCost, parallelism, salt, hash).
Proof.
  unfold decodeArgon2Hash. rewrite Split_encode_argon2, Sscanf_v_Itoa by apply argon2_Version_range.
  rewrite Z.eqb_refl. cbn [negb]. change (negb (String.eqb "argon2id" "argon2id")) with false. cbv iota.
  change (Split "m=65536,t=3,p=2" ",") with ["m=65536"; "t=3"; "p=2"]. cbv iota.
  change (ParseUint (TrimPrefix "m=65536" "m=") 32) with (Some memoryCost).
  change (ParseUint (TrimPrefix "t=3" "t=") 32) with (Some timeCost).
  change (ParseUint (TrimPrefix "p=2" "p=") 8) with (Some parallelism). cbv iota.
  by rewrite !Decode_Encode.
Qed.

(** The stored form of an API secret is read back exactly: decoding an
    encoded argon2id hash gives the parameters it was made with, the salt
    and the hash, for every salt and every hash. *)
Theorem decodeArgon2Hash_encode salt hash :
  decodeArgon2Hash (encode_argon2 salt hash) = Ok (memoryCost, timeCost, parallelism, salt, hash).
Proof. apply decode_encode_argon2. Qed.

Lemma verifySecretArgon2id_key secret salt secret' :
  verifySecretArgon2id (encode_argon2 salt (argon2_IDKey secret salt timeCost memoryCost parallelism hashLen))
    secret' = true ↔
  argon2_IDKey secret' salt timeCost memoryCost parallelism hashLen =
  argon2_IDKey secret salt timeCost memoryCost parallelism hashLen.
Proof.
  unfold verifySecretArgon2id. rewrite decode_encode_argon2.
  rewrite argon2_IDKey_length by done. change (hashLen mod 2 ^ 32) with hashLen.
  rewrite String.eqb_eq. split; congruence.
Qed.

(** Verification: a secret is accepted against a stored hash exactly when
    it derives the same key with the stored salt; in particular the secret
    the hash was made from is. *)
Theorem verifySecretArgon2id_spec secret salt secret' :
  let key s := argon2_IDKey s salt timeCost memoryCost parallelism hashLen in
  verifySecretArgon2id (encode_argon2 salt (key secret)) secret' = true ↔ key secret' = key secret.
Proof.
  intros key. apply verifySecretArgon2id_key.
Qed.
End SecretLaws.

(** ** The service *)
Section Service.
Context {U : UuidPkg} {C : Citext} {E : Env} {UT : UnicodeTables}.
Context {B : Bcrypt} {A2 : Argon2} {J : Jwt}.
Context {Users : UserRepository.UserRepository} {Agents : AgentRepository.AgentRepository}.

(** [db]: the database is there ([s != nil && s.db != nil]); [emailSender]:
    a sender is configured.  A nil service is [MkService false "" 0 false 0]. *)
Record Service := MkService {
  db : bool;
  jwtSecret : string;
  hashCost : Z;
  emailSender : bool;
  verificationTTL : Z
}.

Definition jwtDefaultTTL : Z := Hour.

Definition NewService (db : bool) (jwtSecret : string) (emailSender : bool) (verificationTTL : Z) : Service :=
  let ttl := if verificationTTL =? 0 then 24 * Hour else verificationTTL in
  MkService db jwtSecret bcrypt_DefaultCost emailSender ttl.

Definition blank (s : string) : bool := String.eqb (TrimSpace s) "".
Definition is_empty (s : string) : bool := String.eqb s "".

Definition generateVerificationToken : prog (result goerr string) :=
  let? b := rand_Read 32 in
  Ret (Ok (hex_EncodeToString b)).

Definition generateSecret (n : nat) : prog (result goerr string) :=
  let? b := rand_Read n in
  Ret (Ok (EncodeToString RawURLEncoding b)).

Definition hashSecretArgon2id (secret : string) : prog (result goerr string) :=
  if is_empty secret then Ret (Err (NewError "secret is empty")) else
  let? salt := rand_Read saltLen in
  let hash := argon2_IDKey secret salt timeCost memoryCost parallelism hashLen in
  Ret (Ok (encode_argon2 salt hash)).

Definition bcrypt_hash (password : string) (cost : Z) : prog (result goerr string) :=
  act (λ n w, (bcrypt_GenerateFromPassword n password cost, w)).

Definition quote : string := String "034" "".

Definition verification_email (to token : string) : Email :=
  let verifyURL := "https://app.bobberchat.io/verify?token=" +:+ token in
  MkEmail to "Verify your BobberChat email"
    ("Verify your email by visiting: " +:+ verifyURL)
    ("<p>Verify your email by visiting: <a href=" +:+ quote +:+ verifyURL +:+ quote +:+ ">"
       +:+ verifyURL +:+ "</a></p>").

(** A refusal of the mail gateway is only logged. *)
Definition send_verification (s : Service) (to token : string) : prog unit :=
  if emailSender s then
    let! err := SendEmail (verification_email to token) in
    Ret tt
  else Ret tt.

Definition new_user (email hash : string) : User :=
  MkUser uuid_Nil email hash zero_time false None None.
Definition new_agent (owner : uuid) (name hash : string) : Agent :=
  MkAgent uuid_Nil name owner hash zero_time.

Definition RegisterUser (s : Service) (emailAddr password : string) : prog (result goerr User) :=
  if negb (db s) || blank emailAddr || is_empty password then Ret (Err ErrInvalidInput) else
  let! hashed := bcrypt_hash password (hashCost s) in
  match hashed with
  | Err e => Ret (Err (WrapError "hash password" e))
  | Ok hash =>
      let? created := UserRepository.Create (new_user (ToLower (TrimSpace emailAddr)) hash) in
      let! token := generateVerificationToken in
      match token with
      | Err e => Ret (Err (WrapError "generate verification token" e))
      | Ok token =>
          let! now := time_Now in
          let expiresAt := now + verificationTTL s in
          let? _ := UserRepository.SetVerificationToken (user_ID created) token expiresAt in
          let! _ := send_verification s (user_Email created) token in
          Ret (Ok created)
      end
  end.

(** The errors of this query are not mapped to [ErrNotFound]. *)
Definition getUserByEmail (s : Service) (email : string) : prog (result goerr User) :=
  if negb (db s) then Ret (Err ErrInvalidInput) else
  SelectRow (λ _ d, total (select_latest_user_by_email (ToLower (TrimSpace email)) d)).

Definition login_claims (u : User) (now : Z) : jwtTokenClaims :=
  MkClaims (uuid_String (user_ID u)) ("user:" +:+ uuid_String (user_ID u))
    (jwt_NewNumericDate now) (jwt_NewNumericDate (now + jwtDefaultTTL)).

Definition LoginUser (s : Service) (email password : string) : prog (result goerr (string * User)) :=
  if negb (db s) || blank email || is_empty password then Ret (Err ErrInvalidInput) else
  let? u := getUserByEmail s email in
  match bcrypt_CompareHashAndPassword (user_PasswordHash u) password with
  | Some _ => Ret (Err (NewError "invalid credentials"))
  | None =>
      if negb (user_EmailVerified u) then Ret (Err (NewError "email not verified")) else
      let! now := time_Now in
      match jwt_SignedString SigningMethodHS256 (login_claims u now) (jwtSecret s) with
      | Err e => Ret (Err (WrapError "sign token" e))
      | Ok signed => Ret (Ok (signed, u))
      end
  end.

Definition VerifyEmail (s : Service) (token : string) : prog (result goerr User) :=
  if negb (db s) || blank token then Ret (Err ErrInvalidInput) else
  UserRepository.VerifyEmail (TrimSpace token).

Definition ResendVerification (s : Service) (emailAddr : string) : prog (result goerr unit) :=
  if negb (db s) || blank emailAddr then Ret (Err ErrInvalidInput) else
  let? u := UserRepository.GetByEmail emailAddr in
  if user_EmailVerified u then Ret (Err (NewError "email already verified")) else
  let! token := generateVerificationToken in
  match token with
  | Err e => Ret (Err (WrapError "generate verification token" e))
  | Ok token =>
      let! now := time_Now in
      let expiresAt := now + verificationTTL s in
      let? _ := UserRepository.SetVerificationToken (user_ID u) token expiresAt in
      let! _ := send_verification s (user_Email u) token in
      Ret (Ok tt)
  end.

(** The key function of [ValidateJWT]. *)
Definition keyfunc (s : Service) (alg : string) : result goerr string :=
  if String.eqb alg SigningMethodHS256 then Ok (jwtSecret s)
  else Err (NewError ("unexpected signing method: " +:+ alg)).

Definition ValidateJWT (s : Service) (tokenStr : string) : prog (result goerr string) :=
  if is_empty (jwtSecret s) then Ret (Err (NewError "auth service not configured")) else
  let! now := time_Now in
  match jwt_ParseWithClaims (keyfunc s) now tokenStr with
  | Err e => Ret (Err e)
  | Ok (claims, valid) =>
      if negb valid then Ret (Err (NewError "invalid token claims"))
      else Ret (Ok (claims_UserID claims))
  end.

Definition CreateAgent (s : Service) (ownerUserID displayName : string) : prog (result goerr (Agent * string)) :=
  if negb (db s) || is_empty ownerUserID || is_empty displayName then Ret (Err ErrInvalidInput) else
  match uuid_Parse ownerUserID with
  | Err e => Ret (Err e)
  | Ok ownerID =>
      let? secret := generateSecret 32 in
      let? hash := hashSecretArgon2id secret in
      let? created := AgentRepository.Create (new_agent ownerID displayName hash) in
      Ret (Ok (created, secret))
  end.

Definition getAgentByID (agentID : string) : prog (result goerr Agent) :=
  match uuid_Parse agentID with
  | Err e => Ret (Err e)
  | Ok id => SelectRow (λ _ d, total (select_agent id d))
  end.

Definition ValidateAPISecret (s : Service) (agentID secret : string) : prog (result goerr Agent) :=
  if negb (db s) || is_empty agentID || is_empty secret then Ret (Err ErrInvalidInput) else
  let? agent := getAgentByID agentID in
  if verifySecretArgon2id (agent_APISecretHash agent) secret then Ret (Ok agent)
  else Ret (Err (NewError "invalid api secret")).

(** The number of rows the update affects is not looked at. *)
Definition RotateSecret (s : Service) (agentID : string) : prog (result goerr string) :=
  if negb (db s) || is_empty agentID then Ret (Err ErrInvalidInput) else
  let? a := getAgentByID agentID in
  let? secret := generateSecret 32 in
  let? newHash := hashSecretArgon2id secret in
  let? _ := Exec (λ _ d, total (update_agent_secret (agent_ID a) newHash d)) in
  Ret (Ok secret).

(** ** Specifications *)
Context {UsersLaws : UserRepository.Laws} {AgentsLaws : AgentRepository.Laws}.

Lemma rand_Read_behaves n : behaves (rand_Read n).
Proof. intros w. by apply spec_act_pure. Qed.

Lemma generateVerificationToken_behaves : behaves generateVerificationToken.
Proof.
  apply behaves_bind; [apply rand_Read_behaves|]. intros [b|e]; apply behaves_ret.
Qed.

Lemma generateSecret_behaves n : behaves (generateSecret n).
Proof. apply behaves_bind; [apply rand_Read_behaves|]. intros [b|e]; apply behaves_ret. Qed.

Lemma hashSecret_behaves secret : behaves (hashSecretArgon2id secret).
Proof.
  unfold hashSecretArgon2id. destruct (is_empty secret); [apply behaves_ret|].
  apply behaves_bind; [apply rand_Read_behaves|]. intros [b|e]; apply behaves_ret.
Qed.

Lemma send_verification_behaves s to token : behaves (send_verification s to token).
Proof.
  unfold send_verification. destruct (emailSender s); [|apply behaves_ret].
  apply behaves_bind; [|intros; apply behaves_ret].
  intros w. apply spec_act_pure; [|done]. intros n w'. by destruct (env_mail n).
Qed.

Lemma time_Now_behaves : behaves time_Now.
Proof. intros w. apply spec_time_Now. Qed.

Lemma set_token_behaves id t e : behaves (UserRepository.SetVerificationToken id t e).
Proof. apply UserRepository.SetVerificationToken_spec. Qed.

(** The user a registration created is in the database, unverified at that
    moment, under the normalized address. *)
Lemma RegisterUser_spec s email password w :
  spec (RegisterUser s email password) w (on_ok (λ u w',
    user_Email u = ToLower (TrimSpace (ToLower (TrimSpace email))) ∧ user_EmailVerified u = false ∧
    ∃ u', users (w_db w') !! user_ID u = Some u' ∧ user_le u u')).
Proof.
  unfold RegisterUser. refuse.
  eapply spec_bind; [by apply (spec_act_pure _ _ any_result)|]. intros [hash|e] w1 _ _; [|by apply spec_ret].
  eapply spec_try; [apply UserRepository.Create_spec|]. cbn. intros u w2 _ (Hu & He & Hh & Hv).
  eapply spec_bind; [apply generateVerificationToken_behaves|]. intros [token|e] w3 Hle3 _; [|by apply spec_ret].
  eapply spec_bind; [apply time_Now_behaves|]. intros now w4 Hle4 _. cbv zeta.
  eapply spec_try_any; [apply set_token_behaves|]. intros _ w5 Hle5.
  eapply spec_bind; [apply send_verification_behaves|]. intros _ w6 Hle6 _. apply spec_ret. cbn.
  split; [done|]. split; [done|].
  assert (world_le w2 w6) as Hle by (do 3 (etransitivity; [done|]); done).
  by apply (le_users _ _ Hle).
Qed.

Lemma select_latest_user_spec email d u :
  db_inv d → select_latest_user_by_email email d = Some u →
  users d !! user_ID u = Some u ∧ has_email email u = true.
Proof.
  intros Hd Hs. unfold select_latest_user_by_email in Hs.
  assert (u ∈ order_desc user_CreatedAt (where_ (has_email email) (users d))) as Hin.
  { destruct (order_desc _ _) as [|x l]; [done|]. injection Hs as ->. apply list_elem_of_here. }
  unfold order_desc in Hin. rewrite merge_sort_Permutation in Hin.
  apply elem_of_where in Hin as [He [k Hk]].
  pose proof (users_key _ (inv_users _ Hd) k u Hk) as E0. simpl in E0. by subst.
Qed.

Lemma LoginUser_spec s email password w :
  spec (LoginUser s email password) w (on_ok (λ tu w', let '(tok, u) := tu in
    has_email (ToLower (TrimSpace email)) u = true ∧
    bcrypt_CompareHashAndPassword (user_PasswordHash u) password = None ∧
    user_EmailVerified u = true ∧
    (∃ u', users (w_db w') !! user_ID u = Some u' ∧ user_le u u' ∧ user_EmailVerified u' = true) ∧
    ∃ now, jwt_SignedString SigningMethodHS256 (login_claims u now) (jwtSecret s) = Ok tok)).
Proof.
  unfold LoginUser, getUserByEmail. destruct (negb (db s)); [by apply spec_ret|]. cbn [orb]. refuse.
  eapply spec_try.
  { apply (spec_SelectRow _ _ (λ u d, users d !! user_ID u = Some u ∧
      has_email (ToLower (TrimSpace email)) u = true)).
    intros _ d u Hd _ [= Hs]. by apply select_latest_user_spec. }
  intros u w1 Hle1 [Hu He].
  destruct (bcrypt_CompareHashAndPassword _ _) eqn:Hb; [by apply spec_ret|].
  destruct (user_EmailVerified u) eqn:Hv; [|by apply spec_ret]. cbn [negb].
  eapply spec_bind; [apply time_Now_behaves|]. intros now w2 Hle2 _.
  destruct (jwt_SignedString _ _ _) as [tok|e] eqn:Hj; [|by apply spec_ret].
  apply spec_ret. cbn. split; [done|]. split; [done|]. split; [done|]. split; [|by exists now].
  destruct (le_users _ _ Hle2 _ _ Hu) as (u' & Hu' & Hle'). exists u'.
  split; [done|]. split; [done|]. by apply Hle'.
Qed.

(** Who can log in: a successful login, under any interference and any
    faults, is by an existing user with that address (compared without
    case), whose stored hash matches the password and whose address has been
    verified; the token returned is signed with the service's key by HS256
    over this user's identifier. *)
Theorem LoginUser_sound s email password w :
  spec (LoginUser s email password) w (on_ok (λ tu w', let '(tok, u) := tu in
    has_email (ToLower (TrimSpace email)) u = true ∧
    bcrypt_CompareHashAndPassword (user_PasswordHash u) password = None ∧
    user_EmailVerified u = true ∧
    (∃ u', users (w_db w') !! user_ID u = Some u' ∧ user_le u u' ∧ user_EmailVerified u' = true) ∧
    ∃ now, jwt_SignedString SigningMethodHS256 (login_claims u now) (jwtSecret s) = Ok tok)).
Proof. apply LoginUser_spec. Qed.

Lemma VerifyEmail_spec s token w :
  spec (VerifyEmail s token) w (on_ok (λ u w', users (w_db w') !! user_ID u = Some u ∧
    user_EmailVerified u = true ∧ user_VerificationToken u = None)).
Proof.
  unfold VerifyEmail. refuse. apply UserRepository.VerifyEmail_spec.
Qed.

Lemma ResendVerification_behaves s email : behaves (ResendVerification s email).
Proof.
  unfold ResendVerification. destruct (_ || _); [apply behaves_ret|].
  apply behaves_bind; [intros w; eapply spec_any, UserRepository.GetByEmail_spec|].
  intros [u|e]; [|apply behaves_ret]. destruct (user_EmailVerified u); [apply behaves_ret|].
  apply behaves_bind; [apply generateVerificationToken_behaves|]. intros [t|e]; [|apply behaves_ret].
  apply behaves_bind; [apply time_Now_behaves|]. intros now. cbv zeta.
  apply behaves_bind; [apply set_token_behaves|]. intros [_|e]; [|apply behaves_ret].
  apply behaves_bind; [apply send_verification_behaves|]. intros _. apply behaves_ret.
Qed.

Lemma ValidateJWT_behaves s tok : behaves (ValidateJWT s tok).
Proof.
  unfold ValidateJWT. destruct (is_empty _); [apply behaves_ret|].
  apply behaves_bind; [apply time_Now_behaves|]. intros now.
  destruct (jwt_ParseWithClaims _ _ _) as [[c v]|e]; [|apply behaves_ret].
  destruct (negb v); apply behaves_ret.
Qed.

Lemma getAgentByID_spec id w :
  spec (getAgentByID id) w (on_ok (λ a w', uuid_Parse id = Ok (agent_ID a) ∧
    agents (w_db w') !! agent_ID a = Some a)).
Proof.
  unfold getAgentByID. parse i Hi.
  apply (spec_SelectRow _ _ (λ a d, Ok i = Ok (agent_ID a) ∧ agents d !! agent_ID a = Some a)).
  intros _ d a Hd _ [= Hs]. unfold select_agent in Hs.
  pose proof (agents_key _ _ (inv_agents _ Hd) i a Hs) as E0. simpl in E0. by subst.
Qed.

Lemma ValidateAPISecret_spec s id secret w :
  spec (ValidateAPISecret s id secret) w (on_ok (λ a w',
    uuid_Parse id = Ok (agent_ID a) ∧ agents (w_db w') !! agent_ID a = Some a ∧
    verifySecretArgon2id (agent_APISecretHash a) secret = true)).
Proof.
  unfold ValidateAPISecret. refuse.
  eapply spec_bind; [apply getAgentByID_spec|]. intros [a|e] w1 _ Ha; [|by apply spec_ret].
  destruct (verifySecretArgon2id _ _) eqn:Hv; apply spec_ret; [|done]. cbn in *. tauto.
Qed.

(** Who can act as an agent: the credentials are accepted only for an
    agent that exists, under the identifier given, and whose stored hash
    verifies the secret. *)
Theorem ValidateAPISecret_sound s id secret w :
  spec (ValidateAPISecret s id secret) w (on_ok (λ a w',
    uuid_Parse id = Ok (agent_ID a) ∧ agents (w_db w') !! agent_ID a = Some a ∧
    verifySecretArgon2id (agent_APISecretHash a) secret = true)).
Proof. apply ValidateAPISecret_spec. Qed.

Lemma CreateAgent_spec s owner name w :
  spec (CreateAgent s owner name) w (on_ok (λ r w', let '(a, secret) := r in
    agents (w_db w') !! agent_ID a = Some a ∧ uuid_Parse owner = Ok (agent_OwnerUserID a) ∧
    agent_DisplayName a = name)).
Proof.
  unfold CreateAgent. refuse.
  parse o Hown.
  eapply spec_try_any; [apply generateSecret_behaves|]. intros secret w1 _.
  eapply spec_try_any; [apply hashSecret_behaves|]. intros hash w2 _.
  eapply spec_try; [apply AgentRepository.Create_spec|]. cbn. intros a w3 _ (Ha & Ho & Hn & _).
  apply spec_ret. cbn. by rewrite Ho.
Qed.

Lemma RotateSecret_behaves s id : behaves (RotateSecret s id).
Proof.
  unfold RotateSecret. destruct (_ || _); [apply behaves_ret|].
  apply behaves_bind; [intros w; eapply spec_any, getAgentByID_spec|]. intros [a|e]; [|apply behaves_ret].
  apply behaves_bind; [apply generateSecret_behaves|]. intros [secret|e]; [|apply behaves_ret].
  apply behaves_bind; [apply hashSecret_behaves|]. intros [hash|e]; [|apply behaves_ret].
  apply behaves_bind; [|intros [n|e]; apply behaves_ret].
  intros w. eapply spec_any, (spec_Exec _ _ (λ _, True)). intros _ d n d' Hd _ [= H].
  split; [|done]. by eapply update_agent_secret_ok.
Qed.
End Service.

(** ** One client at a time *)
Section Runs.
Context {U : UuidPkg} {L : UuidLaws} {C : Citext} {E : Env} {UT : UnicodeTables}.
Context {B : Bcrypt} {A2 : Argon2} {A2L : Argon2Laws} {J : Jwt} {JL : JwtLaws}.

Lemma LoginUser_token s email password w tok u w' :
  run (LoginUser s email password) w = (Ok (tok, u), w') →
  jwt_SignedString SigningMethodHS256 (login_claims u (env_now (S (w_steps w)))) (jwtSecret s) = Ok tok.
Proof.
  unfold LoginUser, getUserByEmail. destruct (negb (db s)); [done|].
  destruct (blank email); [done|]. destruct (is_empty password); [done|]. cbn [orb].
  rewrite run_bind. destruct (run (SelectRow _) w) as [r w1] eqn:E1.
  apply run_SelectRow_cases in E1 as (Hs & _ & _).
  destruct r as [u1|e]; [|done]. destruct (bcrypt_CompareHashAndPassword _ _); [done|].
  destruct (negb _); [done|]. rewrite run_bind, run_time_Now, Hs.
  destruct (jwt_SignedString _ _ _) as [t|e] eqn:Hj; [|done]. by intros [= <- <- _].
Qed.

Lemma login_claims_whole u now :
  claims_IssuedAt (login_claims u now) mod Second = 0 ∧ claims_ExpiresAt (login_claims u now) mod Second = 0.
Proof. cbn. rewrite !jwt_NewNumericDate_second. split; by apply Z.mod_mul. Qed.

(** The token a login returns is accepted, as its user, from then until
    the end of the hour: [ValidateJWT] answers with the identifier of the
    user who logged in. *)
Theorem LoginUser_ValidateJWT s email password w tok u w' w2 :
  jwtSecret s ≠ "" →
  run (LoginUser s email password) w = (Ok (tok, u), w') →
  env_now (w_steps w2) < (env_now (S (w_steps w)) + Hour) / Second * Second →
  run (ValidateJWT s tok) w2 = (Ok (uuid_String (user_ID u)), tick w2).
Proof.
  intros Hsec Hrun Hnow. apply LoginUser_token in Hrun. unfold ValidateJWT, is_empty.
  rewrite (proj2 (String.eqb_neq (jwtSecret s) "")) by done.
  rewrite run_bind, run_time_Now. 
  destruct (login_claims_whole u (env_now (S (w_steps w)))) as [Hi He].
  rewrite (jwt_parse_signed _ _ _ _ (keyfunc s) (env_now (w_steps w2)) Hi He Hrun); [done|reflexivity|].
  cbn. by rewrite jwt_NewNumericDate_second.
Qed.

(** *** Registration *)
Definition unverified (u : User) (w : World) : Prop :=
  ∃ u', users (w_db w) !! user_ID u = Some u' ∧ user_EmailVerified u' = false.

Lemma unverified_db u w w' : w_db w' = w_db w → unverified u w → unverified u w'.
Proof. unfold unverified. by intros ->. Qed.

Lemma alone_rand n w Q : (∀ r w', w_db w' = w_db w → Q r w') → alone (rand_Read n) w Q.
Proof. intros HQ. apply alone_pure; [done|]. auto. Qed.

Lemma alone_Users_Create email hash w (Q : result goerr User → World → Prop) :
  (∀ u w', unverified u w' → Q (Ok u) w') → (∀ e w', Q (Err e) w') →
  alone (UserRepository.Create (new_user email hash)) w Q.
Proof.
  intros Hok Herr. change UserRepository.Create with Users.Create. unfold Users.Create, new_user. cbn [user_ID user_CreatedAt].
  unfold fresh_ID, fresh_time. rewrite bool_decide_eq_true_2 by done. change (IsZero zero_time) with true.
  cbv iota. apply alone_bind, alone_pure; [done|]. intros id w1 _ _.
  apply alone_bind, alone_pure; [done|]. intros now w2 _ _. cbv zeta.
  apply alone_bind. unfold alone at 1. destruct (run (QueryRow _) w2) as [r w3] eqn:E3.
  apply run_QueryRow_cases in E3 as (_ & Hc). apply alone_ret. cbn.
  destruct Hc as [([e ->] & _)|(a & Hf & [(x & -> & ->)|[e ->]])]; cbn; [by apply Herr| |by apply Herr].
  destruct (insert_user _ (w_db w2)) as [[u d]|e] eqn:Hi; [|done]. injection Hf as -> Hd.
  apply Hok. unfold insert_user in Hi. cbv zeta in Hi.
  apply check_require in Hi as [_ Hi]. apply check_require in Hi as [_ Hi]. injection Hi as Hx Hu.
  exists x. rewrite <-Hd, <-Hu, <-Hx. cbn. by rewrite lookup_insert_eq.
Qed.

Lemma alone_SetVerificationToken u t e w (Q : result goerr unit → World → Prop) :
  unverified u w → (∀ r w', unverified u w' → Q r w') →
  alone (UserRepository.SetVerificationToken (user_ID u) t e) w Q.
Proof.
  intros (u' & Hu & Hv) HQ. change UserRepository.SetVerificationToken with Users.SetVerificationToken. unfold Users.SetVerificationToken, Exec. apply alone_bind.
  unfold alone at 1. destruct (run _ w) as [r w1] eqn:E1.
  apply run_exec_cases in E1 as (_ & Hc). apply alone_ret, HQ. cbn.
  destruct Hc as [(_ & Hdb)|(n & Hf & _)]; [apply (unverified_db u w); [done|by exists u']|].
  unfold total in Hf. injection Hf as Hf. unfold update_user_token in Hf. rewrite Hu in Hf.
  injection Hf as _ Hdb. exists (with_token t e u'). rewrite <-Hdb. cbn. by rewrite lookup_insert_eq.
Qed.

Lemma alone_RegisterUser s email password w :
  alone (RegisterUser s email password) w (λ r w', match r with Ok u => unverified u w' | Err _ => True end).
Proof.
  unfold RegisterUser. destruct (_ || _); [done|].
  apply alone_bind, alone_pure; [done|]. intros [hash|e] w1 _ _; [|done].
  apply alone_bind, alone_Users_Create; [|done]. intros u w2 Hu.
  apply alone_bind. unfold generateVerificationToken.
  apply alone_bind, alone_rand. intros [b|e] w3 Hdb3; apply alone_ret; [|done].
  apply alone_bind, alone_pure; [done|]. intros now w4 Hdb4 _. cbv zeta.
  apply alone_bind, alone_SetVerificationToken; [apply (unverified_db u w2); [congruence|done]|].
  intros [[]|e] w5 Hu5; [|done]. apply alone_bind. unfold send_verification.
  destruct (emailSender s); [|done]. apply alone_bind, alone_pure.
  - intros n w'. by destruct (env_mail n).
  - intros r w6 Hdb6 _. apply alone_ret, alone_ret. by apply (unverified_db u w5).
Qed.

(** Registering is not enough: right after a successful registration,
    nobody can log in as the new user, with whatever address and password,
    whatever faults the connection has. *)
Theorem RegisterUser_no_login s email password w u w1 s' email' password' tok u2 w2 :
  world_inv w →
  run (RegisterUser s email password) w = (Ok u, w1) →
  run (LoginUser s' email' password') w1 = (Ok (tok, u2), w2) →
  user_ID u2 ≠ user_ID u.
Proof.
  intros Hi Hreg Hlog Heq.
  pose proof (alone_RegisterUser s email password w) as Hun. unfold alone in Hun. rewrite Hreg in Hun.
  destruct Hun as (u1 & Hu1 & Hv1).
  assert (world_inv w1) as Hi1.
  { pose proof (wp_run _ _ w Hi (RegisterUser_spec s email password w Hi)) as (_ & Hi1 & _). by rewrite Hreg in Hi1. }
  unfold LoginUser, getUserByEmail in Hlog. destruct (negb (db s')); [done|].
  destruct (blank email'); [done|]. destruct (is_empty password'); [done|]. cbn [orb] in Hlog.
  rewrite run_bind in Hlog. destruct (run (SelectRow _) w1) as [r w3] eqn:E3.
  apply run_SelectRow_cases in E3 as (_ & Hdb & [[e ->]|(x & Hx & ->)]); [done|].
  injection Hx as Hx. apply select_latest_user_spec in Hx as [Hx _]; [|done].
  destruct (bcrypt_CompareHashAndPassword _ _); [done|].
  destruct (user_EmailVerified x) eqn:Hv; [|done]. cbn [negb] in Hlog.
  rewrite run_bind, run_time_Now in Hlog. destruct (jwt_SignedString _ _ _); [|done].
  injection Hlog as _ <- _. cbn in Hu1. rewrite <-Heq in Hu1. congruence.
Qed.

(** *** API secrets *)

(** The agent [id] has a hash made from [secret]. *)
Definition has_secret (id : uuid) (secret : string) (w : World) : Prop :=
  ∃ a salt, agents (w_db w) !! id = Some a ∧ agent_ID a = id ∧ secret ≠ "" ∧
    agent_APISecretHash a =
      encode_argon2 salt (argon2_IDKey secret salt timeCost memoryCost parallelism hashLen).

Lemma alone_generateSecret n w (Q : result goerr string → World → Prop) :
  (∀ r w', w_db w' = w_db w → Q r w') → alone (generateSecret n) w Q.
Proof.
  intros HQ. apply alone_bind, alone_rand. intros [b|e] w1 Hdb; apply alone_ret, HQ; done.
Qed.

Lemma alone_hashSecret secret w (Q : result goerr string → World → Prop) :
  (∀ salt w', secret ≠ "" → w_db w' = w_db w →
     Q (Ok (encode_argon2 salt (argon2_IDKey secret salt timeCost memoryCost parallelism hashLen))) w') →
  (∀ e w', Q (Err e) w') → alone (hashSecretArgon2id secret) w Q.
Proof.
  intros Hok Herr. unfold hashSecretArgon2id, is_empty.
  destruct (String.eqb_spec secret "") as [->|Hne]; [apply alone_ret, Herr|].
  apply alone_bind, alone_rand. intros [salt|e] w1 Hdb; apply alone_ret; [by apply Hok|apply Herr].
Qed.

(** Validation of an agent's secret, on a connection without faults. *)
Lemma run_ValidateAPISecret s id i secret w :
  db s = true → id ≠ "" → secret ≠ "" → uuid_Parse id = Ok i → env_fault (w_steps w) = NoFault →
  run (ValidateAPISecret s id secret) w =
    (match agents (w_db w) !! i with
     | Some a => if verifySecretArgon2id (agent_APISecretHash a) secret then Ok a
                 else Err (NewError "invalid api secret")
     | None => Err ErrNoRows
     end, tick w).
Proof.
  intros Hdb Hid Hs Hp Hft. unfold ValidateAPISecret, is_empty.
  rewrite Hdb, (proj2 (String.eqb_neq id "")), (proj2 (String.eqb_neq secret "")) by done. cbn [negb orb].
  unfold getAgentByID. rewrite Hp, run_bind, run_SelectRow by done. unfold total, select_agent.
  destruct (agents (w_db w) !! i) as [a|]; [|done]. by destruct (verifySecretArgon2id _ _).
Qed.

Lemma validates_secret s id i secret w :
  db s = true → id ≠ "" → uuid_Parse id = Ok i → env_fault (w_steps w) = NoFault →
  has_secret i secret w →
  ∃ salt, ∀ secret', secret' ≠ "" → is_ok (run (ValidateAPISecret s id secret') w).1 = true ↔
    argon2_IDKey secret' salt timeCost memoryCost parallelism hashLen =
    argon2_IDKey secret salt timeCost memoryCost parallelism hashLen.
Proof.
  intros Hdb Hid Hp Hft (a & salt & Ha & _ & _ & Hh). exists salt. intros secret' Hs.
  rewrite (run_ValidateAPISecret s id i) by done. rewrite Ha. cbn [fst]. rewrite Hh.
  pose proof (verifySecretArgon2id_key secret salt secret') as Hv.
  destruct (verifySecretArgon2id _ _); cbn; rewrite <-Hv; done.
Qed.

Lemma alone_CreateAgent s owner name w :
  alone (CreateAgent s owner name) w (λ r w', match r with
    | Ok (a, secret) => db s = true ∧ has_secret (agent_ID a) secret w'
    | Err _ => True end).
Proof.
  unfold CreateAgent. destruct (db s); [|done]. cbn [negb]. destruct (_ || _); [done|].
  destruct (uuid_Parse owner) as [o|e]; [|done].
  apply alone_bind, alone_generateSecret. intros [secret|e] w1 _; [|done].
  apply alone_bind, alone_hashSecret; [|done]. intros salt w2 Hne _.
  apply alone_bind. change AgentRepository.Create with Agents.Create. unfold Agents.Create, new_agent. cbn [agent_ID agent_CreatedAt].
  unfold fresh_ID, fresh_time. rewrite bool_decide_eq_true_2 by done. change (IsZero zero_time) with true.
  cbv iota. apply alone_bind, alone_pure; [done|]. intros id w3 _ _.
  apply alone_bind, alone_pure; [done|]. intros now w4 _ _. cbv zeta.
  apply alone_bind. unfold alone at 1. destruct (run (QueryRow _) w4) as [r w5] eqn:E5.
  apply run_QueryRow_cases in E5 as (_ & Hc). apply alone_ret. cbn.
  destruct Hc as [([e ->] & _)|(a & Hf & [(x & -> & ->)|[e ->]])]; cbn [scanAgent scan];
    [by destruct (errors_Is e ErrNoRows)| |by destruct (errors_Is e ErrNoRows)].
  destruct (insert_agent _ (w_db w4)) as [[u d]|e] eqn:Hi; [|done]. injection Hf as -> Hd.
  unfold insert_agent in Hi. cbv zeta in Hi.
  apply check_require in Hi as [_ Hi]. apply check_require in Hi as [_ Hi]. injection Hi as Hx Hu.
  apply alone_ret. split; [done|]. exists x, salt. rewrite <-Hd, <-Hu, <-Hx. cbn. by rewrite lookup_insert_eq.
Qed.

(** C10 The secret handed out is the agent's: after [CreateAgent] has
    returned an agent and its secret, presenting the agent's identifier with
    a secret is accepted exactly when it derives the same key as the one
    handed out; so the one handed out is accepted. *)
Theorem CreateAgent_ValidateAPISecret s owner name w a secret w1 :
  run (CreateAgent s owner name) w = (Ok (a, secret), w1) →
  env_fault (w_steps w1) = NoFault →
  ∃ salt, ∀ secret', secret' ≠ "" → is_ok (run (ValidateAPISecret s (uuid_String (agent_ID a)) secret') w1).1 = true ↔
    argon2_IDKey secret' salt timeCost memoryCost parallelism hashLen =
    argon2_IDKey secret salt timeCost memoryCost parallelism hashLen.
Proof.
  intros Hrun Hft. pose proof (alone_CreateAgent s owner name w) as Ha. unfold alone in Ha.
  rewrite Hrun in Ha. destruct Ha as [Hdb Hs]. cbn in Hs.
  eapply validates_secret; try done; [apply String_nonempty|apply Parse_String].
Qed.

Lemma alone_RotateSecret s id w :
  world_inv w →
  alone (RotateSecret s id) w (λ r w', match r with
    | Ok secret => db s = true ∧ id ≠ "" ∧ ∃ i, uuid_Parse id = Ok i ∧ has_secret i secret w'
    | Err _ => True end).
Proof.
  intros Hi. unfold RotateSecret, is_empty. destruct (db s); [|done]. cbn [negb orb].
  destruct (String.eqb_spec id "") as [|Hid]; [done|].
  unfold getAgentByID. apply alone_bind. destruct (uuid_Parse id) as [i|e]; [|done].
  unfold alone at 1. destruct (run (SelectRow _) w) as [r w1] eqn:E1.
  apply run_SelectRow_cases in E1 as (_ & Hdb1 & [[e ->]|(a & Ha & ->)]); [done|]. cbn [fst snd].
  injection Ha as Ha. unfold select_agent in Ha.
  pose proof (agents_key _ _ (inv_agents _ Hi) i a Ha) as Hk. simpl in Hk.
  apply alone_bind, alone_generateSecret. intros [secret|e] w2 Hdb2; [|done].
  apply alone_bind, alone_hashSecret; [|done]. intros salt w3 Hne Hdb3.
  apply alone_bind. unfold alone at 1. destruct (run (Exec _) w3) as [r w4] eqn:E4.
  apply run_exec_cases in E4 as (_ & Hc). cbn [fst snd].
  destruct Hc as [([e ->] & _)|(n & Hf & [->|[e ->]])]; [done| |done].
  unfold total in Hf. injection Hf as Hf. unfold update_agent_secret in Hf.
  rewrite Hdb3, Hdb2, Hdb1, Hk, Ha in Hf. injection Hf as _ Hd.
  apply alone_ret. split; [done|]. split; [done|]. exists i. split; [done|].
  exists (with_secret (encode_argon2 salt (argon2_IDKey secret salt timeCost memoryCost parallelism hashLen)) a), salt.
  rewrite <-Hd. cbn. by rewrite lookup_insert_eq.
Qed.

(** C11 Rotation replaces the secret: after [RotateSecret] has returned a new
    secret, a secret is accepted for that agent exactly when it derives the
    same key as the new one; the old one is accepted no longer (short of a
    collision of argon2). *)
Theorem RotateSecret_replaces s id w secret w1 :
  world_inv w → run (RotateSecret s id) w = (Ok secret, w1) →
  env_fault (w_steps w1) = NoFault →
  ∃ salt, ∀ secret', secret' ≠ "" → is_ok (run (ValidateAPISecret s id secret') w1).1 = true ↔
    argon2_IDKey secret' salt timeCost memoryCost parallelism hashLen =
    argon2_IDKey secret salt timeCost memoryCost parallelism hashLen.
Proof.
  intros Hi Hrun Hft. pose proof (alone_RotateSecret s id w Hi) as Ha. unfold alone in Ha.
  rewrite Hrun in Ha. destruct Ha as (Hdb & Hid & i & Hp & Hs). by eapply validates_secret.
Qed.
End Runs.
End Auth.
