(* ===== verification/AdapterBase.v ===== *)
(** * Protocol adapters: the common part

    [backend/internal/adapter/adapter.go]: what the server expects of an
    adapter ([Adapter], a record of operations with its law), and the steps
    the [Ingest] of the three adapters share: the addressing of the envelope,
    its fresh identifier and time, the adapter metadata and the last
    validation. *)

From S2P Require Import Prelude.
From S2P Require Import GoStrings.
From S2P Require Import Protocol.
From S2P Require Import GoTime.
From S2P Require Import GoValue.
From S2P Require Import Envelope.
From S2P Require Import Uuid.
From S2P Require Import Schema.
From S2P Require Import Invariant.
From S2P Require Import World.
From S2P Require Import JsonString.
From S2P Require Import Json.
From S2P Require Import JsonValue.

Open Scope string_scope.
Open Scope Z_scope.

(** ** Go's conversion of a [float64] to an [int]

    The value rounded to zero; for the values out of range it is
    implementation-defined, but an [int] all the same. *)
Class FloatConversion := {
  float_to_int_overflow : float64 → Z;
  overflow_int64 f : in_int64 (float_to_int_overflow f) = true
}.

Definition truncate (f : float64) : option Z :=
  match f with
  | S754_zero _ => Some 0
  | S754_finite s m e => let z := Z.shiftl (Zpos m) e in Some (if s then - z else z)
  | _ => None
  end.

Definition float_to_int `{FloatConversion} (f : float64) : Z :=
  match truncate f with
  | Some z => if in_int64 z then z else float_to_int_overflow f
  | None => float_to_int_overflow f
  end.

Lemma float_to_int_range `{FloatConversion} f : in_int64 (float_to_int f) = true.
Proof. unfold float_to_int. repeat case_match; try done; apply overflow_int64. Qed.

(** Of Go's numeric types only [int] and [float64] occur in metadata. *)
Definition parseErrorCode `{FloatConversion} (raw : any) : result goerr Z :=
  match raw with
  | AInt v => Ok v
  | AFloat v => Ok (float_to_int v)
  | AString v =>
      match Atoi v with
      | Some code => Ok code
      | None => Err (WrapError "response.error payload.code must be numeric" (ExternalError "strconv.Atoi"))
      end
  | _ => Err (NewError "response.error payload.code must be numeric")
  end.

(** The code an error tells, by the kind of the value that tells it: a number
    as it is, a float without its fraction, a decimal text as the number it
    writes; nothing else is a code. *)
Inductive code_value `{FloatConversion} : any → Z → Prop :=
| code_of_int z : code_value (AInt z) z
| code_of_float f : code_value (AFloat f) (float_to_int f)
| code_of_text s z : Atoi s = Some z → code_value (AString s) z.

Lemma parseErrorCode_value `{FloatConversion} raw code : parseErrorCode raw = Ok code ↔ code_value raw code.
Proof.
  split.
  - destruct raw; cbn [parseErrorCode]; try done.
    + intros Hc. apply (inj Ok) in Hc as <-. constructor.
    + intros Hc. apply (inj Ok) in Hc as <-. constructor.
    + destruct (Atoi s) eqn:Ha; [|done]. intros Hc. apply (inj Ok) in Hc as <-. by constructor.
  - destruct 1 as [| |s z Ha]; [done..|]. cbn [parseErrorCode]. by rewrite Ha.
Qed.

Lemma parseErrorCode_range `{FloatConversion} raw code : json_ok raw = true → parseErrorCode raw = Ok code → in_int64 code = true.
Proof.
  destruct raw; cbn [json_ok parseErrorCode]; intros Hok; try done.
  - intros [= <-]. by apply andb_true_iff in Hok as [? _].
  - intros [= <-]. apply float_to_int_range.
  - destruct (Atoi s) as [c|] eqn:Ha; [|done]. intros [= <-]. by eapply Atoi_range.
Qed.

(** What a call ends with. *)
Inductive outcome (A : Type) : Type :=
| Return (a : A)
| Panic (msg : string).
Arguments Return {A} a.
Arguments Panic {A} msg.

(** ** Metadata *)

(** The request a reply answers, when it has a name. *)
Definition with_request_id (sourceID : string) (env : Envelope) : Envelope :=
  if negb (String.eqb sourceID "") then SetSystemMeta env MetaSysRequestID (AString sourceID) else env.

Lemma is_nil_cases v : v = ANil ∧ is_nil v = true ∨ v ≠ ANil ∧ is_nil v = false.
Proof. destruct v; auto. Qed.

Lemma with_request_id_meta sourceID env k :
  k ≠ MetaSysRequestID → SystemMeta (Some (with_request_id sourceID env)) k = SystemMeta (Some env) k.
Proof.
  intros Hk. unfold with_request_id. destruct (negb _); [|done]. rewrite SystemMeta_set. by rewrite decide_False.
Qed.

Lemma with_request_id_set sourceID env : sourceID ≠ "" →
  SystemMeta (Some (with_request_id sourceID env)) MetaSysRequestID = Some (AString sourceID).
Proof.
  intros Hs. unfold with_request_id. destruct (String.eqb_spec sourceID ""); [done|]. cbn [negb].
  rewrite SystemMeta_set. by rewrite decide_True.
Qed.

Lemma SystemMeta_eq env md k : Metadata env = Some md → SystemMeta (Some env) k = md !! k.
Proof. intros Hmd. unfold SystemMeta. cbn. by rewrite Hmd. Qed.

Lemma SystemMetaString_Some env k s : SystemMetaString env k = s → s ≠ "" → SystemMeta env k = Some (AString s).
Proof. unfold SystemMetaString. destruct (SystemMeta env k) as [[]|]; naive_solver. Qed.

(** The text a metadata key holds, unless it holds none or a blank one: then
    whatever [other] tells. *)
Inductive named (env : Envelope) (key : string) (other : string → Prop) : string → Prop :=
| named_here s : SystemMeta (Some env) key = Some (AString s) → TrimSpace s ≠ "" → named env key other s
| named_elsewhere s : (∀ t, SystemMeta (Some env) key = Some (AString t) → TrimSpace t = "") → other s →
    named env key other s.

Lemma named_string env key (other : string → Prop) s :
  (TrimSpace (SystemMetaString (Some env) key) ≠ "" → s = SystemMetaString (Some env) key) →
  (TrimSpace (SystemMetaString (Some env) key) = "" → other s) → named env key other s.
Proof.
  intros H1 H2. destruct (decide (TrimSpace (SystemMetaString (Some env) key) = "")) as [Hb|Hb].
  - apply named_elsewhere; [|by apply H2]. intros t Ht. unfold SystemMetaString in Hb. by rewrite Ht in Hb.
  - rewrite (H1 Hb). apply named_here; [|done]. apply SystemMetaString_Some; [done|]. intros E. by rewrite E in Hb.
Qed.

(** The metadata JSON can carry to the other side. *)
Definition sendable (env : Envelope) : Prop :=
  valid_utf8 (ID env) = true ∧ ∀ k v, SystemMeta (Some env) k = Some v → portable 9997 v.

Lemma portable_member v : portable 9997 v → portable 9999 v.
Proof. by apply portable_mono. Qed.

(** The last step of [Ingest], read back. *)
Definition stamp (name version sourceID protocol : string) (env : Envelope) : Envelope :=
  SetAdapterMetadata env name version DirectionInbound sourceID protocol.

Lemma SystemMeta_stamp name version sourceID protocol env k : k ≠ MetaKeyAdapter →
  SystemMeta (Some (stamp name version sourceID protocol env)) k = SystemMeta (Some env) k.
Proof. intros Hk. unfold stamp, SetAdapterMetadata. rewrite SystemMeta_set. by rewrite decide_False. Qed.

Lemma EffectiveTag_stamp name version sourceID protocol env tag :
  Tag env = "" → SystemMeta (Some env) MetaSysTag = Some (AString tag) →
  EffectiveTag (Some (stamp name version sourceID protocol env)) = TrimSpace tag.
Proof.
  intros Ht Hm. rewrite <-(SystemMeta_stamp name version sourceID protocol) in Hm by done.
  unfold EffectiveTag, SystemMeta in *. cbn -[TrimSpace] in *. rewrite Ht.
  change (String.eqb (TrimSpace "") "") with true. cbv match. cbn in *. by rewrite Hm.
Qed.

(** Read the metadata of the stamped envelope back. *)
Ltac stamped :=
  rewrite SystemMeta_stamp by done;
  repeat first [rewrite with_request_id_meta by done
               | rewrite SystemMeta_set; first [rewrite decide_True by done | rewrite decide_False by done]].

Section AdapterBase.
Context {U : UuidPkg} {C : Citext} {E : Env}.

(** [uuid.NewString()] *)
Definition uuid_NewString : prog string := let! u := uuid_New in Ret (uuid_String u).

(** [time.Now().UTC().Format(time.RFC3339)] *)
Definition now_RFC3339 : prog string := let! t := time_Now in Ret (Format t).

(** ** The contract *)
Record TransportMeta := MkMeta {
  meta_ConnectionID : string;
  meta_SourceAddr : string;
  meta_AgentID : string;
  meta_Headers : gmap string string
}.

(** ** The steps of [Ingest] *)
Definition source (name : string) (meta : TransportMeta) : string :=
  let from := TrimSpace (meta_AgentID meta) in
  if String.eqb from "" then
    let connectionID := TrimSpace (meta_ConnectionID meta) in
    name +:+ ":" +:+ (if String.eqb connectionID "" then "unknown" else connectionID)
  else from.

Definition target (meta : TransportMeta) : string :=
  let to := TrimSpace (default "" (meta_Headers meta !! "X-Target-Agent")) in
  if String.eqb to "" then "broadcast" else to.

Definition new_envelope (name : string) (meta : TransportMeta) : prog Envelope :=
  let! id := uuid_NewString in
  let! now := now_RFC3339 in
  Ret (MkEnvelope id (source name meta) (target meta) "" "" (Some ∅) now).

Definition with_content (env : Envelope) (content : string) : Envelope :=
  MkEnvelope (ID env) (From env) (To env) (Tag env) content (Metadata env) (Timestamp env).

Definition finish (name version sourceID protocol : string) (env : Envelope) : result goerr Envelope :=
  let env := SetAdapterMetadata env name version DirectionInbound sourceID protocol in
  match Validate (Some env) with
  | Some e => Err (WrapError "ingested envelope invalid" e)
  | None => Ok env
  end.

(** ** What the users of an adapter rely on *)

(** The envelope of a message that came in through an adapter. *)
Record ingested (name protocol : string) (meta : TransportMeta) (env : Envelope) : Prop := {
  ig_valid : Validate (Some env) = None;
  ig_id : ∃ u, ID env = uuid_String u;
  ig_from : From env = source name meta;
  ig_to : To env = target meta;
  ig_tag : Tag env = "";
  ig_metadata : ∃ version sourceID, SystemMeta (Some env) MetaKeyAdapter =
    Some (AMap (list_to_map
      [(MetaKeyAdapterName, AString name); (MetaKeyAdapterVersion, AString version);
       (MetaKeyDirection, AString DirectionInbound); (MetaKeySourceID, AString sourceID);
       (MetaKeySourceProtocol, AString protocol)]))
}.

(** The interface with its law.  [Emit] returns the envelope too, which it may
    change. *)
Record Adapter := MkAdapter {
  adapter_Name : string;
  adapter_Protocol : string;
  adapter_Validate : string → option goerr;
  Ingest : string → TransportMeta → prog (result goerr Envelope);
  Emit : option Envelope → outcome (result goerr string) * option Envelope;
  Ingest_spec : ∀ raw meta w, spec (Ingest raw meta) w (on_ok (λ env _,
    ingested adapter_Name adapter_Protocol meta env))
}.

(** ** Lemmas *)
Lemma uuid_NewString_spec w : spec uuid_NewString w (λ s _, ∃ u, s = uuid_String u).
Proof. eapply spec_bind; [apply spec_uuid_New|]. intros u w1 _ _. apply spec_ret. by exists u. Qed.

Lemma uuid_NewString_behaves : behaves uuid_NewString.
Proof. intros w. eapply spec_any, uuid_NewString_spec. Qed.

Lemma now_RFC3339_behaves : behaves now_RFC3339.
Proof. apply behaves_bind; [intros w; apply spec_time_Now|]. intros u. apply behaves_ret. Qed.

Lemma Ingest_behaves adp raw meta : behaves (Ingest adp raw meta).
Proof. intros w. eapply spec_any, Ingest_spec. Qed.

(** The envelope before it is stamped. *)
Definition drafted (name : string) (meta : TransportMeta) (timestamp : string) (env : Envelope) : Prop :=
  (∃ u, ID env = uuid_String u) ∧ From env = source name meta ∧ To env = target meta ∧ Tag env = "" ∧
  Timestamp env = timestamp.

Lemma new_envelope_spec name meta w :
  spec (new_envelope name meta) w (λ env _, drafted name meta (Timestamp env) env).
Proof.
  eapply spec_bind; [apply uuid_NewString_spec|]. intros id w1 _ Hid.
  eapply spec_bind; [apply now_RFC3339_behaves|]. intros now w2 _ _. by apply spec_ret.
Qed.

Lemma run_new_envelope name meta w :
  ∃ env, run (new_envelope name meta) w = (env, tick (tick w)) ∧
    drafted name meta (Format (env_now (S (w_steps w)))) env ∧ Content env = "" ∧ Metadata env = Some ∅.
Proof. eexists. split; [reflexivity|]. split; [|done]. split; [by eexists|done]. Qed.

Lemma drafted_SetSystemMeta name meta ts env k v :
  drafted name meta ts env → drafted name meta ts (SetSystemMeta env k v).
Proof. done. Qed.

Lemma finish_ingested name version sourceID protocol meta ts env env' :
  drafted name meta ts env → finish name version sourceID protocol env = Ok env' →
  ingested name protocol meta env'.
Proof.
  intros (Hid & Hf & Ht & Htag & _). unfold finish. cbv zeta. destruct (Validate _) eqn:Hv; [done|].
  intros [= <-]. split; try done. exists version, sourceID. unfold SetAdapterMetadata.
  rewrite SystemMeta_set. by rewrite decide_True.
Qed.

Lemma source_not_blank name meta a r :
  name = String a r → graph_char a = true → TrimSpace (source name meta) ≠ "".
Proof.
  intros -> Ha. unfold source. cbv zeta. set (from := TrimSpace (meta_AgentID meta)).
  destruct (String.eqb_spec from "") as [_|Hf]; [by apply TrimSpace_graph_head|].
  unfold from in *. by rewrite TrimSpace_idem.
Qed.

Lemma target_not_blank meta : TrimSpace (target meta) ≠ "".
Proof.
  unfold target. cbv zeta. set (to := TrimSpace (default "" _)).
  destruct (String.eqb_spec to "") as [_|Hto]; [by apply TrimSpace_graph_head|].
  unfold to in *. by rewrite TrimSpace_idem.
Qed.

(** The last validation never refuses: what [Ingest] has built passes it. *)
Lemma finish_total `{!UuidLaws} name version sourceID protocol meta env t a r tag :
  drafted name meta (Format t) env → four_digit_year t → name = String a r → graph_char a = true →
  SystemMeta (Some env) MetaSysTag = Some (AString tag) → Tags.IsValidTag (TrimSpace tag) = true →
  finish name version sourceID protocol env =
    Ok (stamp name version sourceID protocol env).
Proof.
  intros ((u & Hid) & Hf & Hto & Htag & Hts) Ht Hn Ha Hm Hv. unfold finish. cbv zeta.
  assert (Validate (Some (SetAdapterMetadata env name version DirectionInbound sourceID protocol)) = None)
    as ->; [|done].
  apply Validate_iff. split; cbn [ID From To Timestamp SetAdapterMetadata SetSystemMeta with_metadata].
  - rewrite Hid, TrimSpace_uuid. apply String_nonempty.
  - rewrite Hf. by eapply source_not_blank.
  - rewrite Hto. apply target_not_blank.
  - apply Tags.IsValidTag_iff. cbn. rewrite Htag. cbn.
    rewrite lookup_insert_ne by done. unfold SystemMeta in Hm.
    simpl in Hm. destruct (Metadata env) as [md|]; [|done]. simpl in *. by rewrite Hm.
  - rewrite Hts, Parse_Format by done. by eexists.
Qed.
End AdapterBase.
