(* ===== verification/Mcp.v ===== *)
(** * The MCP adapter: JSON-RPC 2.0

    [backend/internal/adapter/mcp/mcp.go].  [raw []byte] is a string;
    [json.Unmarshal] and [json.Marshal] are those of JsonValue, on the struct
    [jsonRPCMessage] by its fields.  A JSON [null] and an absent member are
    both [ANil] in a field of type [any]. *)

From S2P Require Import Prelude.
From S2P Require Import GoStrings.
From S2P Require Import Protocol.
From S2P Require Import GoTime.
From S2P Require Import GoValue.
From S2P Require Import Envelope.
From S2P Require Import Uuid.
From S2P Require Import Schema.
From S2P Require Import Invariant.
From S2P Require Import World.
From S2P Require Import JsonString.
From S2P Require Import Json.
From S2P Require Import FloatText.
From S2P Require Import JsonValue.
From S2P Require Import AdapterBase.

Open Scope string_scope.
Open Scope Z_scope.

Module Mcp.

Definition Name := "mcp".
Definition version := "1.0.0".
Definition ProtocolName := "json-rpc".

Record jsonRPCError := MkError { Code : Z; Message : string; Data : any }.

Record jsonRPCMessage := MkMessage {
  JSONRPC : string;
  Id : any;
  Method : string;
  Params : option (gmap string any);
  Result : any;
  Error : option jsonRPCError
}.

(** ** The struct as JSON *)
Definition zero_error := MkError 0 "" ANil.
Definition zero_message := MkMessage "" ANil "" None ANil None.

Definition error_fields : list (@field jsonRPCError) :=
  [("code", int_field (λ v e, MkError v (Message e) (Data e)));
   ("message", string_field (λ v e, MkError (Code e) v (Data e)));
   ("data", any_field (λ v e, MkError (Code e) (Message e) v))].

(** A pointer: [null] makes it nil; an object goes into what is there, or into
    a new struct. *)
Definition error_field (t : json) (m : jsonRPCMessage) : option jsonRPCMessage :=
  let set e := MkMessage (JSONRPC m) (Id m) (Method m) (Params m) (Result m) e in
  match t with
  | JNull => Some (set None)
  | _ => e ← decode_struct false error_fields t (default zero_error (Error m)); Some (set (Some e))
  end.

Definition message_fields : list (@field jsonRPCMessage) :=
  [("jsonrpc", string_field (λ v m, MkMessage v (Id m) (Method m) (Params m) (Result m) (Error m)));
   ("id", any_field (λ v m, MkMessage (JSONRPC m) v (Method m) (Params m) (Result m) (Error m)));
   ("method", string_field (λ v m, MkMessage (JSONRPC m) (Id m) v (Params m) (Result m) (Error m)));
   ("params", map_field Params (λ v m, MkMessage (JSONRPC m) (Id m) (Method m) v (Result m) (Error m)));
   ("result", any_field (λ v m, MkMessage (JSONRPC m) (Id m) (Method m) (Params m) v (Error m)));
   ("error", error_field)].

(** [var msg jsonRPCMessage; json.Unmarshal(raw, &msg)] *)
Definition of_tree (t : json) : option jsonRPCMessage := decode_struct false message_fields t zero_message.
Definition unmarshal (raw : string) : option jsonRPCMessage := parse raw ≫= of_tree.

Definition error_tree (e : jsonRPCError) : option json :=
  data ← tree_of (Data e);
  Some (JObj ([("code", JNum (Itoa (Code e))); ("message", JStr (Message e))]
              ++ omitempty (is_nil (Data e)) "data" data)%list).

Definition error_member (e : option jsonRPCError) : option (list (string * json)) :=
  match e with None => Some [] | Some e => t ← error_tree e; Some [("error", t)] end.

Definition message_tree (m : jsonRPCMessage) : option json :=
  id ← tree_of (Id m);
  params ← map_tree (Params m);
  result ← tree_of (Result m);
  err ← error_member (Error m);
  Some (JObj ([("jsonrpc", JStr (JSONRPC m))]
              ++ omitempty (is_nil (Id m)) "id" id
              ++ omitempty (String.eqb (Method m) "") "method" (JStr (Method m))
              ++ omitempty (is_empty_map (Params m)) "params" params
              ++ omitempty (is_nil (Result m)) "result" result
              ++ err)%list).

(** ** Helpers *)
Definition sourceIDFromJSONRPCID `{FloatConversion} (id : any) : string :=
  match id with
  | ANil => ""
  | AString v => v
  | AFloat v =>
      if SFeqb v (f64_of_Z (float_to_int v)) then Itoa (float_to_int v) else FormatFloat_f v
  | v => Sprint v
  end.

Definition buildNotificationSummary (method : string) (params : option (gmap string any)) : string :=
  let method := TrimSpace method in
  if is_empty_map params then method
  else match Marshal (AMap (default ∅ params)) with
       | None => method
       | Some b => method +:+ " " +:+ b
       end.

Definition requestIDForEmit (env : Envelope) : any :=
  match SystemMeta (Some env) MetaSysRequestID with
  | Some requestID => if is_nil requestID then AString (ID env) else requestID
  | None => AString (ID env)
  end.

Definition Validate (raw : string) : option goerr :=
  if String.eqb raw "" then Some (NewError "raw message is empty") else
  match unmarshal raw with
  | None => Some (WrapError "invalid json" (ExternalError "json"))
  | Some msg =>
      if String.eqb (TrimSpace (JSONRPC msg)) "" then Some (NewError "jsonrpc field is required")
      else if negb (String.eqb (JSONRPC msg) "2.0") then
        Some (NewError ("invalid jsonrpc version: " +:+ JSONRPC msg))
      else if String.eqb (TrimSpace (Method msg)) "" && is_nil (Result msg) &&
              (match Error msg with None => true | Some _ => false end) then Some (NewError "json-rpc message must include method, result, or error")
      else None
  end.

(** ** The message, written and read back *)

(** Texts in UTF-8, values that JSON keeps, no data in the error. *)
Record message_ok (m : jsonRPCMessage) : Prop := {
  ok_jsonrpc : valid_utf8 (JSONRPC m) = true;
  ok_id : portable 9999 (Id m);
  ok_method : valid_utf8 (Method m) = true;
  ok_params : ∀ p, Params m = Some p → portable 9999 (AMap p);
  ok_result : portable 9999 (Result m);
  ok_error : ∀ e, Error m = Some e → in_int64 (Code e) = true ∧ valid_utf8 (Message e) = true ∧ Data e = ANil
}.

(** The message as its reader has it. *)
Definition norm_message (m : jsonRPCMessage) : jsonRPCMessage :=
  MkMessage (JSONRPC m) (json_norm (Id m)) (Method m) (norm_map (Params m)) (json_norm (Result m)) (Error m).

Lemma error_round_trip e :
  in_int64 (Code e) = true → valid_utf8 (Message e) = true → Data e = ANil →
  ∃ l, error_tree e = Some (JObj l) ∧ fits 9999 (JObj l) ∧
    decode_struct false error_fields (scrub (JObj l)) zero_error = Some e.
Proof.
  destruct e as [c msg d]. cbn [Code Message Data]. intros Hc Hm ->. eexists. split; [done|]. split.
  - apply (fits_obj 9998); [done|]. constructor; [by apply fits_int|]. by constructor.
  - rewrite scrub_obj. cbn [decode_struct Code Message Data is_nil omitempty app]. by decode.
Qed.

Lemma error_member_ok m e :
  (∀ x, e = Some x → in_int64 (Code x) = true ∧ valid_utf8 (Message x) = true ∧ Data x = ANil) →
  Error m = None → ∃ l, error_member e = Some l ∧ Forall (λ kv, fits 9999 kv.2) l ∧
    decode_members false message_fields (map scrub_member l) m =
      Some (MkMessage (JSONRPC m) (Id m) (Method m) (Params m) (Result m) e).
Proof.
  intros He Hm. destruct e as [e|].
  2:{ exists []. split; [done|]. split; [constructor|]. destruct m. cbn in *. by subst. }
  destruct (He _ eq_refl) as (H1 & H2 & H3). destruct (error_round_trip e H1 H2 H3) as (l & Hl & Hf & Hd).
  exists [("error", JObj l)]. unfold error_member. rewrite Hl. split; [done|]. split; [by apply Forall_singleton|].
  decode. unfold error_field. rewrite Hm, scrub_obj in *. cbn [default]. unfold default, id. by rewrite Hd.
Qed.

Lemma mcp_message_round_trip m : message_ok m →
  ∃ t, message_tree m = Some t ∧ unmarshal (print t) = Some (norm_message m).
Proof.
  intros [Hj Hi Hm Hp Hr He].
  destruct (portable_tree _ _ Hi) as (ti & Hti & Hfi & Hbi).
  destruct (portable_tree _ _ Hr) as (tr & Htr & Hfr & Hbr).
  destruct (map_tree_fits _ _ Hp) as (tp & Htp & Hfp); [done|].
  destruct (error_member_ok (MkMessage (JSONRPC m) (json_norm (Id m)) (Method m) (norm_map (Params m))
    (json_norm (Result m)) None) _ He eq_refl) as (le & Hle & Hfe & Hde).
  unfold message_tree. rewrite Hti, Htp, Htr, Hle. eexists. split; [reflexivity|].
  unfold unmarshal. rewrite fits_parse.
  2:{ apply (fits_obj 9999); [done|]. repeat (apply Forall_app; split); try apply fits_omitempty; try done.
      by apply Forall_singleton. }
  cbn [mbind option_bind]. unfold of_tree. rewrite scrub_obj. cbn [decode_struct].
  decode. exact Hde.
Qed.

(** ** Ingest *)
Section Ingest.
Context {FC : FloatConversion}.

(** The [switch] of [Ingest]. *)
Definition ingest_message (msg : jsonRPCMessage) (sourceID : string) (env : Envelope) : result goerr Envelope :=
  match Error msg with
  | Some e =>
      if is_nil (Id msg) then Err (NewError "json-rpc error message missing id") else
      let env := SetSystemMeta env MetaSysTag (AString Tags.TagResponseError) in
      let env := SetSystemMeta env MetaSysCode (AString (Itoa (Code e))) in
      let env := SetSystemMeta env MetaSysMessage (AString (Message e)) in
      Ok (with_request_id sourceID env)
  | None =>
  if negb (is_nil (Result msg)) then
      if is_nil (Id msg) then Err (NewError "json-rpc result message missing id") else
      let env := SetSystemMeta env MetaSysTag (AString Tags.TagResponseSuccess) in
      Ok (SetSystemMeta (with_request_id sourceID env) MetaSysResult (Result msg))
  else if negb (String.eqb (TrimSpace (Method msg)) "") && is_nil (Id msg) then
      let env := SetSystemMeta env MetaSysTag (AString Tags.TagContextProvide) in
      Ok (with_content env (buildNotificationSummary (Method msg) (Params msg)))
  else if String.eqb (Method msg) "tools/call" && negb (is_nil (Id msg)) then
      let env := SetSystemMeta env MetaSysTag (AString Tags.TagRequestAction) in
      match default ∅ (Params msg) !! "name" with
      | None => Err (NewError "tools/call params.name is required")
      | Some nameRaw =>
          match nameRaw with
          | AString action =>
              if String.eqb (TrimSpace action) "" then
                Err (NewError "tools/call params.name must be a non-empty string") else
              let env := SetSystemMeta env MetaSysAction (AString action) in
              Ok (SetSystemMeta env MetaSysArgs
                    (match default ∅ (Params msg) !! "arguments" with
                     | Some args => args
                     | None => AMap ∅
                     end))
          | _ => Err (NewError "tools/call params.name must be a non-empty string")
          end
      end
  else Err (NewError "unsupported mcp message shape")
  end.

Context {U : UuidPkg} {C : Citext} {E : Env}.

Definition Ingest (raw : string) (meta : TransportMeta) : prog (result goerr Envelope) :=
  match Validate raw with
  | Some e => Ret (Err e)
  | None =>
      match unmarshal raw with
      | None => Ret (Err (WrapError "unmarshal json-rpc message" (ExternalError "json")))
      | Some msg =>
          let sourceID := sourceIDFromJSONRPCID (Id msg) in
          let! env := new_envelope Name meta in
          Ret (env <-? ingest_message msg sourceID env ;;
               finish Name version sourceID ProtocolName env)
      end
  end.

(** ** Emit *)

(** The message of an envelope. *)
Definition emit_message (env : Envelope) : result goerr jsonRPCMessage :=
  let tag := EffectiveTag (Some env) in
  if String.eqb tag Tags.TagRequestAction then
    let action := SystemMetaString (Some env) MetaSysAction in
    if String.eqb (TrimSpace action) "" then Err (NewError "request.action metadata.action is required") else
    let args := match SystemMeta (Some env) MetaSysArgs with Some args => args | None => AMap ∅ end in
    Ok (MkMessage "2.0" (requestIDForEmit env) "tools/call"
          (Some (<["arguments" := args]> {[ "name" := AString action ]})) ANil None)
  else if String.eqb tag Tags.TagResponseSuccess then
    match SystemMeta (Some env) MetaSysResult with
    | Some result => Ok (MkMessage "2.0" (requestIDForEmit env) "" None result None)
    | None => Err (NewError "response.success metadata.result is required")
    end
  else if String.eqb tag Tags.TagResponseError then
    match SystemMeta (Some env) MetaSysCode with
    | None => Err (NewError "response.error metadata.code is required")
    | Some codeRaw =>
        code <-? parseErrorCode codeRaw ;;
        let message := SystemMetaString (Some env) MetaSysMessage in
        if String.eqb (TrimSpace message) "" then
          Err (NewError "response.error metadata.message must be a non-empty string") else
        Ok (MkMessage "2.0" (requestIDForEmit env) "" None ANil (Some (MkError code message ANil)))
    end
  else Err (NewError ("unsupported envelope tag for mcp emit: " +:+ tag)).

Definition Emit (env : option Envelope) : result goerr string :=
  match env with
  | None => Err (NewError "envelope is nil")
  | Some env =>
      msg <-? emit_message env ;;
      match message_tree msg with
      | None => Err (WrapError "marshal json-rpc message" (ExternalError "json"))
      | Some t => Ok (print t)
      end
  end.

(** ** Lemmas *)

Definition ingest_tags : list string :=
  [Tags.TagResponseError; Tags.TagResponseSuccess; Tags.TagContextProvide; Tags.TagRequestAction].

Lemma ingest_tags_valid tag : tag ∈ ingest_tags → Tags.IsValidTag (TrimSpace tag) = true.
Proof. intros Ht. repeat (apply elem_of_cons in Ht as [->|Ht]; [done|]). by apply elem_of_nil in Ht. Qed.

(** What the [switch] does to the envelope: addressing, tag field and time
    stay, and the metadata have one of four tags. *)
Lemma mcp_ingest_message_result msg sourceID meta ts env env' :
  drafted Name meta ts env → ingest_message msg sourceID env = Ok env' →
  drafted Name meta ts env' ∧
  ∃ tag, SystemMeta (Some env') MetaSysTag = Some (AString tag) ∧ tag ∈ ingest_tags.
Proof.
  intros Hd. unfold ingest_message, with_request_id. cbv zeta. destruct (Error msg) as [e|].
  { destruct (is_nil (Id msg)); [done|]. destruct (negb _); intros [= <-]; (split; [exact Hd|]);
      eexists; system_meta; (split; [done|apply list_elem_of_here]). }
  destruct (negb (is_nil (Result msg))).
  { destruct (is_nil (Id msg)); [done|]. destruct (negb _); intros [= <-]; (split; [exact Hd|]);
      eexists; system_meta; (split; [done|]); apply list_elem_of_further, list_elem_of_here. }
  destruct (_ && is_nil (Id msg)).
  { intros [= <-]. split; [exact Hd|]. exists Tags.TagContextProvide.
    split; [apply (SystemMeta_set env MetaSysTag)|]. unfold ingest_tags. set_solver. }
  destruct (_ && _); [|done]. destruct (_ !! "name") as [[]|]; try done.
  destruct (String.eqb _ _); [done|]. intros [= <-]. split; [exact Hd|].
  eexists; system_meta; split; [done|]. unfold ingest_tags. set_solver.
Qed.

Lemma mcp_Ingest_ingested raw meta w :
  spec (Ingest raw meta) w (on_ok (λ env _, ingested Name ProtocolName meta env)).
Proof.
  unfold Ingest. destruct (Validate raw); [by apply spec_ret|].
  destruct (unmarshal raw) as [msg|]; [|by apply spec_ret]. cbv zeta.
  eapply spec_bind; [apply new_envelope_spec|]. intros env w1 _ Hd. apply spec_ret.
  destruct (ingest_message _ _ env) as [env1|] eqn:Hi; [|done].
  destruct (finish _ _ _ _ env1) as [env2|] eqn:Hf; [|done]. cbn.
  eapply finish_ingested; [|exact Hf]. exact (proj1 (mcp_ingest_message_result _ _ _ _ _ _ Hd Hi)).
Qed.

(** Alone, with a clock in the years of RFC 3339, [Ingest] returns what the
    [switch] makes of the message, with the adapter's stamp. *)
Lemma mcp_run_Ingest `{!UuidLaws} raw meta w msg :
  four_digit_year (env_now (S (w_steps w))) → Validate raw = None → unmarshal raw = Some msg →
  ∃ env0, drafted Name meta (Format (env_now (S (w_steps w)))) env0 ∧ Metadata env0 = Some ∅ ∧
    run (Ingest raw meta) w =
      (env <-? ingest_message msg (sourceIDFromJSONRPCID (Id msg)) env0 ;;
       Ok (stamp Name version (sourceIDFromJSONRPCID (Id msg)) ProtocolName env),
       tick (tick w)).
Proof.
  intros Ht Hv Hu. destruct (run_new_envelope Name meta w) as (env0 & Hrun & Hd & _ & Hmd).
  exists env0. split; [done|]. split; [done|]. unfold Ingest. rewrite Hv, Hu. cbv zeta. rewrite run_bind, Hrun.
  cbn [run]. destruct (ingest_message _ _ env0) as [env1|e] eqn:Hi; [|done].
  destruct (mcp_ingest_message_result _ _ _ _ _ _ Hd Hi) as (Hd1 & tag & Htag & Hin).
  by erewrite finish_total; [|done..|exact Htag|by apply ingest_tags_valid].
Qed.

Definition adapter : Adapter :=
  MkAdapter Name ProtocolName Validate Ingest (λ env, (Return (Emit env), env)) mcp_Ingest_ingested.
(** The same, for a message that is no reply. *)
Definition names_tool (m : jsonRPCMessage) : Prop :=
  Method m = "tools/call" ∧ ∃ action,
    default ∅ (Params m) !! "name" = Some (AString action) ∧ TrimSpace action ≠ "".

Lemma ingest_reply_accepts msg sourceID env :
  is_Some (Error msg) ∨ Result msg ≠ ANil →
  is_ok (ingest_message msg sourceID env) = true ↔ Id msg ≠ ANil.
Proof.
  intros Hr. unfold ingest_message. cbv zeta.
  destruct (is_nil_cases (Id msg)) as [[Hi ->]|[Hi ->]], (Error msg) as [e|]; try done.
  all: destruct Hr as [[? ?]|Hr]; [done|].
  all: by destruct (is_nil_cases (Result msg)) as [[? ->]|[? ->]].
Qed.

Lemma ingest_request_accepts msg sourceID env :
  Error msg = None → Result msg = ANil →
  is_ok (ingest_message msg sourceID env) = true ↔
    TrimSpace (Method msg) ≠ "" ∧ Id msg = ANil ∨ Id msg ≠ ANil ∧ names_tool msg.
Proof.
  intros He Hr. unfold ingest_message. cbv zeta. rewrite He, Hr. cbn [is_nil negb].
  destruct (is_nil_cases (Id msg)) as [[Hi ->]|[Hi ->]]; rewrite ?andb_true_r, ?andb_false_r; cbn [negb].
  { destruct (String.eqb_spec (TrimSpace (Method msg)) "") as [Hm|Hm]; cbn [negb];
      rewrite ?andb_false_r; (split; [|tauto]); [done|by left]. }
  unfold names_tool.
  destruct (String.eqb_spec (Method msg) "tools/call") as [Hm|Hm]; [|split; [done|tauto]].
  destruct (default ∅ (Params msg) !! "name") as [v|]; [|split; [done|intros [?|(_ & _ & a & ? & _)]; [tauto|done]]].
  destruct v as [| | | |action| | |]; try (split; [done|intros [?|(_ & _ & a & ? & _)]; [tauto|done]]).
  destruct (String.eqb_spec (TrimSpace action) "") as [Ha|Ha].
  - split; [done|]. intros [?|(_ & _ & a & [= <-] & ?)]; tauto.
  - split; [|done]. intros _. right. eauto.
Qed.

(** The messages the adapter accepts: a reply (an error or a result) names
    its request; anything else is a notification, or the call of a named
    tool. *)
Definition well_formed (m : jsonRPCMessage) : Prop :=
  JSONRPC m = "2.0" ∧
  ((is_Some (Error m) ∨ Result m ≠ ANil) ∧ Id m ≠ ANil ∨
   Error m = None ∧ Result m = ANil ∧
     (TrimSpace (Method m) ≠ "" ∧ Id m = ANil ∨ Id m ≠ ANil ∧ names_tool m)).

Lemma ingest_message_accepts msg sourceID env : JSONRPC msg = "2.0" →
  is_ok (ingest_message msg sourceID env) = true ↔ well_formed msg.
Proof.
  intros Hj. unfold well_formed. destruct (is_nil_cases (Result msg)) as [[Hr _]|[Hr _]].
  - destruct (Error msg) as [e|] eqn:He.
    + rewrite ingest_reply_accepts by (left; by eexists). split; [|by intros [_ [[_ ?]|(? & _)]]].
      intros. split; [done|]. left. split; [left; by eexists|done].
    + rewrite ingest_request_accepts by done. split; [by auto|].
      intros [_ [[[[? ?]|?] _]|(_ & _ & H)]]; done.
  - rewrite ingest_reply_accepts by by right. split; [by auto|by intros [_ [[_ ?]|(_ & ? & _)]]].
Qed.

Lemma names_tool_method m : names_tool m → TrimSpace (Method m) ≠ "".
Proof. intros [-> _]. by vm_compute. Qed.

Lemma mcp_Validate_iff raw :
  Validate raw = None ↔ ∃ msg, unmarshal raw = Some msg ∧ JSONRPC msg = "2.0" ∧
    (TrimSpace (Method msg) ≠ "" ∨ Result msg ≠ ANil ∨ is_Some (Error msg)).
Proof.
  unfold Validate. destruct (String.eqb_spec raw "") as [->|Hraw].
  { split; [done|]. by intros (msg & Hu & _). }
  destruct (unmarshal raw) as [msg|]; [|split; [done|by intros (? & ? & _)]].
  assert (TrimSpace "2.0" = "2.0") as H20 by by vm_compute.
  destruct (String.eqb_spec (TrimSpace (JSONRPC msg)) "") as [Hb|Hb].
  { split; [done|]. intros (? & [= <-] & Hj & _). by rewrite Hj, H20 in Hb. }
  destruct (String.eqb_spec (JSONRPC msg) "2.0") as [Hj|Hj]; [|split; [done|by intros (? & [= <-] & ? & _)]].
  cbn [negb].
  destruct (String.eqb_spec (TrimSpace (Method msg)) "") as [Hm|Hm];
    [|split; [intros _; exists msg; auto|done]].
  destruct (is_nil_cases (Result msg)) as [[Hr ->]|[Hr ->]]; [|split; [intros _; exists msg; auto|done]].
  cbn [andb]. destruct (Error msg) as [e|] eqn:He.
  - split; [|done]. intros _. exists msg. rewrite He. eauto 6.
  - split; [done|]. intros (? & [= <-] & _ & [?|[?|H]]); try done. rewrite He in H. by destruct H.
Qed.

(** ** Emitting, then ingesting *)
Lemma requestID_portable env : sendable env → portable 9997 (requestIDForEmit env).
Proof.
  intros [Hid Hmd]. unfold requestIDForEmit. destruct (SystemMeta (Some env) MetaSysRequestID) as [v|] eqn:Hv.
  - destruct (is_nil v); [by apply portable_string|by eapply Hmd].
  - by apply portable_string.
Qed.

Lemma tool_params_ok action args :
  valid_utf8 action = true → portable 9997 args →
  portable 9999 (AMap (<["arguments" := args]> {[ "name" := AString action ]})).
Proof.
  intros Ha Hargs. eapply (portable_mono 9998); [done|]. apply (portable_map 9997); [done|].
  apply map_Forall_insert_2; [by split|]. apply map_Forall_singleton. split; [done|]. by apply portable_string.
Qed.

Lemma emit_message_ok env msg : sendable env → emit_message env = Ok msg → message_ok msg.
Proof.
  intros Hs. pose proof (requestID_portable env Hs) as Hid. destruct Hs as [_ Hmd].
  assert (∀ k, TrimSpace (SystemMetaString (Some env) k) ≠ "" →
    valid_utf8 (SystemMetaString (Some env) k) = true) as Hstr.
  { intros k Hb. assert (SystemMetaString (Some env) k ≠ "") as Hne by by intros E0; rewrite E0 in Hb.
    by destruct (Hmd k _ (SystemMetaString_Some _ _ _ eq_refl Hne)). }
  unfold emit_message. cbv zeta.
  destruct (String.eqb _ Tags.TagRequestAction).
  { destruct (String.eqb_spec (TrimSpace (SystemMetaString (Some env) MetaSysAction)) "") as [|Hb]; [done|].
    set (args := match SystemMeta (Some env) MetaSysArgs with Some args => args | None => AMap ∅ end).
    assert (portable 9997 args) as Hargs.
    { unfold args. destruct (SystemMeta (Some env) MetaSysArgs) eqn:Ha; [by eapply Hmd, Ha|].
      apply (portable_map 9996); [done|]. apply map_Forall_empty. }
    intros [= <-]. split; try done; [by apply portable_member|..|by apply portable_nil].
    intros p [= <-]. apply tool_params_ok; [by apply Hstr|done]. }
  destruct (String.eqb _ Tags.TagResponseSuccess).
  { destruct (SystemMeta (Some env) MetaSysResult) eqn:Hr; [|done]. intros [= <-].
    split; try done; apply portable_member; [done|by eapply Hmd, Hr]. }
  destruct (String.eqb _ Tags.TagResponseError); [|done].
  destruct (SystemMeta (Some env) MetaSysCode) as [craw|] eqn:Hc; [|done].
  destruct (parseErrorCode craw) as [code|] eqn:Hp; [|done].
  destruct (String.eqb_spec (TrimSpace (SystemMetaString (Some env) MetaSysMessage)) "") as [|Hb]; [done|].
  intros [= <-]. split; try done; [by apply portable_member|by apply portable_nil|].
  intros e [= <-]. split_and!; [|by apply Hstr|done]. destruct (Hmd _ _ Hc) as [Hok _]. by eapply parseErrorCode_range.
Qed.

Lemma emit_reads_back env raw : sendable env → Emit (Some env) = Ok raw →
  ∃ msg, emit_message env = Ok msg ∧ unmarshal raw = Some (norm_message msg).
Proof.
  intros Hs. cbn. destruct (emit_message env) as [msg|] eqn:Hm; [|done].
  destruct (mcp_message_round_trip msg (emit_message_ok _ _ Hs Hm)) as (t & -> & Hu).
  intros [= <-]. by exists msg.
Qed.

Lemma requestIDForEmit_not_nil env : json_norm (requestIDForEmit env) ≠ ANil.
Proof. unfold requestIDForEmit. by destruct (SystemMeta _ _) as [[]|]. Qed.

Lemma json_norm_nil v : json_norm v = ANil → v = ANil.
Proof. by destruct v. Qed.

Lemma sourceID_string id s : id = AString s → sourceIDFromJSONRPCID (json_norm id) = s.
Proof. by intros ->. Qed.

(** What the other side has of the envelope: by its tag, the action and the
    arguments, the result, the error message and code; and of a reply the
    request it answers, the one the metadata name or for want of a name the
    envelope itself. *)
Definition carries (env env' : Envelope) : Prop :=
  let tag := EffectiveTag (Some env) in
  let meta := SystemMeta (Some env) in
  let meta' := SystemMeta (Some env') in
  EffectiveTag (Some env') = tag ∧
  (tag = Tags.TagRequestAction → meta' MetaSysAction = meta MetaSysAction ∧
     meta' MetaSysArgs = Some (json_norm (default (AMap ∅) (meta MetaSysArgs)))) ∧
  (tag = Tags.TagResponseSuccess → meta' MetaSysResult = json_norm <$> meta MetaSysResult) ∧
  (tag = Tags.TagResponseError → meta' MetaSysMessage = meta MetaSysMessage ∧
     ∃ c code, meta MetaSysCode = Some c ∧ code_value c code ∧
       meta' MetaSysCode = Some (AString (Itoa code))) ∧
  (tag ≠ Tags.TagRequestAction → ∀ s, s ≠ "" →
     (meta MetaSysRequestID = Some (AString s) ∨
      (meta MetaSysRequestID = None ∨ meta MetaSysRequestID = Some ANil) ∧ s = ID env) →
     meta' MetaSysRequestID = Some (AString s)).

Lemma requestIDForEmit_text env s :
  SystemMeta (Some env) MetaSysRequestID = Some (AString s) ∨
  (SystemMeta (Some env) MetaSysRequestID = None ∨ SystemMeta (Some env) MetaSysRequestID = Some ANil) ∧ s = ID env →
  requestIDForEmit env = AString s.
Proof. unfold requestIDForEmit. by intros [->|[[->| ->] ->]]. Qed.

(** ** The [switch] on what [Emit] writes *)
Lemma norm_tool_params action args :
  norm_map (Some (<["arguments" := args]> {[ "name" := AString action ]})) =
  Some (<["arguments" := json_norm args]> {[ "name" := AString action ]}).
Proof.
  unfold norm_map, is_empty_map. rewrite bool_decide_eq_false_2 by apply insert_non_empty. cbn.
  by rewrite fmap_insert, map_fmap_singleton.
Qed.

Lemma ingest_call i action args sourceID env :
  json_norm i ≠ ANil → TrimSpace action ≠ "" →
  ingest_message (norm_message (MkMessage "2.0" i "tools/call"
    (Some (<["arguments" := args]> {[ "name" := AString action ]})) ANil None)) sourceID env =
  Ok (SetSystemMeta (SetSystemMeta (SetSystemMeta env MetaSysTag (AString Tags.TagRequestAction))
    MetaSysAction (AString action)) MetaSysArgs (json_norm args)).
Proof.
  intros Hid Ha. unfold norm_message. cbn [JSONRPC Id Method Params Result Error]. rewrite norm_tool_params.
  unfold ingest_message. cbv zeta. cbn [JSONRPC Id Method Params Result Error json_norm is_nil negb].
  destruct (is_nil_cases (json_norm i)) as [[? _]|[_ ->]]; [done|].
  rewrite andb_false_r. change (String.eqb "tools/call" "tools/call" && negb false) with true. cbv match.
  unfold default, id. rewrite lookup_insert_ne by done. rewrite lookup_singleton_eq.
  destruct (String.eqb_spec (TrimSpace action) ""); [done|]. by rewrite lookup_insert_eq.
Qed.

Lemma ingest_result id result sourceID env :
  json_norm id ≠ ANil → json_norm result ≠ ANil →
  ingest_message (norm_message (MkMessage "2.0" id "" None result None)) sourceID env =
  Ok (SetSystemMeta (with_request_id sourceID (SetSystemMeta env MetaSysTag (AString Tags.TagResponseSuccess)))
    MetaSysResult (json_norm result)).
Proof.
  intros Hid Hr. unfold norm_message, ingest_message. cbn [JSONRPC Id Method Params Result Error].
  destruct (is_nil_cases (json_norm result)) as [[? _]|[_ ->]]; [done|].
  by destruct (is_nil_cases (json_norm id)) as [[? _]|[_ ->]].
Qed.

Lemma ingest_error id code message sourceID env :
  json_norm id ≠ ANil →
  ingest_message (norm_message (MkMessage "2.0" id "" None ANil (Some (MkError code message ANil)))) sourceID env =
  Ok (with_request_id sourceID (SetSystemMeta (SetSystemMeta (SetSystemMeta env
    MetaSysTag (AString Tags.TagResponseError)) MetaSysCode (AString (Itoa code))) MetaSysMessage (AString message))).
Proof.
  intros Hid. unfold norm_message, ingest_message. cbn [JSONRPC Id Method Params Result Error].
  by destruct (is_nil_cases (json_norm id)) as [[? _]|[_ ->]].
Qed.


Lemma carries_call env sid env0 : Tag env0 = "" →
  EffectiveTag (Some env) = Tags.TagRequestAction →
  TrimSpace (SystemMetaString (Some env) MetaSysAction) ≠ "" →
  carries env (stamp Name version sid ProtocolName (SetSystemMeta (SetSystemMeta (SetSystemMeta env0 MetaSysTag (AString Tags.TagRequestAction))
    MetaSysAction (AString (SystemMetaString (Some env) MetaSysAction)))
    MetaSysArgs (json_norm (default (AMap ∅) (SystemMeta (Some env) MetaSysArgs))))).
Proof.
  intros Ht0 Ht Ha. unfold carries. cbv zeta. rewrite Ht. split_and!; try done.
  - rewrite (EffectiveTag_stamp _ _ _ _ _ Tags.TagRequestAction); [by vm_compute|done|by system_meta].
  - intros _. split; stamped; [|done]. symmetry. apply SystemMetaString_Some; [done|].
    intros E0. by rewrite E0 in Ha.
Qed.

Lemma carries_result env result env0 : Tag env0 = "" →
  EffectiveTag (Some env) = Tags.TagResponseSuccess → SystemMeta (Some env) MetaSysResult = Some result →
  let sid := sourceIDFromJSONRPCID (json_norm (requestIDForEmit env)) in
  carries env (stamp Name version sid ProtocolName (SetSystemMeta (with_request_id sid
    (SetSystemMeta env0 MetaSysTag (AString Tags.TagResponseSuccess))) MetaSysResult (json_norm result))).
Proof.
  intros Ht0 Ht Hr sid. unfold carries. cbv zeta. rewrite Ht, Hr. split_and!; try done.
  - rewrite (EffectiveTag_stamp _ _ _ _ _ Tags.TagResponseSuccess); [by vm_compute|by unfold with_request_id; destruct (negb _)|].
    rewrite SystemMeta_set, decide_False, with_request_id_meta, SystemMeta_set by done. by rewrite decide_True.
  - intros _. by stamped.
  - intros _ s Hne Hs%requestIDForEmit_text. stamped. unfold sid. rewrite (sourceID_string _ _ Hs). by apply with_request_id_set.
Qed.

Lemma carries_error env c code message env0 : Tag env0 = "" →
  EffectiveTag (Some env) = Tags.TagResponseError →
  SystemMeta (Some env) MetaSysCode = Some c → parseErrorCode c = Ok code →
  SystemMeta (Some env) MetaSysMessage = Some (AString message) →
  let sid := sourceIDFromJSONRPCID (json_norm (requestIDForEmit env)) in
  carries env (stamp Name version sid ProtocolName (with_request_id sid (SetSystemMeta (SetSystemMeta (SetSystemMeta env0
    MetaSysTag (AString Tags.TagResponseError)) MetaSysCode (AString (Itoa code))) MetaSysMessage (AString message)))).
Proof.
  intros Ht0 Ht Hc Hp Hm sid. unfold carries. cbv zeta. rewrite Ht. split_and!; try done.
  - rewrite (EffectiveTag_stamp _ _ _ _ _ Tags.TagResponseError); [by vm_compute|by unfold with_request_id; destruct (negb _)|].
    rewrite with_request_id_meta by done. by system_meta.
  - intros _. split; [by stamped|]. exists c, code. split_and!; [done|by apply parseErrorCode_value|]. by stamped.
  - intros _ s Hne Hs%requestIDForEmit_text. rewrite SystemMeta_stamp by done. unfold sid. rewrite (sourceID_string _ _ Hs).
    by apply with_request_id_set.
Qed.

Lemma emit_then_switch env msg env0 :
  emit_message env = Ok msg → SystemMeta (Some env) MetaSysResult ≠ Some ANil → Tag env0 = "" →
  let sid := sourceIDFromJSONRPCID (Id (norm_message msg)) in
  JSONRPC msg = "2.0" ∧
  ∃ env1, ingest_message (norm_message msg) sid env0 = Ok env1 ∧ carries env (stamp Name version sid ProtocolName env1).
Proof.
  intros Hmsg Hnn Ht0. pose proof (requestIDForEmit_not_nil env) as Hid.
  unfold emit_message in Hmsg. cbv zeta in Hmsg.
  destruct (String.eqb_spec (EffectiveTag (Some env)) Tags.TagRequestAction) as [Htag|_].
  { destruct (String.eqb_spec (TrimSpace (SystemMetaString (Some env) MetaSysAction)) "") as [|Ha]; [done|].
    injection Hmsg as <-. split; [done|]. eexists. split; [by apply ingest_call|].
    by apply (carries_call env). }
  destruct (String.eqb_spec (EffectiveTag (Some env)) Tags.TagResponseSuccess) as [Htag|_].
  { destruct (SystemMeta (Some env) MetaSysResult) as [result|] eqn:Hr; [|done].
    injection Hmsg as <-. split; [done|]. eexists. split; [|by apply carries_result].
    apply ingest_result; [done|]. intros Hn%json_norm_nil. congruence. }
  destruct (String.eqb_spec (EffectiveTag (Some env)) Tags.TagResponseError) as [Htag|_]; [|done].
  destruct (SystemMeta (Some env) MetaSysCode) as [c|] eqn:Hc; [|done].
  destruct (parseErrorCode c) as [code|] eqn:Hp; [|done].
  destruct (String.eqb_spec (TrimSpace (SystemMetaString (Some env) MetaSysMessage)) "") as [|Hm]; [done|].
  injection Hmsg as <-. split; [done|]. eexists. split; [by apply ingest_error|].
  eapply carries_error; [done..|]. apply SystemMetaString_Some; [done|]. intros E0. by rewrite E0 in Hm.
Qed.

Lemma well_formed_Validate raw msg : unmarshal raw = Some msg → well_formed msg → Validate raw = None.
Proof.
  intros Hu (Hj & Hw). apply mcp_Validate_iff. exists msg. split; [done|]. split; [done|].
  destruct Hw as [[[?|?] _]|(_ & _ & [[? _]|[_ ?%names_tool_method]])]; auto.
Qed.

(** ** Properties *)

(** C20 The MCP adapter accepts exactly the JSON-RPC 2.0 messages it has a
    meaning for: replies that name their request, notifications, and calls
    of a named tool; its last validation of the envelope it has built never
    refuses, whatever the transport says about the sender. *)
Theorem mcp_Ingest_accepts `{!UuidLaws} raw meta w :
  four_digit_year (env_now (S (w_steps w))) →
  is_ok (run (Ingest raw meta) w).1 = true ↔ ∃ msg, unmarshal raw = Some msg ∧ well_formed msg.
Proof.
  intros Ht. destruct (Validate raw) as [e|] eqn:Hv.
  - unfold Ingest. rewrite Hv. split; [done|]. intros (msg & Hu & Hw).
    by rewrite (well_formed_Validate raw msg Hu Hw) in Hv.
  - destruct (proj1 (mcp_Validate_iff raw) Hv) as (msg & Hu & Hj & _).
    destruct (mcp_run_Ingest raw meta w msg Ht Hv Hu) as (env0 & _ & _ & ->). cbn [fst].
    transitivity (is_ok (ingest_message msg (sourceIDFromJSONRPCID (Id msg)) env0) = true).
    { by destruct (ingest_message _ _ env0). }
    rewrite ingest_message_accepts by done. split; [by eauto|]. intros (? & Hu' & ?).
    rewrite Hu in Hu'. by injection Hu' as ->.
Qed.

(** C15 Emitting through one MCP adapter and ingesting at another loses nothing
    that matters: the envelope that arrives has the effective tag of the one
    that left, and with it the action and the arguments, the result, or the
    error code and message, and a reply the request it answers (the JSON
    form of the values, for metadata JSON can carry).  A null result is the
    exception: what is emitted for it no adapter accepts. *)
Theorem mcp_Ingest_Emit `{!UuidLaws} env raw meta w :
  sendable env → SystemMeta (Some env) MetaSysResult ≠ Some ANil →
  Emit (Some env) = Ok raw → four_digit_year (env_now (S (w_steps w))) →
  ∃ env', (run (Ingest raw meta) w).1 = Ok env' ∧ carries env env'.
Proof.
  intros Hs Hnn Hemit Ht. destruct (emit_reads_back env raw Hs Hemit) as (msg & Hmsg & Hu).
  assert (Validate raw = None) as Hv.
  { destruct (emit_then_switch env msg (MkEnvelope "" "" "" "" "" None "") Hmsg Hnn eq_refl)
      as (Hj & env1 & Hi & _).
    eapply well_formed_Validate; [exact Hu|]. eapply ingest_message_accepts; [exact Hj|by rewrite Hi]. }
  destruct (mcp_run_Ingest raw meta w _ Ht Hv Hu) as (env0 & (_ & _ & _ & Ht0 & _) & _ & ->).
  destruct (emit_then_switch env msg env0 Hmsg Hnn Ht0) as (_ & env1 & -> & Hc). by eexists.
Qed.
End Ingest.
End Mcp.
