(* ===== verification/Grpc.v ===== *)
(** * The gRPC adapter

    [backend/internal/adapter/grpc/grpc.go].  [Emit] can change the envelope
    it is given, because the body it completes is the map the metadata hold,
    and it can panic: its result says which. *)

From S2P Require Import Prelude.
From S2P Require Import GoStrings.
From S2P Require Import Protocol.
From S2P Require Import GoTime.
From S2P Require Import GoValue.
From S2P Require Import Envelope.
From S2P Require Import Uuid.
From S2P Require Import Schema.
From S2P Require Import Invariant.
From S2P Require Import World.
From S2P Require Import JsonString.
From S2P Require Import Json.
From S2P Require Import FloatText.
From S2P Require Import JsonValue.
From S2P Require Import AdapterBase.

Open Scope string_scope.
Open Scope Z_scope.

Module Grpc.

Definition Name := "grpc".
Definition version := "1.0.0".
Definition ProtocolName := "grpc-json".

Record grpcMessage := MkMessage {
  Type_ : string;
  Service : string;
  Method : string;
  RequestID : string;
  StreamID : string;
  Status : string;
  Code : Z;
  Message : string;
  Body : option (gmap string any)
}.

(** ** The struct as JSON *)
Definition zero_message := MkMessage "" "" "" "" "" "" 0 "" None.

Definition message_fields : list (@field grpcMessage) :=
  [("type", string_field (λ v m, MkMessage v (Service m) (Method m) (RequestID m) (StreamID m) (Status m) (Code m) (Message m) (Body m)));
   ("service", string_field (λ v m, MkMessage (Type_ m) v (Method m) (RequestID m) (StreamID m) (Status m) (Code m) (Message m) (Body m)));
   ("method", string_field (λ v m, MkMessage (Type_ m) (Service m) v (RequestID m) (StreamID m) (Status m) (Code m) (Message m) (Body m)));
   ("request_id", string_field (λ v m, MkMessage (Type_ m) (Service m) (Method m) v (StreamID m) (Status m) (Code m) (Message m) (Body m)));
   ("stream_id", string_field (λ v m, MkMessage (Type_ m) (Service m) (Method m) (RequestID m) v (Status m) (Code m) (Message m) (Body m)));
   ("status", string_field (λ v m, MkMessage (Type_ m) (Service m) (Method m) (RequestID m) (StreamID m) v (Code m) (Message m) (Body m)));
   ("code", int_field (λ v m, MkMessage (Type_ m) (Service m) (Method m) (RequestID m) (StreamID m) (Status m) v (Message m) (Body m)));
   ("message", string_field (λ v m, MkMessage (Type_ m) (Service m) (Method m) (RequestID m) (StreamID m) (Status m) (Code m) v (Body m)));
   ("body", map_field Body (λ v m, MkMessage (Type_ m) (Service m) (Method m) (RequestID m) (StreamID m) (Status m) (Code m) (Message m) v))].

(** [var msg grpcMessage; json.Unmarshal(raw, &msg)] *)
Definition of_tree (t : json) : option grpcMessage := decode_struct false message_fields t zero_message.
Definition unmarshal (raw : string) : option grpcMessage := parse raw ≫= of_tree.

Definition omit_string (name s : string) : list (string * json) := omitempty (String.eqb s "") name (JStr s).

Definition message_tree (m : grpcMessage) : option json :=
  body ← map_tree (Body m);
  Some (JObj ([("type", JStr (Type_ m))]
              ++ omit_string "service" (Service m)
              ++ omit_string "method" (Method m)
              ++ omit_string "request_id" (RequestID m)
              ++ omit_string "stream_id" (StreamID m)
              ++ omit_string "status" (Status m)
              ++ omitempty (Code m =? 0) "code" (JNum (Itoa (Code m)))
              ++ omit_string "message" (Message m)
              ++ omitempty (is_empty_map (Body m)) "body" body)%list).

(** ** The message, written and read back *)
Record message_ok (m : grpcMessage) : Prop := {
  ok_strings : forallb valid_utf8 [Type_ m; Service m; Method m; RequestID m; StreamID m; Status m; Message m] = true;
  ok_code : in_int64 (Code m) = true;
  ok_body : ∀ b, Body m = Some b → portable 9999 (AMap b)
}.

Definition norm_message (m : grpcMessage) : grpcMessage :=
  MkMessage (Type_ m) (Service m) (Method m) (RequestID m) (StreamID m) (Status m) (Code m) (Message m)
    (norm_map (Body m)).

Lemma grpc_message_round_trip m : message_ok m →
  ∃ t, message_tree m = Some t ∧ unmarshal (print t) = Some (norm_message m).
Proof.
  intros [Hs Hc Hb].
  cbn [forallb] in Hs. repeat (apply andb_true_iff in Hs as [? Hs]). clear Hs.
  destruct (map_tree_fits 9999 _ Hb) as (tb & Htb & Hfb); [done|].
  unfold message_tree. rewrite Htb. eexists. split; [reflexivity|].
  unfold unmarshal. rewrite fits_parse.
  2:{ apply (fits_obj 9999); [done|].
      repeat (apply Forall_app; split); try apply fits_omitempty; try done; [by apply Forall_singleton|by apply fits_int]. }
  cbn [mbind option_bind]. unfold of_tree, omit_string. rewrite scrub_obj. cbn [decode_struct].
  decode_using ltac:(cbn [Type_ Service Method RequestID StreamID Status Code Message Body zero_message]). done.
Qed.

(** ** Helpers *)
Definition requestIDForEmit (env : Envelope) : string :=
  let requestID := SystemMetaString (Some env) MetaSysRequestID in
  if negb (String.eqb (TrimSpace requestID) "") then requestID else ID env.

Definition streamIDForEmit (env : Envelope) : string :=
  let streamID := SystemMetaString (Some env) MetaSysStreamID in
  if negb (String.eqb (TrimSpace streamID) "") then streamID else ID env.

Definition normalizeBody (raw : any) (field : string) : result goerr (gmap string any) :=
  match raw with
  | ANil => Ok ∅
  | AMap body => Ok body
  | _ => Err (NewError (field +:+ " must be an object"))
  end.

(** The same function as the MCP adapter's. *)
Definition parseErrorCode `{FloatConversion} : any → result goerr Z := AdapterBase.parseErrorCode.

Definition numericAsFloat64 (raw : any) : option float64 :=
  match raw with
  | AInt v => Some (f64_of_Z v)
  | AFloat v => Some v
  | _ => None
  end.

Definition blank (s : string) : bool := String.eqb (TrimSpace s) "".

Definition Validate (raw : string) : option goerr :=
  if String.eqb raw "" then Some (NewError "raw message is empty") else
  match unmarshal raw with
  | None => Some (WrapError "invalid json" (ExternalError "json"))
  | Some msg =>
      let msgType := TrimSpace (Type_ msg) in
      if String.eqb msgType "" then Some (NewError "type field is required")
      else if String.eqb msgType "unary" then
        let hasService := negb (blank (Service msg)) in
        let hasMethod := negb (blank (Method msg)) in
        let hasStatus := negb (blank (Status msg)) in
        if negb (Bool.eqb hasService hasMethod) then
          Some (NewError "unary call must include both service and method")
        else if negb hasStatus && negb hasService then
          Some (NewError "unary message must include service+method or status")
        else if hasStatus then
          let status := TrimSpace (Status msg) in
          if negb (String.eqb status "OK") && negb (String.eqb status "ERROR") then
            Some (NewError ("invalid unary status: " +:+ status))
          else None
        else None
      else if String.eqb msgType "stream" then
        if blank (StreamID msg) then Some (NewError "stream_id field is required for stream messages")
        else None
      else Some (NewError ("invalid type: " +:+ msgType))
  end.

(** ** Ingest *)
Definition body_or_empty (body : option (gmap string any)) : any := AMap (default ∅ body).

(** [if progressRaw, ok := msg.Body["progress"]; ok { ... }] *)
Definition with_percentage (body : gmap string any) (env : Envelope) : Envelope :=
  match body !! "progress" with
  | Some progressRaw =>
      match numericAsFloat64 progressRaw with
      | Some percentage => SetSystemMeta env MetaSysPercentage (AFloat percentage)
      | None => env
      end
  | None => env
  end.

(** The [switch] of [Ingest]. *)
Definition ingest_message (msg : grpcMessage) (sourceID : string) (env : Envelope) : result goerr Envelope :=
  let msgType := TrimSpace (Type_ msg) in
  let status := TrimSpace (Status msg) in
  let unary := String.eqb msgType "unary" in
  if unary && negb (blank (Service msg)) && negb (blank (Method msg)) && String.eqb status "" then
    let env := SetSystemMeta env MetaSysTag (AString Tags.TagRequestAction) in
    let env := SetSystemMeta env MetaSysAction
                 (AString (TrimSpace (Service msg) +:+ "/" +:+ TrimSpace (Method msg))) in
    Ok (SetSystemMeta env MetaSysArgs (body_or_empty (Body msg)))
  else if unary && String.eqb status "OK" then
    let env := SetSystemMeta env MetaSysTag (AString Tags.TagResponseSuccess) in
    let env := SetSystemMeta env MetaSysResult (body_or_empty (Body msg)) in
    Ok (with_request_id sourceID env)
  else if unary && String.eqb status "ERROR" then
    let env := SetSystemMeta env MetaSysTag (AString Tags.TagResponseError) in
    let env := SetSystemMeta env MetaSysCode (AInt (Code msg)) in
    let env := SetSystemMeta env MetaSysMessage (AString (Message msg)) in
    Ok (with_request_id sourceID env)
  else if String.eqb msgType "stream" then
    let env := SetSystemMeta env MetaSysTag (AString Tags.TagProgressUpdate) in
    let env := SetSystemMeta env MetaSysUpdate (body_or_empty (Body msg)) in
    let env := with_percentage (default ∅ (Body msg)) env in
    Ok (SetSystemMeta (with_request_id sourceID env) MetaSysStreamID (AString (StreamID msg)))
  else Err (NewError "unsupported grpc message shape").

Section Grpc.
Context {FC : FloatConversion} {U : UuidPkg} {C : Citext} {E : Env}.

Definition Ingest (raw : string) (meta : TransportMeta) : prog (result goerr Envelope) :=
  match Validate raw with
  | Some e => Ret (Err e)
  | None =>
      match unmarshal raw with
      | None => Ret (Err (WrapError "unmarshal grpc message" (ExternalError "json")))
      | Some msg =>
          let sourceID := TrimSpace (RequestID msg) in
          let! env := new_envelope Name meta in
          Ret (env <-? ingest_message msg sourceID env ;;
               finish Name version sourceID ProtocolName env)
      end
  end.

(** ** Emit *)

(** [var contentMap map[string]any; json.Unmarshal(content, &contentMap)] *)
Definition content_map (content : string) : option (gmap string any) :=
  match Unmarshal content with
  | Some (AMap m) => Some m
  | Some ANil => Some ∅
  | _ => None
  end.

(** The body with the percentage of the metadata, unless it tells one. *)
Definition with_progress (env : Envelope) (body : gmap string any) : gmap string any :=
  match body !! "progress" with
  | Some _ => body
  | None =>
      match SystemMeta (Some env) MetaSysPercentage with
      | Some pctRaw =>
          match numericAsFloat64 pctRaw with
          | Some pct => <["progress" := AFloat pct]> body
          | None => body
          end
      | None => body
      end
  end.

(** The branch of the progress tags.  The body taken from the metadata is the
    map the metadata hold, so what is added to it is added there too; for
    want of an update, an entry of the content goes into a nil map. *)
Definition emit_progress (env : Envelope) : outcome (result goerr grpcMessage) * Envelope :=
  let msg body := MkMessage "stream" "" "" (requestIDForEmit env) (streamIDForEmit env) "" 0 "" (Some body) in
  match SystemMeta (Some env) MetaSysUpdate with
  | Some updateRaw =>
      match normalizeBody updateRaw "progress payload.update" with
      | Err e => (Return (Err e), env)
      | Ok body =>
          let body := with_progress env body in
          (Return (Ok (msg body)),
           match updateRaw with AMap _ => SetSystemMeta env MetaSysUpdate (AMap body) | _ => env end)
      end
  | None =>
      if negb (String.eqb (Content env) "") &&
         negb (is_empty_map (content_map (Content env)))
      then (Panic "assignment to entry in nil map", env)
      else (Return (Ok (msg (with_progress env ∅))), env)
  end.

Definition emit_message (env : Envelope) : outcome (result goerr grpcMessage) * Envelope :=
  let tag := EffectiveTag (Some env) in
  let done r := (Return r, env) in
  if String.eqb tag Tags.TagRequestAction then
    let action := SystemMetaString (Some env) MetaSysAction in
    if blank action then done (Err (NewError "request.action metadata.action is required")) else
    match Cut (TrimSpace action) "/" with
    | Some (service, method) =>
        if blank service || blank method then
          done (Err (NewError "request.action payload.action must be in service/method format")) else
        let msg body := MkMessage "unary" (TrimSpace service) (TrimSpace method) (requestIDForEmit env) "" "" 0 "" (Some body) in
        match SystemMeta (Some env) MetaSysArgs with
        | Some args => done (body <-? normalizeBody args "request.action payload.args" ;; Ok (msg body))
        | None => done (Ok (msg ∅))
        end
    | None => done (Err (NewError "request.action payload.action must be in service/method format"))
    end
  else if String.eqb tag Tags.TagResponseSuccess then
    match SystemMeta (Some env) MetaSysResult with
    | None => done (Err (NewError "response.success metadata.result is required"))
    | Some resultRaw =>
        done (body <-? normalizeBody resultRaw "response.success payload.result" ;;
              Ok (MkMessage "unary" "" "" (requestIDForEmit env) "" "OK" 0 "" (Some body)))
    end
  else if String.eqb tag Tags.TagResponseError then
    match SystemMeta (Some env) MetaSysCode with
    | None => done (Err (NewError "response.error metadata.code is required"))
    | Some codeRaw =>
        let message := SystemMetaString (Some env) MetaSysMessage in
        if blank message then
          done (Err (NewError "response.error metadata.message must be a non-empty string")) else
        done (code <-? parseErrorCode codeRaw ;;
              Ok (MkMessage "unary" "" "" (requestIDForEmit env) "" "ERROR" code message None))
    end
  else if String.eqb (Tags.ParseTagFamily tag) Tags.TagProgress then emit_progress env
  else done (Err (NewError ("unsupported envelope tag for grpc emit: " +:+ tag))).

Definition marshal (msg : grpcMessage) : result goerr string :=
  match message_tree msg with
  | None => Err (WrapError "marshal grpc message" (ExternalError "json"))
  | Some t => Ok (print t)
  end.

Definition Emit (env : option Envelope) : outcome (result goerr string) * option Envelope :=
  match env with
  | None => (Return (Err (NewError "envelope is nil")), None)
  | Some env =>
      let '(r, env) := emit_message env in
      (match r with
       | Return r => Return (msg <-? r ;; marshal msg)
       | Panic p => Panic p
       end, Some env)
  end.

(** ** The messages the adapter accepts, and their tags *)
Inductive describes (m : grpcMessage) : string → Prop :=
| describes_call : TrimSpace (Type_ m) = "unary" →
    TrimSpace (Service m) ≠ "" → TrimSpace (Method m) ≠ "" → TrimSpace (Status m) = "" →
    describes m Tags.TagRequestAction
| describes_success : TrimSpace (Type_ m) = "unary" →
    (TrimSpace (Service m) = "" ↔ TrimSpace (Method m) = "") → TrimSpace (Status m) = "OK" →
    describes m Tags.TagResponseSuccess
| describes_failure : TrimSpace (Type_ m) = "unary" →
    (TrimSpace (Service m) = "" ↔ TrimSpace (Method m) = "") → TrimSpace (Status m) = "ERROR" →
    describes m Tags.TagResponseError
| describes_progress : TrimSpace (Type_ m) = "stream" → TrimSpace (StreamID m) ≠ "" →
    describes m Tags.TagProgressUpdate.

Lemma grpc_describes_valid m tag : describes m tag → Tags.IsValidTag (TrimSpace tag) = true.
Proof. by destruct 1. Qed.

Lemma blank_spec s : reflect (TrimSpace s = "") (blank s).
Proof. apply String.eqb_spec. Qed.

Lemma unary_valid (hs hm : bool) status :
  (if negb (Bool.eqb hs hm) then Some (NewError "unary call must include both service and method")
   else if negb (negb (String.eqb status "")) && negb hs then
     Some (NewError "unary message must include service+method or status")
   else if negb (String.eqb status "") then
     if negb (String.eqb status "OK") && negb (String.eqb status "ERROR") then
       Some (NewError ("invalid unary status: " +:+ status))
     else None
   else None) = None ↔
  hs = hm ∧ (status = "" ∧ hs = true ∨ status = "OK" ∨ status = "ERROR").
Proof.
  destruct (String.eqb_spec status "") as [H1|H1], (String.eqb_spec status "OK") as [H2|H2],
    (String.eqb_spec status "ERROR") as [H3|H3]; destruct hs, hm; cbn; intuition congruence.
Qed.

Lemma grpc_Validate_iff raw : Validate raw = None ↔ ∃ msg tag, unmarshal raw = Some msg ∧ describes msg tag.
Proof.
  unfold Validate. destruct (String.eqb_spec raw "") as [->|_].
  { split; [done|]. intros (msg & tag & Hu & _). vm_compute in Hu. discriminate. }
  destruct (unmarshal raw) as [msg|]; [|split; [done|by intros (? & ? & ? & _)]]. cbv zeta.
  transitivity (∃ tag, describes msg tag); [|split; [intros [tag ?]; by exists msg, tag|intros (? & tag & [= <-] & ?); by exists tag]].
  destruct (String.eqb_spec (TrimSpace (Type_ msg)) "") as [Ht|_].
  { split; [done|]. intros [tag []]; congruence. }
  destruct (String.eqb_spec (TrimSpace (Type_ msg)) "unary") as [Ht|Hu].
  - change (blank (Status msg)) with (String.eqb (TrimSpace (Status msg)) ""). rewrite unary_valid.
    destruct (blank_spec (Service msg)) as [Hs|Hs], (blank_spec (Method msg)) as [Hm|Hm]; cbn [negb].
    all: split; [|intros [tag []]; try congruence; intuition congruence].
    all: intros [Heq Hst]; try discriminate Heq.
    all: destruct Hst as [[? ?]|[?|?]]; try done; eexists.
    all: first [by apply describes_call | by apply describes_success | by apply describes_failure].
  - destruct (String.eqb_spec (TrimSpace (Type_ msg)) "stream") as [Ht|Hn].
    + destruct (blank_spec (StreamID msg)).
      * split; [done|]. intros [tag []]; congruence.
      * split; [|done]. intros _. eexists. by apply describes_progress.
    + split; [done|]. intros [tag []]; congruence.
Qed.

(** ** The envelope of an accepted message *)
Definition ingested_call (m : grpcMessage) (env : Envelope) : Envelope :=
  SetSystemMeta (SetSystemMeta (SetSystemMeta env MetaSysTag (AString Tags.TagRequestAction))
    MetaSysAction (AString (TrimSpace (Service m) +:+ "/" +:+ TrimSpace (Method m))))
    MetaSysArgs (body_or_empty (Body m)).

Definition ingested_success (m : grpcMessage) (sourceID : string) (env : Envelope) : Envelope :=
  with_request_id sourceID (SetSystemMeta (SetSystemMeta env MetaSysTag (AString Tags.TagResponseSuccess))
    MetaSysResult (body_or_empty (Body m))).

Definition ingested_failure (m : grpcMessage) (sourceID : string) (env : Envelope) : Envelope :=
  with_request_id sourceID (SetSystemMeta (SetSystemMeta (SetSystemMeta env MetaSysTag (AString Tags.TagResponseError))
    MetaSysCode (AInt (Code m))) MetaSysMessage (AString (Message m))).

Definition ingested_progress (m : grpcMessage) (sourceID : string) (env : Envelope) : Envelope :=
  SetSystemMeta (with_request_id sourceID (with_percentage (default ∅ (Body m))
    (SetSystemMeta (SetSystemMeta env MetaSysTag (AString Tags.TagProgressUpdate))
      MetaSysUpdate (body_or_empty (Body m))))) MetaSysStreamID (AString (StreamID m)).

Definition ingested_as (m : grpcMessage) (sourceID tag : string) (env : Envelope) : Envelope :=
  if String.eqb tag Tags.TagRequestAction then ingested_call m env
  else if String.eqb tag Tags.TagResponseSuccess then ingested_success m sourceID env
  else if String.eqb tag Tags.TagResponseError then ingested_failure m sourceID env
  else ingested_progress m sourceID env.

Lemma blank_true s : TrimSpace s = "" → blank s = true.
Proof. by destruct (blank_spec s). Qed.
Lemma blank_false s : TrimSpace s ≠ "" → blank s = false.
Proof. by destruct (blank_spec s). Qed.

Lemma ingest_described m sourceID tag env :
  describes m tag → ingest_message m sourceID env = Ok (ingested_as m sourceID tag env).
Proof.
  destruct 1 as [Ht Hs Hm Hst|Ht Hsm Hst|Ht Hsm Hst|Ht Hid]; unfold ingest_message; cbv zeta; rewrite Ht; cbn [String.eqb].
  - rewrite Hst, !blank_false by done. done.
  - rewrite Hst. rewrite !andb_false_r. done.
  - rewrite Hst. rewrite !andb_false_r. done.
  - done.
Qed.

Lemma with_percentage_meta body env k :
  k ≠ MetaSysPercentage → SystemMeta (Some (with_percentage body env)) k = SystemMeta (Some env) k.
Proof.
  intros Hk. unfold with_percentage. destruct (body !! "progress") as [v|]; [|done].
  destruct (numericAsFloat64 v); [|done]. rewrite SystemMeta_set. by rewrite decide_False.
Qed.

(** Read the metadata of an ingested envelope back. *)
Ltac ingested_meta :=
  repeat first [ rewrite with_request_id_meta by done
               | rewrite with_percentage_meta by done
               | rewrite SystemMeta_set; first [rewrite decide_True by done | rewrite decide_False by done] ].

Lemma ingested_as_tag m sourceID tag env :
  describes m tag → SystemMeta (Some (ingested_as m sourceID tag env)) MetaSysTag = Some (AString tag).
Proof.
  destruct 1; unfold ingested_as; cbn -[SystemMeta SetSystemMeta];
    unfold ingested_call, ingested_success, ingested_failure, ingested_progress; by ingested_meta.
Qed.

Lemma drafted_with_request_id meta ts sourceID env :
  drafted Name meta ts env → drafted Name meta ts (with_request_id sourceID env).
Proof. intros Hd. unfold with_request_id. by destruct (negb _). Qed.

Lemma drafted_with_percentage meta ts body env :
  drafted Name meta ts env → drafted Name meta ts (with_percentage body env).
Proof. intros Hd. unfold with_percentage. destruct (body !! _) as [v|]; [by destruct (numericAsFloat64 v)|done]. Qed.

Lemma ingested_as_drafted m sourceID tag meta ts env :
  drafted Name meta ts env → drafted Name meta ts (ingested_as m sourceID tag env).
Proof.
  intros Hd. unfold ingested_as. repeat case_match.
  - exact Hd.
  - by apply drafted_with_request_id.
  - by apply drafted_with_request_id.
  - apply drafted_SetSystemMeta, drafted_with_request_id. by apply drafted_with_percentage.
Qed.

Lemma grpc_Ingest_ingested raw meta w :
  spec (Ingest raw meta) w (on_ok (λ env _, ingested Name ProtocolName meta env)).
Proof.
  unfold Ingest. destruct (Validate raw) eqn:Hv; [by apply spec_ret|].
  apply grpc_Validate_iff in Hv as (msg & tag & Hu & Hd). rewrite Hu. cbv zeta.
  eapply spec_bind; [apply new_envelope_spec|]. intros env w1 _ Hdr. apply spec_ret.
  rewrite (ingest_described _ _ _ _ Hd). destruct (finish _ _ _ _ _) as [env2|] eqn:Hf; [|done]. cbn.
  eapply finish_ingested; [|exact Hf]. exact (ingested_as_drafted _ _ _ _ _ _ Hdr).
Qed.

Lemma grpc_run_Ingest `{!UuidLaws} raw meta w msg tag :
  four_digit_year (env_now (S (w_steps w))) → unmarshal raw = Some msg → describes msg tag →
  ∃ env0, drafted Name meta (Format (env_now (S (w_steps w)))) env0 ∧ Metadata env0 = Some ∅ ∧
    run (Ingest raw meta) w =
      (Ok (stamp Name version (TrimSpace (RequestID msg)) ProtocolName
            (ingested_as msg (TrimSpace (RequestID msg)) tag env0)), tick (tick w)).
Proof.
  intros Ht Hu Hd. destruct (run_new_envelope Name meta w) as (env0 & Hrun & Hdr & _ & Hmd).
  exists env0. split; [done|]. split; [done|]. unfold Ingest.
  assert (Validate raw = None) as -> by (apply grpc_Validate_iff; by exists msg, tag). rewrite Hu. cbv zeta. rewrite run_bind, Hrun. cbn [run].
  rewrite (ingest_described _ _ _ _ Hd).
  by erewrite finish_total; [|apply ingested_as_drafted, Hdr|done..|by apply ingested_as_tag|by eapply grpc_describes_valid].
Qed.

Definition adapter : Adapter := MkAdapter Name ProtocolName Validate Ingest Emit grpc_Ingest_ingested.

(** ** The outcome of [Emit] *)
Lemma Emit_panic_iff env :
  (∃ p, (Emit (Some env)).1 = Panic p) ↔ ∃ p, (emit_message env).1 = Panic p.
Proof. cbn. destruct (emit_message env) as [[r|p] e]; cbn; split; intros [q [= <-]]; by eexists. Qed.

Definition quiet (r : outcome (result goerr grpcMessage) * Envelope) (env : Envelope) : Prop :=
  (∃ x, r.1 = Return x) ∧ r.2 = env.

(** Outside the progress tags [Emit] returns and leaves the envelope alone. *)
Lemma emit_message_cases env :
  Tags.ParseTagFamily (EffectiveTag (Some env)) = Tags.TagProgress ∧ emit_message env = emit_progress env ∨
  Tags.ParseTagFamily (EffectiveTag (Some env)) ≠ Tags.TagProgress ∧ quiet (emit_message env) env.
Proof.
  unfold emit_message. cbv zeta. set (tag := EffectiveTag (Some env)).
  assert (∀ r, quiet (Return r, env) env) as Hq by (intros r; split; [by eexists|done]).
  destruct (String.eqb_spec tag Tags.TagRequestAction) as [->|_].
  { right. split; [done|]. repeat case_match; apply Hq. }
  destruct (String.eqb_spec tag Tags.TagResponseSuccess) as [->|_].
  { right. split; [done|]. repeat case_match; apply Hq. }
  destruct (String.eqb_spec tag Tags.TagResponseError) as [->|_].
  { right. split; [done|]. repeat case_match; apply Hq. }
  destruct (String.eqb_spec (Tags.ParseTagFamily tag) Tags.TagProgress); [by left|].
  right. split; [done|]. apply Hq.
Qed.

Lemma content_map_empty : content_map "" = None.
Proof. done. Qed.

Lemma emit_progress_panics env :
  (∃ p, (emit_progress env).1 = Panic p) ↔
  SystemMeta (Some env) MetaSysUpdate = None ∧ ∃ m, content_map (Content env) = Some m ∧ m ≠ ∅.
Proof.
  unfold emit_progress. cbv zeta. destruct (SystemMeta (Some env) MetaSysUpdate) as [u|].
  { split; [|by intros [? _]]. destruct (normalizeBody _ _); by intros [p ?]. }
  destruct (String.eqb_spec (Content env) "") as [->|_]; cbn [negb andb].
  { rewrite content_map_empty. split; [by intros [p ?]|by intros (_ & m & ? & _)]. }
  unfold is_empty_map. case_bool_decide as Hm; cbn [negb fst].
  - split; [by intros [p ?]|]. intros (_ & m & Hc & Hne). by rewrite Hc in Hm.
  - split; [|by eexists]. intros _. split; [done|].
    destruct (content_map (Content env)) as [m|]; [by exists m|done].
Qed.

(** ** Emitting, then ingesting *)
Lemma norm_body b : body_or_empty (norm_map (Some b)) = AMap (json_norm <$> b).
Proof.
  unfold norm_map, is_empty_map, body_or_empty. case_bool_decide as Hb; cbn in *; [|done]. subst b. by rewrite fmap_empty.
Qed.

(** The object a metadata key holds, empty when there is none. *)
Definition body_of (v : option any) : gmap string any :=
  match v with Some (AMap m) => m | _ => ∅ end.

Lemma normalizeBody_of raw field body : normalizeBody raw field = Ok body → body = body_of (Some raw).
Proof. by destruct raw; intros [= <-]. Qed.

(** The progress an update tells: its own, or for want of one the percentage
    of the metadata if that is a number. *)
Definition progress_told (env : Envelope) (update : gmap string any) : option any :=
  match update !! "progress", SystemMeta (Some env) MetaSysPercentage with
  | Some told, _ => Some told
  | None, Some (AInt pct) => Some (AFloat (f64_of_Z pct))
  | None, Some (AFloat pct) => Some (AFloat pct)
  | None, _ => None
  end.

(** What the other side has of the envelope.  A reply or an update names its
    request, and an update its stream, as the metadata do, or for want of a
    name there after the envelope; the update is that of the metadata, to the
    entry, with the progress told.  A progress tag of any kind arrives as
    [progress.update]. *)
Definition carries (env env' : Envelope) : Prop :=
  let tag := EffectiveTag (Some env) in
  let tag' := EffectiveTag (Some env') in
  let meta := SystemMeta (Some env) in
  let meta' := SystemMeta (Some env') in
  let replies := ∃ id, named env MetaSysRequestID (eq (ID env)) id ∧
    meta' MetaSysRequestID = Some (AString (TrimSpace id)) in
  tag = Tags.TagRequestAction ∧ tag' = tag ∧
    (∃ service method, Cut (TrimSpace (SystemMetaString (Some env) MetaSysAction)) "/" = Some (service, method) ∧
       meta' MetaSysAction = Some (AString (TrimSpace service +:+ "/" +:+ TrimSpace method))) ∧
    meta' MetaSysArgs = Some (AMap (json_norm <$> body_of (meta MetaSysArgs)))
  ∨ tag = Tags.TagResponseSuccess ∧ tag' = tag ∧ replies ∧
    meta' MetaSysResult = Some (AMap (json_norm <$> body_of (meta MetaSysResult)))
  ∨ tag = Tags.TagResponseError ∧ tag' = tag ∧ replies ∧
    meta' MetaSysMessage = meta MetaSysMessage ∧
    (∃ c code, meta MetaSysCode = Some c ∧ code_value c code ∧ meta' MetaSysCode = Some (AInt code))
  ∨ Tags.ParseTagFamily tag = Tags.TagProgress ∧ tag' = Tags.TagProgressUpdate ∧ replies ∧
    (∃ update, meta' MetaSysUpdate = Some (AMap update) ∧
       update !! "progress" = json_norm <$> progress_told env (body_of (meta MetaSysUpdate)) ∧
       ∀ k, k ≠ "progress" → update !! k = json_norm <$> body_of (meta MetaSysUpdate) !! k) ∧
    (∃ id, named env MetaSysStreamID (eq (ID env)) id ∧ meta' MetaSysStreamID = Some (AString id)).

Lemma requestIDForEmit_named env : named env MetaSysRequestID (eq (ID env)) (requestIDForEmit env).
Proof.
  apply named_string; unfold requestIDForEmit;
    by destruct (String.eqb_spec (TrimSpace (SystemMetaString (Some env) MetaSysRequestID)) "").
Qed.

Lemma streamIDForEmit_named env : named env MetaSysStreamID (eq (ID env)) (streamIDForEmit env).
Proof.
  apply named_string; unfold streamIDForEmit;
    by destruct (String.eqb_spec (TrimSpace (SystemMetaString (Some env) MetaSysStreamID)) "").
Qed.

Lemma with_progress_told env body : with_progress env body !! "progress" = progress_told env body.
Proof.
  unfold with_progress, progress_told. destruct (body !! "progress") eqn:Hp; [done|].
  destruct (SystemMeta (Some env) MetaSysPercentage) as [[]|]; cbn [numericAsFloat64];
    by rewrite ?lookup_insert_eq.
Qed.

Lemma with_progress_other env body k : k ≠ "progress" → with_progress env body !! k = body !! k.
Proof.
  intros Hk. unfold with_progress. repeat case_match; try done. by rewrite lookup_insert_ne.
Qed.

Lemma requestIDForEmit_not_blank env : TrimSpace (ID env) ≠ "" → TrimSpace (requestIDForEmit env) ≠ "".
Proof. intros Hid. unfold requestIDForEmit. by destruct (String.eqb_spec (TrimSpace (SystemMetaString (Some env) MetaSysRequestID)) ""). Qed.

Lemma streamIDForEmit_not_blank env : TrimSpace (ID env) ≠ "" → TrimSpace (streamIDForEmit env) ≠ "".
Proof. intros Hid. unfold streamIDForEmit. by destruct (String.eqb_spec (TrimSpace (SystemMetaString (Some env) MetaSysStreamID)) ""). Qed.

(** What [emit_message] makes, by tag. *)
Inductive emits (env : Envelope) : grpcMessage → Prop :=
| emits_call service method : EffectiveTag (Some env) = Tags.TagRequestAction →
    Cut (TrimSpace (SystemMetaString (Some env) MetaSysAction)) "/" = Some (service, method) →
    TrimSpace service ≠ "" → TrimSpace method ≠ "" →
    emits env (MkMessage "unary" (TrimSpace service) (TrimSpace method) (requestIDForEmit env) "" "" 0 ""
                (Some (body_of (SystemMeta (Some env) MetaSysArgs))))
| emits_success : EffectiveTag (Some env) = Tags.TagResponseSuccess →
    emits env (MkMessage "unary" "" "" (requestIDForEmit env) "" "OK" 0 ""
                (Some (body_of (SystemMeta (Some env) MetaSysResult))))
| emits_failure c code message : EffectiveTag (Some env) = Tags.TagResponseError →
    SystemMeta (Some env) MetaSysCode = Some c → parseErrorCode c = Ok code →
    SystemMeta (Some env) MetaSysMessage = Some (AString message) →
    emits env (MkMessage "unary" "" "" (requestIDForEmit env) "" "ERROR" code message None)
| emits_progress : Tags.ParseTagFamily (EffectiveTag (Some env)) = Tags.TagProgress →
    emits env (MkMessage "stream" "" "" (requestIDForEmit env) (streamIDForEmit env) "" 0 ""
                (Some (with_progress env (body_of (SystemMeta (Some env) MetaSysUpdate))))).

Lemma emit_message_emits env msg e : emit_message env = (Return (Ok msg), e) → emits env msg.
Proof.
  unfold emit_message. cbv zeta.
  destruct (String.eqb_spec (EffectiveTag (Some env)) Tags.TagRequestAction) as [Ht|_].
  { destruct (blank_spec (SystemMetaString (Some env) MetaSysAction)); [done|].
    destruct (Cut _ _) as [[svc mth]|] eqn:Hcut; [|done].
    destruct (blank_spec svc), (blank_spec mth); try done. cbn [orb].
    destruct (SystemMeta (Some env) MetaSysArgs) as [args|] eqn:Ha.
    - destruct (normalizeBody _ _) as [b|] eqn:Hb; [|done]. apply normalizeBody_of in Hb as ->. rewrite <-Ha.
      intros [= <- _]. by apply emits_call.
    - intros [= <- _]. change (∅ : gmap string any) with (body_of None). rewrite <-Ha. by apply emits_call. }
  destruct (String.eqb_spec (EffectiveTag (Some env)) Tags.TagResponseSuccess) as [Ht|_].
  { destruct (SystemMeta (Some env) MetaSysResult) as [r|] eqn:Hr; [|done].
    destruct (normalizeBody _ _) as [b|] eqn:Hb; [|done]. apply normalizeBody_of in Hb as ->. rewrite <-Hr.
    intros [= <- _]. by apply emits_success. }
  destruct (String.eqb_spec (EffectiveTag (Some env)) Tags.TagResponseError) as [Ht|_].
  { destruct (SystemMeta (Some env) MetaSysCode) as [c|] eqn:Hc; [|done].
    destruct (blank_spec (SystemMetaString (Some env) MetaSysMessage)) as [|Hm]; [done|].
    destruct (parseErrorCode c) as [code|] eqn:Hp; [|done]. intros [= <- _].
    eapply emits_failure; [done..|]. apply SystemMetaString_Some; [done|]. intros E0. by rewrite E0 in Hm. }
  destruct (String.eqb_spec (Tags.ParseTagFamily (EffectiveTag (Some env))) Tags.TagProgress) as [Ht|_]; [|done].
  unfold emit_progress. cbv zeta. destruct (SystemMeta (Some env) MetaSysUpdate) as [u|] eqn:Hu.
  - destruct (normalizeBody _ _) as [b|] eqn:Hb; [|done]. apply normalizeBody_of in Hb as ->. rewrite <-Hu.
    intros [= <- _]. by apply emits_progress.
  - destruct (_ && _); [done|]. intros [= <- _]. change (∅ : gmap string any) with (body_of None).
    rewrite <-Hu. by apply emits_progress.
Qed.

(** The message of a tag, and a key of its envelope's metadata. *)
Definition arrives (m : grpcMessage) (tag : string) (env0 env' : Envelope) : Prop :=
  describes (norm_message m) tag ∧ Tag env0 = "" ∧
  env' = stamp Name version (TrimSpace (RequestID m)) ProtocolName
           (ingested_as (norm_message m) (TrimSpace (RequestID m)) tag env0).

Lemma arrives_tag m tag env0 env' : arrives m tag env0 env' → EffectiveTag (Some env') = tag.
Proof.
  intros (Hd & Ht0 & ->). rewrite (EffectiveTag_stamp _ _ _ _ _ tag); [destruct Hd; by vm_compute| |by apply ingested_as_tag].
  unfold ingested_as, ingested_call, ingested_success, ingested_failure, ingested_progress, with_request_id, with_percentage.
  repeat case_match; done.
Qed.

Lemma arrives_meta m tag env0 env' k : arrives m tag env0 env' → k ≠ MetaKeyAdapter →
  SystemMeta (Some env') k = SystemMeta (Some (ingested_as (norm_message m) (TrimSpace (RequestID m)) tag env0)) k.
Proof. intros (_ & _ & ->). apply SystemMeta_stamp. Qed.

Ltac arrived H :=
  rewrite (arrives_meta _ _ _ _ _ H) by done;
  first [ progress change (ingested_as ?m ?sid Tags.TagRequestAction ?e) with (ingested_call m e)
        | progress change (ingested_as ?m ?sid Tags.TagResponseSuccess ?e) with (ingested_success m sid e)
        | progress change (ingested_as ?m ?sid Tags.TagResponseError ?e) with (ingested_failure m sid e)
        | progress change (ingested_as ?m ?sid Tags.TagProgressUpdate ?e) with (ingested_progress m sid e) ];
  unfold ingested_call, ingested_success, ingested_failure, ingested_progress;
  ingested_meta; cbn [norm_message Service Method RequestID StreamID Code Message Body];
  rewrite ?norm_body.

Lemma call_carries env service method env0 env' :
  EffectiveTag (Some env) = Tags.TagRequestAction →
  Cut (TrimSpace (SystemMetaString (Some env) MetaSysAction)) "/" = Some (service, method) →
  arrives (MkMessage "unary" (TrimSpace service) (TrimSpace method) (requestIDForEmit env) "" "" 0 ""
    (Some (body_of (SystemMeta (Some env) MetaSysArgs)))) Tags.TagRequestAction env0 env' → carries env env'.
Proof.
  intros Ht Hcut Har. left. rewrite (arrives_tag _ _ _ _ Har). split_and!; [done..| |].
  - exists service, method. split; [done|]. arrived Har. by rewrite !TrimSpace_idem.
  - by arrived Har.
Qed.

Lemma success_carries env env0 env' : TrimSpace (requestIDForEmit env) ≠ "" →
  EffectiveTag (Some env) = Tags.TagResponseSuccess →
  arrives (MkMessage "unary" "" "" (requestIDForEmit env) "" "OK" 0 ""
    (Some (body_of (SystemMeta (Some env) MetaSysResult)))) Tags.TagResponseSuccess env0 env' → carries env env'.
Proof.
  intros Hr Ht Har. right. left. rewrite (arrives_tag _ _ _ _ Har). split_and!; [done..| |].
  - exists (requestIDForEmit env). split; [apply requestIDForEmit_named|].
    arrived Har. by apply with_request_id_set.
  - by arrived Har.
Qed.

Lemma failure_carries env c code message env0 env' : TrimSpace (requestIDForEmit env) ≠ "" →
  EffectiveTag (Some env) = Tags.TagResponseError →
  SystemMeta (Some env) MetaSysCode = Some c → parseErrorCode c = Ok code →
  SystemMeta (Some env) MetaSysMessage = Some (AString message) →
  arrives (MkMessage "unary" "" "" (requestIDForEmit env) "" "ERROR" code message None)
    Tags.TagResponseError env0 env' → carries env env'.
Proof.
  intros Hr Ht Hc Hp Hm Har. right. right. left. rewrite (arrives_tag _ _ _ _ Har). split_and!; [done..| | |].
  - exists (requestIDForEmit env). split; [apply requestIDForEmit_named|].
    arrived Har. by apply with_request_id_set.
  - rewrite Hm. by arrived Har.
  - exists c, code. split_and!; [done|by apply parseErrorCode_value|]. by arrived Har.
Qed.

Lemma progress_carries env env0 env' : TrimSpace (requestIDForEmit env) ≠ "" →
  Tags.ParseTagFamily (EffectiveTag (Some env)) = Tags.TagProgress →
  arrives (MkMessage "stream" "" "" (requestIDForEmit env) (streamIDForEmit env) "" 0 ""
    (Some (with_progress env (body_of (SystemMeta (Some env) MetaSysUpdate))))) Tags.TagProgressUpdate env0 env' →
  carries env env'.
Proof.
  intros Hr Ht Har. right. right. right. rewrite (arrives_tag _ _ _ _ Har). split_and!; [done..| | |].
  - exists (requestIDForEmit env). split; [apply requestIDForEmit_named|].
    arrived Har. by apply with_request_id_set.
  - eexists. split; [by arrived Har|]. split; [|intros k Hk];
      by rewrite lookup_fmap, ?with_progress_told, ?with_progress_other.
  - exists (streamIDForEmit env). split; [apply streamIDForEmit_named|]. by arrived Har.
Qed.

Lemma grpc_emits_carries env msg : TrimSpace (ID env) ≠ "" → emits env msg →
  ∃ tag, describes (norm_message msg) tag ∧ ∀ env0 env', arrives msg tag env0 env' → carries env env'.
Proof.
  intros Hid Hemit. pose proof (requestIDForEmit_not_blank env Hid) as Hrid.
  destruct Hemit as [svc mth Ht Hcut Hs Hm|Ht|c code message Ht Hc Hp Hmsg|Ht]; eexists; split;
    try (intros env0 env'; by eauto using call_carries, success_carries, failure_carries, progress_carries).
  - apply describes_call; cbn [norm_message Type_ Service Method Status]; rewrite ?TrimSpace_idem; by try vm_compute.
  - apply describes_success; by vm_compute.
  - apply describes_failure; by vm_compute.
  - apply describes_progress; [by vm_compute|]. by apply streamIDForEmit_not_blank.
Qed.

(** ** Properties *)

(** The gRPC adapter's validation is complete: [Ingest] accepts exactly what
    [Validate] accepts, the unary calls, replies and stream messages of its
    table, and the envelope it returns has the tag of that table. *)
Theorem grpc_Ingest_accepts `{!UuidLaws} raw meta w :
  four_digit_year (env_now (S (w_steps w))) →
  (is_ok (run (Ingest raw meta) w).1 = true ↔ Validate raw = None) ∧
  ∀ env, (run (Ingest raw meta) w).1 = Ok env →
    ∃ msg, unmarshal raw = Some msg ∧ describes msg (EffectiveTag (Some env)).
Proof.
  intros Ht. destruct (Validate raw) as [e|] eqn:Hv.
  { unfold Ingest. rewrite Hv. split; [done|]. by intros env [=]. }
  apply grpc_Validate_iff in Hv as (msg & tag & Hu & Hd).
  destruct (grpc_run_Ingest raw meta w msg tag Ht Hu Hd) as (env0 & Hdr & _ & ->). split; [done|].
  intros env [= <-]. exists msg. split; [done|]. rewrite (EffectiveTag_stamp _ _ _ _ _ tag);
    [|apply (ingested_as_drafted _ _ _ _ _ _ Hdr)|by apply ingested_as_tag].
  assert (TrimSpace tag = tag) as -> by (destruct Hd; by vm_compute). done.
Qed.

(** C21 The gRPC adapter panics on exactly the envelopes of a progress tag that
    have no update in their metadata but a JSON object, not empty, as
    content: their entries are assigned to a nil map. *)
Theorem Emit_panics env :
  (∃ p, (Emit (Some env)).1 = Panic p) ↔
  Tags.ParseTagFamily (EffectiveTag (Some env)) = Tags.TagProgress ∧
  SystemMeta (Some env) MetaSysUpdate = None ∧ ∃ m, content_map (Content env) = Some m ∧ m ≠ ∅.
Proof.
  rewrite Emit_panic_iff. destruct (emit_message_cases env) as [[Hf ->]|[Hf [[x Hx] _]]].
  - rewrite emit_progress_panics. tauto.
  - rewrite Hx. split; [by intros [p ?]|tauto].
Qed.

(** Emitting changes the envelope it is given in one case: for a progress
    tag, when the update in its metadata tells no progress and the metadata
    hold a numeric percentage, that percentage is added to the update. *)
Theorem Emit_changes env :
  (Emit (Some env)).2 =
  Some (if String.eqb (Tags.ParseTagFamily (EffectiveTag (Some env))) Tags.TagProgress then
          match SystemMeta (Some env) MetaSysUpdate with
          | Some (AMap body) => SetSystemMeta env MetaSysUpdate (AMap (with_progress env body))
          | _ => env
          end
        else env).
Proof.
  assert ((Emit (Some env)).2 = Some (emit_message env).2) as -> by by cbn; destruct (emit_message env).
  f_equal. destruct (emit_message_cases env) as [[Hf ->]|[Hf [_ ->]]].
  - rewrite Hf. cbn [String.eqb]. unfold emit_progress. cbv zeta. change (String.eqb Tags.TagProgress Tags.TagProgress) with true.
    destruct (SystemMeta (Some env) MetaSysUpdate) as [[]|]; try done. by destruct (_ && _).
  - by destruct (String.eqb_spec (Tags.ParseTagFamily (EffectiveTag (Some env))) Tags.TagProgress).
Qed.

(** C16 Emitting through one gRPC adapter and ingesting at another: when the
    emitted message is one JSON can carry, the envelope that arrives has the
    tag of the one that left (a progress tag arrives as [progress.update]),
    and with it the action and its arguments, the result, the error code and
    message, or the update with its progress and stream, and the request a
    reply or an update belongs to. *)
Theorem grpc_Ingest_Emit `{!UuidLaws} env raw meta w :
  TrimSpace (ID env) ≠ "" → (∀ msg e, emit_message env = (Return (Ok msg), e) → message_ok msg) →
  (Emit (Some env)).1 = Return (Ok raw) → four_digit_year (env_now (S (w_steps w))) →
  ∃ env', (run (Ingest raw meta) w).1 = Ok env' ∧ carries env env'.
Proof.
  intros Hid Hok Hraw Ht. cbn in Hraw. destruct (emit_message env) as [[[msg|]|] e] eqn:Hmsg; try done.
  destruct (grpc_message_round_trip msg (Hok _ _ eq_refl)) as (t & Htree & Hu). cbn in Hraw.
  unfold marshal in Hraw. rewrite Htree in Hraw. injection Hraw as <-. apply emit_message_emits in Hmsg.
  destruct (grpc_emits_carries env msg Hid Hmsg) as (tag & Hd & Hc).
  destruct (grpc_run_Ingest _ meta w _ tag Ht Hu Hd) as (env0 & (_ & _ & _ & Ht0 & _) & _ & ->).
  eexists. split; [reflexivity|]. by apply (Hc env0).
Qed.
End Grpc.
End Grpc.
