(* ===== verification/A2a.v ===== *)
(** * The A2A adapter

    [backend/internal/adapter/a2a/a2a.go]. *)

From S2P Require Import Prelude.
From S2P Require Import GoStrings.
From S2P Require Import Protocol.
From S2P Require Import GoTime.
From S2P Require Import GoValue.
From S2P Require Import Envelope.
From S2P Require Import Uuid.
From S2P Require Import Schema.
From S2P Require Import Invariant.
From S2P Require Import World.
From S2P Require Import JsonString.
From S2P Require Import Json.
From S2P Require Import FloatText.
From S2P Require Import JsonValue.
From S2P Require Import AdapterBase.

Open Scope string_scope.
Open Scope Z_scope.

Module A2a.

Definition Name := "a2a".
Definition version := "1.0.0".
Definition ProtocolName := "a2a-json".

Record a2aMessage := MkMessage {
  Method : string;
  Id : any;
  Params : option (gmap string any)
}.

(** ** The struct as JSON *)
Definition zero_message := MkMessage "" ANil None.

Definition message_fields : list (@field a2aMessage) :=
  [("method", string_field (λ v m, MkMessage v (Id m) (Params m)));
   ("id", any_field (λ v m, MkMessage (Method m) v (Params m)));
   ("params", map_field Params (λ v m, MkMessage (Method m) (Id m) v))].

(** [var msg a2aMessage; json.Unmarshal(raw, &msg)] *)
Definition of_tree (t : json) : option a2aMessage := decode_struct false message_fields t zero_message.
Definition unmarshal (raw : string) : option a2aMessage := parse raw ≫= of_tree.

Definition message_tree (m : a2aMessage) : option json :=
  id ← tree_of (Id m);
  params ← map_tree (Params m);
  Some (JObj ([("method", JStr (Method m))]
              ++ omitempty (is_nil (Id m)) "id" id
              ++ omitempty (is_empty_map (Params m)) "params" params)%list).

(** ** Helpers *)
Definition asString (v : any) : string :=
  match v with
  | ANil => ""
  | AString s => s
  | v => Sprint v
  end.

(** [strings.TrimSpace(asString(m[key]))]; an absent key reads as nil. *)
Definition text_of (m : gmap string any) (key : string) : string :=
  TrimSpace (asString (default ANil (m !! key))).

Definition nestedMap (parent : gmap string any) (key : string) : option (gmap string any) :=
  match parent !! key with
  | Some (AMap child) => Some child
  | _ => None
  end.

Definition sourceIDFromA2AID (id : any) : string :=
  match id with ANil => "" | id => Sprint id end.

Definition hasAnyToken (text : string) (tokens : list string) : bool := existsb (Contains text) tokens.

Definition dataIntentTokens : list string :=
  ["data"; "fetch"; "retrieve"; "lookup"; "search"; "find"; "query"; "list"; "show"; "read"; "load"; "pull"; "report"].

Definition mustMarshalString (v : any) : string := default "{}" (Marshal v).

(** The value [json.Unmarshal] leaves behind when it reports an error: a
    number out of range is nil. *)
Fixpoint of_json_lossy (t : json) : any :=
  match t with
  | JNull => ANil
  | JBool b => ABool b
  | JNum lit => default ANil (AFloat <$> ParseFloat lit)
  | JStr s => AString s
  | JArr l => AList (map of_json_lossy l)
  | JObj l => AMap (of_members (map (λ kv, (kv.1, of_json_lossy kv.2)) l))
  end.

(** [m := map[string]any{}; _ = json.Unmarshal([]byte(content), &m)]: the
    error is ignored, and what was read before it is kept. *)
Definition parseContentMap (content : string) : gmap string any :=
  match parse content with
  | Some (JObj l) => of_members (map (λ kv, (kv.1, of_json_lossy kv.2)) l)
  | _ => ∅
  end.

(** One part of a message, when it is a text that is not blank. *)
Definition part_text (partRaw : any) : option string :=
  match partRaw with
  | AMap partMap =>
      if negb (String.eqb (text_of partMap "type") "text") then None
      else let text := text_of partMap "text" in
           if negb (String.eqb text "") then Some text else None
  | _ => None
  end.

Definition extractA2AMessageText (message : gmap string any) : string :=
  match message !! "parts" with
  | Some (AList parts) =>
      let texts := omap part_text parts in
      match texts with
      | [] => text_of message "text"
      | _ => Join texts (String "010" "")
      end
  | _ => text_of message "text"
  end.

Definition capability `{UnicodeTables} (item : any) : option string :=
  let v := TrimSpace (asString item) in
  if negb (String.eqb v "") then Some (ToLower v) else None.

Definition extractCapabilities `{UnicodeTables} (params : gmap string any) : list string :=
  match params !! "capabilities" with
  | Some (AList list) => omap capability list
  | _ => []
  end.

Definition Validate (raw : string) : option goerr :=
  if String.eqb raw "" then Some (NewError "raw message is empty") else
  match unmarshal raw with
  | None => Some (WrapError "invalid json" (ExternalError "json"))
  | Some msg =>
      let method := TrimSpace (Method msg) in
      if String.eqb method "" then Some (NewError "method field is required")
      else if existsb (String.eqb method) ["message/send"; "agent/card"; "task/create"; "task/update"] then None
      else Some (NewError ("unsupported a2a method: " +:+ Method msg))
  end.

(** ** Ingest *)
Section Ingest.
Context {UT : UnicodeTables}.

(** [if v, ok := src[from]; ok { dst[to] = v }] *)
Definition copy (src : gmap string any) (from to : string) (dst : gmap string any) : gmap string any :=
  match src !! from with Some v => <[to := v]> dst | None => dst end.

Definition ingestMessageSend (params : gmap string any) : result goerr (string * gmap string any) :=
  match nestedMap params "message" with
  | None => Err (NewError "message/send params.message is required")
  | Some message =>
      let text := extractA2AMessageText message in
      let capabilities := extractCapabilities params in
      let intent := ToLower (text +:+ " " +:+ Join capabilities " ") in
      let tag := if hasAnyToken intent dataIntentTokens then Tags.TagRequestData else Tags.TagRequestAction in
      let payload := {[ "message" := AString text; "raw_message" := AMap message ]} in
      let payload := copy message "messageId" "message_id" payload in
      let payload := copy message "taskId" "task_id" payload in
      let payload := copy message "contextId" "context_id" payload in
      Ok (tag, payload)
  end.

Definition ingestAgentCard (params : gmap string any) : result goerr (gmap string any) :=
  let name := text_of params "name" in
  if String.eqb name "" then Err (NewError "agent/card params.name is required") else
  Ok {[ "name" := AString name;
        "description" := AString (text_of params "description");
        "capabilities" := AStrings (extractCapabilities params);
        "endpoint" := AString (text_of params "endpoint") ]}.

Definition ingestTaskCreate (params : gmap string any) : result goerr (gmap string any) :=
  let taskID := text_of params "taskId" in
  if String.eqb taskID "" then Err (NewError "task/create params.taskId is required") else
  let payload := {[ "action" := AString "task.create"; "task_id" := AString taskID ]} in
  let status := text_of params "status" in
  let payload := if negb (String.eqb status "") then <["status" := AString status]> payload else payload in
  Ok (copy params "result" "result" payload).

(** [if _, ok := payload[key]; !ok { payload[key] = v }] *)
Definition provide (key : string) (v : any) (payload : gmap string any) : gmap string any :=
  match payload !! key with Some _ => payload | None => <[key := v]> payload end.

Definition ingestTaskUpdate (params : gmap string any) : result goerr (string * gmap string any) :=
  let taskID := text_of params "taskId" in
  if String.eqb taskID "" then Err (NewError "task/update params.taskId is required") else
  let status := text_of params "status" in
  if String.eqb status "" then Err (NewError "task/update params.status is required") else
  let payload := {[ "task_id" := AString taskID; "status" := AString status ]} in
  let payload := copy params "result" "result" payload in
  if String.eqb status "completed" then Ok (Tags.TagResponseSuccess, payload)
  else if String.eqb status "failed" then
    let payload := match payload !! "result" with
                   | Some (AMap resultMap) =>
                       copy resultMap "code" "code" (copy resultMap "message" "message" payload)
                   | _ => payload
                   end in
    let payload := provide "message" (AString "task failed") payload in
    let payload := provide "code" (AString "failed") payload in
    Ok (Tags.TagResponseError, payload)
  else if String.eqb status "in_progress" then Ok (Tags.TagProgressUpdate, payload)
  else Err (NewError ("unsupported task/update status: " +:+ status)).

(** [if v, ok := payload[key]; ok { SetSystemMeta(env, metaKey, v); delete(payload, key) }] *)
Definition move (key metaKey : string) (x : gmap string any * Envelope) : gmap string any * Envelope :=
  let '(payload, env) := x in
  match payload !! key with
  | Some v => (delete key payload, SetSystemMeta env metaKey v)
  | None => (payload, env)
  end.

Definition with_payload (x : gmap string any * Envelope) : Envelope :=
  let '(payload, env) := x in with_content env (mustMarshalString (AMap payload)).

(** The [switch] of [Ingest]. *)
Definition ingest_message (msg : a2aMessage) (env : Envelope) : result goerr Envelope :=
  let params := default ∅ (Params msg) in
  let tagged tag := SetSystemMeta env MetaSysTag (AString tag) in
  if String.eqb (Method msg) "message/send" then
    x <-? ingestMessageSend params ;;
    Ok (with_payload (x.2, tagged x.1))
  else if String.eqb (Method msg) "agent/card" then
    payload <-? ingestAgentCard params ;;
    Ok (with_payload (payload, tagged Tags.TagContextProvide))
  else if String.eqb (Method msg) "task/create" then
    payload <-? ingestTaskCreate params ;;
    let x := (payload, tagged Tags.TagRequestAction) in
    let x := move "action" MetaSysAction x in
    let x := move "task_id" MetaSysTaskID x in
    let x := move "status" MetaSysStatus x in
    let x := move "result" MetaSysResult x in
    Ok (with_payload x)
  else if String.eqb (Method msg) "task/update" then
    y <-? ingestTaskUpdate params ;;
    let x := (y.2, tagged y.1) in
    let x := move "task_id" MetaSysTaskID x in
    let x := move "status" MetaSysStatus x in
    let x := move "result" MetaSysResult x in
    let x := move "message" MetaSysMessage x in
    let x := move "code" MetaSysCode x in
    Ok (with_payload x)
  else Err (NewError ("unsupported a2a method: " +:+ Method msg)).

Context {U : UuidPkg} {C : Citext} {E : Env}.

Definition Ingest (raw : string) (meta : TransportMeta) : prog (result goerr Envelope) :=
  match Validate raw with
  | Some e => Ret (Err e)
  | None =>
      match unmarshal raw with
      | None => Ret (Err (WrapError "unmarshal a2a message" (ExternalError "json")))
      | Some msg =>
          let! env := new_envelope Name meta in
          Ret (env <-? ingest_message msg env ;;
               finish Name version (sourceIDFromA2AID (Id msg)) ProtocolName env)
      end
  end.

(** ** Emit *)
Definition requestIDForEmit (env : Envelope) : any :=
  match SystemMeta (Some env) MetaSysRequestID with
  | Some requestID => if is_nil requestID then AString (ID env) else requestID
  | None => AString (ID env)
  end.

Definition meta_text (env : Envelope) (key : string) : string := TrimSpace (SystemMetaString (Some env) key).

Definition taskIDForEmit (env : Envelope) : string :=
  let taskID := meta_text env MetaSysTaskID in
  if negb (String.eqb taskID "") then taskID else
  let requestID := meta_text env MetaSysRequestID in
  if negb (String.eqb requestID "") then requestID else ID env.

Definition outboundMessageText (env : Envelope) : string :=
  let text := meta_text env MetaSysMessage in
  if negb (String.eqb text "") then text else
  let text := text_of (parseContentMap (Content env)) "message" in
  if negb (String.eqb text "") then text else
  let action := meta_text env MetaSysAction in
  if negb (String.eqb action "") then action else
  if negb (String.eqb (Content env) "") then Content env else EffectiveTag (Some env).

Definition buildOutboundMessagePayload (env : Envelope) : gmap string any :=
  let message := {[ "role" := AString "user";
                    "parts" := AList [AMap {[ "type" := AString "text"; "text" := AString (outboundMessageText env) ]}];
                    "messageId" := AString (ID env) ]} in
  let taskID := meta_text env MetaSysTaskID in
  let message := if negb (String.eqb taskID "") then <["taskId" := AString taskID]> message else message in
  let contextID := text_of (parseContentMap (Content env)) "context_id" in
  if negb (String.eqb contextID "") then <["contextId" := AString contextID]> message else message.

Definition task_params (env : Envelope) (status : string) : gmap string any :=
  {[ "taskId" := AString (taskIDForEmit env); "status" := AString status ]}.

(** The [result] of a failed task. *)
Definition failure_result (env : Envelope) : gmap string any :=
  let result := match SystemMeta (Some env) MetaSysCode with Some code => {[ "code" := code ]} | None => ∅ end in
  let message := SystemMetaString (Some env) MetaSysMessage in
  if negb (String.eqb message "") then <["message" := AString message]> result else result.

(** The [result] of a task in progress: what the content tells of it, for
    want of a result in the metadata. *)
Definition progress_result (env : Envelope) : option any :=
  match SystemMeta (Some env) MetaSysResult with
  | Some result => Some result
  | None =>
      let contentMap := parseContentMap (Content env) in
      if negb (bool_decide (contentMap = ∅)) then
        match contentMap !! "progress" with
        | Some progress => Some progress
        | None => Some (AMap contentMap)
        end
      else None
  end.

(** [params["result"] = ...], if there is one. *)
Definition with_result (result : option any) (params : gmap string any) : gmap string any :=
  match result with Some v => <["result" := v]> params | None => params end.

Definition emit_message (env : Envelope) : result goerr a2aMessage :=
  let tag := EffectiveTag (Some env) in
  let update status result :=
    MkMessage "task/update" (requestIDForEmit env) (Some (with_result result (task_params env status))) in
  if HasPrefix tag (Tags.TagRequest +:+ ".") then
    Ok (MkMessage "message/send" (requestIDForEmit env) (Some {[ "message" := AMap (buildOutboundMessagePayload env) ]}))
  else if String.eqb tag Tags.TagResponseSuccess then
    Ok (update "completed" (SystemMeta (Some env) MetaSysResult))
  else if String.eqb tag Tags.TagResponseError then
    let result := failure_result env in
    Ok (update "failed" (if negb (bool_decide (result = ∅)) then Some (AMap result) else None))
  else if HasPrefix tag (Tags.TagProgress +:+ ".") then
    Ok (update "in_progress" (progress_result env))
  else if String.eqb tag Tags.TagContextProvide then
    Err (NewError "unsupported envelope tag for a2a emit: context-provide")
  else Err (NewError ("unsupported envelope tag for a2a emit: " +:+ tag)).

Definition Emit (env : option Envelope) : result goerr string :=
  match env with
  | None => Err (NewError "envelope is nil")
  | Some env =>
      msg <-? emit_message env ;;
      match message_tree msg with
      | None => Err (WrapError "marshal a2a message" (ExternalError "json"))
      | Some t => Ok (print t)
      end
  end.
(** ** The messages the adapter accepts, and their tags *)
Definition intent_tag (params message : gmap string any) : string :=
  if hasAnyToken (ToLower (extractA2AMessageText message +:+ " " +:+ Join (extractCapabilities params) " "))
       dataIntentTokens
  then Tags.TagRequestData else Tags.TagRequestAction.

Definition status_tags : list (string * string) :=
  [("completed", Tags.TagResponseSuccess); ("failed", Tags.TagResponseError); ("in_progress", Tags.TagProgressUpdate)].

Inductive describes (m : a2aMessage) : string → Prop :=
| describes_message message : Method m = "message/send" →
    nestedMap (default ∅ (Params m)) "message" = Some message →
    describes m (intent_tag (default ∅ (Params m)) message)
| describes_card : Method m = "agent/card" → text_of (default ∅ (Params m)) "name" ≠ "" →
    describes m Tags.TagContextProvide
| describes_create : Method m = "task/create" → text_of (default ∅ (Params m)) "taskId" ≠ "" →
    describes m Tags.TagRequestAction
| describes_update tag : Method m = "task/update" → text_of (default ∅ (Params m)) "taskId" ≠ "" →
    (text_of (default ∅ (Params m)) "status", tag) ∈ status_tags → describes m tag.

Lemma intent_tag_cases params message :
  intent_tag params message = Tags.TagRequestData ∨ intent_tag params message = Tags.TagRequestAction.
Proof. unfold intent_tag. case_match; auto. Qed.

Lemma status_tags_cases (P : string → string → Prop) status tag : (status, tag) ∈ status_tags →
  P "completed" Tags.TagResponseSuccess → P "failed" Tags.TagResponseError →
  P "in_progress" Tags.TagProgressUpdate → P status tag.
Proof. unfold status_tags. intros H ???. repeat (apply elem_of_cons in H as [[= -> ->]|H]; [done|]). by apply elem_of_nil in H. Qed.

Lemma a2a_describes_valid m tag : describes m tag → TrimSpace tag = tag ∧ Tags.IsValidTag tag = true.
Proof.
  destruct 1 as [msg ? ?|?|?|? ? ? Ht]; [|split; by vm_compute|split; by vm_compute|].
  - destruct (intent_tag_cases (default ∅ (Params m)) msg) as [-> | ->]; split; by vm_compute.
  - apply (status_tags_cases (λ _ t, TrimSpace t = t ∧ Tags.IsValidTag t = true) _ _ Ht); split; by vm_compute.
Qed.

(** ** The envelope *)
Lemma move_drafted meta ts key mk x : drafted Name meta ts x.2 → drafted Name meta ts (move key mk x).2.
Proof. destruct x as [p env]. intros Hd. unfold move. by destruct (p !! key). Qed.

Lemma with_payload_drafted meta ts x : drafted Name meta ts x.2 → drafted Name meta ts (with_payload x).
Proof. by destruct x. Qed.

Lemma move_meta key mk x k : k ≠ mk → SystemMeta (Some (move key mk x).2) k = SystemMeta (Some x.2) k.
Proof.
  destruct x as [p env]. intros Hk. unfold move. destruct (p !! key); [|done]. cbn [snd].
  rewrite SystemMeta_set. by rewrite decide_False.
Qed.

Lemma with_payload_meta x k : SystemMeta (Some (with_payload x)) k = SystemMeta (Some x.2) k.
Proof. by destruct x. Qed.

Lemma a2a_ingest_message_result msg env env' meta ts :
  drafted Name meta ts env → ingest_message msg env = Ok env' →
  drafted Name meta ts env' ∧
  ∃ tag, describes msg tag ∧ SystemMeta (Some env') MetaSysTag = Some (AString tag).
Proof.
  intros Hd. unfold ingest_message. cbv zeta. set (params := default ∅ (Params msg)).
  destruct (String.eqb_spec (Method msg) "message/send") as [Hm|_].
  { unfold ingestMessageSend. destruct (nestedMap params "message") as [message|] eqn:Hn; [|done].
    cbn [fst snd]. intros <-%(inj Ok). split; [by apply with_payload_drafted|].
    eexists. split; [by eapply describes_message|]. by rewrite with_payload_meta; cbn [snd]; system_meta. }
  destruct (String.eqb_spec (Method msg) "agent/card") as [Hm|_].
  { unfold ingestAgentCard. destruct (String.eqb_spec (text_of params "name") ""); [done|].
    intros <-%(inj Ok). split; [done|]. eexists. split; [by eapply describes_card|]. rewrite with_payload_meta. cbn [snd]. by system_meta. }
  destruct (String.eqb_spec (Method msg) "task/create") as [Hm|_].
  { destruct (ingestTaskCreate params) as [payload|] eqn:Hp; [|done]. intros <-%(inj Ok). split.
    - apply with_payload_drafted. by do 4 apply move_drafted.
    - exists Tags.TagRequestAction. rewrite with_payload_meta, !move_meta by done. cbn [snd]. split; [|by system_meta].
      apply describes_create; [done|]. unfold ingestTaskCreate in Hp. fold params.
      by destruct (String.eqb_spec (text_of params "taskId") ""). }
  destruct (String.eqb_spec (Method msg) "task/update") as [Hm|_]; [|done].
  destruct (ingestTaskUpdate params) as [[tag payload]|] eqn:Hp; [|done]. intros <-%(inj Ok). split.
  - apply with_payload_drafted. by do 5 apply move_drafted.
  - exists tag. rewrite with_payload_meta, !move_meta by done. cbn [fst snd]. split; [|by system_meta].
    unfold ingestTaskUpdate in Hp. destruct (String.eqb_spec (text_of params "taskId") ""); [done|].
    apply describes_update; [done..|]. fold params. unfold status_tags.
    destruct (String.eqb_spec (text_of params "status") ""); [done|]. cbv zeta in Hp.
    destruct (String.eqb_spec (text_of params "status") "completed") as [->|_]; [injection Hp as <- _; set_solver|].
    destruct (String.eqb_spec (text_of params "status") "failed") as [->|_]; [injection Hp as <- _; set_solver|].
    destruct (String.eqb_spec (text_of params "status") "in_progress") as [->|_]; [injection Hp as <- _; set_solver|done].
Qed.

Lemma ingestTaskUpdate_ok params tag :
  text_of params "taskId" ≠ "" → (text_of params "status", tag) ∈ status_tags →
  ∃ payload, ingestTaskUpdate params = Ok (tag, payload).
Proof.
  intros Ht Hs. unfold ingestTaskUpdate. destruct (String.eqb_spec (text_of params "taskId") ""); [done|].
  cbv zeta. remember (text_of params "status") as status eqn:Hst. clear Hst. revert Hs. unfold status_tags. intros Hs.
  repeat (apply elem_of_cons in Hs as [[= -> ->]|Hs]; [by eexists|]). by apply elem_of_nil in Hs.
Qed.

Lemma describes_ingests msg tag env : describes msg tag → is_ok (ingest_message msg env) = true.
Proof.
  unfold ingest_message. cbv zeta. destruct 1 as [message Hm Hn|Hm Hn|Hm Hn|tag Hm Hn Hs]; rewrite Hm.
  - unfold ingestMessageSend. by rewrite Hn.
  - unfold ingestAgentCard. by destruct (String.eqb_spec (text_of (default ∅ (Params msg)) "name") "").
  - unfold ingestTaskCreate. by destruct (String.eqb_spec (text_of (default ∅ (Params msg)) "taskId") "").
  - by destruct (ingestTaskUpdate_ok _ _ Hn Hs) as [payload ->].
Qed.

Lemma a2a_Ingest_ingested raw meta w :
  spec (Ingest raw meta) w (on_ok (λ env _, ingested Name ProtocolName meta env)).
Proof.
  unfold Ingest. destruct (Validate raw); [by apply spec_ret|].
  destruct (unmarshal raw) as [msg|]; [|by apply spec_ret].
  eapply spec_bind; [apply new_envelope_spec|]. intros env w1 _ Hd. apply spec_ret.
  destruct (ingest_message _ env) as [env1|] eqn:Hi; [|done].
  destruct (finish _ _ _ _ env1) as [env2|] eqn:Hf; [|done]. cbn.
  eapply finish_ingested; [|exact Hf]. exact (proj1 (a2a_ingest_message_result _ _ _ _ _ Hd Hi)).
Qed.

Definition adapter : Adapter :=
  MkAdapter Name ProtocolName Validate Ingest (λ env, (Return (Emit env), env)) a2a_Ingest_ingested.

Definition methods : list string := ["message/send"; "agent/card"; "task/create"; "task/update"].

Lemma describes_method m tag : describes m tag → Method m ∈ methods.
Proof. unfold methods. destruct 1 as [? E1 ?|E1 ?|E1 ?|? E1 ? ?]; rewrite E1; set_solver. Qed.

Lemma Validate_methods raw msg : unmarshal raw = Some msg → TrimSpace (Method msg) ∈ methods → Validate raw = None.
Proof.
  intros Hu Hm. unfold Validate. destruct (String.eqb_spec raw "") as [->|_]; [by vm_compute in Hu|].
  rewrite Hu. cbv zeta. remember (TrimSpace (Method msg)) as method eqn:E0. clear E0. unfold methods in Hm.
  repeat (apply elem_of_cons in Hm as [->|Hm]; [done|]). by apply elem_of_nil in Hm.
Qed.

Lemma methods_trimmed m : m ∈ methods → TrimSpace m = m.
Proof. unfold methods. intros Hm. repeat (apply elem_of_cons in Hm as [->|Hm]; [by vm_compute|]). by apply elem_of_nil in Hm. Qed.

Lemma describes_Validate raw msg tag : unmarshal raw = Some msg → describes msg tag → Validate raw = None.
Proof.
  intros Hu Hd%describes_method. apply (Validate_methods raw msg); [done|]. by rewrite methods_trimmed.
Qed.

Lemma Validate_unmarshal raw : Validate raw = None → ∃ msg, unmarshal raw = Some msg.
Proof. unfold Validate. destruct (String.eqb raw ""); [done|]. destruct (unmarshal raw) as [msg|]; [by exists msg|done]. Qed.

Lemma a2a_run_Ingest `{!UuidLaws} raw meta w msg :
  four_digit_year (env_now (S (w_steps w))) → Validate raw = None → unmarshal raw = Some msg →
  ∃ env0, drafted Name meta (Format (env_now (S (w_steps w)))) env0 ∧ Metadata env0 = Some ∅ ∧
    run (Ingest raw meta) w =
      (env <-? ingest_message msg env0 ;; Ok (stamp Name version (sourceIDFromA2AID (Id msg)) ProtocolName env),
       tick (tick w)).
Proof.
  intros Ht Hv Hu. destruct (run_new_envelope Name meta w) as (env0 & Hrun & Hd & _ & Hmd).
  exists env0. split; [done|]. split; [done|]. unfold Ingest. rewrite Hv, Hu, run_bind, Hrun. cbn [run].
  destruct (ingest_message _ env0) as [env1|e] eqn:Hi; [|done].
  destruct (a2a_ingest_message_result _ _ _ _ _ Hd Hi) as (Hd1 & tag & Htag%a2a_describes_valid & Hm).
  destruct Htag as [Htr Hval]. erewrite finish_total; [done|done..|exact Hm|by rewrite Htr].
Qed.

(** ** The message, written and read back *)
Record message_ok (m : a2aMessage) : Prop := {
  ok_method : valid_utf8 (Method m) = true;
  ok_id : portable 9999 (Id m);
  ok_params : ∀ p, Params m = Some p → portable 9999 (AMap p)
}.

Definition norm_message (m : a2aMessage) : a2aMessage :=
  MkMessage (Method m) (json_norm (Id m)) (norm_map (Params m)).

Lemma a2a_message_round_trip m : message_ok m →
  ∃ t, message_tree m = Some t ∧ unmarshal (print t) = Some (norm_message m).
Proof.
  intros [Hm Hi Hp]. destruct (portable_tree _ _ Hi) as (ti & Hti & Hfi & Hbi).
  destruct (map_tree_fits 9999 _ Hp) as (tp & Htp & Hfp); [done|].
  unfold message_tree. rewrite Hti, Htp. eexists. split; [reflexivity|].
  unfold unmarshal. rewrite fits_parse.
  2:{ apply (fits_obj 9999); [done|]. repeat (apply Forall_app; split); try apply fits_omitempty; try done.
      by apply Forall_singleton. }
  cbn [mbind option_bind]. unfold of_tree. rewrite scrub_obj. cbn [decode_struct].
  decode_using ltac:(cbn [Method Id Params zero_message]). done.
Qed.

(** ** Reading payloads and metadata back *)
Lemma copy_lookup src from to dst :
  copy src from to dst !! to = match src !! from with Some v => Some v | None => dst !! to end.
Proof. unfold copy. destruct (src !! from); [by rewrite lookup_insert_eq|done]. Qed.

Lemma copy_lookup_ne src from to dst k : k ≠ to → copy src from to dst !! k = dst !! k.
Proof. intros Hk. unfold copy. destruct (src !! from); [by rewrite lookup_insert_ne|done]. Qed.

Lemma provide_lookup key v m : provide key v m !! key = Some (default v (m !! key)).
Proof. unfold provide. destruct (m !! key) as [x|] eqn:Hk; [done|]. by rewrite lookup_insert_eq. Qed.

Lemma provide_lookup_ne key v m k : k ≠ key → provide key v m !! k = m !! k.
Proof. intros Hk. unfold provide. destruct (m !! key); [done|]. by rewrite lookup_insert_ne. Qed.

Lemma move_lookup key mk x k : k ≠ key → (move key mk x).1 !! k = x.1 !! k.
Proof.
  destruct x as [p env]. intros Hk. unfold move. destruct (p !! key); [|done]. cbn [fst]. by rewrite lookup_delete_ne.
Qed.

Lemma move_meta_set key mk x :
  SystemMeta (Some (move key mk x).2) mk = match x.1 !! key with Some v => Some v | None => SystemMeta (Some x.2) mk end.
Proof.
  destruct x as [p env]. unfold move. cbn [fst snd]. destruct (p !! key); [|done]. cbn [snd].
  rewrite SystemMeta_set. by rewrite decide_True.
Qed.

Lemma with_result_lookup result params : params !! "result" = None → with_result result params !! "result" = result.
Proof. intros Hp. unfold with_result. destruct result; [by rewrite lookup_insert_eq|done]. Qed.

Lemma with_result_lookup_ne result params k : k ≠ "result" → with_result result params !! k = params !! k.
Proof. intros Hk. unfold with_result. destruct result; [by rewrite lookup_insert_ne|done]. Qed.

(** The parameters of an update, as the reader has them. *)
Lemma update_params_lookup env status result :
  ∃ params, norm_map (Some (with_result result (task_params env status))) = Some params ∧
    text_of params "taskId" = TrimSpace (taskIDForEmit env) ∧ text_of params "status" = TrimSpace status ∧
    params !! "result" = json_norm <$> result.
Proof.
  unfold norm_map, is_empty_map. rewrite bool_decide_eq_false_2.
  2:{ cbn. intros He. assert (with_result result (task_params env status) !! "status" = None) as Hn by by rewrite He.
      rewrite with_result_lookup_ne in Hn by done. by vm_compute in Hn. }
  eexists. split; [reflexivity|]. unfold text_of. rewrite !lookup_fmap, !with_result_lookup_ne by done.
  split; [done|]. split; [done|]. by rewrite with_result_lookup.
Qed.

(** ** A task update, ingested *)
Definition moved (payload : gmap string any) (env : Envelope) : Envelope :=
  with_payload (move "code" MetaSysCode (move "message" MetaSysMessage (move "result" MetaSysResult
    (move "status" MetaSysStatus (move "task_id" MetaSysTaskID (payload, env)))))).

Lemma ingest_update msg tag payload env :
  Method msg = "task/update" → ingestTaskUpdate (default ∅ (Params msg)) = Ok (tag, payload) →
  ingest_message msg env = Ok (moved payload (SetSystemMeta env MetaSysTag (AString tag))).
Proof. intros Hm Hp. unfold ingest_message. cbv zeta. rewrite Hm. cbn [String.eqb]. by rewrite Hp. Qed.

Definition moved_keys : list (string * string) :=
  [("task_id", MetaSysTaskID); ("status", MetaSysStatus); ("result", MetaSysResult);
   ("message", MetaSysMessage); ("code", MetaSysCode)].

(** Each entry of the payload ends up under its key of the metadata. *)
Lemma moved_meta payload env key mk : (key, mk) ∈ moved_keys → SystemMeta (Some env) mk = None →
  SystemMeta (Some (moved payload env)) mk = payload !! key.
Proof.
  unfold moved_keys, moved. intros Hin Hn. rewrite with_payload_meta.
  repeat (apply elem_of_cons in Hin as [[= -> ->]|Hin];
    [rewrite ?move_meta by done; rewrite move_meta_set, ?move_lookup by done; cbn [fst];
     destruct (payload !! _); [done|]; rewrite ?move_meta by done; exact Hn|]).
  by apply elem_of_nil in Hin.
Qed.

(** What a failed task's result tells of the failure. *)
Definition failure_entry (result : option any) (key : string) : option any :=
  match result with Some (AMap m) => m !! key | _ => None end.

Definition failure_payload (result : option any) (base : gmap string any) : gmap string any :=
  match result with
  | Some (AMap resultMap) => copy resultMap "code" "code" (copy resultMap "message" "message" base)
  | _ => base
  end.

Lemma failure_payload_lookup_ne result base k :
  k ≠ "code" → k ≠ "message" → failure_payload result base !! k = base !! k.
Proof. intros ??. unfold failure_payload. destruct result as [[]|]; by rewrite ?copy_lookup_ne. Qed.

Lemma failure_payload_lookup result base k : k = "code" ∨ k = "message" → base !! k = None →
  failure_payload result base !! k = failure_entry result k.
Proof.
  intros Hk Hn. unfold failure_payload, failure_entry. destruct result as [[]|]; try done.
  destruct Hk as [-> | ->]; [rewrite copy_lookup, copy_lookup_ne by done|rewrite copy_lookup_ne, copy_lookup by done];
    rewrite Hn; by destruct (m !! _).
Qed.

Lemma update_payload_spec params status tag :
  text_of params "taskId" ≠ "" → text_of params "status" = status → (status, tag) ∈ status_tags →
  ∃ payload, ingestTaskUpdate params = Ok (tag, payload) ∧
    payload !! "task_id" = Some (AString (text_of params "taskId")) ∧
    payload !! "status" = Some (AString status) ∧ payload !! "result" = params !! "result" ∧
    (status = "failed" →
       payload !! "message" = Some (default (AString "task failed") (failure_entry (params !! "result") "message")) ∧
       payload !! "code" = Some (default (AString "failed") (failure_entry (params !! "result") "code"))).
Proof.
  intros Ht Hst Hs. unfold ingestTaskUpdate. destruct (String.eqb_spec (text_of params "taskId") ""); [done|].
  cbv zeta. rewrite Hst. set (base := copy params "result" "result" _).
  assert (base !! "task_id" = Some (AString (text_of params "taskId"))) as H1 by by (unfold base; rewrite copy_lookup_ne).
  assert (base !! "status" = Some (AString status)) as H2 by by (unfold base; rewrite copy_lookup_ne).
  assert (base !! "result" = params !! "result") as H3.
  { unfold base. rewrite copy_lookup. by destruct (params !! "result"). }
  assert (base !! "message" = None ∧ base !! "code" = None) as [H4 H5] by by (unfold base; rewrite !copy_lookup_ne).
  clearbody base. unfold status_tags in Hs.
  apply elem_of_cons in Hs as [[= -> ->]|Hs]; [exists base; by split_and!|].
  apply elem_of_cons in Hs as [[= -> ->]|Hs].
  2:{ apply list_elem_of_singleton in Hs as [= -> ->]. exists base. by split_and!. }
  eexists. split; [reflexivity|]. rewrite H3. fold (failure_payload (params !! "result") base).
  split; [|split; [|split; [|intros _; split]]].
  1, 2, 3: by rewrite !provide_lookup_ne, failure_payload_lookup_ne by done.
  - rewrite provide_lookup_ne, provide_lookup by done. rewrite failure_payload_lookup by auto. done.
  - rewrite provide_lookup, provide_lookup_ne by done. rewrite failure_payload_lookup by auto. done.
Qed.

(** ** Emitting, then ingesting *)

(** The tag a request arrives with: a request for data when its text has one
    of these words in it, in whatever case. *)
Definition data_words : list string :=
  ["data"; "fetch"; "retrieve"; "lookup"; "search"; "find"; "query"; "list"; "show"; "read"; "load"; "pull"; "report"].

Definition request_tag (text : string) : string :=
  if existsb (Contains (ToLower (text +:+ " "))) data_words then "request.data" else "request.action".

(** The task an update is about: the one the metadata name, or else the
    request they name, or else the envelope itself. *)
Definition task_told (env : Envelope) : string → Prop :=
  named env MetaSysTaskID (named env MetaSysRequestID (eq (ID env))).

(** The text of a request: the message of the metadata, or else of the
    content, the action, the content as it is, the tag. *)
Definition text_told (env : Envelope) : string → Prop :=
  named env MetaSysMessage (λ s,
    let message := text_of (parseContentMap (Content env)) "message" in
    message ≠ "" ∧ s = message ∨
    message = "" ∧ named env MetaSysAction
      (λ s, Content env ≠ "" ∧ s = Content env ∨ Content env = "" ∧ s = EffectiveTag (Some env)) s).

(** The result of a progress: the one of the metadata, or else the progress
    the content tells, or else all the content tells. *)
Definition progress_told (env : Envelope) : option any :=
  let content := parseContentMap (Content env) in
  match SystemMeta (Some env) MetaSysResult, content !! "progress" with
  | Some result, _ => Some result
  | None, Some progress => Some progress
  | None, None => if decide (content = ∅) then None else Some (AMap content)
  end.

(** A task update arrives with the task, the status, the result. *)
Definition carries_update (env env' : Envelope) (status tag' : string) (result : option any) : Prop :=
  let meta' := SystemMeta (Some env') in
  EffectiveTag (Some env') = tag' ∧
  (∃ task, task_told env task ∧ meta' MetaSysTaskID = Some (AString (TrimSpace task))) ∧
  meta' MetaSysStatus = Some (AString status) ∧
  meta' MetaSysResult = json_norm <$> result.

Definition carries (env env' : Envelope) : Prop :=
  let tag := EffectiveTag (Some env) in
  let meta' := SystemMeta (Some env') in
  HasPrefix tag "request." = true ∧
    (∃ text, text_told env text ∧ EffectiveTag (Some env') = request_tag (TrimSpace text))
  ∨ tag = Tags.TagResponseSuccess ∧
    carries_update env env' "completed" tag (SystemMeta (Some env) MetaSysResult)
  ∨ tag = Tags.TagResponseError ∧
    (∃ result, carries_update env env' "failed" tag result) ∧
    meta' MetaSysMessage = Some (AString (let message := SystemMetaString (Some env) MetaSysMessage in
                                          if String.eqb message "" then "task failed" else message)) ∧
    meta' MetaSysCode = Some (json_norm (default (AString "failed") (SystemMeta (Some env) MetaSysCode)))
  ∨ HasPrefix tag "progress." = true ∧
    carries_update env env' "in_progress" "progress.update" (progress_told env).

(** The helpers of [Emit] against these. *)
Lemma meta_text_named env key (other : string → Prop) s :
  (meta_text env key ≠ "" → s = SystemMetaString (Some env) key) →
  (meta_text env key = "" → other s) → named env key other s.
Proof. apply named_string. Qed.

Lemma taskIDForEmit_told env : ∃ task, task_told env task ∧ TrimSpace (taskIDForEmit env) = TrimSpace task.
Proof.
  unfold taskIDForEmit. cbv zeta. unfold task_told.
  destruct (String.eqb_spec (meta_text env MetaSysTaskID) "") as [Ht|Ht]; cbn [negb].
  - destruct (String.eqb_spec (meta_text env MetaSysRequestID) "") as [Hr|Hr]; cbn [negb].
    + exists (ID env). split; [|done]. apply meta_text_named; [done|]. intros _. by apply meta_text_named.
    + eexists. split; [|apply TrimSpace_idem]. apply meta_text_named; [done|]. intros _. by apply meta_text_named.
  - eexists. split; [|apply TrimSpace_idem]. by apply meta_text_named.
Qed.

Lemma outboundMessageText_told env : ∃ text, text_told env text ∧ TrimSpace (outboundMessageText env) = TrimSpace text.
Proof.
  unfold outboundMessageText. cbv zeta. unfold text_told.
  destruct (String.eqb_spec (meta_text env MetaSysMessage) "") as [Hm|Hm]; cbn [negb].
  2:{ eexists. split; [|apply TrimSpace_idem]. by apply meta_text_named. }
  destruct (String.eqb_spec (text_of (parseContentMap (Content env)) "message") "") as [Hc|Hc]; cbn [negb].
  2:{ eexists. split; [|reflexivity]. apply meta_text_named; [done|]. intros _. by left. }
  destruct (String.eqb_spec (meta_text env MetaSysAction) "") as [Ha|Ha]; cbn [negb].
  2:{ eexists. split; [|apply TrimSpace_idem]. apply meta_text_named; [done|]. intros _. right. split; [done|].
      by apply meta_text_named. }
  eexists. split; [|reflexivity]. apply meta_text_named; [done|]. intros _. right. split; [done|].
  apply meta_text_named; [done|]. intros _. destruct (String.eqb_spec (Content env) ""); auto.
Qed.

Lemma progress_result_told env : progress_result env = progress_told env.
Proof.
  unfold progress_result, progress_told. destruct (SystemMeta (Some env) MetaSysResult); [done|]. cbv zeta.
  case_bool_decide as He; cbn [negb].
  - rewrite He, lookup_empty. by rewrite decide_True.
  - destruct (_ !! "progress"); [done|]. by rewrite decide_False.
Qed.

Lemma taskIDForEmit_not_blank env : TrimSpace (ID env) ≠ "" → TrimSpace (taskIDForEmit env) ≠ "".
Proof.
  intros Hid. unfold taskIDForEmit, meta_text. cbv zeta.
  destruct (String.eqb_spec (TrimSpace (SystemMetaString (Some env) MetaSysTaskID)) "") as [_|Ht]; cbn [negb];
    [|by rewrite TrimSpace_idem].
  destruct (String.eqb_spec (TrimSpace (SystemMetaString (Some env) MetaSysRequestID)) "") as [_|Hr]; cbn [negb];
    [done|by rewrite TrimSpace_idem].
Qed.

(** An update among the parameters of a task, ingested. *)
Lemma update_arrives env status tag result sid env0 :
  TrimSpace (ID env) ≠ "" → (status, tag) ∈ status_tags → Tag env0 = "" → Metadata env0 = Some ∅ →
  ∃ env1, ingest_message (norm_message (MkMessage "task/update" (requestIDForEmit env)
      (Some (with_result result (task_params env status))))) env0 = Ok env1 ∧
    let env' := stamp Name version sid ProtocolName env1 in
    carries_update env env' status tag result ∧
    (status = "failed" →
       SystemMeta (Some env') MetaSysMessage =
         Some (default (AString "task failed") (failure_entry (json_norm <$> result) "message")) ∧
       SystemMeta (Some env') MetaSysCode =
         Some (default (AString "failed") (failure_entry (json_norm <$> result) "code"))).
Proof.
  intros Hid Hs Ht0 Hmd. destruct (update_params_lookup env status result) as (params & Hp & Htask & Hst & Hr).
  assert (TrimSpace status = status) as Htrim.
  { by apply (status_tags_cases (λ status _, TrimSpace status = status) _ _ Hs); vm_compute. }
  rewrite Htrim in Hst. pose proof (taskIDForEmit_not_blank env Hid) as Htb. rewrite <-Htask in Htb.
  destruct (update_payload_spec params status tag Htb Hst Hs) as (payload & Hpay & H1 & H2 & H3 & H4).
  eexists. split; [apply ingest_update; [done|]; cbn [norm_message Params]; rewrite Hp; exact Hpay|].
  set (env1 := SetSystemMeta env0 MetaSysTag (AString tag)). cbv zeta.
  assert (∀ key mk, (key, mk) ∈ moved_keys → mk ≠ MetaKeyAdapter → mk ≠ MetaSysTag →
    SystemMeta (Some (stamp Name version sid ProtocolName (moved payload env1))) mk = payload !! key) as Hm.
  { intros key mk Hin Ha Ht. rewrite SystemMeta_stamp by done. apply moved_meta; [done|].
    unfold env1. rewrite SystemMeta_set, decide_False by done. unfold SystemMeta. cbn. by rewrite Hmd. }
  unfold carries_update. unfold moved_keys in Hm. split.
  - rewrite (EffectiveTag_stamp _ _ _ _ _ tag).
    + split; [by apply (status_tags_cases (λ _ t, TrimSpace t = t) _ _ Hs); vm_compute|].
      destruct (taskIDForEmit_told env) as (task & Htold & Heq). rewrite <-H2, <-Hr, <-H3.
      split; [exists task; split; [exact Htold|rewrite <-Heq, <-Htask, <-H1]|split]; apply Hm; try done; set_solver.
    + unfold moved, with_payload, move. repeat case_match; simplify_eq; done.
    + unfold moved. rewrite with_payload_meta, !move_meta by done. cbn [snd]. unfold env1. by system_meta.
  - intros Hf. destruct (H4 Hf) as [H5 H6]. rewrite <-Hr, <-H5, <-H6. split; apply Hm; try done; set_solver.
Qed.

Lemma text_of_norm m key s : m !! key = Some (AString s) → text_of (json_norm <$> m) key = TrimSpace s.
Proof. intros Hm. unfold text_of. by rewrite lookup_fmap, Hm. Qed.

Lemma text_part text :
  part_text (json_norm (AMap {[ "type" := AString "text"; "text" := AString text ]})) =
  if String.eqb (TrimSpace text) "" then None else Some (TrimSpace text).
Proof.
  cbn [json_norm part_text].
  rewrite (text_of_norm _ "type" "text"), (text_of_norm _ "text" text) by done.
  change (TrimSpace "text") with "text". cbn [negb String.eqb]. cbv zeta. by destruct (String.eqb _ _).
Qed.

(** A request, ingested: only its text decides. *)
Lemma outbound_params env :
  ∃ params message, norm_map (Some {[ "message" := AMap (buildOutboundMessagePayload env) ]}) = Some params ∧
    nestedMap params "message" = Some message ∧ extractCapabilities params = [] ∧
    extractA2AMessageText message = TrimSpace (outboundMessageText env).
Proof.
  unfold norm_map, is_empty_map. rewrite bool_decide_eq_false_2.
  2:{ cbn. intros He. apply (f_equal (lookup "message")) in He. by rewrite lookup_singleton_eq in He. }
  set (payload := buildOutboundMessagePayload env).
  exists {[ "message" := AMap (json_norm <$> payload) ]}, (json_norm <$> payload).
  split; [cbn; by rewrite map_fmap_singleton|]. split; [unfold nestedMap; by rewrite lookup_singleton_eq|].
  split; [unfold extractCapabilities; by rewrite lookup_singleton_ne|].
  assert (∀ k, k ≠ "taskId" → k ≠ "contextId" → payload !! k =
    ({[ "role" := AString "user";
        "parts" := AList [AMap {[ "type" := AString "text"; "text" := AString (outboundMessageText env) ]}];
        "messageId" := AString (ID env) ]} : gmap string any) !! k) as Hk.
  { intros k Ht Hc. unfold payload, buildOutboundMessagePayload. cbv zeta.
    destruct (negb _), (negb _); by rewrite ?lookup_insert_ne by done. }
  unfold extractA2AMessageText. rewrite lookup_fmap, Hk by done.
  rewrite lookup_insert_ne, lookup_insert_eq by done.
  change (json_norm <$> Some ?v) with (Some (json_norm v)). cbv match.
  change (json_norm (AList [?v])) with (AList [json_norm v]). cbv match.
  change (omap part_text [?v]) with (match part_text v with Some y => [y] | None => [] end).
  rewrite text_part.
  assert (text_of (json_norm <$> payload) "text" = "") as Hnone by (unfold text_of; by rewrite lookup_fmap, Hk).
  destruct (String.eqb_spec (TrimSpace (outboundMessageText env)) "") as [->|]; [exact Hnone|done].
Qed.

(** ** What [emit_message] makes *)
Lemma request_tag_intent params message text :
  extractCapabilities params = [] → extractA2AMessageText message = text →
  intent_tag params message = request_tag text.
Proof. intros Hc <-. unfold intent_tag, request_tag. by rewrite Hc. Qed.

Lemma failure_result_entries env :
  let result := failure_result env in
  let r := if negb (bool_decide (result = ∅)) then Some (AMap result) else None in
  let message := SystemMetaString (Some env) MetaSysMessage in
  failure_entry (json_norm <$> r) "message" = (if String.eqb message "" then None else Some (AString message)) ∧
  failure_entry (json_norm <$> r) "code" = json_norm <$> SystemMeta (Some env) MetaSysCode.
Proof.
  cbv zeta. assert (failure_result env !! "message" =
      (if String.eqb (SystemMetaString (Some env) MetaSysMessage) "" then None
       else Some (AString (SystemMetaString (Some env) MetaSysMessage))) ∧
    failure_result env !! "code" = SystemMeta (Some env) MetaSysCode) as [H1 H2].
  { unfold failure_result. cbv zeta. destruct (String.eqb _ _), (SystemMeta (Some env) MetaSysCode) as [c|]; cbn [negb];
      rewrite ?lookup_insert_eq, ?lookup_insert_ne, ?lookup_singleton_eq, ?lookup_singleton_ne, ?lookup_empty by done; done. }
  case_bool_decide as He; cbn [negb].
  - rewrite He, lookup_empty in H1, H2. rewrite <-H1, <-H2. done.
  - change (json_norm <$> Some (AMap ?m)) with (Some (AMap (json_norm <$> m))). cbn [failure_entry].
    rewrite !lookup_fmap, H1, H2. split; [by destruct (String.eqb _ _)|done].
Qed.

Lemma ingest_outbound env env0 : Tag env0 = "" →
  ∃ env1, ingest_message (norm_message (MkMessage "message/send" (requestIDForEmit env)
      (Some {[ "message" := AMap (buildOutboundMessagePayload env) ]}))) env0 = Ok env1 ∧
    ∀ sid, EffectiveTag (Some (stamp Name version sid ProtocolName env1)) =
      request_tag (TrimSpace (outboundMessageText env)).
Proof.
  intros Ht0. destruct (outbound_params env) as (params & message & Hp & Hn & Hc & Htext).
  unfold norm_message. cbn [Method Id Params]. rewrite Hp. unfold ingest_message. cbv zeta.
  cbn [Method Params]. change (String.eqb "message/send" "message/send") with true. cbv match.
  change (default ∅ (Some params)) with params. unfold ingestMessageSend. rewrite Hn. cbn [fst snd].
  fold (intent_tag params message). rewrite (request_tag_intent _ _ _ Hc Htext).
  eexists. split; [reflexivity|]. intros sid.
  rewrite (EffectiveTag_stamp _ _ _ _ _ (request_tag (TrimSpace (outboundMessageText env)))); [|done|].
  - unfold request_tag. by destruct (existsb _ _); vm_compute.
  - rewrite with_payload_meta. cbn [snd]. by system_meta.
Qed.

(** A message of one of the four kinds, on its way. *)
Lemma a2a_emits_carries env msg env0 sid :
  emit_message env = Ok msg → TrimSpace (ID env) ≠ "" → Tag env0 = "" → Metadata env0 = Some ∅ →
  Method msg ∈ methods ∧ ∃ env1, ingest_message (norm_message msg) env0 = Ok env1 ∧
    carries env (stamp Name version sid ProtocolName env1).
Proof.
  intros Hmsg Hid Ht0 Hmd. unfold emit_message in Hmsg. cbv zeta in Hmsg.
  destruct (HasPrefix (EffectiveTag (Some env)) (Tags.TagRequest +:+ ".")) eqn:Hreq.
  { apply (inj Ok) in Hmsg as <-. split; [unfold methods; set_solver|].
    destruct (ingest_outbound env env0 Ht0) as (env1 & Hi & Htag). exists env1. split; [done|]. left.
    split; [exact Hreq|]. destruct (outboundMessageText_told env) as (text & Htext & Heq).
    exists text. split; [exact Htext|]. rewrite <-Heq. apply Htag. }
  destruct (String.eqb_spec (EffectiveTag (Some env)) Tags.TagResponseSuccess) as [Ht|_].
  { apply (inj Ok) in Hmsg as <-. split; [unfold methods; set_solver|].
    destruct (update_arrives env "completed" Tags.TagResponseSuccess (SystemMeta (Some env) MetaSysResult) sid env0)
      as (env1 & Hi & Hc & _); [done|unfold status_tags; set_solver|done..|].
    exists env1. split; [done|]. right. left. by rewrite Ht. }
  destruct (String.eqb_spec (EffectiveTag (Some env)) Tags.TagResponseError) as [Ht|_].
  { apply (inj Ok) in Hmsg as <-. split; [unfold methods; set_solver|].
    destruct (update_arrives env "failed" Tags.TagResponseError
      (if negb (bool_decide (failure_result env = ∅)) then Some (AMap (failure_result env)) else None) sid env0)
      as (env1 & Hi & Hc & Hf); [done|unfold status_tags; set_solver|done..|].
    exists env1. split; [done|]. right. right. left. rewrite Ht. split; [done|]. split; [by eexists|].
    destruct (Hf eq_refl) as [-> ->]. destruct (failure_result_entries env) as [-> ->].
    cbv zeta. split; [by destruct (String.eqb _ "")|by destruct (SystemMeta (Some env) MetaSysCode)]. }
  destruct (HasPrefix (EffectiveTag (Some env)) (Tags.TagProgress +:+ ".")) eqn:Hpro;
    [|case_match; discriminate Hmsg].
  apply (inj Ok) in Hmsg as <-. split; [unfold methods; set_solver|].
  destruct (update_arrives env "in_progress" Tags.TagProgressUpdate (progress_result env) sid env0)
    as (env1 & Hi & Hc & _); [done|unfold status_tags; set_solver|done..|].
  exists env1. split; [done|]. right. right. right. split; [exact Hpro|]. rewrite <-progress_result_told. exact Hc.
Qed.

(** ** Properties *)

(** C19 The A2A adapter accepts exactly the messages of its table, and the
    envelope it returns has the tag of the table: [message/send] becomes a
    request for data when its text or the capabilities name a word of data
    retrieval and a request for action otherwise, a task update the reply or
    the progress its status stands for.  The method must be spelled without
    surrounding white space, although [Validate] overlooks it. *)
Theorem a2a_Ingest_accepts `{!UuidLaws} raw meta w :
  four_digit_year (env_now (S (w_steps w))) →
  (is_ok (run (Ingest raw meta) w).1 = true ↔ ∃ msg tag, unmarshal raw = Some msg ∧ describes msg tag) ∧
  (∀ env, (run (Ingest raw meta) w).1 = Ok env →
     ∃ msg, unmarshal raw = Some msg ∧ describes msg (EffectiveTag (Some env))) ∧
  ∀ msg, unmarshal raw = Some msg → TrimSpace (Method msg) ∈ methods → TrimSpace (Method msg) ≠ Method msg →
    Validate raw = None ∧ is_ok (run (Ingest raw meta) w).1 = false.
Proof.
  intros Ht. assert (∀ env, (run (Ingest raw meta) w).1 = Ok env →
    ∃ msg, unmarshal raw = Some msg ∧ describes msg (EffectiveTag (Some env))) as Hok.
  { intros env Hrun. destruct (Validate raw) eqn:Hv; [unfold Ingest in Hrun; by rewrite Hv in Hrun|].
    destruct (Validate_unmarshal raw Hv) as [msg Hu]. exists msg. split; [done|].
    destruct (a2a_run_Ingest raw meta w msg Ht Hv Hu) as (env0 & Hd & _ & Hr). rewrite Hr in Hrun. cbn [fst] in Hrun.
    destruct (ingest_message msg env0) as [env1|] eqn:Hi; [|done]. apply (inj Ok) in Hrun as <-.
    destruct (a2a_ingest_message_result _ _ _ _ _ Hd Hi) as (Hd1 & tag & Htag & Hm).
    rewrite (EffectiveTag_stamp _ _ _ _ _ tag); [|apply Hd1|done]. by destruct (a2a_describes_valid _ _ Htag) as [-> _]. }
  assert (is_ok (run (Ingest raw meta) w).1 = true ↔ ∃ msg tag, unmarshal raw = Some msg ∧ describes msg tag) as Hiff.
  { split.
    - intros [env Hrun]%is_ok_inv. destruct (Hok env Hrun) as (msg & Hu & Hd). by exists msg, (EffectiveTag (Some env)).
    - intros (msg & tag & Hu & Hd). pose proof (describes_Validate _ _ _ Hu Hd) as Hv.
      destruct (a2a_run_Ingest raw meta w msg Ht Hv Hu) as (env0 & _ & _ & ->). cbn [fst].
      pose proof (describes_ingests msg tag env0 Hd) as Hi. by destruct (ingest_message msg env0). }
  split; [exact Hiff|]. split; [exact Hok|]. intros msg Hu Hm Hne.
  split; [by eapply Validate_methods|]. apply not_true_iff_false. rewrite Hiff.
  intros (msg' & tag & Hu' & Hd%describes_method%methods_trimmed). congruence.
Qed.

(** C14 Emitting through one A2A adapter and ingesting at another: when the
    emitted message is one JSON can carry, replies and progress arrive as
    the update of the same task, with the status and the tag of the one that
    left (any progress tag as [progress.update]) and the result, error code
    and message; of a request only the text matters: it arrives as a request
    for data or for action by the words in it, whatever it was before. *)
Theorem a2a_Ingest_Emit `{!UuidLaws} env raw meta w :
  TrimSpace (ID env) ≠ "" → (∀ msg, emit_message env = Ok msg → message_ok msg) →
  Emit (Some env) = Ok raw → four_digit_year (env_now (S (w_steps w))) →
  ∃ env', (run (Ingest raw meta) w).1 = Ok env' ∧ carries env env'.
Proof.
  intros Hid Hok Hraw Ht. cbn in Hraw. destruct (emit_message env) as [msg|] eqn:Hmsg; [|done].
  destruct (a2a_message_round_trip msg (Hok _ eq_refl)) as (t & Htree & Hu). rewrite Htree in Hraw.
  apply (inj Ok) in Hraw as <-.
  assert (Validate (print t) = None) as Hv.
  { destruct (a2a_emits_carries env msg (MkEnvelope "" "" "" "" "" (Some ∅) "") "" Hmsg Hid eq_refl eq_refl) as [Hm _].
    eapply Validate_methods; [exact Hu|]. cbn [norm_message Method]. by rewrite methods_trimmed. }
  destruct (a2a_run_Ingest _ meta w _ Ht Hv Hu) as (env0 & (_ & _ & _ & Ht0 & _) & Hmd & ->).
  destruct (a2a_emits_carries env msg env0 (sourceIDFromA2AID (Id (norm_message msg))) Hmsg Hid Ht0 Hmd)
    as (_ & env1 & -> & Hc). by eexists.
Qed.
End Ingest.
End A2a.
