(* ===== verification/Adapters.v ===== *)
(** * The adapters of the server

    The map of adapters [main] builds ([backend/cmd/bobberd/main.go]), and
    what a sender that is no agent, or a message without a target, becomes. *)

From S2P Require Import Prelude.
From S2P Require Import GoStrings.
From S2P Require Import GoValue.
From S2P Require Import Envelope.
From S2P Require Import Uuid.
From S2P Require Import Schema.
From S2P Require Import World.
From S2P Require Import AdapterBase.
From S2P Require Import Mcp.
From S2P Require Import Grpc.
From S2P Require Import A2a.

Open Scope string_scope.
Open Scope Z_scope.

(** [uuid.Parse] refuses what is in none of its notations: a label and a
    colon before the digits (only [urn:uuid:] is read), a word. *)
Class UuidForms `{U : UuidPkg} : Prop := {
  Parse_label name s : name ∈ ["mcp"; "a2a"; "grpc"] → is_ok (uuid_Parse (name +:+ ":" +:+ s)) = false;
  Parse_broadcast : is_ok (uuid_Parse "broadcast") = false
}.

Section Adapters.
Context {FC : FloatConversion} {UT : UnicodeTables} {U : UuidPkg} {C : Citext} {E : Env}.

Definition main_adapters : gmap string Adapter :=
  {[ Mcp.Name := Mcp.adapter; A2a.Name := A2a.adapter; Grpc.Name := Grpc.adapter ]}.

Lemma main_adapters_names name adp :
  main_adapters !! name = Some adp → adapter_Name adp = name ∧ name ∈ ["mcp"; "a2a"; "grpc"].
Proof.
  unfold main_adapters. intros [[<- <-]|[_ H]]%lookup_insert_Some; [split; [done|set_solver]|].
  apply lookup_insert_Some in H as [[<- <-]|[_ H]]; [split; [done|set_solver]|].
  apply lookup_singleton_Some in H as [<- <-]. split; [done|set_solver].
Qed.

Context `{!UuidForms}.

(** An identifier for the sender needs an agent. *)
Lemma source_is_agent name meta u :
  name ∈ ["mcp"; "a2a"; "grpc"] → uuid_Parse (source name meta) = Ok u →
  TrimSpace (meta_AgentID meta) ≠ "" ∧ source name meta = TrimSpace (meta_AgentID meta).
Proof.
  intros Hn. unfold source. cbv zeta.
  destruct (String.eqb_spec (TrimSpace (meta_AgentID meta)) "") as [_|Ha]; [|done].
  pose proof (Parse_label name (if String.eqb (TrimSpace (meta_ConnectionID meta)) "" then "unknown"
                                else TrimSpace (meta_ConnectionID meta)) Hn) as Hp.
  intros Hu. by rewrite Hu in Hp.
Qed.

(** An identifier for the recipient needs the header. *)
Lemma target_is_header meta u :
  uuid_Parse (target meta) = Ok u →
  let header := TrimSpace (default "" (meta_Headers meta !! "X-Target-Agent")) in header ≠ "" ∧ target meta = header.
Proof.
  unfold target. cbv zeta.
  destruct (String.eqb_spec (TrimSpace (default "" (meta_Headers meta !! "X-Target-Agent"))) "") as [_|Ht]; [|done].
  intros Hu. pose proof Parse_broadcast as Hb. by rewrite Hu in Hb.
Qed.
End Adapters.
