(* ===== verification/Server.v ===== *)
(** * The server: requests, authentication, publication

    [backend/cmd/bobberd/main.go], part one: the application, the HTTP
    boundary, [authenticate], [publishAndAudit] and [defaultPersistMessage].

    A request reaches a handler as [net/http] and [encoding/json] deliver it:
    headers, query and path values, and a body that is either decoded or the
    error of [readJSON].  A response is a status and the value the handler
    passes to [writeJSON]; [RErr e] stands for the text [e.Error()]. *)

From S2P Require Import Prelude.
From S2P Require Import GoStrings.
From S2P Require Import Protocol.
From S2P Require Import GoTime.
From S2P Require Import GoValue.
From S2P Require Import Envelope.
From S2P Require Import Float64.
From S2P Require Import RateLimit.
From S2P Require Import Uuid.
From S2P Require Import Models.
From S2P Require Import Schema.
From S2P Require Import Invariant.
From S2P Require Import Statements.
From S2P Require Import World.
From S2P Require Import Repositories.
From S2P Require Import RepositorySpecs.
From S2P Require Import Conversation.
From S2P Require Import Registry.
From S2P Require Import Auth.
From S2P Require Import AdapterBase.

Open Scope string_scope.
Open Scope Z_scope.

Section Server.
Context {U : UuidPkg} {C : Citext} {E : Env} {UT : UnicodeTables}.
Context {B : Bcrypt} {A2 : Argon2} {J : Jwt}.

(** ** Requests and responses *)
Record Request := MkHttpRequest {
  (** [r.Header.Get], [r.URL.Query().Get]: the empty string when absent *)
  r_Header : string → string;
  r_Query : string → string;
  r_RemoteAddr : string
}.

(** The two values the middleware puts into the context. *)
Record Ctx := MkCtx { ctxUserID : option string; ctxAgentID : option string }.

(** The values handlers pass to [writeJSON]. *)
Inductive rval :=
| RStr (s : string) | RBool (b : bool) | RInt (z : Z) | RUuid (u : uuid)
(** a time in UTC, and one as the driver returns it, in the zone of the server *)
| RUTC (t : Z) | RTime (t : Z)
| RErr (e : goerr)
| RAgents (l : list Agent) | RGroup (g : ChatGroup) | RItems (l : list ConversationListItem)
| RMessages (l : list Message) | RRequest (r : ConnectionRequest) | RRequests (l : list ConnectionRequest)
| REntry (e : BlacklistEntry) | REntries (l : list BlacklistEntry)
| RList (l : list rval)
| RObj (fields : list (string * rval)).

Record Response := MkResponse { status : Z; body : rval }.

Definition StatusOK := 200.
Definition StatusCreated := 201.
Definition StatusAccepted := 202.
Definition StatusBadRequest := 400.
Definition StatusUnauthorized := 401.
Definition StatusNotFound := 404.
Definition StatusUnprocessableEntity := 422.
Definition StatusTooManyRequests := 429.
Definition StatusInternalServerError := 500.

Definition writeJSON (status : Z) (data : rval) : Response := MkResponse status data.
Definition writeError (status : Z) (message : rval) : Response :=
  writeJSON status (RObj [("error", message)]).

(** [v, _ := ctx.Value(key).(string); strings.TrimSpace(v)] *)
Definition contextString (v : option string) : string := TrimSpace (default "" v).

(** [strings.SplitN(strings.TrimSpace(header), " ", 2)] *)
Definition bearerToken (header : string) : string :=
  match Cut (TrimSpace header) " " with
  | None => ""
  | Some (scheme, rest) => if EqualFold_ascii scheme "bearer" then TrimSpace rest else ""
  end.

(** ** The application

    [persistMessage] is [defaultPersistMessage], as [main] sets it.  The
    limiter's buckets and the metric's counters are part of the world; the
    fields say whether a limiter and metrics are configured. *)
Record app := MkApp {
  authSvc : Auth.Service;
  registrySvc : Registry.Service;
  convSvc : Conversation.Service;
  adapters : gmap string Adapter;
  metrics : bool;
  limiter : bool
}.

(** ** Authentication *)

(** The second half of [authenticate]: the headers of an agent. *)
Definition authenticate_agent (a : app) (r : Request) : prog (result goerr Ctx) :=
  let agentID := TrimSpace (r_Header r "X-Agent-ID") in
  let secret := TrimSpace (r_Header r "X-API-Secret") in
  if String.eqb agentID "" || String.eqb secret "" then Ret (Err (NewError "invalid credentials")) else
  let! res := Auth.ValidateAPISecret (authSvc a) agentID secret in
  match res with
  | Ok agent => Ret (Ok (MkCtx (Some "") (Some (uuid_String (agent_ID agent)))))
  | Err _ => Ret (Err (NewError "invalid credentials"))
  end.

Definition authenticate (a : app) (r : Request) (allowJWT allowAgentSecret : bool)
    : prog (result goerr Ctx) :=
  let by_secret := if allowAgentSecret then authenticate_agent a r
                   else Ret (Err (NewError "invalid credentials")) in
  let token := bearerToken (r_Header r "Authorization") in
  if allowJWT && negb (String.eqb token "") then
    let! res := Auth.ValidateJWT (authSvc a) token in
    match res with
    | Ok userID => Ret (Ok (MkCtx (Some userID) None))
    | Err _ => by_secret
    end
  else by_secret.

Definition requireAuth (a : app) (allowJWT allowAgentSecret : bool)
    (next : Request → Ctx → prog Response) (r : Request) : prog Response :=
  let! res := authenticate a r allowJWT allowAgentSecret in
  match res with
  | Err e => Ret (writeError StatusUnauthorized (RErr e))
  | Ok ctx => next r ctx
  end.

Definition requireJWT (a : app) (next : Request → Ctx → prog Response) (r : Request) : prog Response :=
  requireAuth a true false next r.

(** ** Publication *)
Definition limiter_Allow (dimension key : string) : prog bool :=
  act (λ n w, let '(ok, l) := Ratelimit.Allow (w_limiter w) (env_now n) dimension key in
              (ok, MkWorld (w_db w) (w_steps w) (w_outbox w) l (w_rate_limited w))).

(** [a.metrics.RateLimited.WithLabelValues(dimension, key).Inc()] *)
Definition count_rate_limited (a : app) (dimension key : string) : prog unit :=
  if metrics a then
    act (λ n w, (tt, MkWorld (w_db w) (w_steps w) (w_outbox w) (w_limiter w)
                       ((dimension, key) :: w_rate_limited w)))
  else Ret tt.

(** One dimension of the limiter: allowed, or counted and refused. *)
Definition limit (a : app) (dimension key : string) (next : prog (result goerr uuid))
    : prog (result goerr uuid) :=
  let! ok := limiter_Allow dimension key in
  if negb ok then
    let! _ := count_rate_limited a dimension key in
    Ret (Err errRateLimited)
  else next.

(** The kind a message is stored with: an agent when there is one. *)
Definition sender_kind (id : uuid) : prog ParticipantType :=
  let! agent := Agents.GetByID id in
  Ret (if is_ok agent then ParticipantTypeAgent else ParticipantTypeUser).

(** The conversation of a message to [toID]: the group's, or the direct
    conversation with the sender. *)
Definition resolve_conversation (a : app) (fromID toID : uuid) (fromKind : ParticipantType)
    : prog (result goerr uuid) :=
  let! group := Groups.GetByID toID in
  match group with
  | Ok (MkGroup _ _ _ (Some conversationID) _) => Ret (Ok conversationID)
  | _ =>
      let! toKind := sender_kind toID in
      let! conv := Conversation.GetOrCreateDirect (convSvc a) fromID toID fromKind toKind in
      match conv with
      | Err e => Ret (Err (WrapError "resolve conversation" e))
      | Ok conv => Ret (Ok (conv_ID conv))
      end
  end.

Definition defaultPersistMessage (a : app) (env : Envelope) : prog (result goerr uuid) :=
  match uuid_Parse (From env) with
  | Err e => Ret (Err (WrapError "invalid from id" e))
  | Ok fromID =>
      match uuid_Parse (ID env) with
      | Err e => Ret (Err (WrapError "invalid message id" e))
      | Ok msgID =>
          let! ts := (match Parse (Timestamp env) with Some t => Ret t | None => time_Now end) in
          let! fromKind := sender_kind fromID in
          match uuid_Parse (To env) with
          | Err e => Ret (Err (WrapError "invalid to id" e))
          | Ok toID =>
              let? conversationID := resolve_conversation a fromID toID fromKind in
              let msg := MkMessage msgID fromID conversationID fromKind (Tag env) (Content env)
                           (Metadata env) ts in
              let! saved := Messages.Save msg in
              match saved with
              | Err e => Ret (Err (WrapError "save message" e))
              | Ok _ => Ret (Ok conversationID)
              end
          end
      end
  end.

Definition publishAndAudit (a : app) (env : Envelope) : prog (result goerr uuid) :=
  let persist := defaultPersistMessage a env in
  if negb (limiter a) then persist else
  limit a Ratelimit.DimensionAgent (Ratelimit.AgentKey (From env))
    (let tag_limit := limit a Ratelimit.DimensionTag (Ratelimit.TagKey (EffectiveTag (Some env))) persist in
     if HasPrefix (To env) "group:" then
       limit a Ratelimit.DimensionGroup (Ratelimit.GroupKey (TrimPrefix (To env) "group:")) tag_limit
     else tag_limit).

(** ** Specifications *)
Lemma authenticate_agent_behaves a r : behaves (authenticate_agent a r).
Proof.
  unfold authenticate_agent. cbv zeta. destruct (_ || _); [apply behaves_ret|].
  apply behaves_bind; [intros w; eapply spec_any, Auth.ValidateAPISecret_spec|].
  intros [x|e]; apply behaves_ret.
Qed.

Lemma authenticate_behaves a r j s : behaves (authenticate a r j s).
Proof.
  unfold authenticate. cbv zeta.
  assert (behaves (if s then authenticate_agent a r else Ret (Err (NewError "invalid credentials")))) as Hs.
  { destruct s; [apply authenticate_agent_behaves|apply behaves_ret]. }
  destruct (j && _); [|exact Hs].
  apply behaves_bind; [apply Auth.ValidateJWT_behaves|]. intros [u|e]; [apply behaves_ret|exact Hs].
Qed.

Lemma requireAuth_behaves a j s next r :
  (∀ r ctx, behaves (next r ctx)) → behaves (requireAuth a j s next r).
Proof.
  intros Hn. apply behaves_bind; [apply authenticate_behaves|].
  intros [ctx|e]; [apply Hn|apply behaves_ret].
Qed.

Lemma limiter_Allow_behaves d k : behaves (limiter_Allow d k).
Proof. intros w. apply spec_act_pure; [|done]. intros n w'. by destruct (Ratelimit.Allow _ _ _ _). Qed.

Lemma count_behaves a d k : behaves (count_rate_limited a d k).
Proof. unfold count_rate_limited. destruct (metrics a); [|apply behaves_ret]. intros w. by apply spec_act_pure. Qed.

Lemma sender_kind_behaves id : behaves (sender_kind id).
Proof.
  apply behaves_bind; [intros w; eapply spec_any, Agents_GetByID_spec|]. intros a. apply behaves_ret.
Qed.

Lemma limit_spec a d k next w (Q : uuid → World → Prop) :
  (∀ w', world_le w w' → spec next w' (on_ok Q)) → spec (limit a d k next) w (on_ok Q).
Proof.
  intros Hn. unfold limit. eapply spec_bind; [apply limiter_Allow_behaves|].
  intros ok w1 Hle1 _. destruct (negb ok); [|by apply Hn].
  eapply spec_bind; [apply count_behaves|]. intros _ w2 _ _. by apply spec_ret.
Qed.

(** Where a message between two entities belongs. *)
Definition belongs (fromID toID conv : uuid) (d : DB) : Prop :=
  (∃ g, chat_groups d !! toID = Some g ∧ group_ConversationID g = Some conv) ∨
  Conversation.direct_between fromID toID d conv.

Lemma belongs_le f t c d d' : db_le d d' → belongs f t c d → belongs f t c d'.
Proof.
  intros Hle [(g & Hg & Hc)|Hd]; [left|right; by eapply Conversation.direct_between_le].
  destruct (le_groups _ _ Hle _ _ Hg) as (? & ? & <-). by exists g.
Qed.

(** Where a message that was sent from the world [w] on is delivered: without
    faults in the conversation of the group of that identifier, when there was
    one; in the direct conversation when there is none. *)
Definition addressed (w : World) (fromID toID conv : uuid) (d : DB) : Prop :=
  (∀ g k, (∀ n, env_fault n = NoFault) → chat_groups (w_db w) !! toID = Some g → group_ConversationID g = Some k →
     conv = k) ∧
  (chat_groups d !! toID = None → Conversation.direct_between fromID toID d conv).

Lemma addressed_le f t c w w' d d' : world_le w w' → db_le d d' →
  belongs f t c d → addressed w' f t c d → addressed w f t c d'.
Proof.
  intros Hw Hd Hb [Hg _]. split.
  - intros g k Hno Ht Hk. destruct (le_groups _ _ Hw _ _ Ht) as (g' & Ht' & <-). by eapply Hg.
  - intros Hnone. destruct (belongs_le _ _ _ _ _ Hd Hb) as [(g & Ht & _)|Hdir]; [by rewrite Hnone in Ht|done].
Qed.

Lemma resolve_conversation_spec a f t k w :
  spec (resolve_conversation a f t k) w
    (on_ok (λ c w', belongs f t c (w_db w') ∧ addressed w f t c (w_db w'))).
Proof.
  unfold resolve_conversation. eapply spec_bind; [apply Groups_GetByID_finds|].
  intros group w1 Hle1 Hg.
  assert (((∀ n, env_fault n = NoFault) → ∀ g, chat_groups (w_db w) !! t = Some g → group_ConversationID g = None) →
    spec (let! toKind := sender_kind t in
      let! conv := Conversation.GetOrCreateDirect (convSvc a) f t k toKind in
      match conv with
      | Err e => Ret (Err (WrapError "resolve conversation" e))
      | Ok conv => Ret (Ok (conv_ID conv))
      end) w1 (on_ok (λ c w', belongs f t c (w_db w') ∧ addressed w f t c (w_db w')))) as Hdirect.
  { intros Hno. eapply spec_bind; [apply sender_kind_behaves|]. intros tk w2 _ _.
    eapply spec_bind; [apply Conversation.GetOrCreateDirect_spec|].
    intros [c|e] w3 _ Hc; apply spec_ret; [|done]. split; [by right|]. split; [|done].
    intros g cv Hft Hgr Hcv. rewrite (Hno Hft g Hgr) in Hcv. done. }
  assert (∀ g, chat_groups (w_db w) !! t = Some g → chat_groups (w_db w1) !! t = Some g) as Hstay.
  { intros g Hgr. by destruct (le_groups _ _ Hle1 _ _ Hgr) as (? & ? & <-). }
  destruct group as [[gid n o [c|] ts]|e].
  - apply spec_ret. split; [left; by eexists|]. split.
    + intros g cv _ Hgr Hcv. rewrite (Hstay g Hgr) in Hg. injection Hg as ->. by injection Hcv.
    + intros Hnone. by rewrite Hnone in Hg.
  - apply Hdirect. intros _ g Hgr. rewrite (Hstay g Hgr) in Hg. by injection Hg as ->.
  - apply Hdirect. intros Hft g Hgr. by rewrite (Hstay g Hgr) in Hg; specialize (Hg Hft).
Qed.

(** The message of an envelope is stored, last of its conversation, which is
    the one it belongs to. *)
Definition published (env : Envelope) (conv : uuid) (d : DB) : Prop :=
  ∃ fromID toID msgID m c, uuid_Parse (From env) = Ok fromID ∧ uuid_Parse (To env) = Ok toID ∧
    uuid_Parse (ID env) = Ok msgID ∧ belongs fromID toID conv d ∧
    messages d !! msgID = Some m ∧ msg_FromID m = fromID ∧ msg_ConversationID m = conv ∧
    msg_Tag m = Tag env ∧ msg_Content m = Content env ∧
    msg_Metadata m = (λ md : gmap string any, json_norm <$> md) <$> Metadata env ∧
    conversations d !! conv = Some c ∧ conv_LastMessageID c = Some msgID ∧
    conv_LastMessageAt c = Some (msg_Timestamp m).

(** It is also delivered to the address of the envelope. *)
Definition delivered_to (w : World) (env : Envelope) (conv : uuid) (d : DB) : Prop :=
  ∃ fromID toID, uuid_Parse (From env) = Ok fromID ∧ uuid_Parse (To env) = Ok toID ∧ addressed w fromID toID conv d.

Lemma defaultPersistMessage_spec a env w :
  spec (defaultPersistMessage a env) w (on_ok (λ c w', published env c (w_db w') ∧ delivered_to w env c (w_db w'))).
Proof.
  unfold defaultPersistMessage.
  parse fromID Hf.
  parse msgID Hm.
  eapply (spec_bind _ _ _ any_result).
  { destruct (Parse (Timestamp env)); [by apply spec_ret|apply spec_time_Now]. }
  intros ts w1 Hle1 _. eapply spec_bind; [apply sender_kind_behaves|]. intros fk w2 Hle2 _.
  parse toID Ht.
  eapply spec_try; [apply resolve_conversation_spec|]. intros c w3 _ [Hc Hadd]. cbv zeta.
  eapply spec_bind; [apply Messages_Save_spec|]. intros [m|e] w4 Hle4 Hs; apply spec_ret; [|done].
  destruct Hs as (Hmsg & Hconv & Hfrom & _ & Htag & Hcont & Hmd & cv & Hcv & Hlast & Hat). cbn in *.
  split.
  - exists fromID, toID, msgID, m, cv. repeat (split; [done|]).
    split; [by eapply belongs_le|]. done.
  - exists fromID, toID. split; [done|]. split; [done|]. eapply addressed_le; [|done..]. by transitivity w1.
Qed.

Lemma publishAndAudit_delivered a env w :
  spec (publishAndAudit a env) w (on_ok (λ c w', published env c (w_db w') ∧ delivered_to w env c (w_db w'))).
Proof.
  assert (∀ w1, world_le w w1 → spec (defaultPersistMessage a env) w1
    (on_ok (λ c w', published env c (w_db w') ∧ delivered_to w env c (w_db w')))) as Hp.
  { intros w1 Hle. eapply spec_mono, defaultPersistMessage_spec. intros [c|e] w' _; [|done].
    intros [Hpub (f & t & Hf & Ht & Ha)]. split; [done|]. exists f, t. split_and!; [done..|].
    destruct Hpub as (f' & t' & m & x & cv & Hf' & Ht' & _ & Hb & _). rewrite Hf in Hf'. rewrite Ht in Ht'. injection Hf' as <-. injection Ht' as <-.
    eapply addressed_le; [exact Hle|reflexivity|exact Hb|exact Ha]. }
  unfold publishAndAudit. destruct (negb (limiter a)); [by apply Hp|].
  apply limit_spec. intros w1 Hle1. cbv zeta.
  destruct (HasPrefix (To env) "group:"); [apply limit_spec; intros w2 Hle2|];
    apply limit_spec; intros w3 Hle3; apply Hp; repeat (etransitivity; [eassumption|]); done.
Qed.

Lemma publishAndAudit_spec a env w :
  spec (publishAndAudit a env) w (on_ok (λ c w', published env c (w_db w'))).
Proof. eapply spec_mono, publishAndAudit_delivered. intros [c|e] w' _; [|done]. by intros [? _]. Qed.

(** ** Properties *)

(** C3 A message accepted for publication is delivered where it is addressed:
    under any interference, when [publishAndAudit] returns a conversation, the
    message is stored in it with the sender, tag, content and metadata (as JSON
    returns them) of the envelope, and it is the last message of the
    conversation.  If there was a group with the identifier of the address, and
    the connection has no faults, the conversation is that of the group; if
    there is no such group, it is the direct conversation of sender and
    recipient; and with whatever faults it is one of the two. *)
Theorem publishAndAudit_delivers a env w :
  spec (publishAndAudit a env) w (on_ok (λ c w', published env c (w_db w') ∧ ∃ fromID toID,
    uuid_Parse (From env) = Ok fromID ∧ uuid_Parse (To env) = Ok toID ∧
    (∀ g k, (∀ n, env_fault n = NoFault) → chat_groups (w_db w) !! toID = Some g → group_ConversationID g = Some k →
       c = k) ∧
    (chat_groups (w_db w') !! toID = None → Conversation.direct_between fromID toID (w_db w') c))).
Proof. apply publishAndAudit_delivered. Qed.

(** What one refusal of the limiter does. *)
Lemma run_limit_refused a d k next w :
  (Ratelimit.Allow (w_limiter w) (env_now (w_steps w)) d k).1 = false →
  ∃ w', run (limit a d k next) w = (Err errRateLimited, w') ∧ w_db w' = w_db w ∧ w_outbox w' = w_outbox w ∧
    w_limiter w' = (Ratelimit.Allow (w_limiter w) (env_now (w_steps w)) d k).2 ∧
    w_rate_limited w' = (if metrics a then (d, k) :: w_rate_limited w else w_rate_limited w).
Proof.
  intros Hno. unfold limit, limiter_Allow. rewrite run_bind. cbn.
  destruct (Ratelimit.Allow _ _ _ _) as [ok l] eqn:Ea. cbn in *. subst ok. cbn [negb].
  rewrite run_bind. unfold count_rate_limited. destruct (metrics a); by eexists.
Qed.

(** What one admission does. *)
Lemma run_limit_admitted a d k next w :
  (Ratelimit.Allow (w_limiter w) (env_now (w_steps w)) d k).1 = true →
  run (limit a d k next) w = run next
    (MkWorld (w_db w) (S (w_steps w)) (w_outbox w)
      (Ratelimit.Allow (w_limiter w) (env_now (w_steps w)) d k).2 (w_rate_limited w)).
Proof.
  intros Hyes. unfold limit, limiter_Allow. rewrite run_bind. cbn.
  destruct (Ratelimit.Allow _ _ _ _) as [ok l] eqn:Ea. cbn in *. by subst ok.
Qed.

(** C12 The sender's limit comes first: when the bucket of the sender is
    empty, publication fails with [errRateLimited], nothing is written to
    the database, the refusal is counted once, and the buckets of the group
    and of the tag are not charged. *)
Theorem publish_sender_limited a env w :
  limiter a = true →
  (Ratelimit.Allow (w_limiter w) (env_now (w_steps w)) Ratelimit.DimensionAgent (Ratelimit.AgentKey (From env))).1 = false →
  ∃ w', run (publishAndAudit a env) w = (Err errRateLimited, w') ∧ w_db w' = w_db w ∧
    w_rate_limited w' = (if metrics a then (Ratelimit.DimensionAgent, Ratelimit.AgentKey (From env)) :: w_rate_limited w
                         else w_rate_limited w) ∧
    (∀ d k, Ratelimit.dimension_name d → d ≠ Ratelimit.DimensionAgent →
       Ratelimit.buckets (w_limiter w') !! Ratelimit.full_key d k =
       Ratelimit.buckets (w_limiter w) !! Ratelimit.full_key d k).
Proof.
  intros Hl Hno. unfold publishAndAudit. rewrite Hl. cbn [negb].
  destruct (run_limit_refused a _ _ (let tag_limit := limit a Ratelimit.DimensionTag
      (Ratelimit.TagKey (EffectiveTag (Some env))) (defaultPersistMessage a env) in
     if HasPrefix (To env) "group:" then
       limit a Ratelimit.DimensionGroup (Ratelimit.GroupKey (TrimPrefix (To env) "group:")) tag_limit
     else tag_limit) w Hno) as (w' & Hrun & Hdb & _ & Hlim & Hrl).
  exists w'. split; [exact Hrun|]. split; [done|]. split; [done|].
  intros d k Hd Hne. rewrite Hlim. apply Ratelimit.Allow_other. intros Hk.
  apply Ratelimit.full_key_inj in Hk as [Hk _]; [done..|].
  unfold Ratelimit.dimension_name. apply list_elem_of_here.
Qed.

(** A message over the limit of its tag is not stored either: the sender
    (and the group, for a ["group:"] address) admitted, the tag refused,
    publication fails with [errRateLimited] and writes nothing to the
    database. *)
Theorem publish_tag_limited a env w :
  let la := Ratelimit.Allow (w_limiter w) (env_now (w_steps w)) Ratelimit.DimensionAgent
              (Ratelimit.AgentKey (From env)) in
  let lt := Ratelimit.Allow la.2 (env_now (S (w_steps w))) Ratelimit.DimensionTag
              (Ratelimit.TagKey (EffectiveTag (Some env))) in
  limiter a = true → HasPrefix (To env) "group:" = false → la.1 = true → lt.1 = false →
  ∃ w', run (publishAndAudit a env) w = (Err errRateLimited, w') ∧ w_db w' = w_db w ∧ w_limiter w' = lt.2.
Proof.
  intros la lt Hl Hp Hla Hlt. unfold publishAndAudit. rewrite Hl. cbn [negb].
  rewrite run_limit_admitted by exact Hla. rewrite Hp. cbv zeta.
  match goal with |- context [run (limit a ?d ?k ?nx) ?w0] =>
    destruct (run_limit_refused a d k nx w0) as (w' & Hrun & Hdb & _ & Hlim & _); [exact Hlt|] end.
  exists w'. rewrite Hrun. done.
Qed.

(** C6 Authentication: a request passes only with a bearer token that the
    service validates, where the route allows tokens, or with the headers of
    an existing agent whose stored hash verifies the secret, where it allows
    those; the context then carries that user, or that agent and no user. *)
Theorem authenticate_sound a r allowJWT allowAgentSecret w :
  spec (authenticate a r allowJWT allowAgentSecret) w (on_ok (λ ctx w',
    (allowJWT = true ∧ ∃ now claims,
       jwt_ParseWithClaims (Auth.keyfunc (authSvc a)) now (bearerToken (r_Header r "Authorization"))
         = Ok (claims, true) ∧
       ctx = MkCtx (Some (claims_UserID claims)) None) ∨
    (allowAgentSecret = true ∧ ∃ agent,
       uuid_Parse (TrimSpace (r_Header r "X-Agent-ID")) = Ok (agent_ID agent) ∧
       agents (w_db w') !! agent_ID agent = Some agent ∧
       Auth.verifySecretArgon2id (agent_APISecretHash agent) (TrimSpace (r_Header r "X-API-Secret")) = true ∧
       ctx = MkCtx (Some "") (Some (uuid_String (agent_ID agent)))))).
Proof.
  unfold authenticate. cbv zeta. set (Q := on_ok _).
  assert (∀ w, spec (if allowAgentSecret then authenticate_agent a r
                     else Ret (Err (NewError "invalid credentials"))) w Q) as Hs.
  { intros w0. destruct allowAgentSecret; [|by apply spec_ret]. unfold authenticate_agent. cbv zeta.
    refuse.
    eapply spec_bind; [apply Auth.ValidateAPISecret_spec|]. intros [ag|e] w1 _ Hag; [|by apply spec_ret].
    apply spec_ret. cbn in Hag |- *. right. split; [done|]. exists ag. tauto. }
  destruct (allowJWT && negb _) eqn:Hj; [|apply Hs]. apply andb_true_iff in Hj as [-> _].
  eapply (spec_bind _ _ _ (on_ok (λ userID _, ∃ now claims,
    jwt_ParseWithClaims (Auth.keyfunc (authSvc a)) now (bearerToken (r_Header r "Authorization"))
      = Ok (claims, true) ∧ claims_UserID claims = userID))).
  { unfold Auth.ValidateJWT. refuse.
    eapply spec_bind; [apply Auth.time_Now_behaves|]. intros now w1 _ _.
    destruct (jwt_ParseWithClaims _ _ _) as [[c []]|e] eqn:Hp; apply spec_ret; [|done..].
    cbn. by exists now, c. }
  intros [u|e] w1 _ Hu; [|apply Hs]. apply spec_ret. cbn in Hu |- *. left. split; [done|].
  destruct Hu as (now & c & Hp & <-). by exists now, c.
Qed.

(** Without credentials nothing happens: a request without a bearer token
    and without the two agent headers is answered 401 by every protected
    route; the handler does not run, and the world is as before. *)
Theorem requireAuth_no_credentials a allowJWT allowAgentSecret next r w :
  bearerToken (r_Header r "Authorization") = "" →
  TrimSpace (r_Header r "X-Agent-ID") = "" ∨ TrimSpace (r_Header r "X-API-Secret") = "" →
  run (requireAuth a allowJWT allowAgentSecret next r) w =
    (writeError StatusUnauthorized (RErr (NewError "invalid credentials")), w).
Proof.
  intros Ht Hh. unfold requireAuth, authenticate, authenticate_agent. cbv zeta.
  rewrite Ht. cbn [String.eqb negb]. rewrite andb_false_r, run_bind.
  assert (String.eqb (TrimSpace (r_Header r "X-Agent-ID")) "" ||
          String.eqb (TrimSpace (r_Header r "X-API-Secret")) "" = true) as Hb.
  { apply orb_true_iff. by destruct Hh as [->| ->]; [left|right]. }
  rewrite Hb. by destruct allowAgentSecret.
Qed.
End Server.
