(* ===== verification/Handlers.v ===== *)
(** * The server: handlers and routes

    [backend/cmd/bobberd/main.go], part two: one definition per handler and
    the table of routes.  A handler with a JSON body receives what [readJSON]
    gave it: the decoded struct, or the error. *)

From S2P Require Import Prelude.
From S2P Require Import GoStrings.
From S2P Require Import Protocol.
From S2P Require Import GoTime.
From S2P Require Import GoValue.
From S2P Require Import Envelope.
From S2P Require Import Float64.
From S2P Require Import RateLimit.
From S2P Require Import Uuid.
From S2P Require Import Models.
From S2P Require Import Schema.
From S2P Require Import Invariant.
From S2P Require Import Statements.
From S2P Require Import World.
From S2P Require Import Repositories.
From S2P Require Import RepositorySpecs.
From S2P Require Import Conversation.
From S2P Require Import Registry.
From S2P Require Import Auth.
From S2P Require Import AdapterBase.
From S2P Require Import Adapters.
From S2P Require Import Server.

Open Scope string_scope.
Open Scope Z_scope.

(** The bodies, field by field. *)
Record CredentialsReq := MkCredentialsReq { creq_Email : string; creq_Password : string }.
Record DiscoverReq := MkDiscoverReq { dreq_SupportedTags : list string; dreq_Limit : Z }.
Record LeaveReq := MkLeaveReq { lreq_ParticipantID : string; lreq_ParticipantKind : string }.
Record ConnectReq := MkConnectReq { nreq_TargetID : string; nreq_FromID : string; nreq_FromKind : string }.
Record SendReq := MkSendReq {
  sreq_To : string; sreq_Tag : string; sreq_Content : string; sreq_Metadata : option (gmap string any)
}.

(** [io.LimitReader]: at most so many bytes. *)
Fixpoint limit_bytes (n : Z) (s : string) : string :=
  match s with
  | "" => ""
  | String a s => if n <=? 0 then "" else String a (limit_bytes (n - 1) s)
  end.

Section Handlers.
Context {U : UuidPkg} {C : Citext} {E : Env} {UT : UnicodeTables}.
Context {B : Bcrypt} {A2 : Argon2} {J : Jwt}.

(** [if err := readJSON(r, &req); err != nil { 400 }] *)
Definition with_body {A} (body : result goerr A) (k : A → prog Response) : prog Response :=
  match body with
  | Err e => Ret (writeError StatusBadRequest (RErr (WrapError "invalid json" e)))
  | Ok req => k req
  end.

(** [x, err := p; if err != nil { writeError(code, err.Error()); return }] *)
Definition or_fail {A} (p : prog (result goerr A)) (code : Z) (k : A → prog Response) : prog Response :=
  let! r := p in
  match r with
  | Err e => Ret (writeError code (RErr e))
  | Ok a => k a
  end.

(** [id, err := uuid.Parse(s); if err != nil { writeError(code, msg); return }] *)
Definition parse_or_fail (s : string) (code : Z) (msg : string) (k : uuid → prog Response) : prog Response :=
  match uuid_Parse s with
  | Err _ => Ret (writeError code (RStr msg))
  | Ok id => k id
  end.

(** ** Users *)
Definition handleRegister (a : app) (body : result goerr CredentialsReq) : prog Response :=
  with_body body (λ req,
  or_fail (Auth.RegisterUser (authSvc a) (creq_Email req) (creq_Password req)) StatusBadRequest (λ user,
  Ret (writeJSON StatusCreated (RObj
    [("id", RUuid (user_ID user)); ("email", RStr (user_Email user)); ("created_at", RTime (user_CreatedAt user))])))).

Definition handleLogin (a : app) (body : result goerr CredentialsReq) : prog Response :=
  with_body body (λ req,
  or_fail (Auth.LoginUser (authSvc a) (creq_Email req) (creq_Password req)) StatusUnauthorized (λ tu,
  let '(token, user) := tu in
  Ret (writeJSON StatusOK (RObj
    [("access_token", RStr token); ("expires_in", RInt 3600);
     ("user", RObj [("id", RUuid (user_ID user)); ("email", RStr (user_Email user));
                    ("created_at", RTime (user_CreatedAt user))])])))).

Definition handleVerifyEmail (a : app) (body : result goerr string) : prog Response :=
  with_body body (λ token,
  or_fail (Auth.VerifyEmail (authSvc a) token) StatusBadRequest (λ user,
  Ret (writeJSON StatusOK (RObj
    [("verified", RBool true); ("user_id", RUuid (user_ID user)); ("email", RStr (user_Email user))])))).

Definition handleResendVerification (a : app) (body : result goerr string) : prog Response :=
  with_body body (λ email,
  or_fail (Auth.ResendVerification (authSvc a) email) StatusBadRequest (λ _,
  Ret (writeJSON StatusOK (RObj [("sent", RBool true)])))).

Definition handleWhoAmI (a : app) (r : Request) (ctx : Ctx) : prog Response :=
  parse_or_fail (contextString (ctxUserID ctx)) StatusBadRequest "invalid user context" (λ userID,
  or_fail (Users.GetByID userID) StatusBadRequest (λ user,
  or_fail (Agents.ListByOwner userID) StatusBadRequest (λ agents,
  Ret (writeJSON StatusOK (RObj
    [("user_id", RUuid (user_ID user)); ("email", RStr (user_Email user)); ("agents", RAgents agents)]))))).

(** ** Agents *)
Definition handleCreateAgent (a : app) (body : result goerr string) (r : Request) (ctx : Ctx) : prog Response :=
  with_body body (λ displayName,
  or_fail (Auth.CreateAgent (authSvc a) (contextString (ctxUserID ctx)) displayName) StatusBadRequest (λ res,
  let '(agent, secret) := res in
  Ret (writeJSON StatusCreated (RObj
    [("id", RUuid (agent_ID agent)); ("api_secret", RStr secret); ("created_at", RTime (agent_CreatedAt agent));
     ("display_name", RStr (agent_DisplayName agent))])))).

(** Not routed. *)
Definition handleGetAgent (a : app) (id : string) : prog Response :=
  or_fail (Registry.GetAgent (registrySvc a) id) StatusNotFound (λ agent,
  Ret (writeJSON StatusOK (RObj
    [("id", RUuid (agent_ID agent)); ("display_name", RStr (agent_DisplayName agent));
     ("owner_user_id", RUuid (agent_OwnerUserID agent)); ("created_at", RTime (agent_CreatedAt agent))]))).

(** The caller of a request: an agent, a user, or nobody (an identifier that
    does not parse leaves the nil one). *)
Definition caller (ctx : Ctx) : uuid * ParticipantType :=
  let agentRaw := contextString (ctxAgentID ctx) in
  let userRaw := contextString (ctxUserID ctx) in
  let id s := match uuid_Parse s with Ok u => u | Err _ => uuid_Nil end in
  if negb (String.eqb agentRaw "") then (id agentRaw, ParticipantTypeAgent)
  else if negb (String.eqb userRaw "") then (id userRaw, ParticipantTypeUser)
  else (uuid_Nil, "").

(** The closure [resolveDirectConvID]: errors are dropped. *)
Definition resolveDirectConvID (a : app) (ctx : Ctx) (targetID : uuid) (targetKind : ParticipantType)
    : prog (list (string * rval)) :=
  let '(callerID, callerKind) := caller ctx in
  if bool_decide (callerID = uuid_Nil) then Ret [] else
  let! conv := Conversation.GetOrCreateDirect (convSvc a) callerID targetID callerKind targetKind in
  match conv with
  | Err _ => Ret []
  | Ok conv => Ret [("conversation_id", RUuid (conv_ID conv))]
  end.

Definition handleEntityInfo (a : app) (id : string) (r : Request) (ctx : Ctx) : prog Response :=
  parse_or_fail id StatusBadRequest "invalid id" (λ uid,
  let! agent := Agents.GetByID uid in
  match agent with
  | Ok agent =>
      let! convID := resolveDirectConvID a ctx (agent_ID agent) ParticipantTypeAgent in
      Ret (writeJSON StatusOK (RObj (
        [("type", RStr "agent"); ("id", RUuid (agent_ID agent)); ("display_name", RStr (agent_DisplayName agent));
         ("owner_user_id", RUuid (agent_OwnerUserID agent)); ("created_at", RTime (agent_CreatedAt agent))]
        ++ convID)%list))
  | Err _ =>
  let! user := Users.GetByID uid in
  match user with
  | Ok user =>
      let! convID := resolveDirectConvID a ctx (user_ID user) ParticipantTypeUser in
      Ret (writeJSON StatusOK (RObj (
        [("type", RStr "user"); ("id", RUuid (user_ID user)); ("email", RStr (user_Email user));
         ("email_verified", RBool (user_EmailVerified user)); ("created_at", RTime (user_CreatedAt user))]
        ++ convID)%list))
  | Err _ =>
  let! group := Groups.GetByID uid in
  match group with
  | Ok group =>
      Ret (writeJSON StatusOK (RObj (
        [("type", RStr "group"); ("id", RUuid (group_ID group)); ("name", RStr (group_Name group));
         ("owner_id", RUuid (group_OwnerID group)); ("created_at", RTime (group_CreatedAt group))]
        ++ match group_ConversationID group with
           | Some c => [("conversation_id", RUuid c)] | None => [] end)%list))
  | Err _ => Ret (writeError StatusNotFound (RStr "entity not found"))
  end end end).

Definition handleDeleteAgent (a : app) (id : string) (r : Request) (ctx : Ctx) : prog Response :=
  or_fail (Registry.GetAgent (registrySvc a) id) StatusNotFound (λ _,
  or_fail (Registry.Deregister (registrySvc a) id) StatusBadRequest (λ _,
  Ret (writeJSON StatusOK (RObj [("deleted", RBool true); ("id", RStr id)])))).

Definition handleRotateSecret (a : app) (id : string) (r : Request) (ctx : Ctx) : prog Response :=
  or_fail (Auth.RotateSecret (authSvc a) id) StatusBadRequest (λ secret,
  Ret (writeJSON StatusOK (RObj [("id", RStr id); ("api_secret", RStr secret)]))).

Definition handleDiscover (a : app) (body : result goerr DiscoverReq) (r : Request) (ctx : Ctx) : prog Response :=
  with_body body (λ req,
  or_fail (Registry.Discover (registrySvc a) (Registry.MkQuery (dreq_SupportedTags req) (dreq_Limit req)))
    StatusBadRequest (λ agents,
  Ret (writeJSON StatusOK (RObj [("agents", RAgents agents)])))).

(** ** Conversations and groups *)
Definition handleListConversations (a : app) (r : Request) (ctx : Ctx) : prog Response :=
  parse_or_fail (contextString (ctxUserID ctx)) StatusUnauthorized "invalid user context" (λ userID,
  let raw := r_Query r "type" in
  let list convType :=
    or_fail (Conversation.ListConversationItems (convSvc a) userID ParticipantTypeUser convType)
      StatusInternalServerError (λ items,
    Ret (writeJSON StatusOK (RObj [("conversations", RItems items)]))) in
  if String.eqb raw "" then list None
  else if negb (String.eqb raw ConversationTypeDirect) && negb (String.eqb raw ConversationTypeGroup)
  then Ret (writeError StatusBadRequest (RStr "type must be 'direct' or 'group'"))
  else list (Some raw)).

Definition handleCreateGroup (a : app) (body : result goerr string) (r : Request) (ctx : Ctx) : prog Response :=
  with_body body (λ name,
  or_fail (Conversation.CreateGroup (convSvc a) name (contextString (ctxUserID ctx))) StatusBadRequest (λ group,
  Ret (writeJSON StatusCreated (RGroup group)))).

(** The participant who leaves: the one the body names, else the caller. *)
Definition leaver (req : LeaveReq) (ctx : Ctx) : string * string :=
  if negb (String.eqb (lreq_ParticipantID req) "") then (lreq_ParticipantID req, lreq_ParticipantKind req)
  else if negb (String.eqb (contextString (ctxAgentID ctx)) "")
  then (contextString (ctxAgentID ctx), ParticipantTypeAgent)
  else (contextString (ctxUserID ctx), ParticipantTypeUser).

Definition handleLeaveGroup (a : app) (id : string) (body : result goerr LeaveReq) (r : Request) (ctx : Ctx)
    : prog Response :=
  with_body body (λ req,
  let '(participantID, kind) := leaver req ctx in
  or_fail (Conversation.LeaveGroup (convSvc a) id participantID kind) StatusBadRequest (λ _,
  Ret (writeJSON StatusOK (RObj [("group_id", RStr id); ("left", RBool true)])))).

(** ** Messages *)
Definition handlePollMessages (r : Request) (ctx : Ctx) : prog Response :=
  let convRaw := TrimSpace (r_Query r "conversation_id") in
  if String.eqb convRaw "" then Ret (writeError StatusBadRequest (RStr "conversation_id is required")) else
  parse_or_fail convRaw StatusBadRequest "invalid conversation_id" (λ convID,
  let limitRaw := TrimSpace (r_Query r "limit") in
  let limit := if String.eqb limitRaw "" then Some 50
               else match Atoi limitRaw with
                    | Some parsed => if parsed <=? 0 then None else Some parsed
                    | None => None
                    end in
  match limit with
  | None => Ret (writeError StatusBadRequest (RStr "invalid limit"))
  | Some limit =>
  let sinceTSRaw := TrimSpace (r_Query r "since_ts") in
  let sinceTS := if String.eqb sinceTSRaw "" then Some None else Some <$> Parse sinceTSRaw in
  match sinceTS with
  | None => Ret (writeError StatusBadRequest (RStr "invalid since_ts"))
  | Some sinceTS =>
  let sinceIDRaw := TrimSpace (r_Query r "since_id") in
  let sinceID := if String.eqb sinceIDRaw "" then Some None
                 else match uuid_Parse sinceIDRaw with Ok u => Some (Some u) | Err _ => None end in
  match sinceID with
  | None => Ret (writeError StatusBadRequest (RStr "invalid since_id"))
  | Some sinceID =>
  or_fail (Messages.GetByConversation convID limit sinceTS sinceID) StatusBadRequest (λ msgs,
  Ret (writeJSON StatusOK (RObj [("messages", RMessages msgs)])))
  end end end).

(** [if errors.Is(err, errRateLimited) { 429 } else { 500 }] *)
Definition publish_or_fail (p : prog (result goerr uuid)) (k : uuid → prog Response) : prog Response :=
  let! r := p in
  match r with
  | Err e =>
      if errors_Is e errRateLimited then Ret (writeError StatusTooManyRequests (RStr "rate limited"))
      else Ret (writeError StatusInternalServerError (RErr e))
  | Ok c => k c
  end.

(** The sender of a message: the agent, else the user. *)
Definition sender (ctx : Ctx) : string :=
  let from := contextString (ctxAgentID ctx) in
  if String.eqb from "" then contextString (ctxUserID ctx) else from.

Definition handleSendMessage (a : app) (body : result goerr SendReq) (r : Request) (ctx : Ctx) : prog Response :=
  with_body body (λ req,
  if String.eqb (TrimSpace (sreq_To req)) "" then Ret (writeError StatusBadRequest (RStr "to is required")) else
  if String.eqb (TrimSpace (sreq_Tag req)) "" then Ret (writeError StatusBadRequest (RStr "tag is required")) else
  let from := sender ctx in
  if String.eqb from "" then
    Ret (writeError StatusBadRequest (RStr "unable to determine sender identity")) else
  let metadata := default ∅ (sreq_Metadata req) in
  let! messageID := uuid_NewString in
  let! now := now_RFC3339 in
  let env := MkEnvelope messageID from (sreq_To req) (sreq_Tag req) (sreq_Content req) (Some metadata) now in
  match Validate (Some env) with
  | Some e => Ret (writeError StatusBadRequest (RErr e))
  | None =>
      publish_or_fail (publishAndAudit a env) (λ conversationID,
      Ret (writeJSON StatusAccepted (RObj
        [("sent", RBool true); ("message_id", RStr messageID); ("conversation_id", RUuid conversationID)])))
  end).

(** The metadata of a replay. *)
Definition replay_metadata (original : Message) (reason : string) : gmap string any :=
  let metadata := default ∅ (msg_Metadata original) in
  let metadata := <[MetaSysReplayed := ABool true]> metadata in
  let metadata := <[MetaSysOriginalMessageID := AString (uuid_String (msg_ID original))]> metadata in
  let metadata := <[MetaSysReplayReason := AString (TrimSpace reason)]> metadata in
  if negb (String.eqb (msg_Tag original) "") then <[MetaSysTag := AString (msg_Tag original)]> metadata
  else metadata.

Definition replay_envelope (original : Message) (reason newMessageID now : string) : Envelope :=
  MkEnvelope newMessageID (uuid_String (msg_FromID original)) (uuid_String (msg_ConversationID original))
    "" (msg_Content original) (Some (replay_metadata original reason)) now.

Definition handleReplayMessage (a : app) (id : string) (body : result goerr string) (r : Request) (ctx : Ctx)
    : prog Response :=
  with_body body (λ reason,
  parse_or_fail (TrimSpace id) StatusBadRequest "invalid message id" (λ originalID,
  let! res := SelectRow (λ _ d, total (select_message originalID d)) in
  match res with
  | Err e =>
      if errors_Is e ErrNoRows then Ret (writeError StatusNotFound (RStr "message not found"))
      else Ret (writeError StatusInternalServerError (RStr "failed to load message"))
  | Ok original =>
      let! newMessageID := uuid_NewString in
      let! now := now_RFC3339 in
      let env := replay_envelope original reason newMessageID now in
      publish_or_fail (publishAndAudit a env) (λ _,
      Ret (writeJSON StatusAccepted (RObj
        [("replayed", RBool true); ("new_message_id", RStr newMessageID);
         ("original_message_id", RStr (uuid_String (msg_ID original)))])))
  end)).

(** ** Connections *)

(** The kind of an entity: agent, else group, else user, else 404. *)
Definition target_kind (targetID : uuid) (k : EntityType → prog Response) : prog Response :=
  let! agent := Agents.GetByID targetID in
  match agent with
  | Ok _ => k EntityTypeAgent
  | Err _ =>
  let! group := Groups.GetByID targetID in
  match group with
  | Ok _ => k EntityTypeGroup
  | Err _ =>
  let! user := Users.GetByID targetID in
  match user with
  | Ok _ => k EntityTypeUser
  | Err _ => Ret (writeError StatusNotFound (RStr "target not found"))
  end end end.

(** From whom the request is: the entity the body names, when it names both
    its id and its kind, else the calling agent. *)
Definition request_from (req : ConnectReq) (agentID : uuid) : option (uuid * EntityType) :=
  if negb (String.eqb (nreq_FromID req) "") && negb (String.eqb (nreq_FromKind req) "") then
    match uuid_Parse (TrimSpace (nreq_FromID req)) with
    | Ok id => Some (id, nreq_FromKind req)
    | Err _ => None
    end
  else Some (agentID, EntityTypeAgent).

Definition handleConnectionRequest (a : app) (body : result goerr ConnectReq) (r : Request) (ctx : Ctx)
    : prog Response :=
  with_body body (λ req,
  parse_or_fail (contextString (ctxAgentID ctx)) StatusBadRequest "invalid agent context" (λ agentID,
  parse_or_fail (TrimSpace (nreq_TargetID req)) StatusBadRequest "invalid target_id" (λ targetID,
  match request_from req agentID with
  | None => Ret (writeError StatusBadRequest (RStr "invalid from_id"))
  | Some (fromID, fromKind) =>
  target_kind targetID (λ toKind,
  or_fail (ConnectionRequests.Create
    (MkRequest uuid_Nil agentID fromID fromKind targetID toKind ConnectionRequestStatusPending
      zero_time zero_time)) StatusBadRequest (λ created,
  Ret (writeJSON StatusCreated (RObj [("request", RRequest created)]))))
  end))).

Definition handleConnectionInbox (a : app) (r : Request) (ctx : Ctx) : prog Response :=
  parse_or_fail (contextString (ctxAgentID ctx)) StatusBadRequest "invalid agent context" (λ agentID,
  or_fail (ConnectionRequests.GetPendingByTarget agentID EntityTypeAgent) StatusBadRequest (λ requests,
  or_fail (Conversation.ListUnreadConversations (convSvc a) agentID ParticipantTypeAgent)
    StatusInternalServerError (λ unreads,
  Ret (writeJSON StatusOK (RObj [("requests", RRequests requests); ("unreads", RItems unreads)]))))).

(** [handleConnectionAccept] and [handleConnectionReject] differ in the
    status they write. *)
Definition update_status (id : string) (status : ConnectionRequestStatus) : prog Response :=
  parse_or_fail (TrimSpace id) StatusBadRequest "invalid id" (λ requestID,
  or_fail (ConnectionRequests.UpdateStatus requestID status) StatusBadRequest (λ _,
  Ret (writeJSON StatusOK (RObj [("request_id", RUuid requestID); ("status", RStr status)])))).

Definition handleConnectionAccept (id : string) (r : Request) (ctx : Ctx) : prog Response :=
  update_status id ConnectionRequestStatusAccepted.
Definition handleConnectionReject (id : string) (r : Request) (ctx : Ctx) : prog Response :=
  update_status id ConnectionRequestStatusRejected.

(** ** The blacklist

    The caller: the agent when there is one, else the user. *)
Definition blacklist_from (ctx : Ctx) (k : uuid → EntityType → prog Response) : prog Response :=
  let agentRaw := contextString (ctxAgentID ctx) in
  if negb (String.eqb agentRaw "") then
    parse_or_fail agentRaw StatusBadRequest "invalid agent context" (λ id, k id EntityTypeAgent)
  else
    parse_or_fail (contextString (ctxUserID ctx)) StatusBadRequest "invalid user context"
      (λ id, k id EntityTypeUser).

Definition handleListBlacklist (r : Request) (ctx : Ctx) : prog Response :=
  blacklist_from ctx (λ fromID fromKind,
  or_fail (Blacklist.ListByEntity fromID fromKind) StatusInternalServerError (λ entries,
  Ret (writeJSON StatusOK (RObj [("entries", REntries entries)])))).

Definition handleBlacklist (body : result goerr string) (r : Request) (ctx : Ctx) : prog Response :=
  with_body body (λ target,
  parse_or_fail (TrimSpace target) StatusBadRequest "invalid target_id" (λ targetID,
  blacklist_from ctx (λ fromID fromKind,
  target_kind targetID (λ toKind,
  or_fail (Blacklist.Create (MkEntry uuid_Nil fromID fromKind targetID toKind zero_time)) StatusBadRequest (λ entry,
  Ret (writeJSON StatusCreated (RObj [("entry", REntry entry)]))))))).

Definition handleUnblacklist (id : string) (r : Request) (ctx : Ctx) : prog Response :=
  parse_or_fail (TrimSpace id) StatusBadRequest "invalid id" (λ targetID,
  blacklist_from ctx (λ fromID fromKind,
  target_kind targetID (λ toKind,
  or_fail (Blacklist.Delete fromID fromKind targetID toKind) StatusBadRequest (λ _,
  Ret (writeJSON StatusOK (RObj [("removed", RBool true); ("target_id", RUuid targetID)])))))).

(** ** Adapters *)
(** What the adapter is told of the transport. *)
Definition transport_meta (r : Request) (ctx : Ctx) : TransportMeta :=
  let target := TrimSpace (r_Header r "X-Target-Agent") in
  MkMeta (TrimSpace (r_Header r "X-Connection-ID")) (r_RemoteAddr r) (contextString (ctxAgentID ctx))
    (if negb (String.eqb target "") then {[ "X-Target-Agent" := target ]} else ∅).

Definition handleAdapterIngest (a : app) (name : string) (raw : result goerr string) (r : Request) (ctx : Ctx)
    : prog Response :=
  let name := TrimSpace name in
  match adapters a !! name with
  | None => Ret (writeError StatusNotFound (RStr ("adapter " +:+ quoted name +:+ " not found")))
  | Some adp =>
  match raw with
  | Err _ => Ret (writeError StatusBadRequest (RStr "failed to read request body"))
  | Ok bytes =>
  let body := limit_bytes (2 ^ 20) bytes in
  if String.eqb body "" then Ret (writeError StatusBadRequest (RStr "request body is empty")) else
  or_fail (Ingest adp body (transport_meta r ctx)) StatusUnprocessableEntity (λ env,
  let env := match Metadata env with None => with_metadata env ∅ | Some _ => env end in
  publish_or_fail (publishAndAudit a env) (λ _,
  Ret (writeJSON StatusAccepted (RObj
    [("accepted", RBool true); ("adapter", RStr name); ("message_id", RStr (ID env)); ("tag", RStr (Tag env))]))))
  end end.

Definition handleListAdapters (a : app) (r : Request) (ctx : Ctx) : prog Response :=
  let result := (λ adp, RObj [("name", RStr (adapter_Name adp)); ("protocol", RStr (adapter_Protocol adp))])
                  <$> rows (adapters a) in
  Ret (writeJSON StatusOK (RObj [("adapters", RList result)])).

Definition handleHealth : prog Response :=
  let! now := time_Now in
  Ret (writeJSON StatusOK (RObj
    [("status", RStr "ok"); ("time", RUTC now); ("version", RStr Version.ProtocolVersion)])).

(** ** Routes

    One constructor per route of [registerRoutes], with the path values and
    the body of the request. *)
Inductive route :=
| POST_auth_register (body : result goerr CredentialsReq)
| POST_auth_login (body : result goerr CredentialsReq)
| POST_auth_verify_email (body : result goerr string)
| POST_auth_resend_verification (body : result goerr string)
| GET_auth_me
| POST_agents (body : result goerr string)
| DELETE_agents (id : string)
| POST_agents_rotate_secret (id : string)
| GET_info (id : string)
| POST_registry_discover (body : result goerr DiscoverReq)
| GET_conversations
| POST_groups (body : result goerr string)
| POST_groups_leave (id : string) (body : result goerr LeaveReq)
| GET_messages_poll
| POST_messages_send (body : result goerr SendReq)
| POST_messages_replay (id : string) (body : result goerr string)
| POST_connections_request (body : result goerr ConnectReq)
| GET_connections_inbox
| POST_connections_accept (id : string)
| POST_connections_reject (id : string)
| GET_blacklist
| POST_blacklist (body : result goerr string)
| DELETE_blacklist (id : string)
| GET_health
| POST_adapter_ingest (name : string) (raw : result goerr string)
| GET_adapter.

Definition registerRoutes (a : app) (rt : route) (r : Request) : prog Response :=
  match rt with
  | POST_auth_register body => handleRegister a body
  | POST_auth_login body => handleLogin a body
  | POST_auth_verify_email body => handleVerifyEmail a body
  | POST_auth_resend_verification body => handleResendVerification a body
  | GET_auth_me => requireJWT a (handleWhoAmI a) r
  | POST_agents body => requireJWT a (handleCreateAgent a body) r
  | DELETE_agents id => requireJWT a (handleDeleteAgent a id) r
  | POST_agents_rotate_secret id => requireJWT a (handleRotateSecret a id) r
  | GET_info id => requireAuth a true true (handleEntityInfo a id) r
  | POST_registry_discover body => requireAuth a true true (handleDiscover a body) r
  | GET_conversations => requireJWT a (handleListConversations a) r
  | POST_groups body => requireJWT a (handleCreateGroup a body) r
  | POST_groups_leave id body => requireAuth a true true (handleLeaveGroup a id body) r
  | GET_messages_poll => requireJWT a handlePollMessages r
  | POST_messages_send body => requireAuth a true true (handleSendMessage a body) r
  | POST_messages_replay id body => requireJWT a (handleReplayMessage a id body) r
  | POST_connections_request body => requireAuth a false true (handleConnectionRequest a body) r
  | GET_connections_inbox => requireAuth a false true (handleConnectionInbox a) r
  | POST_connections_accept id => requireAuth a false true (handleConnectionAccept id) r
  | POST_connections_reject id => requireAuth a false true (handleConnectionReject id) r
  | GET_blacklist => requireAuth a false true handleListBlacklist r
  | POST_blacklist body => requireAuth a false true (handleBlacklist body) r
  | DELETE_blacklist id => requireAuth a false true (handleUnblacklist id) r
  | GET_health => handleHealth
  | POST_adapter_ingest name raw => requireAuth a true true (handleAdapterIngest a name raw) r
  | GET_adapter => requireJWT a (handleListAdapters a) r
  end.

(** The method and the path a route is registered under. *)
Definition route_pattern (rt : route) : string * string :=
  match rt with
  | POST_auth_register _ => ("POST", "/v1/auth/register")
  | POST_auth_login _ => ("POST", "/v1/auth/login")
  | POST_auth_verify_email _ => ("POST", "/v1/auth/verify-email")
  | POST_auth_resend_verification _ => ("POST", "/v1/auth/resend-verification")
  | GET_auth_me => ("GET", "/v1/auth/me")
  | POST_agents _ => ("POST", "/v1/agents")
  | DELETE_agents id => ("DELETE", "/v1/agents/" +:+ id)
  | POST_agents_rotate_secret id => ("POST", "/v1/agents/" +:+ id +:+ "/rotate-secret")
  | GET_info id => ("GET", "/v1/info/" +:+ id)
  | POST_registry_discover _ => ("POST", "/v1/registry/discover")
  | GET_conversations => ("GET", "/v1/conversations")
  | POST_groups _ => ("POST", "/v1/groups")
  | POST_groups_leave id _ => ("POST", "/v1/groups/" +:+ id +:+ "/leave")
  | GET_messages_poll => ("GET", "/v1/messages/poll")
  | POST_messages_send _ => ("POST", "/v1/messages/send")
  | POST_messages_replay id _ => ("POST", "/v1/messages/" +:+ id +:+ "/replay")
  | POST_connections_request _ => ("POST", "/v1/connections/request")
  | GET_connections_inbox => ("GET", "/v1/connections/inbox")
  | POST_connections_accept id => ("POST", "/v1/connections/" +:+ id +:+ "/accept")
  | POST_connections_reject id => ("POST", "/v1/connections/" +:+ id +:+ "/reject")
  | GET_blacklist => ("GET", "/v1/blacklist")
  | POST_blacklist _ => ("POST", "/v1/blacklist")
  | DELETE_blacklist id => ("DELETE", "/v1/blacklist/" +:+ id)
  | GET_health => ("GET", "/v1/health")
  | POST_adapter_ingest name _ => ("POST", "/v1/adapter/" +:+ name +:+ "/ingest")
  | GET_adapter => ("GET", "/v1/adapter")
  end.

(** Whether a route is protected, and then whether it admits the token of a
    user and the secret of an agent. *)
Definition access (rt : route) : option (bool * bool) :=
  match rt with
  | POST_auth_register _ | POST_auth_login _ | POST_auth_verify_email _ | POST_auth_resend_verification _
  | GET_health => None
  | GET_auth_me | POST_agents _ | DELETE_agents _ | POST_agents_rotate_secret _ | GET_conversations | POST_groups _
  | GET_messages_poll | POST_messages_replay _ _ | GET_adapter => Some (true, false)
  | GET_info _ | POST_registry_discover _ | POST_groups_leave _ _ | POST_messages_send _
  | POST_adapter_ingest _ _ => Some (true, true)
  | _ => Some (false, true)
  end.

Lemma registerRoutes_access a rt r allowJWT allowAgentSecret : access rt = Some (allowJWT, allowAgentSecret) →
  ∃ next, registerRoutes a rt r = requireAuth a allowJWT allowAgentSecret next r.
Proof. destruct rt; intros [= <- <-]; by eexists. Qed.

(** ** Every handler keeps the invariant *)
Lemma spec_behaves {A} (p : prog A) (P : World → A → World → Prop) :
  (∀ w, spec p w (P w)) → behaves p.
Proof. intros Hp w. eapply spec_any, Hp. Qed.

Lemma with_body_behaves {A} (body : result goerr A) k : (∀ x, behaves (k x)) → behaves (with_body body k).
Proof. intros Hk. destruct body; [apply Hk|apply behaves_ret]. Qed.

Lemma or_fail_behaves {A} (p : prog (result goerr A)) c k :
  behaves p → (∀ x, behaves (k x)) → behaves (or_fail p c k).
Proof.
  intros Hp Hk. apply behaves_bind; [done|]. intros [x|e]; [apply Hk|apply behaves_ret].
Qed.

Lemma parse_or_fail_behaves s c m k : (∀ x, behaves (k x)) → behaves (parse_or_fail s c m k).
Proof. intros Hk. unfold parse_or_fail. destruct (uuid_Parse s); [apply Hk|apply behaves_ret]. Qed.

Lemma publish_or_fail_behaves p k : behaves p → (∀ x, behaves (k x)) → behaves (publish_or_fail p k).
Proof.
  intros Hp Hk. apply behaves_bind; [done|]. intros [x|e]; [apply Hk|].
  destruct (errors_Is e errRateLimited); apply behaves_ret.
Qed.

Lemma publishAndAudit_behaves a env : behaves (publishAndAudit a env).
Proof. intros w. eapply spec_any, publishAndAudit_spec. Qed.

Lemma Agents_GetByID_behaves id : behaves (Agents.GetByID id).
Proof. intros w. eapply spec_any, Agents_GetByID_spec. Qed.
Lemma Groups_GetByID_behaves id : behaves (Groups.GetByID id).
Proof. intros w. eapply spec_any, Groups_GetByID_spec. Qed.
Lemma Users_GetByID_behaves id : behaves (Users.GetByID id).
Proof. intros w. eapply spec_any, Users_GetByID_spec. Qed.

Lemma target_kind_behaves id k : (∀ x, behaves (k x)) → behaves (target_kind id k).
Proof.
  intros Hk. apply behaves_bind; [apply Agents_GetByID_behaves|]. intros [?|?]; [apply Hk|].
  apply behaves_bind; [apply Groups_GetByID_behaves|]. intros [?|?]; [apply Hk|].
  apply behaves_bind; [apply Users_GetByID_behaves|]. intros [?|?]; [apply Hk|apply behaves_ret].
Qed.

Lemma blacklist_from_behaves ctx k : (∀ x y, behaves (k x y)) → behaves (blacklist_from ctx k).
Proof.
  intros Hk. unfold blacklist_from. destruct (negb _); apply parse_or_fail_behaves; intros; apply Hk.
Qed.

Lemma RegisterUser_behaves s e p : behaves (Auth.RegisterUser s e p).
Proof. intros w. eapply spec_any, Auth.RegisterUser_spec. Qed.
Lemma LoginUser_behaves s e p : behaves (Auth.LoginUser s e p).
Proof. intros w. eapply spec_any, Auth.LoginUser_spec. Qed.
Lemma VerifyEmail_behaves s t : behaves (Auth.VerifyEmail s t).
Proof. intros w. eapply spec_any, Auth.VerifyEmail_spec. Qed.
Lemma Auth_ResendVerification_behaves s e : behaves (Auth.ResendVerification s e).
Proof. apply Auth.ResendVerification_behaves. Qed.
Lemma CreateAgent_behaves s o n : behaves (Auth.CreateAgent s o n).
Proof. intros w. eapply spec_any, Auth.CreateAgent_spec. Qed.
Lemma Discover_behaves s q : behaves (Registry.Discover s q).
Proof. intros w. eapply spec_any, Registry.Discover_spec. Qed.
Lemma Registry_GetAgent_behaves s id : behaves (Registry.GetAgent s id).
Proof. apply Registry.GetAgent_behaves. Qed.
Lemma Registry_Deregister_behaves s id : behaves (Registry.Deregister s id).
Proof. apply Registry.Deregister_behaves. Qed.
Lemma CreateGroup_behaves s n c : behaves (Conversation.CreateGroup s n c).
Proof. intros w. eapply spec_any, Conversation.CreateGroup_spec. Qed.
Lemma LeaveGroup_behaves s g p k : behaves (Conversation.LeaveGroup s g p k).
Proof. intros w. eapply spec_any, Conversation.LeaveGroup_spec. Qed.
Lemma GetOrCreateDirect_behaves s i j k l : behaves (Conversation.GetOrCreateDirect s i j k l).
Proof. intros w. eapply spec_any, Conversation.GetOrCreateDirect_spec. Qed.
Lemma ListByOwner_behaves o : behaves (Agents.ListByOwner o).
Proof. intros w. eapply spec_any, Agents_ListByOwner_spec. Qed.
Lemma GetByConversation_behaves c l t i : behaves (Messages.GetByConversation c l t i).
Proof. intros w. eapply spec_any, Messages_GetByConversation_spec. Qed.
Lemma Requests_Create_behaves r : behaves (ConnectionRequests.Create r).
Proof. intros w. eapply spec_any, Requests_Create_spec. Qed.
Lemma GetPending_behaves t k : behaves (ConnectionRequests.GetPendingByTarget t k).
Proof. intros w. eapply spec_any, Requests_GetPending_spec. Qed.
Lemma UpdateStatus_behaves i st : behaves (ConnectionRequests.UpdateStatus i st).
Proof. intros w. apply Requests_UpdateStatus_spec. Qed.
Lemma Blacklist_Create_behaves e : behaves (Blacklist.Create e).
Proof. intros w. eapply spec_any, Blacklist_Create_spec. Qed.
Lemma Blacklist_Delete_behaves f fk t tk : behaves (Blacklist.Delete f fk t tk).
Proof. intros w. eapply spec_any, Blacklist_Delete_spec. Qed.
Lemma Blacklist_List_behaves f fk : behaves (Blacklist.ListByEntity f fk).
Proof. intros w. eapply spec_any, Blacklist_ListByEntity_spec. Qed.

Lemma ListConversationItems_behaves s p k t : behaves (Conversation.ListConversationItems s p k t).
Proof.
  unfold Conversation.ListConversationItems. destruct (negb s); [apply behaves_ret|].
  case_bool_decide; [apply behaves_ret|]. intros w. eapply spec_any, Conversations_ListItems_spec.
Qed.

Lemma ListUnreadConversations_behaves s p k : behaves (Conversation.ListUnreadConversations s p k).
Proof.
  unfold Conversation.ListUnreadConversations. destruct (negb s); [apply behaves_ret|].
  case_bool_decide; [apply behaves_ret|]. intros w. eapply spec_any, Conversations_ListUnread_spec.
Qed.

Lemma select_message_behaves id : behaves (SelectRow (λ _ d, total (select_message id d))).
Proof. intros w. by eapply spec_any, (spec_SelectRow _ _ (λ _ _, True)). Qed.

Lemma resolveDirectConvID_behaves a ctx t k : behaves (resolveDirectConvID a ctx t k).
Proof.
  unfold resolveDirectConvID. destruct (caller ctx) as [c ck]. case_bool_decide; [apply behaves_ret|].
  apply behaves_bind; [apply GetOrCreateDirect_behaves|]. intros [?|?]; apply behaves_ret.
Qed.

#[local] Hint Resolve Agents_GetByID_behaves Groups_GetByID_behaves Users_GetByID_behaves
  RegisterUser_behaves LoginUser_behaves VerifyEmail_behaves Auth_ResendVerification_behaves
  CreateAgent_behaves Auth.RotateSecret_behaves Registry_GetAgent_behaves Registry_Deregister_behaves
  Discover_behaves CreateGroup_behaves LeaveGroup_behaves GetOrCreateDirect_behaves
  ListByOwner_behaves GetByConversation_behaves Requests_Create_behaves GetPending_behaves
  UpdateStatus_behaves Blacklist_Create_behaves Blacklist_Delete_behaves Blacklist_List_behaves
  ListConversationItems_behaves ListUnreadConversations_behaves select_message_behaves
  resolveDirectConvID_behaves publishAndAudit_behaves uuid_NewString_behaves now_RFC3339_behaves
  Auth.time_Now_behaves Ingest_behaves : behaves.

(** Follow the structure of a handler down to the calls it makes. *)
Ltac behave :=
  repeat first
    [ progress intros
    | progress cbv zeta
    | apply behaves_ret
    | apply with_body_behaves
    | apply parse_or_fail_behaves
    | apply target_kind_behaves
    | apply blacklist_from_behaves
    | apply or_fail_behaves
    | apply publish_or_fail_behaves
    | solve [auto with behaves]
    | apply behaves_bind
    | match goal with |- behaves (match ?x with _ => _ end) => destruct x end ].

Lemma registerRoutes_behaves a rt r : behaves (registerRoutes a rt r).
Proof.
  destruct rt; cbn [registerRoutes];
    try (unfold requireJWT; apply requireAuth_behaves; clear r; intros r ctx).
  - unfold handleRegister. behave.
  - unfold handleLogin. behave.
  - unfold handleVerifyEmail. behave.
  - unfold handleResendVerification. behave.
  - unfold handleWhoAmI. behave.
  - unfold handleCreateAgent. behave.
  - unfold handleDeleteAgent. behave.
  - unfold handleRotateSecret. behave.
  - unfold handleEntityInfo. behave.
  - unfold handleDiscover. behave.
  - unfold handleListConversations. behave.
  - unfold handleCreateGroup. behave.
  - unfold handleLeaveGroup. behave.
  - unfold handlePollMessages. behave.
  - unfold handleSendMessage. behave.
  - unfold handleReplayMessage. behave.
  - unfold handleConnectionRequest. behave.
  - unfold handleConnectionInbox. behave.
  - unfold handleConnectionAccept, update_status. behave.
  - unfold handleConnectionReject, update_status. behave.
  - unfold handleListBlacklist. behave.
  - unfold handleBlacklist. behave.
  - unfold handleUnblacklist. behave.
  - unfold handleHealth. behave.
  - unfold handleAdapterIngest. behave.
  - unfold handleListAdapters. behave.
Qed.

(** The goroutines the server starts: one per request. *)
Definition serves (a : app) (p : prog Response) : Prop := ∃ rt r, p = registerRoutes a rt r.

(** C1 The server keeps its database consistent: however many requests, of
    whatever routes, are served concurrently, with their statements
    interleaved in any order and the connection failing anywhere, every
    state the database goes through satisfies the invariant (keys,
    uniqueness, checks, foreign keys, enumerations, one conversation per
    pair, last messages, group pointers, members of direct conversations),
    and no user, conversation, group or message ever disappears. *)
Theorem server_invariant a ps w ps' w' :
  world_inv w → Forall (serves a) ps →
  rtc (pool_step (serves a)) (ps, w) (ps', w') →
  world_inv w' ∧ world_le w w'.
Proof.
  intros Hi Hps Hrtc.
  destruct (pool_invariant (serves a) any_result (replicate (length ps) any_result) ps w ps' w')
    as (Hi' & Hl' & _); [|done..| |done].
  - intros p w1 (rt & r & ->) Hi1. eapply wp_mono; [|by apply registerRoutes_behaves]. done.
  - clear Hrtc. induction Hps as [|p ps (rt & r & ->) Hps IH]; cbn; [by apply Forall2_nil|].
    apply Forall2_cons. split; [|done]. exists w. split; [reflexivity|].
    eapply wp_mono; [|by apply registerRoutes_behaves]. done.
Qed.

(** ** Properties *)

(** A response by [writeError] or of another status, for the postconditions
    below: they speak of the responses of status [code]. *)
Definition on_status (code : Z) (P : rval → World → Prop) (resp : Response) (w : World) : Prop :=
  status resp = code → P (body resp) w.

Lemma with_body_spec {A} (b : result goerr A) k w code P :
  code ≠ StatusBadRequest → (∀ x, b = Ok x → spec (k x) w (on_status code P)) →
  spec (with_body b k) w (on_status code P).
Proof.
  intros Hc Hk. destruct b as [x|e]; [by apply Hk|]. apply spec_ret. intros Hs. cbn in Hs. congruence.
Qed.

Lemma publish_or_fail_spec p k w code P (Q : uuid → World → Prop) :
  code ≠ StatusTooManyRequests → code ≠ StatusInternalServerError →
  spec p w (on_ok Q) → (∀ x w', world_le w w' → Q x w' → spec (k x) w' (on_status code P)) →
  spec (publish_or_fail p k) w (on_status code P).
Proof.
  intros H1 H2 Hp Hk. eapply spec_bind; [exact Hp|]. intros [x|e] w1 Hle HQ; [by apply Hk|].
  destruct (errors_Is e errRateLimited); apply spec_ret; intros Hs; cbn in Hs; congruence.
Qed.

Lemma or_fail_spec {A} (p : prog (result goerr A)) c (k : A → prog Response) w code P (Q : A → World → Prop) :
  code ≠ c → spec p w (on_ok Q) → (∀ x w', world_le w w' → Q x w' → spec (k x) w' (on_status code P)) →
  spec (or_fail p c k) w (on_status code P).
Proof.
  intros Hc Hp Hk. eapply spec_bind; [exact Hp|]. intros [x|e] w1 Hle HQ; [by apply Hk|].
  apply spec_ret. intros Hs. cbn in Hs. congruence.
Qed.

(** Whom an authenticated request speaks for: its agent, and without one its
    user (identifiers are read without surrounding white space). *)
Definition speaks_for (ctx : Ctx) (id : string) : Prop :=
  id ≠ "" ∧
  ((∃ v, ctxAgentID ctx = Some v ∧ id = TrimSpace v) ∨
   (∀ v, ctxAgentID ctx = Some v → TrimSpace v = "") ∧ ∃ v, ctxUserID ctx = Some v ∧ id = TrimSpace v).

Lemma contextString_set v : contextString v ≠ "" → ∃ x, v = Some x ∧ contextString v = TrimSpace x.
Proof. destruct v as [x|]; [by exists x|done]. Qed.

Lemma sender_speaks_for ctx : sender ctx ≠ "" → speaks_for ctx (sender ctx).
Proof.
  intros Hs. split; [done|]. unfold sender in *.
  destruct (String.eqb_spec (contextString (ctxAgentID ctx)) "") as [Hag|Hag].
  - right. split; [|by apply contextString_set]. intros v Hv. by rewrite Hv in Hag.
  - left. by apply contextString_set.
Qed.

(** The message a 202 of [POST /v1/messages/send] announces. *)
Definition sent (req : SendReq) (ctx : Ctx) (bdy : rval) (d : DB) : Prop :=
  ∃ env conv, published env conv d ∧ Validate (Some env) = None ∧
    speaks_for ctx (From env) ∧ To env = sreq_To req ∧ Tag env = sreq_Tag req ∧ Content env = sreq_Content req ∧
    bdy = RObj [("sent", RBool true); ("message_id", RStr (ID env)); ("conversation_id", RUuid conv)].

(** C4 Sending: under any interference and any faults, when the handler
    answers 202 the message is stored, where it belongs, under the
    identifier and in the conversation the answer names, with the content of
    the request and a valid tag, and its sender is the authenticated caller:
    no field of the request can forge it. *)
Theorem handleSendMessage_sent a bdy r ctx w :
  spec (handleSendMessage a bdy r ctx) w (on_status StatusAccepted (λ resp w',
    ∃ req, bdy = Ok req ∧ sent req ctx resp (w_db w'))).
Proof.
  unfold handleSendMessage. apply with_body_spec; [done|]. intros req Hreq.
  refuse.
  refuse.
  cbv zeta. destruct (String.eqb_spec (sender ctx) "") as [_|Hs]; [by apply spec_ret|].
  eapply spec_bind; [apply uuid_NewString_behaves|]. intros id w1 _ _.
  eapply spec_bind; [apply now_RFC3339_behaves|]. intros now w2 _ _. cbv zeta.
  set (env := MkEnvelope _ _ _ _ _ _ _).
  destruct (Validate (Some env)) as [e|] eqn:Hv; [by apply spec_ret|].
  eapply publish_or_fail_spec; [done..|apply publishAndAudit_spec|]. intros c w3 _ Hpub.
  apply spec_ret. intros _. exists req. split; [done|]. exists env, c.
  split_and!; try done. by apply sender_speaks_for.
Qed.

Lemma transport_target r ctx u `{!UuidForms} :
  uuid_Parse (target (transport_meta r ctx)) = Ok u →
  TrimSpace (r_Header r "X-Target-Agent") ≠ "" ∧
  target (transport_meta r ctx) = TrimSpace (r_Header r "X-Target-Agent").
Proof.
  intros Hu. destruct (target_is_header _ _ Hu) as [Hne ->]. cbn in *.
  destruct (String.eqb_spec (TrimSpace (r_Header r "X-Target-Agent")) "") as [Ht|Ht]; cbn in *.
  - by rewrite lookup_empty in Hne.
  - rewrite lookup_singleton_eq. cbn. split; [done|apply TrimSpace_idem].
Qed.

Lemma ingested_metadata name protocol meta env : ingested name protocol meta env → ∃ md, Metadata env = Some md.
Proof. intros [_ _ _ _ _ (? & ? & Hm)]. unfold SystemMeta in Hm. cbn in Hm. destruct (Metadata env) as [md|]; [by exists md|done]. Qed.

(** C18 Ingestion: with the adapters of the server, under any interference and
    any faults, 202 is answered only to an agent (never to a user, whose
    label is no identifier) that names a target in the header; the message
    is then stored where it belongs, with the agent as its sender, and its
    tag column is empty: the tag the adapter derived is in the metadata
    alone. *)
Theorem handleAdapterIngest_accepted `{!FloatConversion} `{!UuidForms} a name raw r ctx w :
  adapters a = main_adapters →
  spec (handleAdapterIngest a name raw r ctx) w (on_status StatusAccepted (λ resp w',
    ∃ env conv v i m, published env conv (w_db w') ∧ Validate (Some env) = None ∧
      ctxAgentID ctx = Some v ∧ From env = TrimSpace v ∧
      To env = TrimSpace (r_Header r "X-Target-Agent") ∧ To env ≠ "" ∧
      uuid_Parse (ID env) = Ok i ∧ messages (w_db w') !! i = Some m ∧ msg_Tag m = "" ∧
      resp = RObj [("accepted", RBool true); ("adapter", RStr (TrimSpace name));
                   ("message_id", RStr (ID env)); ("tag", RStr "")])).
Proof.
  intros Hadp. unfold handleAdapterIngest. cbv zeta. rewrite Hadp.
  destruct (main_adapters !! TrimSpace name) as [adp|] eqn:Hname; [|by apply spec_ret].
  apply main_adapters_names in Hname as [Hn Hin]. destruct raw as [bytes|e]; [|by apply spec_ret].
  destruct (String.eqb _ ""); [by apply spec_ret|].
  eapply or_fail_spec; [done|apply Ingest_spec|]. intros env w1 _ Hi. cbn in Hi.
  destruct (ingested_metadata _ _ _ _ Hi) as [md Hmd]. rewrite Hmd. cbv zeta.
  eapply publish_or_fail_spec; [done..|apply publishAndAudit_spec|]. intros conv w2 _ Hpub. cbn in Hpub.
  apply spec_ret. intros _. cbn [body writeJSON].
  destruct Hi as [Hval _ Hfrom Hto Htag _]. rewrite Hn in Hfrom.
  pose proof Hpub as (f & t & i & m & c & Hf & Ht & Hid & _ & Hm & _ & _ & Hmtag & _).
  rewrite Hfrom in Hf. destruct (source_is_agent _ _ _ Hin Hf) as [Hne Hsrc].
  rewrite Hto in Ht. destruct (transport_target _ _ _ Ht) as [Hhd Htgt].
  destruct (contextString_set (ctxAgentID ctx)) as (v & Hv & Hcv).
  { intros E0. cbn in Hne. by rewrite E0 in Hne. }
  exists env, conv, v, i, m. rewrite Htag, Hto, Htgt in *.
  split_and!; try done. rewrite Hfrom, Hsrc. cbn -[TrimSpace]. by rewrite Hcv, TrimSpace_idem.
Qed.

(** C37 A replay does not reach the original conversation: replaying a
    message of a direct conversation addresses the copy to the identifier of
    the conversation itself, which is no group; whatever the interference
    and the faults, if the copy is published at all, it is in another
    conversation. *)
Theorem replay_misses_conversation `{!UuidLaws} a m reason id now peer w :
  Conversation.direct_between (msg_FromID m) peer (w_db w) (msg_ConversationID m) →
  msg_ConversationID m ≠ peer → msg_ConversationID m ≠ msg_FromID m →
  spec (publishAndAudit a (replay_envelope m reason id now)) w (on_ok (λ c w',
    chat_groups (w_db w') !! msg_ConversationID m = None → c ≠ msg_ConversationID m)).
Proof.
  intros Hd Hp Hf. assert (∀ w', world_le w w' → Conversation.direct_between (msg_FromID m) peer (w_db w')
    (msg_ConversationID m)) as Hd' by (intros; by eapply Conversation.direct_between_le).
  clear Hd. intros Hi. eapply wp_mono; [|by apply publishAndAudit_spec].
  intros [c|e] w' (Hle & Hi' & Hpub); [|done]. split; [done|]. split; [done|]. cbn in *.
  intros Hnog ->. destruct Hpub as (f & t & i & msg & cv & Hpf & Hpt & _ & Hb & _).
  cbn in Hpf, Hpt. rewrite Parse_String in Hpf, Hpt. injection Hpf as <-. injection Hpt as <-.
  destruct Hb as [(g & Hg & _)|Hb]; [congruence|]. specialize (Hd' w' Hle).
  destruct Hd' as (c1 & Hc1 & _ & Hk1), Hb as (c2 & Hc2 & _ & Hk2).
  rewrite Hc1 in Hc2. injection Hc2 as <-. destruct Hk1, Hk2; congruence.
Qed.

(** ** Connection requests: answers and inbox *)

Lemma run_UpdateStatus id st w :
  env_fault (w_steps w) = NoFault → st ∈ request_statuses →
  run (ConnectionRequests.UpdateStatus id st) w =
    match connection_requests (w_db w) !! id with
    | Some q => (Ok tt, tick (set_db w (set_requests (w_db w)
                  (<[id := with_status st (env_now (w_steps w)) q]> (connection_requests (w_db w))))))
    | None => (Err ErrNotFound, tick (set_db w (w_db w)))
    end.
Proof.
  intros Hft Hst. unfold ConnectionRequests.UpdateStatus, Exec. rewrite run_bind, run_exec by done.
  unfold update_request_status, enum_value. rewrite bool_decide_eq_true_2 by done.
  by destruct (connection_requests (w_db w) !! id).
Qed.

(** C36 Answering a request takes it out of every inbox, for good or ill of
    whoever answers: any authenticated agent's accept or reject of an
    existing request succeeds, whatever the request's target and status, and
    from then on it is pending for nobody. *)
Theorem answered_not_pending (accept : bool) id i q r ctx w to kind l :
  world_inv w → env_fault (w_steps w) = NoFault →
  uuid_Parse (TrimSpace id) = Ok i → connection_requests (w_db w) !! i = Some q →
  let '(resp, w') := run ((if accept then handleConnectionAccept else handleConnectionReject) id r ctx) w in
  status resp = StatusOK ∧
  (select_pending to kind (w_db w') = Ok l → ∀ x, x ∈ l → req_ID x ≠ i).
Proof.
  intros Hi Hft Hp Hq.
  set (st := if accept then ConnectionRequestStatusAccepted else ConnectionRequestStatusRejected).
  assert (run ((if accept then handleConnectionAccept else handleConnectionReject) id r ctx) w =
    run (update_status id st) w) as -> by by destruct accept.
  unfold update_status, parse_or_fail. rewrite Hp. unfold or_fail. rewrite run_bind.
  rewrite run_UpdateStatus; [|done|by destruct accept; unfold request_statuses; set_solver].
  rewrite Hq. cbn. split; [done|]. unfold select_pending. cbn.
  intros Hl x Hx Hid. apply check_enum in Hl as [_ Hl]. injection Hl as <-.
  unfold order_desc in Hx. rewrite merge_sort_Permutation in Hx. apply elem_of_where in Hx as [Hpend [k Hk]].
  assert (k = i) as ->.
  { destruct (decide (k = i)); [done|]. rewrite lookup_insert_ne in Hk by done.
    pose proof (requests_key _ _ (inv_requests _ Hi) k x Hk) as E0. simpl in E0. congruence. }
  rewrite lookup_insert_eq in Hk. injection Hk as <-. unfold pending_for in Hpend. cbn in Hpend.
  by destruct accept; rewrite !andb_false_r in Hpend.
Qed.
End Handlers.
