(* ===== verification/Links.v ===== *)
(** * Verification links

    A link works once.  [spares] follows a program through its actions, as
    [wp] does (file World), for one property the invariant does not have: no
    statement of it makes a consumed token valid again.  Every handler of the
    server has it, so that a token that has verified an address is refused
    from then on, whatever requests are served in between. *)

From S2P Require Import Prelude.
From S2P Require Import GoStrings.
From S2P Require Import GoTime.
From S2P Require Import GoValue.
From S2P Require Import Uuid.
From S2P Require Import Models.
From S2P Require Import Schema.
From S2P Require Import Invariant.
From S2P Require Import World.
From S2P Require Import Interfaces.
From S2P Require Import Base64.
From S2P Require Import Statements.
From S2P Require Import Repositories.
From S2P Require Import AdapterBase.
From S2P Require Import Mcp.
From S2P Require Import Grpc.
From S2P Require Import A2a.
From S2P Require Import Adapters.
From S2P Require Import Conversation.
From S2P Require Import Registry.
From S2P Require Import Auth.
From S2P Require Import Server.
From S2P Require Import Handlers.

Open Scope string_scope.
Open Scope Z_scope.

Section Spares.
Context {U : UuidPkg} {C : Citext} {E : Env} {UT : UnicodeTables}.

(** No user still has this token with an expiry after [t]. *)
Definition spent (token : string) (t : Z) (d : DB) : Prop :=
  ∀ k u e, users d !! k = Some u → user_VerificationToken u = Some token →
    user_VerificationTokenExpiresAt u = Some e → e ≤ timestamptz t.

Lemma spent_same token t d d' : users d' = users d → spent token t d → spent token t d'.
Proof. unfold spent. by intros ->. Qed.

Lemma spent_insert token t d i u :
  user_VerificationToken u ≠ Some token → spent token t d → spent token t (set_users d (<[i := u]> (users d))).
Proof.
  intros Hu Hs k x e Hk. cbn in Hk. apply lookup_insert_Some in Hk as [[_ <-]|[_ Hk]]; [by intros Ht|by eapply Hs].
Qed.

Lemma spent_verified token t tok now d : spent token t d → spent token t (update_verify_email tok now d).2.
Proof.
  intros Hs k x e Hk. change (update_where (token_valid tok now) verified (users d) !! k = Some x) in Hk.
  unfold update_where in Hk. rewrite lookup_fmap in Hk.
  destruct (users d !! k) as [u|] eqn:Hu; [|done]. injection Hk as <-.
  destruct (token_valid tok now u); [intros Ht; discriminate Ht|by eapply Hs].
Qed.

(** ** Programs *)
Context (token : string) (start : nat).

(** What an action does to spent tokens and to the count of actions. *)
Definition spares_step (w w' : World) : Prop :=
  (w_steps w < w_steps w')%nat ∧ ∀ t, spent token t (w_db w) → spent token t (w_db w').

Fixpoint spares {A} (p : prog A) (Q : A → Prop) : Prop :=
  match p with
  | Ret a => Q a
  | Act op k => ∀ w, (start ≤ w_steps w)%nat → spares_step w (op w).2 ∧ spares (k (op w).1) Q
  end.

Definition harmless {A} (p : prog A) : Prop := spares p (λ _, True).

Lemma spares_bind {A B} (p : prog A) (f : A → prog B) (P : A → Prop) Q :
  spares p P → (∀ a, P a → spares (f a) Q) → spares (bind p f) Q.
Proof.
  intros Hp Hf. induction p as [a|B' op k IH]; cbn in *; [by apply Hf|].
  intros w Hw. destruct (Hp w Hw) as [H1 H2]. split; [exact H1|by apply IH].
Qed.

Lemma harmless_ret {A} (a : A) : harmless (Ret a).
Proof. done. Qed.

Lemma harmless_bind {A B} (p : prog A) (f : A → prog B) :
  harmless p → (∀ a, harmless (f a)) → harmless (bind p f).
Proof. intros Hp Hf. eapply spares_bind; [exact Hp|]. intros a _. apply Hf. Qed.

(** ** Actions *)
Lemma spares_act {A} (f : nat → World → A * World) (Q : A → Prop) :
  (∀ n w, (start ≤ n)%nat → w_steps (f n w).2 = w_steps w ∧
     (∀ t, spent token t (w_db w) → spent token t (w_db (f n w).2)) ∧ Q (f n w).1) →
  spares (act f) Q.
Proof.
  intros Hf w Hw. destruct (Hf (w_steps w) w Hw) as (H1 & H2 & H3). unfold spares_step.
  destruct (f (w_steps w) w) as [a w']. cbn in *. rewrite H1. split; [split; [lia|exact H2]|exact H3].
Qed.

Lemma harmless_act {A} (f : nat → World → A * World) :
  (∀ n w, w_steps (f n w).2 = w_steps w ∧ users (w_db (f n w).2) = users (w_db w)) → harmless (act f).
Proof.
  intros Hf. apply spares_act. intros n w _. destruct (Hf n w) as [H1 H2]. split; [exact H1|].
  split; [|done]. intros t. by apply spent_same.
Qed.

(** A statement, by what it may do to the table of users. *)
Lemma harmless_exec {A} (f : Z → DB → result pg_error (A * DB)) :
  (∀ now d a d', f now d = Ok (a, d') → ∀ t, spent token t d → spent token t d') → harmless (act (exec_op f)).
Proof.
  intros Hf. apply spares_act. intros n w _. unfold exec_op.
  destruct (env_fault n); [|by split|];
    (destruct (f (env_now n) (w_db w)) as [[a d']|e] eqn:Hfd; [|by split]); cbn; split_and!; eauto.
Qed.

Lemma harmless_QueryRow {A} (f : Z → DB → result pg_error (option A * DB)) :
  (∀ now d a d', f now d = Ok (a, d') → ∀ t, spent token t d → spent token t d') → harmless (QueryRow f).
Proof. intros Hf. apply harmless_bind; [by apply harmless_exec|]. intros a. apply harmless_ret. Qed.

Lemma harmless_SelectRow {A} (f : Z → DB → result pg_error (option A)) : harmless (SelectRow f).
Proof. apply harmless_QueryRow. intros now d a d' Hf. destruct (f now d); [|done]. by injection Hf as _ <-. Qed.

Lemma harmless_Query {A} (f : Z → DB → result pg_error (list A)) : harmless (Query f).
Proof. apply harmless_act. intros n w. done. Qed.

Lemma harmless_time : harmless time_Now.
Proof. by apply harmless_act. Qed.
Lemma harmless_uuid : harmless uuid_New.
Proof. by apply harmless_act. Qed.
Lemma harmless_rand n : harmless (rand_Read n).
Proof. by apply harmless_act. Qed.
Lemma harmless_mail m : harmless (SendEmail m).
Proof. apply harmless_act. intros n w. by destruct (env_mail n). Qed.

(** A statement that leaves the table of users alone. *)
Definition no_user {A} (f : Z → DB → result pg_error (A * DB)) : Prop :=
  ∀ now d a d', f now d = Ok (a, d') → users d' = users d.

Lemma no_user_harmless {A} (f : Z → DB → result pg_error (A * DB)) : no_user f →
  ∀ now d a d', f now d = Ok (a, d') → ∀ t, spent token t d → spent token t d'.
Proof. intros Hf now d a d' H t. by apply spent_same, (Hf now d a). Qed.

Lemma save_tx_harmless m : harmless (act (Messages.save_tx m)).
Proof.
  apply harmless_act. intros n w. unfold Messages.save_tx, insert_message, update_last_message, require, enum_value.
  cbv zeta. repeat (case_match; simplify_eq; try done).
Qed.

(** ** The writers of the table of users *)
Lemma Create_harmless user : user_VerificationToken user ≠ Some token → harmless (Users.Create user).
Proof.
  intros Hu. unfold Users.Create, fresh_ID, fresh_time.
  apply harmless_bind; [case_match; [apply harmless_uuid|apply harmless_ret]|]. intros id.
  apply harmless_bind; [case_match; [apply harmless_time|apply harmless_ret]|]. intros now.
  apply harmless_bind; [|intros r; apply harmless_ret]. apply harmless_QueryRow.
  intros t d a d' Hf t'. unfold insert_user, require in Hf. repeat (case_match; simplify_eq).
  by apply spent_insert.
Qed.

Lemma SetVerificationToken_harmless id tok e : tok ≠ token → harmless (Users.SetVerificationToken id tok e).
Proof.
  intros Ht. apply harmless_bind; [|intros r; apply harmless_ret]. apply harmless_exec.
  intros now d a d' Hf t. unfold total in Hf. apply (inj Ok) in Hf. unfold update_user_token in Hf. destruct (users d !! id) as [u|]; injection Hf as _ <-; [|done].
  apply spent_insert. cbn. congruence.
Qed.

Lemma VerifyEmail_harmless tok : harmless (Users.VerifyEmail tok).
Proof.
  apply harmless_bind; [|intros r; apply harmless_ret]. apply harmless_QueryRow.
  intros now d a d' Hf t. apply (inj Ok) in Hf. injection Hf as _ <-. apply spent_verified.
Qed.

(** ** Handlers *)
Context {B : Bcrypt} {A2 : Argon2} {J : Jwt}.
Context (fresh : ∀ n b, (start ≤ n)%nat → env_random n 32 = Ok b → hex_EncodeToString b ≠ token).

Lemma generate_fresh : spares Auth.generateVerificationToken (λ r, ∀ tok, r = Ok tok → tok ≠ token).
Proof.
  unfold Auth.generateVerificationToken.
  apply (spares_bind _ _ (λ r, ∀ b, r = Ok b → hex_EncodeToString b ≠ token)).
  - apply spares_act. intros n w Hn. split_and!; [done..|]. intros b. by apply fresh.
  - intros [b|e] Hb; cbn; [|done]. intros tok Ht. apply (inj Ok) in Ht as <-. by apply Hb.
Qed.

(** A statement whose [Schema] function does not write users. *)
Ltac statement :=
  let Hf := fresh in
  intros ? ? ? ? Hf ?; apply spent_same;
  unfold total, insert_agent, delete_agent, update_agent_secret, insert_conversation, update_conversation_group,
    insert_participant, delete_participant, update_participant, insert_group, update_group_conversation,
    insert_request, update_request_status, insert_entry, delete_entry, require, enum_value in Hf;
  cbv zeta in Hf; repeat (case_match; simplify_eq; try done).

Ltac head_of p := lazymatch p with ?f _ => head_of f | _ => p end.

Ltac harmless :=
  repeat first
    [ progress intros
    | lazymatch goal with
      | |- harmless (Ret _) => apply harmless_ret
      | |- harmless time_Now => apply harmless_time
      | |- harmless uuid_New => apply harmless_uuid
      | |- harmless (rand_Read _) => apply harmless_rand
      | |- harmless (SendEmail _) => apply harmless_mail
      | |- harmless (SelectRow _) => apply harmless_SelectRow
      | |- harmless (Query _) => apply harmless_Query
      | |- harmless (QueryRow _) => apply harmless_QueryRow; solve [statement]
      | |- harmless (Exec _) => apply harmless_exec; solve [statement]
      | |- harmless (act (Messages.save_tx _)) => apply save_tx_harmless
      | H : ∀ raw meta, harmless (Ingest ?adp raw meta) |- harmless (Ingest ?adp _ _) => apply H
      | |- harmless (act _) => apply harmless_act; intros; repeat case_match; done
      | |- harmless (Users.Create _) => apply Create_harmless; done
      | |- harmless (Users.VerifyEmail _) => apply VerifyEmail_harmless
      | |- harmless (bind Auth.generateVerificationToken _) =>
          eapply spares_bind; [apply generate_fresh|intros ? ?]
      | |- harmless (Users.SetVerificationToken _ _ _) => apply SetVerificationToken_harmless; solve [auto]
      | |- harmless (bind _ _) => apply harmless_bind
      | |- harmless (match ?x with _ => _ end) => destruct x
      | |- harmless (let x := ?t in _) => cbv zeta
      | |- spares ?p (λ _, True) => change (harmless p)
      | |- harmless ?p => let h := head_of p in unfold h;
          try (progress unfold pgAgentRepository, pgUserRepository, pgConversationRepository,
            pgConversationParticipantRepository, pgChatGroupRepository);
          cbv beta iota
      end ].

Context {FC : FloatConversion}.

Lemma main_adapters_harmless name adp raw meta :
  main_adapters !! name = Some adp → harmless (Ingest adp raw meta).
Proof.
  unfold main_adapters. intros [[_ <-]|[_ H]]%lookup_insert_Some.
  { change (harmless (Mcp.Ingest raw meta)). harmless. }
  apply lookup_insert_Some in H as [[_ <-]|[_ H]].
  { change (harmless (A2a.Ingest raw meta)). harmless. }
  apply lookup_singleton_Some in H as [_ <-]. change (harmless (Grpc.Ingest raw meta)). harmless.
Qed.

(** Every handler of the server. *)
Lemma registerRoutes_harmless a rt r : adapters a = main_adapters → harmless (registerRoutes a rt r).
Proof.
  intros Ha. destruct rt; cbn [registerRoutes]; [harmless..| |harmless].
  apply harmless_bind; [harmless|]. intros [ctx|e]; [|harmless]. unfold handleAdapterIngest. cbv zeta.
  rewrite Ha. destruct (main_adapters !! TrimSpace name) as [adp|] eqn:Hadp; [|harmless].
  assert (∀ raw meta, harmless (Ingest adp raw meta)) as Hi by (intros; by eapply main_adapters_harmless).
  harmless.
Qed.

(** ** The pool *)
Context (a : app) (Hadapters : adapters a = main_adapters).

Lemma pool_step_harmless ps w ps' w' :
  pool_step (serves a) (ps, w) (ps', w') → (start ≤ w_steps w)%nat → Forall harmless ps →
  (w_steps w ≤ w_steps w')%nat ∧ (∀ t, spent token t (w_db w) → spent token t (w_db w')) ∧ Forall harmless ps'.
Proof.
  intros Hst Hw Hps. inversion Hst as [ps1 ps2 T op k w0|ps0 w0 p (rt & r & ->)]; subst.
  - apply Forall_app in Hps as [H1 [Hp H2]%Forall_cons]. destruct (Hp w Hw) as [[Hs Hsp] Hk].
    split; [lia|]. split; [exact Hsp|]. apply Forall_app. split; [done|]. by apply Forall_cons.
  - split; [lia|]. split; [done|]. apply Forall_app. split; [done|]. by apply Forall_singleton, registerRoutes_harmless.
Qed.

Lemma pool_harmless s s' :
  rtc (pool_step (serves a)) s s' → (start ≤ w_steps s.2)%nat → Forall harmless s.1 →
  (w_steps s.2 ≤ w_steps s'.2)%nat ∧ (∀ t, spent token t (w_db s.2) → spent token t (w_db s'.2)) ∧
  Forall harmless s'.1.
Proof.
  induction 1 as [s|[ps w] [ps2 w2] s' Hst _ IH]; intros Hw Hps; [done|]. cbn in *.
  destruct (pool_step_harmless _ _ _ _ Hst Hw Hps) as (H1 & H2 & H3).
  destruct IH as (H4 & H5 & H6); [lia|done|]. split; [lia|]. split; [|done]. intros t Ht. by apply H5, H2.
Qed.

Lemma VerifyEmail_spends s tok w u w1 : TrimSpace tok = token →
  run (Auth.VerifyEmail s tok) w = (Ok u, w1) →
  Auth.db s = true ∧ TrimSpace tok ≠ "" ∧ w_steps w1 = S (w_steps w) ∧ spent token (env_now (w_steps w)) (w_db w1).
Proof.
  intros Htok. unfold Auth.VerifyEmail, Auth.blank. rewrite Htok.
  destruct (Auth.db s); [|done]. destruct (String.eqb_spec token "") as [|Hne]; [done|]. cbn [negb orb].
  change UserRepository.VerifyEmail with Users.VerifyEmail. unfold Users.VerifyEmail. rewrite run_bind.
  destruct (run (QueryRow _) w) as [r w'] eqn:Hr. apply run_QueryRow_cases in Hr as (Hs & Hc).
  cbn [run]. intros Hok. apply pair_equal_spec in Hok as [Hok <-]. split_and!; try done.
  destruct Hc as [([e ->] & _)|(x & Hf & _)].
  { unfold scan in Hok. by destruct (errors_Is e ErrNoRows). }
  apply (inj Ok) in Hf. injection Hf as _ <-. intros k x' e Hk Hx He.
  change (update_where (token_valid token (env_now (w_steps w))) verified (users (w_db w)) !! k = Some x') in Hk.
  unfold update_where in Hk. rewrite lookup_fmap in Hk. destruct (users (w_db w) !! k) as [v|]; [|done].
  injection Hk as <-. destruct (token_valid _ _ v) eqn:Hv; [discriminate Hx|].
  unfold token_valid in Hv. rewrite Hx, He, String.eqb_refl in Hv. cbn [andb] in Hv. lia.
Qed.

Lemma VerifyEmail_spent s tok w t : TrimSpace tok = token →
  Auth.db s = true → token ≠ "" → spent token t (w_db w) → t ≤ env_now (w_steps w) →
  env_fault (w_steps w) = NoFault → (run (Auth.VerifyEmail s tok) w).1 = Err ErrNotFound.
Proof.
  intros Htok Hdb Hne Hs Ht Hft. unfold Auth.VerifyEmail, Auth.blank. rewrite Htok, Hdb.
  rewrite (proj2 (String.eqb_neq token "")) by done. cbn [negb orb].
  change UserRepository.VerifyEmail with Users.VerifyEmail. unfold Users.VerifyEmail.
  rewrite run_bind, run_QueryRow by done. unfold update_verify_email, total.
  assert (where_ (token_valid token (env_now (w_steps w))) (users (w_db w)) = []) as ->; [|done].
  destruct (where_ _ _) as [|x l] eqn:Hw; [done|].
  assert (x ∈ where_ (token_valid token (env_now (w_steps w))) (users (w_db w))) as Hx by (rewrite Hw; left).
  apply elem_of_where in Hx as [Hv [k Hk]]. unfold token_valid in Hv.
  destruct (user_VerificationToken x) as [t'|] eqn:Hxt, (user_VerificationTokenExpiresAt x) as [e|] eqn:He; try done.
  apply andb_true_iff in Hv as [->%String.eqb_eq Hv]. pose proof (Hs k x e Hk Hxt He).
  unfold timestamptz in *. pose proof (Z.div_le_mono t (env_now (w_steps w)) 1000 ltac:(lia) Ht). lia.
Qed.
End Spares.

(** ** Properties *)
Section Properties.
Context {U : UuidPkg} {C : Citext} {E : Env} {UT : UnicodeTables} {FC : FloatConversion}.
Context {B : Bcrypt} {A2 : Argon2} {J : Jwt}.

(** C35 A verification link works once.  Requests of whatever routes are served
    concurrently, their statements interleaved in any order on a connection
    that may fail anywhere; at some moment the token of a link verifies an
    address; whatever of the requests in progress and of new ones is executed
    after that, the same token is answered with [ErrNotFound] from then on.
    (The clock does not go back, the random bytes drawn meanwhile do not
    happen to be the token's again, and the statement of the last answer
    itself reaches the database.) *)
Theorem VerifyEmail_once a s token ps0 w0 ps w u w1 ps2 w2 :
  adapters a = main_adapters →
  (∀ n m, (n ≤ m)%nat → env_now n ≤ env_now m) →
  (∀ n b, (w_steps w0 ≤ n)%nat → env_random n 32 = Ok b → hex_EncodeToString b ≠ TrimSpace token) →
  Forall (serves a) ps0 →
  rtc (pool_step (serves a)) (ps0, w0) (ps, w) →
  run (Auth.VerifyEmail s token) w = (Ok u, w1) →
  rtc (pool_step (serves a)) (ps, w1) (ps2, w2) →
  env_fault (w_steps w2) = NoFault →
  (run (Auth.VerifyEmail s token) w2).1 = Err ErrNotFound.
Proof.
  intros Ha Hclock Hfresh Hps0 H0 Hrun H2 Hft.
  destruct (pool_harmless (TrimSpace token) (w_steps w0) Hfresh a Ha _ _ H0) as (Hs & _ & Hps); [done| |].
  { eapply Forall_impl; [exact Hps0|]. intros p (rt & r & ->). exact (registerRoutes_harmless _ _ Hfresh a rt r Ha). }
  cbn in *. destruct (VerifyEmail_spends (TrimSpace token) s token w u w1 eq_refl Hrun) as (Hdb & Hne & Hs1 & Hsp).
  destruct (pool_harmless (TrimSpace token) (w_steps w0) Hfresh a Ha _ _ H2) as (Hs2 & Hsp2 & _); [cbn; lia|done|].
  cbn in *. eapply VerifyEmail_spent; [done..|by apply Hsp2|apply Hclock; lia|done].
Qed.
End Properties.
