(* ===== verification/Bodies.v ===== *)
(** * Request bodies

    How the handlers read the JSON of a request: [readJSON] of
    [backend/cmd/bobberd/main.go] ([json.Decoder.Decode] of the first value
    of the body, unknown members refused), the structs it decodes into, and
    [with_raw], which turns an endpoint and the bytes of a body into the
    [route] of [Handlers]. *)

From S2P Require Import Prelude.
From S2P Require Import GoStrings.
From S2P Require Import GoValue.
From S2P Require Import Envelope.
From S2P Require Import Uuid.
From S2P Require Import Schema.
From S2P Require Import World.
From S2P Require Import JsonString.
From S2P Require Import Json.
From S2P Require Import JsonValue.
From S2P Require Import AdapterBase.
From S2P Require Import Server.
From S2P Require Import Handlers.

Open Scope string_scope.
Open Scope Z_scope.

(** ** The decoder *)

(** [dec.Decode]: the first value of the text.  What follows stays in the
    buffer unread: of a byte that cannot follow a value the scanner complains
    only when it is asked for the next one. *)
Definition first_value (s : string) : option json :=
  match value (enough s) 0 (skip_ws s) with Good t _ => Some t | _ => None end.

Section Bodies.
Context {U : UuidPkg} {C : Citext} {E : Env} {UT : UnicodeTables}.

(** [readJSON(r, &req)] with [req] the struct of these fields, zeroed; the
    body is its bytes, or the error of reading them. *)
Definition readJSON {A} (fields : list (@field A)) (zero : A) (body : result goerr string) : result goerr A :=
  match body with
  | Err e => Err e
  | Ok raw =>
      match first_value raw ≫= (λ t, decode_struct true fields t zero) with
      | Some req => Ok req
      | None => Err (ExternalError "json")
      end
  end.

(** ** The structs of the handlers *)
Definition credentials_fields : list (@field CredentialsReq) :=
  [("email", string_field (λ s r, MkCredentialsReq s (creq_Password r)));
   ("password", string_field (λ s r, MkCredentialsReq (creq_Email r) s))].

Definition discover_fields : list (@field DiscoverReq) :=
  [("supported_tags", slice_field "" (string_field (λ s _, s)) dreq_SupportedTags 
                       (λ l r, MkDiscoverReq l (dreq_Limit r)));
   ("limit", int_field (λ z r, MkDiscoverReq (dreq_SupportedTags r) z))].

Definition leave_fields : list (@field LeaveReq) :=
  [("participant_id", string_field (λ s r, MkLeaveReq s (lreq_ParticipantKind r)));
   ("participant_kind", string_field (λ s r, MkLeaveReq (lreq_ParticipantID r) s))].

Definition connect_fields : list (@field ConnectReq) :=
  [("target_id", string_field (λ s r, MkConnectReq s (nreq_FromID r) (nreq_FromKind r)));
   ("from_id", string_field (λ s r, MkConnectReq (nreq_TargetID r) s (nreq_FromKind r)));
   ("from_kind", string_field (λ s r, MkConnectReq (nreq_TargetID r) (nreq_FromID r) s))].

Definition send_fields : list (@field SendReq) :=
  [("to", string_field (λ s r, MkSendReq s (sreq_Tag r) (sreq_Content r) (sreq_Metadata r)));
   ("tag", string_field (λ s r, MkSendReq (sreq_To r) s (sreq_Content r) (sreq_Metadata r)));
   ("content", string_field (λ s r, MkSendReq (sreq_To r) (sreq_Tag r) s (sreq_Metadata r)));
   ("metadata", map_field sreq_Metadata (λ m r, MkSendReq (sreq_To r) (sreq_Tag r) (sreq_Content r) m))].

(** A struct of one string. *)
Definition one_field (name : string) : list (@field string) := [(name, string_field (λ s _, s))].

Definition read_credentials := readJSON credentials_fields (MkCredentialsReq "" "").
Definition read_discover := readJSON discover_fields (MkDiscoverReq [] 0).
Definition read_leave := readJSON leave_fields (MkLeaveReq "" "").
Definition read_connect := readJSON connect_fields (MkConnectReq "" "" "").
Definition read_send := readJSON send_fields (MkSendReq "" "" "" None).
Definition read_one (name : string) := readJSON (one_field name) "".

(** ** Requests with the bytes of their body *)
Inductive endpoint :=
| AuthRegister | AuthLogin | AuthVerifyEmail | AuthResendVerification
| Agents | RegistryDiscover | Groups | GroupsLeave (id : string)
| MessagesSend | MessagesReplay (id : string) | ConnectionsRequest | Blacklist
| AdapterIngest (name : string)
| Bodyless (rt : route).

Definition with_raw (ep : endpoint) (raw : result goerr string) : route :=
  match ep with
  | AuthRegister => POST_auth_register (read_credentials raw)
  | AuthLogin => POST_auth_login (read_credentials raw)
  | AuthVerifyEmail => POST_auth_verify_email (read_one "token" raw)
  | AuthResendVerification => POST_auth_resend_verification (read_one "email" raw)
  | Agents => POST_agents (read_one "display_name" raw)
  | RegistryDiscover => POST_registry_discover (read_discover raw)
  | Groups => POST_groups (read_one "name" raw)
  | GroupsLeave id => POST_groups_leave id (read_leave raw)
  | MessagesSend => POST_messages_send (read_send raw)
  | MessagesReplay id => POST_messages_replay id (read_one "reason" raw)
  | ConnectionsRequest => POST_connections_request (read_connect raw)
  | Blacklist => POST_blacklist (read_one "target_id" raw)
  | AdapterIngest name => POST_adapter_ingest name raw
  | Bodyless rt => rt
  end.

(** ** Lemmas *)
Lemma first_value_object l rest : fits maxNestingDepth (JObj l) →
  first_value (print (JObj l) +:+ rest) = Some (scrub (JObj l)).
Proof.
  intros [Hn Hd]. unfold first_value. rewrite skip_ws_print by done.
  rewrite object_reads_back; [done| |done|lia|].
  - apply Forall_forall. intros. apply print_reads_back.
  - unfold enough. rewrite len_app. lia.
Qed.

Lemma readJSON_object {A} (fields : list (@field A)) zero l rest :
  fits maxNestingDepth (JObj l) →
  readJSON fields zero (Ok (print (JObj l) +:+ rest)) =
  match decode_members true fields (map scrub_member l) zero with
  | Some req => Ok req
  | None => Err (ExternalError "json")
  end.
Proof. intros Hl. cbn [readJSON]. rewrite first_value_object by done. cbn [mbind option_bind]. by rewrite scrub_obj. Qed.

(** An unknown member is an error, wherever it is. *)
Lemma decode_unknown {A} (fields : list (@field A)) l k t a :
  (k, t) ∈ l → find_field fields k = None → decode_members true fields l a = None.
Proof.
  intros Hin Hk. revert a. induction l as [|[k' t'] l IH]; intros a; [by apply elem_of_nil in Hin|]. cbn.
  apply elem_of_cons in Hin as [[= <- <-]|Hin]; [by rewrite Hk|].
  destruct (find_field fields k') as [f|]; [|done]. destruct (f t' a); [by apply IH|done].
Qed.

(** The reader of a body always ends: within fuel twice its length it has
    found the first value or a syntax error, and [first_value] is its answer. *)
Lemma first_value_ends s :
  (value (enough s) 0 (skip_ws s) = Bad ∧ first_value s = None) ∨
  ∃ t rest, value (enough s) 0 (skip_ws s) = Good t rest ∧ first_value s = Some t ∧
    (String.length rest < String.length s)%nat.
Proof.
  unfold first_value. pose proof (len_skip_ws s) as Hl.
  assert (value (enough s) 0 (skip_ws s) ≠ Fuel) as Hv by (apply readers_total; unfold enough; lia).
  pose proof (value_shorter (enough s) 0 (skip_ws s)) as Hs.
  destruct (value _ _ _) as [| |t rest]; [done|by left|]. right. exists t, rest. split; [done|]. split; [done|].
  cbn in Hs. lia.
Qed.

(** ** What a body tells

    The reading of a body whose members are texts, as the documents of the
    interface have it: a member belongs to a name when they are the same
    without regard to case, each member must belong to one of the names of
    the struct and be a string or null, and the last string of a name is its
    value. *)
Definition key_is (name key : string) : bool := String.eqb (fold_name name) (fold_name key).

Definition is_text (t : json) : bool := match t with JNull | JStr _ => true | _ => false end.

Definition named_in (names : list string) (key : string) : bool := existsb (λ n, key_is n key) names.

Definition texts (names : list string) (l : list (string * json)) : bool :=
  forallb (λ m, named_in names m.1 && is_text m.2) l.

Definition told_or (d name : string) (l : list (string * json)) : string :=
  default d (last (omap (λ m, match m.2 with JStr s => if key_is name m.1 then Some s else None | _ => None end) l)).

Definition told := told_or "".

Lemma told_or_cons d name k t l :
  told_or d name ((k, t) :: l) =
  told_or (match t with JStr s => if key_is name k then s else d | _ => d end) name l.
Proof.
  unfold told_or. cbn [omap list_omap fst snd].
  destruct t; try done. destruct (key_is name k); [|done]. rewrite last_cons. by destruct (last _).
Qed.

(** A struct of strings, by the names and the setters of its fields. *)
Section Strings.
Context {A : Type} (fs : list (string * (string → A → A))) (get : string → A → string).

Definition string_fields (fs : list (string * (string → A → A))) : list (@field A) :=
  map (λ f, (f.1, string_field f.2)) fs.

Lemma find_string_field k : NoDup (map (λ f, fold_name f.1) fs) →
  find_field (string_fields fs) k = (λ f, string_field f.2) <$> List.find (λ f, key_is f.1 k) fs.
Proof.
  unfold find_field, key_is. induction fs as [|f l IH]; [done|]. cbn [map]. intros [Hf Hl]%NoDup_cons.
  cbn [string_fields map List.find fst snd].
  specialize (IH Hl). destruct (String.eqb_spec f.1 k) as [->|Hne]; [by rewrite String.eqb_refl|].
  destruct (String.eqb_spec (fold_name f.1) (fold_name k)) as [Heq|_]; [|exact IH].
  destruct (List.find _ _) as [g|] eqn:Hg; [|done].
  apply find_some in Hg as [Hg Hk%String.eqb_eq]. destruct Hf. rewrite Heq, <-Hk.
  unfold string_fields in Hg. apply in_map_iff in Hg as (g' & <- & Hg'). cbn [fst].
  apply list_elem_of_In, in_map_iff. by exists g'.
Qed.

Context (get_set : ∀ f n s a, f ∈ fs → n ∈ map fst fs →
  get n (f.2 s a) = if String.eqb n f.1 then s else get n a).

Lemma get_named n f k s a : NoDup (map (λ f, fold_name f.1) fs) → n ∈ map fst fs →
  List.find (λ f, key_is f.1 k) fs = Some f →
  get n (f.2 s a) = if key_is n k then s else get n a.
Proof.
  intros Hnd Hn Hf. apply find_some in Hf as [Hin%list_elem_of_In Hk].
  rewrite (get_set f n s a Hin Hn). unfold key_is in *. apply String.eqb_eq in Hk. rewrite <-Hk.
  destruct (String.eqb_spec n f.1) as [->|Hne]; [by rewrite String.eqb_refl|].
  destruct (String.eqb_spec (fold_name n) (fold_name f.1)) as [Heq|]; [|done].
  apply list_elem_of_In, in_map_iff in Hn as (g & <- & Hg%list_elem_of_In).
  destruct Hne. f_equal. apply list_elem_of_lookup in Hin as [i Hi], Hg as [j Hj].
  assert (i = j) as ->; [|congruence].
  eapply NoDup_lookup; [exact Hnd|..]; rewrite list_lookup_fmap, ?Hi, ?Hj; cbn; by rewrite ?Heq.
Qed.

Lemma decode_strings l a : NoDup (map (λ f, fold_name f.1) fs) →
  match decode_members true (string_fields fs) l a with
  | Some b => texts (map fst fs) l = true ∧ ∀ n, n ∈ map fst fs → get n b = told_or (get n a) n l
  | None => texts (map fst fs) l = false
  end.
Proof.
  intros Hnd. revert a. induction l as [|[k t] l IH]; intros a; [done|].
  cbn [decode_members texts forallb fst snd]. rewrite find_string_field by done.
  assert (named_in (map fst fs) k = bool_decide (is_Some (List.find (λ f, key_is f.1 k) fs))) as ->.
  { unfold named_in. clear. induction fs as [|f l IH]; [by vm_compute|]. cbn. destruct (key_is f.1 k); [|exact IH].
    symmetry. by apply bool_decide_eq_true. }
  destruct (List.find _ _) as [f|] eqn:Hf; cbn [fmap option_fmap option_map].
  2:{ rewrite bool_decide_eq_false_2; [done|]. by intros [? ?]. }
  rewrite bool_decide_eq_true_2 by done. destruct t; cbn [string_field mbind option_bind is_text andb]; try done.
  - specialize (IH a). destruct (decode_members _ _ _ _); [|done]. destruct IH as [H1 H2]. split; [done|].
    intros n Hn. by rewrite told_or_cons, H2.
  - specialize (IH (f.2 s a)). destruct (decode_members _ _ _ _); [|done]. destruct IH as [H1 H2]. split; [done|].
    intros n Hn. rewrite told_or_cons, H2 by done. by rewrite (get_named n f k s a Hnd Hn Hf).
Qed.

Context (get_ext : ∀ a b, (∀ n, n ∈ map fst fs → get n a = get n b) → a = b).

Lemma readJSON_texts zero l rest req : NoDup (map (λ f, fold_name f.1) fs) → fits maxNestingDepth (JObj l) →
  let members := map scrub_member l in
  (∀ n, n ∈ map fst fs → get n req = told_or (get n zero) n members) →
  readJSON (string_fields fs) zero (Ok (print (JObj l) +:+ rest)) =
  if texts (map fst fs) members then Ok req else Err (ExternalError "json").
Proof.
  intros Hnd Hl members Hreq. rewrite readJSON_object by done. fold members.
  pose proof (decode_strings members zero Hnd) as H.
  destruct (decode_members _ _ _ _) as [b|]; [|by rewrite H].
  destruct H as [-> H]. f_equal. apply get_ext. intros n Hn. by rewrite H, Hreq.
Qed.
End Strings.

(** The structs of strings of the handlers. *)
Ltac string_struct fs get :=
  intros Hl; apply (readJSON_texts fs get);
  [ intros f n ? ? Hf Hn; cbn [map fst] in Hn;
    repeat (apply elem_of_cons in Hf as [->|Hf]; [
      repeat (apply elem_of_cons in Hn as [->|Hn]; [reflexivity|]); by apply elem_of_nil in Hn|]);
    by apply elem_of_nil in Hf
  | idtac
  | apply (bool_decide_eq_true_1 (NoDup _)); vm_compute; reflexivity
  | exact Hl
  | intros n Hn; cbn [map fst] in Hn;
    repeat (apply elem_of_cons in Hn as [->|Hn]; [reflexivity|]); by apply elem_of_nil in Hn ].

Section Structs.
Context (l : list (string * json)) (rest : string).
Let members := map scrub_member l.
Let body : result goerr string := Ok (print (JObj l) +:+ rest).

(** What a struct of these names is, read from the body. *)
Definition accepted {A} (names : list string) (members : list (string * json)) (req : A) : result goerr A :=
  if texts names members then Ok req else Err (ExternalError "json").

Lemma read_credentials_texts : fits maxNestingDepth (JObj l) →
  read_credentials body = accepted ["email"; "password"] members (MkCredentialsReq (told "email" members) (told "password" members)).
Proof.
  string_struct [("email", λ s r, MkCredentialsReq s (creq_Password r)); ("password", λ s r, MkCredentialsReq (creq_Email r) s)]
    (λ n r, if String.eqb n "email" then creq_Email r else creq_Password r).
  intros [] [] H. f_equal; [apply (H "email")|apply (H "password")]; cbn; set_solver.
Qed.

Lemma read_leave_texts : fits maxNestingDepth (JObj l) →
  read_leave body = accepted ["participant_id"; "participant_kind"] members
    (MkLeaveReq (told "participant_id" members) (told "participant_kind" members)).
Proof.
  string_struct [("participant_id", λ s r, MkLeaveReq s (lreq_ParticipantKind r));
                 ("participant_kind", λ s r, MkLeaveReq (lreq_ParticipantID r) s)]
    (λ n r, if String.eqb n "participant_id" then lreq_ParticipantID r else lreq_ParticipantKind r).
  intros [] [] H. f_equal; [apply (H "participant_id")|apply (H "participant_kind")]; cbn; set_solver.
Qed.

Lemma read_connect_texts : fits maxNestingDepth (JObj l) →
  read_connect body = accepted ["target_id"; "from_id"; "from_kind"] members
    (MkConnectReq (told "target_id" members) (told "from_id" members) (told "from_kind" members)).
Proof.
  string_struct [("target_id", λ s r, MkConnectReq s (nreq_FromID r) (nreq_FromKind r));
                 ("from_id", λ s r, MkConnectReq (nreq_TargetID r) s (nreq_FromKind r));
                 ("from_kind", λ s r, MkConnectReq (nreq_TargetID r) (nreq_FromID r) s)]
    (λ n r, if String.eqb n "target_id" then nreq_TargetID r else if String.eqb n "from_id" then nreq_FromID r else nreq_FromKind r).
  intros [] [] H. f_equal; [apply (H "target_id")|apply (H "from_id")|apply (H "from_kind")]; cbn; set_solver.
Qed.

Lemma read_one_texts name : fits maxNestingDepth (JObj l) →
  read_one name body = accepted [name] members (told name members).
Proof.
  intros Hl. apply (readJSON_texts [(name, λ s _, s)] (λ _ r, r)).
  - intros f n s a Hf Hn. cbn in Hn. apply list_elem_of_singleton in Hf as ->, Hn as ->. cbn. by rewrite String.eqb_refl.
  - intros a b H. apply (H name). cbn. set_solver.
  - apply NoDup_singleton.
  - exact Hl.
  - intros n Hn. cbn in Hn. by apply list_elem_of_singleton in Hn as ->.
Qed.

(** A name no field has. *)
Lemma readJSON_unknown {A} (fields : list (@field A)) zero : fits maxNestingDepth (JObj l) →
  forallb (λ m, named_in (map fst fields) m.1) members = false →
  readJSON fields zero body = Err (ExternalError "json").
Proof.
  intros Hl Hm. unfold body. rewrite readJSON_object by done. fold members.
  apply not_true_iff_false in Hm. rewrite forallb_forall in Hm.
  destruct (decide (Exists (λ m : string * json, named_in (map fst fields) m.1 = false) members)) as [Hex|Hno].
  - apply Exists_exists in Hex as ([k t] & Hin & Hk). erewrite decode_unknown; [done|exact Hin|].
    unfold find_field. cbn in Hk. unfold named_in in Hk. clear Hm Hin.
    induction fields as [|f fields IH]; [done|]. cbn in Hk |- *. apply orb_false_iff in Hk as [H1 H2].
    specialize (IH H2). unfold key_is in H1. rewrite H1.
    destruct (String.eqb_spec f.1 k) as [Heq|]; [by rewrite Heq, String.eqb_refl in H1|exact IH].
  - destruct Hm. intros m Hm%list_elem_of_In. apply not_false_iff_true. intros Hf. apply Hno, Exists_exists. by exists m.
Qed.
End Structs.

(** ** Properties *)

(** C26 What the routes receive of a JSON object, whatever follows it in the
    body: a struct of strings is accepted exactly when every member has one
    of its names (without regard to case) and is a string or null, and each
    field is then the last string of its name, empty when there is none;
    sending and discovering, whose structs hold more than strings, refuse a
    member that has none of their names.  Invalid UTF-8 is replaced on the
    way ([scrub_member]). *)
Theorem bodies_read l rest : fits maxNestingDepth (JObj l) →
  let body := Ok (print (JObj l) +:+ rest) in
  let m := map scrub_member l in
  let credentials := accepted ["email"; "password"] m (MkCredentialsReq (told "email" m) (told "password" m)) in
  let one name := accepted [name] m (told name m) in
  let unknown names := forallb (λ kt, named_in names kt.1) m = false in
  with_raw AuthRegister body = POST_auth_register credentials ∧
  with_raw AuthLogin body = POST_auth_login credentials ∧
  with_raw AuthVerifyEmail body = POST_auth_verify_email (one "token") ∧
  with_raw AuthResendVerification body = POST_auth_resend_verification (one "email") ∧
  with_raw Agents body = POST_agents (one "display_name") ∧
  with_raw Groups body = POST_groups (one "name") ∧
  (∀ id, with_raw (GroupsLeave id) body = POST_groups_leave id
     (accepted ["participant_id"; "participant_kind"] m (MkLeaveReq (told "participant_id" m) (told "participant_kind" m)))) ∧
  (∀ id, with_raw (MessagesReplay id) body = POST_messages_replay id (one "reason")) ∧
  with_raw ConnectionsRequest body = POST_connections_request (accepted ["target_id"; "from_id"; "from_kind"] m
     (MkConnectReq (told "target_id" m) (told "from_id" m) (told "from_kind" m))) ∧
  with_raw Blacklist body = POST_blacklist (one "target_id") ∧
  (unknown ["to"; "tag"; "content"; "metadata"] →
     with_raw MessagesSend body = POST_messages_send (Err (ExternalError "json"))) ∧
  (unknown ["supported_tags"; "limit"] →
     with_raw RegistryDiscover body = POST_registry_discover (Err (ExternalError "json"))).
Proof.
  intros Hl. cbv zeta. cbn [with_raw]. rewrite read_credentials_texts, read_connect_texts, !read_one_texts by done.
  split_and!; try done; intros; f_equal;
    first [by apply read_leave_texts|by apply read_one_texts|by apply readJSON_unknown].
Qed.
End Bodies.
