(* ===== verification/Mux.v ===== *)
(** * Routing: [http.ServeMux]

    The patterns [registerRoutes] of [backend/cmd/bobberd/main.go] gives to
    the multiplexer, and the part of [net/http] that chooses among them: the
    patterns of the program have a method, literal segments and wildcards of
    one segment, and none has a host, a trailing slash, ["..."] or ["{$}"].
    [CONNECT] and ["OPTIONS *"], which the multiplexer treats apart, are left
    out. *)

From S2P Require Import Prelude.
From S2P Require Import GoStrings.
From S2P Require Import GoValue.
From S2P Require Import Envelope.
From S2P Require Import Uuid.
From S2P Require Import Schema.
From S2P Require Import World.
From S2P Require Import JsonString.
From S2P Require Import Json.
From S2P Require Import JsonValue.
From S2P Require Import Server.
From S2P Require Import Handlers.
From S2P Require Import Bodies.

Open Scope string_scope.
Open Scope Z_scope.

Module Mux.

(** ** Paths *)

(** [url.PathUnescape]; what is not well-formed stays as it is. *)
Fixpoint PathUnescape (s : string) : option string :=
  match s with
  | "" => Some ""
  | String "%" (String a (String b r)) =>
      x ← hex_val a; y ← hex_val b; r ← PathUnescape r;
      Some (String (ascii_of_N (Z.to_N (16 * x + y))) r)
  | String "%" _ => None
  | String a r => String a <$> PathUnescape r
  end.
Definition pathUnescape (s : string) : string := default s (PathUnescape s).

(** The segments of a path that starts with a slash. *)
Definition segments (path : string) : option (list string) :=
  match Split path "/" with
  | "" :: s :: l => Some (s :: l)
  | _ => None
  end.

(** [cleanPath(path) == path]: no segment is empty, except the last, and none
    is a dot or two. *)
Fixpoint clean_segments (l : list string) : bool :=
  match l with
  | [] => true
  | s :: l =>
      negb (String.eqb s "." || String.eqb s "..") && (negb (String.eqb s "") || bool_decide (l = [])) && clean_segments l
  end.
Definition is_clean (path : string) : bool :=
  match segments path with Some l => clean_segments l | None => false end.

(** ** Patterns *)
Inductive segment := Lit (s : string) | Wild (name : string).
#[export] Instance segment_eq_dec : EqDecision segment.
Proof. solve_decision. Defined.

Definition parseSegment (s : string) : segment :=
  match s with
  | String "{" r => Wild (String.substring 0 (String.length r - 1) r)
  | _ => Lit (pathUnescape s)
  end.

Record pattern := MkPattern { p_method : string; p_segments : list segment }.

Definition parsePattern (s : string) : option pattern :=
  '(method, path) ← Cut s " ";
  l ← segments path;
  Some (MkPattern method (map parseSegment l)).

(** ** The routing tree

    A node is what is left of the patterns that lead to it; a handler is
    whatever was registered. *)
Notation node A := (list (list segment * A)).
Notation table A := (list (pattern * A)).

Section Tree.
Context {A : Type}.

Definition child (x : segment) (n : node A) : node A :=
  omap (λ ph, match ph.1 with y :: p => if decide (x = y) then Some (p, ph.2) else None | [] => None end) n.
Definition wild_child (n : node A) : node A :=
  omap (λ ph, match ph.1 with Wild _ :: p => Some (p, ph.2) | _ => None end) n.
Definition leaf (n : node A) : option A :=
  match omap (λ ph : list segment * A, match ph.1 with [] => Some ph.2 | _ => None end) n with
  | h :: _ => Some h
  | [] => None
  end.

(** [routingNode.matchPath]: the literal first, then the wildcard; a trailing
    slash is no segment for a wildcard. *)
Fixpoint matchPath (l : list string) (n : node A) (matches : list string) : option (A * list string) :=
  match l with
  | [] => (λ h, (h, matches)) <$> leaf n
  | seg :: rest =>
      match matchPath rest (child (Lit (pathUnescape seg)) n) matches with
      | Some r => Some r
      | None =>
          if String.eqb seg "" then None
          else matchPath rest (wild_child n) (matches ++ [pathUnescape seg])%list
      end
  end.

Definition method_node (t : table A) (method : string) : node A :=
  omap (λ ph : pattern * A,
    if String.eqb (p_method ph.1) method then Some (p_segments ph.1, ph.2) else None) t.

(** A pattern for [GET] serves [HEAD] too. *)
Definition match_method (t : table A) (method : string) (l : list string) : option (A * list string) :=
  match matchPath l (method_node t method) [] with
  | Some r => Some r
  | None => if String.eqb method "HEAD" then matchPath l (method_node t "GET") [] else None
  end.

Inductive found :=
| Handler (h : A) (values : list string)
| MovedPermanently
| MethodNotAllowed
| NotFound.

Definition findHandler (t : table A) (method path : string) : found :=
  match segments path with
  | None => MovedPermanently
  | Some l =>
      if negb (clean_segments l) then MovedPermanently
      else
        match match_method t method l with
        | Some (h, values) => Handler h values
        | None =>
            if existsb (λ ph : pattern * A, bool_decide (is_Some (match_method t (p_method ph.1) l))) t
            then MethodNotAllowed
            else NotFound
        end
  end.
End Tree.
Arguments found : clear implicits.

(** ** The routes of the server *)
Inductive handler := Api (ep : endpoint) | Metrics.

Section Routes.
Context {U : UuidPkg} {C : Citext} {E : World.Env} {UT : UnicodeTables}.

(** What is registered under a pattern, given the values of its wildcards. *)
Definition const (ep : endpoint) (_ : list string) : handler := Api ep.
Definition with_value (f : string → endpoint) (values : list string) : handler := Api (f (hd "" values)).

Definition routes : list (string * (list string → handler)) :=
  [("POST /v1/auth/register", const AuthRegister);
   ("POST /v1/auth/login", const AuthLogin);
   ("POST /v1/auth/verify-email", const AuthVerifyEmail);
   ("POST /v1/auth/resend-verification", const AuthResendVerification);
   ("GET /v1/auth/me", const (Bodyless GET_auth_me));
   ("POST /v1/agents", const Agents);
   ("DELETE /v1/agents/{id}", with_value (λ id, Bodyless (DELETE_agents id)));
   ("POST /v1/agents/{id}/rotate-secret", with_value (λ id, Bodyless (POST_agents_rotate_secret id)));
   ("GET /v1/info/{id}", with_value (λ id, Bodyless (GET_info id)));
   ("POST /v1/registry/discover", const RegistryDiscover);
   ("GET /v1/conversations", const (Bodyless GET_conversations));
   ("POST /v1/groups", const Groups);
   ("POST /v1/groups/{id}/leave", with_value GroupsLeave);
   ("GET /v1/messages/poll", const (Bodyless GET_messages_poll));
   ("POST /v1/messages/send", const MessagesSend);
   ("POST /v1/messages/{id}/replay", with_value MessagesReplay);
   ("POST /v1/connections/request", const ConnectionsRequest);
   ("GET /v1/connections/inbox", const (Bodyless GET_connections_inbox));
   ("POST /v1/connections/{id}/accept", with_value (λ id, Bodyless (POST_connections_accept id)));
   ("POST /v1/connections/{id}/reject", with_value (λ id, Bodyless (POST_connections_reject id)));
   ("GET /v1/blacklist", const (Bodyless GET_blacklist));
   ("POST /v1/blacklist", const Blacklist);
   ("DELETE /v1/blacklist/{id}", with_value (λ id, Bodyless (DELETE_blacklist id)));
   ("GET /v1/health", const (Bodyless GET_health));
   ("GET /v1/metrics", λ _, Metrics);
   ("POST /v1/adapter/{name}/ingest", with_value AdapterIngest);
   ("GET /v1/adapter", const (Bodyless GET_adapter))].

Definition mux : table (list string → handler) :=
  omap (λ r, (λ p, (p, r.2)) <$> parsePattern r.1) routes.

(** The handler of a request, with its path values. *)
Definition handler_of (method path : string) : found handler :=
  match findHandler mux method path with
  | Handler h values => Handler (h values) values
  | MovedPermanently => MovedPermanently
  | MethodNotAllowed => MethodNotAllowed
  | NotFound => NotFound
  end.
End Routes.

(** ** Lemmas: paths *)
Lemma PathUnescape_plain s : no_byte "%" s → PathUnescape s = Some s.
Proof.
  induction s as [|a s IH]; [done|]. unfold no_byte in *. cbn [str_forallb]. intros [Ha Hs]%andb_true_iff.
  apply negb_true_iff, Ascii.eqb_neq in Ha. cbn [PathUnescape].
  destruct a as [[] [] [] [] [] [] [] []]; try done; by rewrite (IH Hs).
Qed.

Lemma pathUnescape_plain s : no_byte "%" s → pathUnescape s = s.
Proof. intros Hs. unfold pathUnescape. by rewrite PathUnescape_plain. Qed.

(** ** Lemmas: the tree finds what fits *)
Section Matching.
Context {A : Type}.
Implicit Types (n : node A) (t : table A).

Fixpoint fits_path (p : list segment) (l : list string) : Prop :=
  match p, l with
  | [], [] => True
  | Lit s :: p, x :: l => s = pathUnescape x ∧ fits_path p l
  | Wild _ :: p, x :: l => x ≠ "" ∧ fits_path p l
  | _, _ => False
  end.

Fixpoint captured (p : list segment) (l : list string) : list string :=
  match p, l with
  | Lit _ :: p, _ :: l => captured p l
  | Wild _ :: p, x :: l => pathUnescape x :: captured p l
  | _, _ => []
  end.

Lemma elem_of_child x n p (h : A) : (p, h) ∈ child x n ↔ (x :: p, h) ∈ n.
Proof.
  unfold child. rewrite list_elem_of_omap. split.
  - intros ([[|y q] g] & Hin & Hq); [done|]. cbn in Hq. destruct (decide (x = y)) as [->|]; [|done]. by injection Hq as <- <-.
  - intros Hin. exists (x :: p, h). split; [done|]. cbn. by destruct (decide (x = x)).
Qed.

Lemma elem_of_wild_child n p (h : A) : (p, h) ∈ wild_child n ↔ ∃ x, (Wild x :: p, h) ∈ n.
Proof.
  unfold wild_child. rewrite list_elem_of_omap. split.
  - intros ([[|[s|x] q] g] & Hin & Hq); try done. cbn in Hq. injection Hq as <- <-. by exists x.
  - intros [x Hin]. by exists (Wild x :: p, h).
Qed.

Lemma leaf_sound n (h : A) : leaf n = Some h → ([], h) ∈ n.
Proof.
  unfold leaf. destruct (omap _ n) as [|g l] eqn:El; [done|]. intros [= ->].
  assert (h ∈ h :: l) as Hin by left. rewrite <-El, list_elem_of_omap in Hin.
  destruct Hin as ([[|y q] g] & Hin & Hq); [|done]. by injection Hq as ->.
Qed.

Lemma leaf_total n (h : A) : ([], h) ∈ n → is_Some (leaf n).
Proof.
  intros Hin. unfold leaf. destruct (omap _ n) as [|g l] eqn:El; [|done].
  assert (h ∈ omap (λ ph : list segment * A, match ph.1 with [] => Some ph.2 | _ => None end) n) as Hh.
  { apply list_elem_of_omap. by exists ([], h). }
  rewrite El in Hh. by apply elem_of_nil in Hh.
Qed.

Lemma matchPath_sound l : ∀ n ms (h : A) vs, matchPath l n ms = Some (h, vs) →
  ∃ p, (p, h) ∈ n ∧ fits_path p l ∧ vs = (ms ++ captured p l)%list.
Proof.
  induction l as [|x l IH]; intros n ms h vs; cbn [matchPath].
  - destruct (leaf n) as [g|] eqn:Hl; [|done]. intros [= -> <-]. exists []. rewrite app_nil_r. by apply leaf_sound in Hl.
  - destruct (matchPath l (child _ n) ms) as [[g us]|] eqn:Hc.
    + intros [= -> ->]. apply IH in Hc as (p & Hin & Hf & ->). exists (Lit (pathUnescape x) :: p).
      by apply elem_of_child in Hin.
    + destruct (String.eqb_spec x "") as [_|Hx]; [done|]. intros Hw. apply IH in Hw as (p & Hin & Hf & ->).
      apply elem_of_wild_child in Hin as [y Hin]. exists (Wild y :: p). by rewrite <-app_assoc.
Qed.

Lemma matchPath_total l : ∀ n ms p (h : A), (p, h) ∈ n → fits_path p l → is_Some (matchPath l n ms).
Proof.
  induction l as [|x l IH]; intros n ms p h Hin Hf; cbn [matchPath].
  - destruct p as [|[] ]; try done. apply leaf_total in Hin as [g ->]. by eexists.
  - destruct (matchPath l (child _ n) ms) as [r|] eqn:Hc; [done|].
    destruct p as [|[s|y] p]; [done|..]; cbn in Hf; destruct Hf as [Hx Hf].
    + subst s. apply elem_of_child in Hin. destruct (IH _ ms _ _ Hin Hf) as [r Hr]. by rewrite Hc in Hr.
    + destruct (String.eqb_spec x "") as [->|_]; [done|]. apply (IH _ _ p h); [|done].
      apply elem_of_wild_child. by exists y.
Qed.

(** ** Lemmas: patterns that never meet *)
Fixpoint overlap (p q : list segment) : bool :=
  match p, q with
  | [], [] => true
  | Lit s :: p, Lit u :: q => String.eqb s u && overlap p q
  | _ :: p, _ :: q => overlap p q
  | _, _ => false
  end.

Lemma fits_overlap p : ∀ q l, fits_path p l → fits_path q l → overlap p q = true.
Proof.
  induction p as [|[s|y] p IH]; intros [|[u|z] q] [|x l] Hp Hq; cbn in *; try done; destruct_and!; eauto.
  subst. rewrite String.eqb_refl. by apply (IH _ l).
Qed.

Definition clash (p q : pattern) : bool := String.eqb (p_method p) (p_method q) && overlap (p_segments p) (p_segments q).

Fixpoint disjoint_patterns (l : list pattern) : bool :=
  match l with
  | [] => true
  | p :: l => forallb (λ q, negb (clash p q || clash q p)) l && disjoint_patterns l
  end.

(** No two patterns meet, and none is for [HEAD] alone. *)
Definition unambiguous t : Prop :=
  disjoint_patterns t.*1 = true ∧ forallb (λ p, negb (String.eqb (p_method p) "HEAD")) t.*1 = true.

Lemma disjoint_same t (p q : pattern) (h g : A) : disjoint_patterns t.*1 = true →
  (p, h) ∈ t → (q, g) ∈ t → clash p q = true → (p, h) = (q, g).
Proof.
  induction t as [|[r k] t IH]; cbn; [by intros _ ?%elem_of_nil|]. intros [Hr Ht]%andb_true_iff Hp Hq Hc.
  rewrite forallb_forall in Hr.
  assert (∀ s u, (s, u) ∈ t → negb (clash r s || clash s r) = true) as Hall.
  { intros s u Hs. apply Hr, list_elem_of_In, list_elem_of_fmap. by exists (s, u). }
  apply elem_of_cons in Hp as [?|Hp], Hq as [?|Hq]; simplify_eq/=; [done|..|by apply IH].
  - specialize (Hall _ _ Hq). by rewrite Hc in Hall.
  - specialize (Hall _ _ Hp). by rewrite Hc, orb_true_r in Hall.
Qed.

Lemma elem_of_method_node t m p (h : A) :
  (p, h) ∈ method_node t m ↔ ∃ q, (q, h) ∈ t ∧ p_method q = m ∧ p = p_segments q.
Proof.
  unfold method_node. rewrite list_elem_of_omap. split.
  - intros ([q g] & Hin & Hq). cbn in Hq. destruct (String.eqb_spec (p_method q) m); [|done].
    injection Hq as <- <-. by exists q.
  - intros (q & Hin & Hm & ->). exists (q, h). split; [done|]. cbn. by rewrite Hm, String.eqb_refl.
Qed.

(** A pattern serves a method. *)
Definition serves (p : pattern) (m : string) : Prop := p_method p = m ∨ m = "HEAD" ∧ p_method p = "GET".

Lemma not_head t p (h : A) : unambiguous t → (p, h) ∈ t → p_method p ≠ "HEAD".
Proof.
  intros [_ Hh] Hin Hp. rewrite forallb_forall in Hh. specialize (Hh p).
  rewrite Hp, String.eqb_refl in Hh. discriminate Hh. apply list_elem_of_In, list_elem_of_fmap. by exists (p, h).
Qed.

Lemma match_method_sound t m l (h : A) vs : match_method t m l = Some (h, vs) →
  ∃ p, (p, h) ∈ t ∧ serves p m ∧ fits_path (p_segments p) l ∧ vs = captured (p_segments p) l.
Proof.
  unfold match_method. destruct (matchPath l (method_node t m) []) as [r|] eqn:Hm.
  - intros [= ->]. apply matchPath_sound in Hm as (p & Hin & Hf & ->).
    apply elem_of_method_node in Hin as (q & Hin & Hq & ->). exists q. by split_and!; [|left|..].
  - destruct (String.eqb_spec m "HEAD") as [->|]; [|done]. intros (p & Hin & Hf & ->)%matchPath_sound.
    apply elem_of_method_node in Hin as (q & Hin & Hq & ->). exists q. by split_and!; [|right|..].
Qed.

Lemma match_method_total t m l p (h : A) : (p, h) ∈ t → serves p m → fits_path (p_segments p) l →
  is_Some (match_method t m l).
Proof.
  intros Hin Hs Hf. unfold match_method. destruct (matchPath l (method_node t m) []) as [r|] eqn:Hm; [done|].
  assert (∀ m', p_method p = m' → is_Some (matchPath l (method_node t m') [])) as Htot.
  { intros m' Hm'. apply (matchPath_total _ _ _ (p_segments p) h); [|done]. apply elem_of_method_node. by exists p. }
  destruct Hs as [Hp|[-> Hp]]; [|by apply Htot in Hp]. apply Htot in Hp as [r Hr]. by rewrite Hm in Hr.
Qed.

Lemma match_method_exact t m l p (h : A) : unambiguous t → (p, h) ∈ t → serves p m → fits_path (p_segments p) l →
  match_method t m l = Some (h, captured (p_segments p) l).
Proof.
  intros Hu Hin Hs Hf. destruct (match_method_total _ _ _ _ _ Hin Hs Hf) as [[g vs] Hg]. rewrite Hg.
  apply match_method_sound in Hg as (q & Hq & Hsq & Hfq & ->).
  assert (p_method p = p_method q) as Hmm.
  { pose proof (not_head _ _ _ Hu Hin). pose proof (not_head _ _ _ Hu Hq).
    destruct Hs as [<-|[-> ?]], Hsq as [?|[? ?]]; congruence. }
  assert ((p, h) = (q, g)) as [= -> ->]; [|done].
  apply (disjoint_same t); [by destruct Hu|done|done|]. unfold clash. rewrite Hmm, String.eqb_refl. by apply (fits_overlap _ _ l).
Qed.
End Matching.

(** ** Lemmas: the routes *)
Lemma segments_path path l : segments path = Some l → path = "/" +:+ Join l "/".
Proof.
  unfold segments. pose proof (Join_Split path "/") as Hj. destruct (Split path "/") as [|[] [|s r]]; try done.
  intros [= <-]. by rewrite <-Hj.
Qed.

Lemma Split_Join_segments l : l ≠ [] → Forall (no_byte "/") l → Split (Join l "/") "/" = l.
Proof.
  intros Hne Hl. induction Hl as [|x l Hx Hl IH]; [done|]. destruct l as [|y l]; [by apply Split_no_sep|].
  change (Join (x :: y :: l) "/") with (x +:+ String "/" (Join (y :: l) "/")).
  rewrite Split_app_sep by done. by rewrite IH.
Qed.

Lemma segments_Join l : l ≠ [] → Forall (no_byte "/") l → segments ("/" +:+ Join l "/") = Some l.
Proof.
  intros Hne Hl. unfold segments. change ("/" +:+ Join l "/") with ("" +:+ String "/" (Join l "/")).
  rewrite Split_app_sep, Split_Join_segments by done. by destruct l.
Qed.

Lemma segments_no_slash path l : segments path = Some l → Forall (no_byte "/") l.
Proof.
  unfold segments. pose proof (Split_no_byte path "/") as Hs. destruct (Split path "/") as [|[] [|s r]]; try done.
  intros [= <-]. by apply Forall_cons in Hs as [_ Hs].
Qed.

Lemma segments_not_nil path l : segments path = Some l → l ≠ [].
Proof. unfold segments. destruct (Split path "/") as [|[] [|s r]]; try done. by intros [= <-]. Qed.

Lemma segments_plain path l : no_byte "%" path → segments path = Some l → Forall (λ x, pathUnescape x = x) l.
Proof.
  intros Hp. unfold segments. pose proof (Split_other path "/" "%" Hp) as Hs.
  destruct (Split path "/") as [|[] [|s r]]; try done. intros [= <-]. apply Forall_cons in Hs as [_ Hs].
  eapply Forall_impl; [exact Hs|]. apply pathUnescape_plain.
Qed.

(** A path without escapes, segment by segment. *)
Fixpoint fills (p : list segment) (l values : list string) : Prop :=
  match p, l, values with
  | [], [], [] => True
  | Lit s :: p, x :: l, _ => x = s ∧ fills p l values
  | Wild _ :: p, x :: l, v :: values => x = v ∧ v ≠ "" ∧ fills p l values
  | _, _, _ => False
  end.

Lemma fits_fills p : ∀ l, Forall (λ x, pathUnescape x = x) l → fits_path p l → fills p l (captured p l).
Proof.
  induction p as [|[s|y] p IH]; intros [|x l] Hl Hf; try done; cbn in *; apply Forall_cons in Hl as [Hx Hl];
    destruct Hf as [Hs Hf].
  - rewrite Hs. split; [done|by apply IH].
  - rewrite Hx. split_and!; [done..|by apply IH].
Qed.

Lemma fills_fits p : ∀ l vs, Forall (λ x, pathUnescape x = x) l → fills p l vs → fits_path p l ∧ captured p l = vs.
Proof.
  induction p as [|[s|y] p IH]; intros [|x l] [|v vs] Hl Hf; try done; cbn in *; apply Forall_cons in Hl as [Hx Hl];
    destruct_and!; simplify_eq; try done.
  - destruct (IH l [] Hl) as [? ->]; [done|]. by rewrite Hx.
  - destruct (IH l (v :: vs) Hl) as [? ->]; [done|]. by rewrite Hx.
  - destruct (IH l vs Hl) as [? ->]; [done|]. by rewrite Hx.
Qed.

Section Exact.
Context {U : UuidPkg} {C : Citext} {E : World.Env} {UT : UnicodeTables}.

(** The server registers: no two patterns conflict. *)
Lemma mux_unambiguous : unambiguous mux.
Proof. split; vm_compute; reflexivity. Qed.

(** A value a wildcard can have. *)
Definition value_ok (v : string) : Prop := v ≠ "" ∧ no_byte "/" v.

(** An endpoint the server registers, with a value its wildcard can have; a
    route with a body has an endpoint of its own. *)
Definition registered (ep : endpoint) : Prop :=
  match ep with
  | GroupsLeave v | MessagesReplay v | AdapterIngest v => value_ok v
  | Bodyless (DELETE_agents v) | Bodyless (POST_agents_rotate_secret v) | Bodyless (GET_info v)
  | Bodyless (POST_connections_accept v) | Bodyless (POST_connections_reject v) | Bodyless (DELETE_blacklist v) =>
      value_ok v
  | Bodyless GET_auth_me | Bodyless GET_conversations | Bodyless GET_messages_poll | Bodyless GET_connections_inbox
  | Bodyless GET_blacklist | Bodyless GET_health | Bodyless GET_adapter => True
  | Bodyless _ => False
  | _ => True
  end.

(** What an entry of the table has to do with the endpoint it leads to. *)
Definition leads (l : list string) (m : string) (ep : endpoint) : Prop :=
  registered ep ∧ ∀ raw, route_pattern (with_raw ep raw) = (m, "/" +:+ Join l "/").

Definition entry_sound (ph : pattern * (list string → handler)) : Prop :=
  ∀ l vs ep, Forall (no_byte "/") l → fills (p_segments ph.1) l vs → ph.2 vs = Api ep → leads l (p_method ph.1) ep.

Lemma fills_nil l vs : fills [] l vs → l = [] ∧ vs = [].
Proof. by destruct l, vs. Qed.
Lemma fills_lit s p l vs : fills (Lit s :: p) l vs → ∃ l', l = s :: l' ∧ fills p l' vs.
Proof. destruct l as [|x l]; [done|]. intros [-> Hf]. by exists l. Qed.
Lemma fills_wild y p l vs : fills (Wild y :: p) l vs → ∃ v l' vs', l = v :: l' ∧ vs = v :: vs' ∧ v ≠ "" ∧ fills p l' vs'.
Proof. destruct l as [|x l], vs as [|v vs]; try done. intros (-> & Hv & Hf). by exists v, l, vs. Qed.

(** Read off the segments and the value of a path that fills a pattern. *)
Ltac read_path :=
  repeat match goal with
  | H : fills (Lit _ :: _) _ _ |- _ => apply fills_lit in H as (? & -> & H)
  | H : fills (Wild _ :: _) _ _ |- _ => apply fills_wild in H as (? & ? & ? & -> & -> & ? & H)
  | H : fills [] _ _ |- _ => apply fills_nil in H as [-> ->]
  end.

Lemma entries_sound : Forall entry_sound mux.
Proof.
  change mux with (ltac:(let t := eval vm_compute in mux in exact t)).
  repeat (apply Forall_cons; split; [|]); [..|apply Forall_nil; done];
    intros l vs ep Hl Hf Hep; cbn [p_segments p_method fst snd] in *;
    read_path; try done; injection Hep as <-; (split; [|reflexivity]); cbn; rewrite ?Forall_cons in Hl; unfold value_ok; by intuition.
Qed.

(** The value of the wildcard of an endpoint, if it has one. *)
Definition path_value (ep : endpoint) : string :=
  match ep with
  | GroupsLeave v | MessagesReplay v | AdapterIngest v => v
  | Bodyless (DELETE_agents v) | Bodyless (POST_agents_rotate_secret v) | Bodyless (GET_info v)
  | Bodyless (POST_connections_accept v) | Bodyless (POST_connections_reject v) | Bodyless (DELETE_blacklist v) => v
  | _ => "none"
  end.

(** A segment that needs no escape and is no dot or two. *)
Definition plain_segment (s : string) : bool :=
  str_forallb (λ a, negb (Ascii.eqb a "%")) s && negb (String.eqb s "." || String.eqb s "..") && negb (String.eqb s "").

(** An entry that leads to an endpoint; its segments are those of the pattern
    and the value. *)
Definition entry_for (ep : endpoint) (p : pattern) (h : list string → handler) (vs l : list string) : Prop :=
  (p, h) ∈ mux ∧ h vs = Api ep ∧ fills (p_segments p) l vs ∧ l ≠ [] ∧ Forall (no_byte "/") l ∧
  Forall (λ s, s = path_value ep ∨ plain_segment s = true) l.

(** The entry of an endpoint, by its place in the table. *)
Lemma entry_at (i : nat) vs l ep ph :
  mux !! i = Some ph → ph.2 vs = Api ep → fills (p_segments ph.1) l vs → l ≠ [] → Forall (no_byte "/") l →
  Forall (λ s, s = path_value ep ∨ plain_segment s = true) l → ∃ p h vs l, entry_for ep p h vs l.
Proof.
  intros Hi Hep Hf Hne Hl Hs. exists ph.1, ph.2, vs, l. split_and!; try done. destruct ph.
  by eapply list_elem_of_lookup_2.
Qed.

Ltac at_ i vs l :=
  eapply (entry_at i vs l);
    [ vm_compute; reflexivity | reflexivity | cbn; split_and?; done | done
    | repeat (apply Forall_cons; split; [done|]); by apply Forall_nil
    | repeat (apply Forall_cons; split; [first [left; reflexivity | right; reflexivity]|]); by apply Forall_nil ].

Lemma registered_entry ep : registered ep → ∃ p h vs l, entry_for ep p h vs l.
Proof.
  intros Hr. destruct ep as [| | | | | | |v| |v| | |v|rt]; cbn in Hr; try destruct Hr as [Hv Hs].
  - at_ 0%nat (@nil string) ["v1"; "auth"; "register"].
  - at_ 1%nat (@nil string) ["v1"; "auth"; "login"].
  - at_ 2%nat (@nil string) ["v1"; "auth"; "verify-email"].
  - at_ 3%nat (@nil string) ["v1"; "auth"; "resend-verification"].
  - at_ 5%nat (@nil string) ["v1"; "agents"].
  - at_ 9%nat (@nil string) ["v1"; "registry"; "discover"].
  - at_ 11%nat (@nil string) ["v1"; "groups"].
  - at_ 12%nat [v] ["v1"; "groups"; v; "leave"].
  - at_ 14%nat (@nil string) ["v1"; "messages"; "send"].
  - at_ 15%nat [v] ["v1"; "messages"; v; "replay"].
  - at_ 16%nat (@nil string) ["v1"; "connections"; "request"].
  - at_ 21%nat (@nil string) ["v1"; "blacklist"].
  - at_ 25%nat [v] ["v1"; "adapter"; v; "ingest"].
  - destruct rt as [| | | | | |v|v|v| | | | | | | | | |v|v| | |v| | |]; try done; try destruct Hr as [Hv Hs].
    + at_ 4%nat (@nil string) ["v1"; "auth"; "me"].
    + at_ 6%nat [v] ["v1"; "agents"; v].
    + at_ 7%nat [v] ["v1"; "agents"; v; "rotate-secret"].
    + at_ 8%nat [v] ["v1"; "info"; v].
    + at_ 10%nat (@nil string) ["v1"; "conversations"].
    + at_ 13%nat (@nil string) ["v1"; "messages"; "poll"].
    + at_ 17%nat (@nil string) ["v1"; "connections"; "inbox"].
    + at_ 18%nat [v] ["v1"; "connections"; v; "accept"].
    + at_ 19%nat [v] ["v1"; "connections"; v; "reject"].
    + at_ 20%nat (@nil string) ["v1"; "blacklist"].
    + at_ 22%nat [v] ["v1"; "blacklist"; v].
    + at_ 23%nat (@nil string) ["v1"; "health"].
    + at_ 26%nat (@nil string) ["v1"; "adapter"].
Qed.

Lemma Join_inj_segments l l' : l ≠ [] → l' ≠ [] → Forall (no_byte "/") l → Forall (no_byte "/") l' →
  "/" +:+ Join l "/" = "/" +:+ Join l' "/" → l = l'.
Proof.
  intros ??? ? He. pose proof (segments_Join l) as Hl. rewrite He, segments_Join in Hl by done.
  by injection Hl as ->.
Qed.

Lemma entry_leads ep p h vs l : entry_for ep p h vs l → leads l (p_method p) ep.
Proof.
  intros (Hin & Hep & Hfill & _ & Hl & _). pose proof entries_sound as Hall. rewrite Forall_forall in Hall.
  by apply (Hall _ Hin l vs ep Hl).
Qed.

Lemma plain_clean l : Forall (λ s, plain_segment s = true) l →
  clean_segments l = true ∧ Forall (λ x, pathUnescape x = x) l.
Proof.
  induction 1 as [|s l Hs _ [IH1 IH2]]; [done|]. unfold plain_segment in Hs. rewrite !andb_true_iff in Hs.
  destruct Hs as [[Hp Hd] Hne]. cbn [clean_segments]. rewrite Hd, Hne, IH1. split; [done|].
  constructor; [by apply pathUnescape_plain|done].
Qed.

(** A route with a plain value is found under its own method and path. *)
Lemma handler_of_plain ep m path : registered ep → plain_segment (path_value ep) = true →
  route_pattern (with_raw ep (Ok "")) = (m, path) → ∃ values, handler_of m path = Handler (Api ep) values.
Proof.
  intros Hr Hv Hpat. destruct (registered_entry ep Hr) as (p & h & vs & l & He).
  destruct (entry_leads _ _ _ _ _ He) as [_ Hpat']. rewrite Hpat' in Hpat. injection Hpat as <- <-.
  destruct He as (Hin & Hep & Hfill & Hne & Hl & Hs). destruct (plain_clean l) as [Hc Hplain].
  { eapply Forall_impl; [exact Hs|]. by intros s [->|?]. }
  unfold handler_of, findHandler. rewrite segments_Join, Hc by done. cbn [negb].
  destruct (fills_fits _ _ _ Hplain Hfill) as [Hfit Hcap].
  rewrite (match_method_exact mux _ l p h mux_unambiguous Hin); [|by left|done]. rewrite Hcap, Hep. by eexists.
Qed.

(** ** Properties *)

(** C22 The multiplexer sends a request to an endpoint exactly when its method and
    its path are those of the route (a [HEAD] goes where a [GET] does): the
    path is in clean form and the value of its wildcard is one segment that is
    not empty.  So no request meets two patterns, and none is turned away
    that a pattern was registered for. *)
Theorem handler_of_exact method path ep : no_byte "%" path →
  (∃ values, handler_of method path = Handler (Api ep) values) ↔
  is_clean path = true ∧ registered ep ∧
    ∃ m, (m = method ∨ method = "HEAD" ∧ m = "GET") ∧ ∀ raw, route_pattern (with_raw ep raw) = (m, path).
Proof.
  intros Hp. unfold handler_of, findHandler, is_clean. destruct (segments path) as [l|] eqn:Hseg.
  2:{ split; [by intros [? ?]|by intros [? _]]. }
  pose proof (segments_plain _ _ Hp Hseg) as Hplain. pose proof (segments_no_slash _ _ Hseg) as Hslash.
  pose proof (segments_path _ _ Hseg) as Hpath. destruct (clean_segments l); cbn [negb].
  2:{ split; [by intros [? ?]|by intros [? _]]. }
  split.
  - intros [values Hf]. split; [done|]. destruct (match_method mux method l) as [[h vs]|] eqn:Hm; [|by destruct (existsb _ _)].
    injection Hf as Hep _. apply match_method_sound in Hm as (p & Hin & Hs & Hfit & ->).
    pose proof entries_sound as Hall. rewrite Forall_forall in Hall. specialize (Hall _ Hin).
    destruct (Hall l _ ep Hslash (fits_fills _ _ Hplain Hfit) Hep) as [Hr Hpat]. split; [done|].
    exists (p_method p). rewrite Hpath. split; [|done]. by destruct Hs as [?|[? ?]]; [left|right].
  - intros (_ & Hr & m & Hm & Hpat). destruct (registered_entry ep Hr) as (p & h & vs & l' & Hin & Hep & Hfill & Hne & Hl' & _).
    pose proof entries_sound as Hall. rewrite Forall_forall in Hall.
    destruct (Hall _ Hin l' vs ep Hl' Hfill Hep) as [_ Hpat']. specialize (Hpat (Ok "")). specialize (Hpat' (Ok "")).
    rewrite Hpat in Hpat'. injection Hpat' as -> Hpp. rewrite Hpath in Hpp.
    apply Join_inj_segments in Hpp as <-; [|by eapply segments_not_nil|done..].
    destruct (fills_fits _ _ _ Hplain Hfill) as [Hfit Hcap]. eexists.
    rewrite (match_method_exact mux method l p h mux_unambiguous Hin); [by rewrite Hcap, Hep| |done].
    by destruct Hm as [?|[? ?]]; [left|right].
Qed.
End Exact.
End Mux.
