(* ===== verification/Responses.v ===== *)
(** * The JSON of the responses

    [writeJSON] of [backend/cmd/bobberd/main.go]: the text [json.Encoder]
    writes for what a handler passes on, with the structs of
    [backend/internal/persistence/models.go] by their tags.  The times of rows
    are written in the zone of the server, and the texts of errors that come
    from other packages are a parameter.

    The theorem states the shape of every response: a JSON object, with the
    single member ["error"] exactly when the status says so. *)

From S2P Require Import Prelude.
From S2P Require Import GoStrings.
From S2P Require Import Protocol.
From S2P Require Import GoTime.
From S2P Require Import GoValue.
From S2P Require Import Envelope.
From S2P Require Import Uuid.
From S2P Require Import Models.
From S2P Require Import Schema.
From S2P Require Import World.
From S2P Require Import JsonString.
From S2P Require Import Json.
From S2P Require Import FloatText.
From S2P Require Import JsonValue.
From S2P Require Import Auth.
From S2P Require Import AdapterBase.
From S2P Require Import Server.
From S2P Require Import Handlers.

Open Scope string_scope.
Open Scope Z_scope.

(** ** Times and errors as text *)

(** The zone of the server: minutes east of Greenwich, at an instant. *)
Class Zone := local_offset : Z → Z.

(** The texts of the errors of other packages. *)
Class ErrorTexts := external_text : goerr → string.

Fixpoint Error `{ErrorTexts} (e : goerr) : string :=
  match e with
  | NewError msg => msg
  | WrapError prefix e => prefix +:+ ": " +:+ Error e
  | ErrNotFound => "not found"
  | ErrAlreadyExists => "already exists"
  | ErrInvalidInput => "invalid input"
  | ErrConflict => "conflict"
  | errRateLimited => "rate limited"
  | ErrNoRows | PgError _ | DriverError _ | ExternalError _ => external_text e
  end.

(** [Time.MarshalJSON]: RFC 3339 with the digits of the fraction that are not
    trailing zeros; it fails on years that do not have four digits. *)
Fixpoint trim_zeros (s : string) : string :=
  match s with
  | "" => ""
  | String a r => let r := trim_zeros r in if String.eqb r "" && Ascii.eqb a "0" then "" else String a r
  end.

Definition fraction (ns : Z) : string :=
  let digits := trim_zeros (dec_digits 9 ns) in if String.eqb digits "" then "" else "." +:+ digits.

Definition zone_text (offset : Z) : string :=
  if offset =? 0 then "Z"
  else (if offset <? 0 then "-" else "+") +:+ dec_digits 2 (Z.abs offset / 60) +:+ ":" +:+ dec_digits 2 (Z.abs offset mod 60).

Definition time_text (offset t : Z) : option string :=
  let local := t + offset * (60 * Second) in
  let '(y, m, d) := civil_from_days (local / Second / 86400) in
  let sod := local / Second mod 86400 in
  if (0 <=? y) && (y <=? 9999) && (Z.abs offset <? 1440) then
    Some (dec_digits 4 y +:+ "-" +:+ dec_digits 2 m +:+ "-" +:+ dec_digits 2 d +:+ "T"
          +:+ dec_digits 2 (sod / 3600) +:+ ":" +:+ dec_digits 2 (sod / 60 mod 60) +:+ ":" +:+ dec_digits 2 (sod mod 60)
          +:+ fraction (local mod Second) +:+ zone_text offset)
  else None.

Example time_text_1 : time_text 0 (86401 * Second + 120000000) = Some "1970-01-02T00:00:01.12Z".
Proof. vm_compute. reflexivity. Qed.
Example time_text_2 : time_text (-90) (86401 * Second) = Some "1970-01-01T22:30:01-01:30".
Proof. vm_compute. reflexivity. Qed.

Section Responses.
Context {U : UuidPkg} {C : Citext} {E : Env} {UT : UnicodeTables} {Zo : Zone} {ET : ErrorTexts}.

(** ** The structs of [models.go] *)
Definition JUuid (u : uuid) : json := JStr (uuid_String u).
Definition row_time (t : Z) : option json := JStr <$> time_text (local_offset t) t.

(** A pointer with [omitempty]. *)
Definition optional {A} (name : string) (f : A → json) (o : option A) : list (string * json) :=
  match o with Some a => [(name, f a)] | None => [] end.

Definition agent_tree (a : Agent) : option json :=
  created ← row_time (agent_CreatedAt a);
  Some (JObj [("id", JUuid (agent_ID a)); ("display_name", JStr (agent_DisplayName a));
              ("owner_user_id", JUuid (agent_OwnerUserID a)); ("created_at", created)]).

Definition group_tree (g : ChatGroup) : option json :=
  created ← row_time (group_CreatedAt g);
  Some (JObj ([("id", JUuid (group_ID g)); ("name", JStr (group_Name g)); ("owner_id", JUuid (group_OwnerID g))]
              ++ optional "conversation_id" JUuid (group_ConversationID g) ++ [("created_at", created)])%list).

Definition message_tree (m : Message) : option json :=
  metadata ← map_tree (msg_Metadata m);
  timestamp ← row_time (msg_Timestamp m);
  Some (JObj [("id", JUuid (msg_ID m)); ("from_id", JUuid (msg_FromID m));
              ("conversation_id", JUuid (msg_ConversationID m)); ("participant_kind", JStr (msg_ParticipantKind m));
              ("tag", JStr (msg_Tag m)); ("content", JStr (msg_Content m)); ("metadata", metadata);
              ("timestamp", timestamp)]).

Definition request_tree (r : ConnectionRequest) : option json :=
  created ← row_time (req_CreatedAt r);
  updated ← row_time (req_UpdatedAt r);
  Some (JObj [("id", JUuid (req_ID r)); ("sender_id", JUuid (req_SenderID r)); ("from_id", JUuid (req_FromID r));
              ("from_kind", JStr (req_FromKind r)); ("to_id", JUuid (req_ToID r)); ("to_kind", JStr (req_ToKind r));
              ("status", JStr (req_Status r)); ("created_at", created); ("updated_at", updated)]).

Definition item_tree (i : ConversationListItem) : option json :=
  last ← match item_LastMessageAt i with Some t => Some <$> row_time t | None => Some None end;
  Some (JObj ([("id", JUuid (item_ID i)); ("reference_id", JUuid (item_ReferenceID i));
               ("reference_type", JStr (item_ReferenceType i)); ("name", JStr (item_Name i))]
              ++ optional "last_message_at" id last)%list).

Definition entry_tree (e : BlacklistEntry) : option json :=
  created ← row_time (entry_CreatedAt e);
  Some (JObj [("id", JUuid (entry_ID e)); ("from_id", JUuid (entry_FromID e)); ("from_kind", JStr (entry_FromKind e));
              ("to_id", JUuid (entry_ToID e)); ("to_kind", JStr (entry_ToKind e)); ("created_at", created)]).

(** ** [writeJSON]

    The members of a map are written in the order of their keys. *)
Fixpoint rval_tree (v : rval) : option json :=
  match v with
  | RStr s => Some (JStr s)
  | RBool b => Some (JBool b)
  | RInt z => Some (JNum (Itoa z))
  | RUuid u => Some (JUuid u)
  | RUTC t => JStr <$> time_text 0 t
  | RTime t => row_time t
  | RErr e => Some (JStr (Error e))
  | RAgents l => JArr <$> mapM agent_tree l
  | RGroup g => group_tree g
  | RItems l => JArr <$> mapM item_tree l
  | RMessages l => JArr <$> mapM message_tree l
  | RRequest r => request_tree r
  | RRequests l => JArr <$> mapM request_tree l
  | REntry e => entry_tree e
  | REntries l => JArr <$> mapM entry_tree l
  | RList l => JArr <$> mapM rval_tree l
  | RObj fields => (λ l, JObj (merge_sort key_le l)) <$> mapM (λ kv, t ← rval_tree kv.2; Some (kv.1, t)) fields
  end.

(** The body [json.Encoder.Encode] writes; when it fails, nothing is written
    and the error is dropped. *)
Definition response_body (r : Response) : string :=
  match rval_tree (body r) with
  | Some t => print t +:+ String "010" ""
  | None => ""
  end.

(** ** Lemmas: the results of a program *)
Fixpoint yields {A} (P : A → Prop) (p : prog A) : Prop :=
  match p with
  | Ret a => P a
  | Act op k => ∀ b, yields P (k b)
  end.

Lemma yields_bind {A B} (P : B → Prop) (p : prog A) (f : A → prog B) :
  (∀ a, yields P (f a)) → yields P (World.bind p f).
Proof. intros Hf. induction p as [a|X op k IH]; [apply Hf|]. intros b. apply IH. Qed.

Lemma yields_run {A} (P : A → Prop) (p : prog A) w : yields P p → P (run p w).1.
Proof.
  revert w. induction p as [a|X op k IH]; intros w Hp; [done|]. cbn [run]. destruct (op w) as [b w']. apply IH, Hp.
Qed.

(** ** Lemmas: the shape of the responses *)
Definition is_text (v : rval) : Prop := match v with RStr _ | RErr _ => True | _ => False end.

(** The members of an object that is no error: no two have the same name, none
    is named ["error"]. *)
Definition plain_members (fields : list (string * rval)) : bool :=
  forallb (λ kv, valid_utf8 kv.1 && negb (String.eqb kv.1 "error")) fields && bool_decide (NoDup fields.*1).

(** A group or an object; the object of an error has the member ["error"]
    alone, any other has none of that name. *)
Definition shaped (r : Response) : Prop :=
  match body r with
  | RObj fields =>
      if 400 <=? status r then ∃ v, fields = [("error", v)] ∧ is_text v
      else plain_members fields = true
  | RGroup _ => status r < 400
  | _ => False
  end.

Lemma shaped_error code v : 400 ≤ code → is_text v → shaped (writeError code v).
Proof. intros Hc Hv. unfold shaped. cbn. rewrite (proj2 (Z.leb_le _ _)) by done. by exists v. Qed.

Lemma yields_error code v : 400 ≤ code → is_text v → yields shaped (Ret (writeError code v)).
Proof. apply shaped_error. Qed.

Lemma yields_with_body {A} (b : result goerr A) (k : A → prog Response) :
  (∀ req, yields shaped (k req)) → yields shaped (with_body b k).
Proof. intros Hk. destruct b; [apply Hk|by apply yields_error]. Qed.

Lemma yields_or_fail {A} (p : prog (result goerr A)) code (k : A → prog Response) : 400 ≤ code →
  (∀ a, yields shaped (k a)) → yields shaped (or_fail p code k).
Proof. intros Hc Hk. apply yields_bind. intros [a|e]; [apply Hk|by apply yields_error]. Qed.

Lemma yields_parse_or_fail s code msg (k : uuid → prog Response) : 400 ≤ code →
  (∀ u, yields shaped (k u)) → yields shaped (parse_or_fail s code msg k).
Proof. intros Hc Hk. unfold parse_or_fail. destruct (uuid_Parse s); [apply Hk|by apply yields_error]. Qed.

Lemma yields_publish_or_fail p (k : uuid → prog Response) :
  (∀ c, yields shaped (k c)) → yields shaped (publish_or_fail p k).
Proof.
  intros Hk. apply yields_bind. intros [c|e]; [apply Hk|]. destruct (errors_Is e errRateLimited); by apply yields_error.
Qed.

Lemma yields_requireAuth `{Bcrypt, Argon2, Jwt} a j s next r :
  (∀ r ctx, yields shaped (next r ctx)) → yields shaped (requireAuth a j s next r).
Proof. intros Hn. apply yields_bind. intros [ctx|e]; [apply Hn|by apply yields_error]. Qed.

(** Follow a handler to each of its responses. *)
Ltac shape :=
  repeat first
    [ progress intros
    | apply yields_with_body | apply yields_or_fail; [done|] | apply yields_parse_or_fail; [done|]
    | apply yields_publish_or_fail
    | by apply yields_error
    | lazymatch goal with
      | |- yields _ (Ret _) => reflexivity
      | |- yields _ (let '(_, _) := ?x in _) => destruct x
      | |- yields _ (World.bind _ _) => apply yields_bind
      | |- yields _ (if ?b then _ else _) => destruct b
      | |- yields _ (match ?x with _ => _ end) => destruct x
      end ].

Section Shapes.
Context {B : Bcrypt} {A2 : Argon2} {J : Jwt}.

Lemma yields_target_kind u (k : EntityType → prog Response) : (∀ t, yields shaped (k t)) → yields shaped (target_kind u k).
Proof. intros Hk. unfold target_kind. shape; apply Hk. Qed.

Lemma yields_blacklist_from ctx (k : uuid → EntityType → prog Response) :
  (∀ u t, yields shaped (k u t)) → yields shaped (blacklist_from ctx k).
Proof. intros Hk. unfold blacklist_from. cbv zeta. shape; apply Hk. Qed.

Lemma yields_update_status id s : yields shaped (update_status id s).
Proof. unfold update_status. shape. Qed.
Lemma yields_bind_strong {X Y} (Q : X → Prop) (P : Y → Prop) (p : prog X) (f : X → prog Y) :
  yields Q p → (∀ a, Q a → yields P (f a)) → yields P (World.bind p f).
Proof. intros Hp Hf. induction p as [a|Z op k IH]; [by apply Hf|]. intros b. apply IH, Hp. Qed.

(** At most the one member. *)
Definition conv_member (l : list (string * rval)) : Prop := l = [] ∨ ∃ c, l = [("conversation_id", RUuid c)].

Lemma yields_conv_id a ctx u k : yields conv_member (resolveDirectConvID a ctx u k).
Proof.
  unfold resolveDirectConvID. destruct (caller ctx) as [id kind]. case_bool_decide; [by left|].
  apply yields_bind. intros [c|e]; [right; by eexists|by left].
Qed.

Lemma yields_info a id r ctx : yields shaped (handleEntityInfo a id r ctx).
Proof.
  unfold handleEntityInfo. apply yields_parse_or_fail; [done|]. intros uid. apply yields_bind. intros [agent|e1].
  { eapply yields_bind_strong; [apply yields_conv_id|]. by intros l [->|[c ->]]. }
  apply yields_bind. intros [user|e2].
  { eapply yields_bind_strong; [apply yields_conv_id|]. by intros l [->|[c ->]]. }
  apply yields_bind. intros [group|e3]; [|by apply yields_error]. by destruct (group_ConversationID group).
Qed.

Tactic Notation "handler" reference(f) := unfold f; cbv zeta; shape.

Lemma yields_routes a rt r : yields shaped (registerRoutes a rt r).
Proof.
  destruct rt; cbn [registerRoutes]; unfold requireJWT; try (apply yields_requireAuth; clear r; intros r ctx).
  - handler handleRegister.
  - handler handleLogin.
  - handler handleVerifyEmail.
  - handler handleResendVerification.
  - handler handleWhoAmI.
  - handler handleCreateAgent.
  - handler handleDeleteAgent.
  - handler handleRotateSecret.
  - apply yields_info.
  - handler handleDiscover.
  - handler handleListConversations.
  - handler handleCreateGroup.
  - handler handleLeaveGroup.
  - handler handlePollMessages.
  - handler handleSendMessage.
  - handler handleReplayMessage.
  - unfold handleConnectionRequest. shape. apply yields_target_kind. shape.
  - handler handleConnectionInbox.
  - apply yields_update_status.
  - apply yields_update_status.
  - unfold handleListBlacklist. apply yields_blacklist_from. shape.
  - unfold handleBlacklist. shape. apply yields_blacklist_from. intros. apply yields_target_kind. shape.
  - unfold handleUnblacklist. shape. apply yields_blacklist_from. intros. apply yields_target_kind. shape.
  - handler handleHealth.
  - handler handleAdapterIngest.
  - handler handleListAdapters.
Qed.
End Shapes.
End Responses.
