(* ===== verification/HttpClient.v ===== *)
(** * Requests of the clients

    What the client library ([Sdk]) and the command line ([Cli]) have in
    common: the outgoing request, the parameters that stand for the network
    side of [net/http] and [net/url], and the request as the server has it. *)

From S2P Require Import Prelude.
From S2P Require Import GoStrings.
From S2P Require Import GoValue.
From S2P Require Import Uuid.
From S2P Require Import Server.

Open Scope string_scope.
Open Scope Z_scope.

(** [net/url] and the checks of [http.NewRequest]. *)
Class Net := {
  url : Type;
  url_Parse : string → result goerr url;
  url_Path : url → string;
  url_RawQuery : url → string;
  url_Host : url → string;
  url_with_Path : url → string → url;
  url_String : url → string;
  http_NewRequest : string → string → option goerr
}.

Record Outgoing := MkOutgoing {
  o_Method : string; o_URL : string; o_Header : list (string * string); o_Body : string; o_Timeout : Z
}.

(** ** The request as the server has it

    [Header.Set] and [Header.Get] bring the name of a header to one form,
    whatever the case of its letters. *)
Definition header (o : Outgoing) (name : string) : string :=
  match List.find (λ kv, String.eqb (ascii_lower kv.1) (ascii_lower name)) (o_Header o) with
  | Some kv => kv.2
  | None => ""
  end.

Definition received (o : Outgoing) (addr : string) : Request := MkHttpRequest (header o) (λ _, "") addr.
(** ** Lemmas *)
Lemma bearerToken_bearer s : TrimSpace s = s → s ≠ "" → bearerToken ("Bearer " +:+ s) = s.
Proof.
  intros Hs Hne. unfold bearerToken. change ("Bearer " +:+ s) with (String "B" "earer" +:+ String " " s).
  rewrite TrimSpace_after by done.
  assert (Cut (String "B" "earer" +:+ String " " s) " " = Some ("Bearer", s)) as ->; [by destruct s|].
  change (EqualFold_ascii "Bearer" "bearer") with true. by cbv match.
Qed.
