(* ===== verification/Azurecs.v ===== *)
(** * Email over Azure Communication Services

    [backend/internal/email/azurecs/azurecs.go] (and the sender of
    [console.go], which only writes to the log).  [net/url] and the network
    are the parameters of HttpClient; the hash, the signature and the encoding
    are those of Sha256.

    The server hands a message to one of these senders; there it is the
    effect [SendEmail] of file World, which may fail. *)

From S2P Require Import Prelude.
From S2P Require Import GoStrings.
From S2P Require Import GoTime.
From S2P Require Import GoValue.
From S2P Require Import World.
From S2P Require Import JsonString.
From S2P Require Import Json.
From S2P Require Import FloatText.
From S2P Require Import JsonValue.
From S2P Require Import HttpClient.
From S2P Require Import Sha256.

Open Scope string_scope.
Open Scope Z_scope.

Module Azurecs.

Definition apiVersion := "2023-03-31".

Record Sender := MkSender { endpoint : string; accessKey : string; from : string; timeout : Z }.

(** ** The connection string *)
Section New.
Context {UT : UnicodeTables}.

(** One part of the connection string; the later of two parts wins. *)
Definition read_part (acc : string * string) (part : string) : string * string :=
  let part := TrimSpace part in
  if HasPrefix (ToLower part) "endpoint=" then (TrimSpace (str_drop 9 part), acc.2)
  else if HasPrefix (ToLower part) "accesskey=" then (acc.1, TrimSpace (str_drop 10 part))
  else acc.

Definition parseConnectionString (cs : string) : string * string :=
  foldl read_part ("", "") (Split cs ";").

Definition New (connectionString fromAddress : string) : Sender :=
  let '(endpoint, accessKey) := parseConnectionString connectionString in
  MkSender endpoint accessKey fromAddress (30 * Second).
End New.

(** ** The request *)

(** [time.Format] with [http.TimeFormat]. *)
Definition day_name (n : Z) : string := nth (Z.to_nat n) ["Sun"; "Mon"; "Tue"; "Wed"; "Thu"; "Fri"; "Sat"] "".
Definition month_name (m : Z) : string :=
  nth (Z.to_nat (m - 1)) ["Jan"; "Feb"; "Mar"; "Apr"; "May"; "Jun"; "Jul"; "Aug"; "Sep"; "Oct"; "Nov"; "Dec"] "".

Definition Format_TimeFormat (t : Z) : string :=
  let secs := t / Second in
  let days := secs / 86400 in
  let '(y, m, d) := civil_from_days days in
  let sod := secs mod 86400 in
  day_name ((days + 4) mod 7) +:+ ", " +:+ dec_digits 2 d +:+ " " +:+ month_name m +:+ " " +:+ dec_digits 4 y +:+ " "
  +:+ dec_digits 2 (sod / 3600) +:+ ":" +:+ dec_digits 2 (sod / 60 mod 60) +:+ ":" +:+ dec_digits 2 (sod mod 60)
  +:+ " GMT".

Example Format_TimeFormat_1 : Format_TimeFormat (784111777 * Second) = "Sun, 06 Nov 1994 08:49:37 GMT".
Proof. vm_compute. reflexivity. Qed.

Definition computeContentHash (data : string) : string := StdEncode (sha256 data).
Definition computeHMAC (data key : string) : string := StdEncode (hmac_sha256 key data).

Definition address_tree (to : string) : json := JObj [("address", JStr to)].
Definition content_tree (msg : Email) : json :=
  JObj (("subject", JStr (mail_Subject msg))
        :: omitempty (String.eqb (mail_HTML msg) "") "html" (JStr (mail_HTML msg))
        ++ omitempty (String.eqb (mail_Text msg) "") "plainText" (JStr (mail_Text msg))).

Definition sendRequest (sender : string) (msg : Email) : json :=
  JObj [("senderAddress", JStr sender);
        ("recipients", JObj [("to", JArr [address_tree (mail_To msg)])]);
        ("content", content_tree msg)].

Section Send.
Context {N : Net}.

Definition pathAndQuery (u : url) : string :=
  url_Path u +:+ (if negb (String.eqb (url_RawQuery u) "") then "?" +:+ url_RawQuery u else "").

Definition stringToSign (u : url) (timestamp contentHash : string) : string :=
  "POST" +:+ String "010" (pathAndQuery u +:+ String "010" (timestamp +:+ ";" +:+ url_Host u +:+ ";" +:+ contentHash)).

(** The headers [signRequest] sets; [now] is the time. *)
Definition signRequest (accessKey : string) (u : url) (body : string) (now : Z)
    : result goerr (list (string * string)) :=
  match StdDecode accessKey with
  | None => Err (WrapError "decode access key" (ExternalError "base64"))
  | Some key =>
      let timestamp := Format_TimeFormat now in
      let contentHash := computeContentHash body in
      let signature := computeHMAC (stringToSign u timestamp contentHash) key in
      Ok [("x-ms-date", timestamp); ("x-ms-content-sha256", contentHash);
          ("Authorization", "HMAC-SHA256 SignedHeaders=x-ms-date;host;x-ms-content-sha256&Signature=" +:+ signature)]
  end.

(** [strings.TrimSuffix(s, "/")] *)
Fixpoint trim_slash (s : string) : string :=
  match s with
  | "" => ""
  | String a "" => if Ascii.eqb a "/" then "" else s
  | String a r => String a (trim_slash r)
  end.

Definition send_url (s : Sender) : string := trim_slash (endpoint s) +:+ "/emails:send?api-version=" +:+ apiVersion.

(** [SendEmail] up to the exchange. *)
Definition SendEmail_request (s : Sender) (msg : Email) (now : Z) : result goerr Outgoing :=
  let payload := print (sendRequest (from s) msg) in
  match url_Parse (send_url s) with
  | Err e => Err (WrapError "azurecs: parse url" e)
  | Ok reqURL =>
      match http_NewRequest "POST" (url_String reqURL) with
      | Some e => Err (WrapError "azurecs: create request" e)
      | None =>
          match signRequest (accessKey s) reqURL payload now with
          | Err e => Err (WrapError "azurecs: sign request" e)
          | Ok headers =>
              Ok (MkOutgoing "POST" (url_String reqURL) (headers ++ [("Content-Type", "application/json")]) payload
                    (timeout s))
          end
      end
  end.

(** ** The reply *)
Definition errorResponse_fields : list (@field (string * string)) :=
  [("error", λ t e, decode_struct false
     [("code", string_field (λ s e, (s, e.2))); ("message", string_field (λ s e, (e.1, s)))] t e)].

(** What [SendEmail] makes of a status and of what could be read of the body. *)
Definition SendEmail_reply (status : Z) (body : string) : option goerr :=
  if status =? 202 then None
  else
    let respBody := String.substring 0 4096 body in
    let plain := NewError ("azurecs: unexpected status " +:+ Itoa status +:+ ": " +:+ respBody) in
    match parse respBody ≫= (λ t, decode_struct false errorResponse_fields t ("", "")) with
    | Some (code, message) =>
        if negb (String.eqb message "") then
          Some (NewError ("azurecs: status " +:+ Itoa status +:+ ": " +:+ message +:+ " (code=" +:+ code +:+ ")"))
        else Some plain
    | None => Some plain
    end.

Definition SendEmail (s : option Sender) (msg : Email) (now : Z) (Do : Outgoing → result goerr (Z * string))
    : option goerr :=
  let unconfigured := Some (NewError "azurecs: sender not configured (missing endpoint or access key)") in
  match s with
  | None => unconfigured
  | Some s =>
      if String.eqb (endpoint s) "" || String.eqb (accessKey s) "" then unconfigured
      else
        match SendEmail_request s msg now with
        | Err e => Some e
        | Ok o =>
            match Do o with
            | Err e => Some (WrapError "azurecs: send request" e)
            | Ok (status, body) => SendEmail_reply status body
            end
        end
  end.
End Send.

(** ** Lemmas: the connection string *)
Lemma map_bytes_app f s t : map_bytes f (s +:+ t) = map_bytes f s +:+ map_bytes f t.
Proof. induction s as [|a s IH]; [done|]. rewrite string_app_cons. cbn. by rewrite IH. Qed.

Lemma map_bytes_length f s : String.length (map_bytes f s) = String.length s.
Proof. induction s as [|a s IH]; [done|]. cbn. by rewrite IH. Qed.

Lemma graph_lower s : is_graph (ascii_lower s) = true → is_graph s = true.
Proof.
  induction s as [|a s IH]; [done|]. unfold ascii_lower, is_graph. cbn [map_bytes str_forallb].
  intros [Ha Hs]%andb_true_iff. apply andb_true_iff. split; [|by apply IH].
  revert Ha. clear. by destruct a as [[] [] [] [] [] [] [] []]; vm_compute.
Qed.

Lemma graph_app s t : is_graph (s +:+ t) = is_graph s && is_graph t.
Proof. apply str_forallb_app. Qed.

Lemma graph_ascii7 s : is_graph s = true → is_ascii7 s = true.
Proof. apply str_forallb_impl. intros a. unfold graph_char, byte_in. lia. Qed.

(** A name in whatever case, and a value. *)
Definition names (name lit : string) : Prop := ascii_lower name = lit.

Lemma part_name `{UnicodeTables} name lit v : names name lit → is_graph lit = true → is_graph v = true →
  TrimSpace (name +:+ v) = name +:+ v ∧ ToLower (name +:+ v) = lit +:+ ascii_lower v ∧
  str_drop (String.length lit) (name +:+ v) = v.
Proof.
  intros <- Hl Hv. assert (is_graph (name +:+ v) = true) as Hg by (rewrite graph_app, (graph_lower _ Hl); done).
  split; [by apply TrimSpace_graph|]. split.
  - unfold ToLower. rewrite (graph_ascii7 _ Hg). apply map_bytes_app.
  - unfold ascii_lower at 1. rewrite map_bytes_length. apply str_drop_app.
Qed.

Lemma read_endpoint `{UnicodeTables} acc name v : names name "endpoint=" → is_graph v = true →
  read_part acc (name +:+ v) = (v, acc.2).
Proof.
  intros Hn Hv. destruct (part_name _ _ _ Hn eq_refl Hv) as (Ht & Hl & Hd). unfold read_part. cbv zeta.
  change 9%nat with (String.length "endpoint="). rewrite Ht, Hl, HasPrefix_app, Hd. by rewrite TrimSpace_graph.
Qed.

Lemma read_accesskey `{UnicodeTables} acc name v : names name "accesskey=" → is_graph v = true →
  read_part acc (name +:+ v) = (acc.1, v).
Proof.
  intros Hn Hv. destruct (part_name _ _ _ Hn eq_refl Hv) as (Ht & Hl & Hd). unfold read_part. cbv zeta.
  change 10%nat with (String.length "accesskey="). rewrite Ht, Hl, HasPrefix_app, Hd.
  change (HasPrefix ("accesskey=" +:+ ascii_lower v) "endpoint=") with false. cbv match. by rewrite TrimSpace_graph.
Qed.

Lemma no_semicolon_name name lit v : names name lit → no_byte ";" lit → no_byte ";" v → no_byte ";" (name +:+ v).
Proof.
  unfold no_byte. intros <- Hl Hv. rewrite str_forallb_app, Hv, andb_true_r. clear Hv. unfold ascii_lower in Hl.
  induction name as [|a s IH]; [done|]. cbn [map_bytes str_forallb] in *. apply andb_true_iff in Hl as [Ha Hl].
  apply andb_true_iff. split; [|by apply IH]. revert Ha. clear.
  by destruct a as [[] [] [] [] [] [] [] []]; vm_compute.
Qed.

(** The connection string of a resource configures the sender: the two parts
    in either order, their names in any case, the values printable and
    without a semicolon. *)
Theorem New_configures `{UnicodeTables} n1 n2 e k f :
  names n1 "endpoint=" → names n2 "accesskey=" →
  is_graph e = true → is_graph k = true → no_byte ";" e → no_byte ";" k →
  New (n1 +:+ e +:+ ";" +:+ n2 +:+ k) f = MkSender e k f (30 * Second) ∧
  New (n2 +:+ k +:+ ";" +:+ n1 +:+ e) f = MkSender e k f (30 * Second).
Proof.
  intros H1 H2 He Hk He' Hk'. pose proof (no_semicolon_name _ _ _ H1 eq_refl He') as Hs1.
  pose proof (no_semicolon_name _ _ _ H2 eq_refl Hk') as Hs2. unfold New, parseConnectionString. split.
  - rewrite (string_app_assoc n1). change (";" +:+ n2 +:+ k) with (String ";" (n2 +:+ k)).
    rewrite Split_app_sep, Split_no_sep by done. cbn [foldl]. by rewrite (read_endpoint _ n1), (read_accesskey _ n2).
  - rewrite (string_app_assoc n2). change (";" +:+ n1 +:+ e) with (String ";" (n1 +:+ e)).
    rewrite Split_app_sep, Split_no_sep by done. cbn [foldl]. by rewrite (read_accesskey _ n2), (read_endpoint _ n1).
Qed.

(** ** Lemmas: the request *)
(** What the receiver of a request checks: the hash of the body it got, and
    the signature over the method, the address, the date, the host and that
    hash, under the key both sides know. *)
Definition authentic `{Net} (key : string) (u : url) (o : Outgoing) : Prop :=
  header o "x-ms-content-sha256" = StdEncode (sha256 (o_Body o)) ∧
  header o "Authorization" = "HMAC-SHA256 SignedHeaders=x-ms-date;host;x-ms-content-sha256&Signature=" +:+
    StdEncode (hmac_sha256 key (o_Method o +:+ String "010" (pathAndQuery u +:+ String "010"
      (header o "x-ms-date" +:+ ";" +:+ url_Host u +:+ ";" +:+ header o "x-ms-content-sha256")))).

(** The message the body of a request says. *)
Definition carries (sender : string) (msg : Email) (body : string) : Prop :=
  ∃ m c, Unmarshal body = Some (AMap m) ∧
    m !! "senderAddress" = Some (AString (to_valid sender)) ∧
    m !! "recipients" = Some (AMap {[ "to" := AList [AMap {[ "address" := AString (to_valid (mail_To msg)) ]}] ]}) ∧
    m !! "content" = Some (AMap c) ∧
    c !! "subject" = Some (AString (to_valid (mail_Subject msg))) ∧
    default (AString "") (c !! "html") = AString (to_valid (mail_HTML msg)) ∧
    default (AString "") (c !! "plainText") = AString (to_valid (mail_Text msg)).

Lemma sendRequest_fits sender msg : fits maxNestingDepth (sendRequest sender msg).
Proof.
  repeat first [ apply Forall_cons_2 | apply Forall_nil_2 | apply fits_omitempty
               | apply (fits_obj 9999); [done|] | apply (fits_obj 9998); [done|] | apply Forall_app; split
               | by apply fits_str | by split ].
Qed.

Lemma payload_carries sender msg : carries sender msg (print (sendRequest sender msg)).
Proof.
  unfold carries, Unmarshal. rewrite fits_parse by apply sendRequest_fits. unfold sendRequest, content_tree, address_tree.
  destruct (String.eqb_spec (mail_HTML msg) "") as [->|_], (String.eqb_spec (mail_Text msg) "") as [->|_];
    cbn [omitempty app]; do 2 eexists; (split; [reflexivity|]); by repeat split.
Qed.

Lemma SendEmail_request_authentic `{Net} s msg now o : SendEmail_request s msg now = Ok o →
  ∃ key u, StdDecode (accessKey s) = Some key ∧ url_Parse (send_url s) = Ok u ∧ o_URL o = url_String u ∧
    authentic key u o ∧ carries (from s) msg (o_Body o).
Proof.
  unfold SendEmail_request. cbv zeta. destruct (url_Parse (send_url s)) as [u|]; [|done].
  destruct (http_NewRequest _ _); [done|]. unfold signRequest. destruct (StdDecode (accessKey s)) as [key|]; [|done].
  intros Ho. injection Ho as <-. exists key, u. split_and!; try done. apply payload_carries.
Qed.

(** C32 A mail counts as sent only when the service answered 202 to a request that
    it can authenticate, under the key of the connection string, as made of
    this body for this address, and whose body says the message. *)
Theorem SendEmail_sent `{Net} s msg now Do : SendEmail (Some s) msg now Do = None →
  ∃ key u o reply, Do o = Ok (202, reply) ∧ url_Parse (send_url s) = Ok u ∧ o_URL o = url_String u ∧
    StdDecode (accessKey s) = Some key ∧ authentic key u o ∧ carries (from s) msg (o_Body o).
Proof.
  unfold SendEmail. cbv zeta. destruct (_ || _); [done|]. destruct (SendEmail_request s msg now) as [o|] eqn:Ho; [|done].
  destruct (SendEmail_request_authentic _ _ _ _ Ho) as (key & u & Hk & Hu & Hurl & Ha & Hc).
  destruct (Do o) as [[status reply]|] eqn:Hd; [|done]. unfold SendEmail_reply.
  destruct (Z.eqb_spec status 202) as [->|_]; [by exists key, u, o, reply|]. cbv zeta.
  destruct (_ ≫= _) as [[code message]|]; [by destruct (negb _)|done].
Qed.
End Azurecs.
