(* ===== verification/Sdk.v ===== *)
(** * The client library

    [backend/pkg/sdk]: the configuration rules ([config.go]), the messages it
    builds ([helpers.go]) and the two calls of the server ([client.go]), up to
    the request that goes out and from the reply that comes back.  The
    network, [net/url] and the configuration reader (viper) are parameters
    without laws.

    The theorems compose the client with the server of [Server], [Handlers]
    and [Bodies]: a message sent arrives as it was, a discovery query with a
    status is refused, and the credentials the client sends are never those
    the server looks for. *)

From S2P Require Import Prelude.
From S2P Require Import GoStrings.
From S2P Require Import Protocol.
From S2P Require Import GoTime.
From S2P Require Import GoValue.
From S2P Require Import Envelope.
From S2P Require Import Uuid.
From S2P Require Import Schema.
From S2P Require Import World.
From S2P Require Import Auth.
From S2P Require Import JsonString.
From S2P Require Import Json.
From S2P Require Import FloatText.
From S2P Require Import JsonValue.
From S2P Require Import AdapterBase.
From S2P Require Import Server.
From S2P Require Import Handlers.
From S2P Require Import Bodies.
From S2P Require Import HttpClient.

Open Scope string_scope.
Open Scope Z_scope.

Module Sdk.

(** ** Configuration *)
Record Config := MkConfig {
  BackendURL : string;
  AgentID : string;
  APISecret : string;
  DisplayName : string;
  HeartbeatInterval : Z;
  RequestTimeout : Z
}.

Definition defaultHeartbeatInterval : Z := 30 * Second.
Definition defaultRequestTimeout : Z := 30 * Second.

(** [time.Duration(ms) * time.Millisecond] *)
Definition milliseconds (ms : Z) : Z := duration ms Millisecond.

(** What viper answers once it has read the file and the environment. *)
Record Settings := MkSettings { GetString : string → string; GetInt : string → Z }.

Definition validateConfig (cfg : Config) : option goerr :=
  if String.eqb (TrimSpace (BackendURL cfg)) "" then Some (NewError "backend_url is required")
  else if String.eqb (TrimSpace (AgentID cfg)) "" then Some (NewError "agent_id is required")
  else if String.eqb (TrimSpace (APISecret cfg)) "" then Some (NewError "api_secret is required")
  else if HeartbeatInterval cfg <=? 0 then Some (NewError "heartbeat_interval must be positive")
  else if RequestTimeout cfg <=? 0 then Some (NewError "request_timeout must be positive")
  else None.

(** [ReadInConfig] is the first argument: the settings, or its error. *)
Definition LoadConfig (read : result goerr Settings) : result goerr Config :=
  match read with
  | Err e => Err (WrapError "read config" e)
  | Ok v =>
      let heartbeatMS := GetInt v "heartbeat_interval_ms" in
      let requestTimeoutMS := GetInt v "request_timeout_ms" in
      let cfg := MkConfig (TrimSpace (GetString v "backend_url")) (TrimSpace (GetString v "agent_id"))
                   (TrimSpace (GetString v "api_secret")) (TrimSpace (GetString v "display_name"))
                   (if 0 <? heartbeatMS then milliseconds heartbeatMS else defaultHeartbeatInterval)
                   (if 0 <? requestTimeoutMS then milliseconds requestTimeoutMS else defaultRequestTimeout) in
      match validateConfig cfg with
      | Some e => Err e
      | None => Ok cfg
      end
  end.

(** [getenv] is [os.Getenv]. *)
Definition envPositiveInt (getenv : string → string) (key : string) : option Z :=
  let raw := TrimSpace (getenv key) in
  if String.eqb raw "" then None else
  match Atoi raw with
  | Some v => if v <=? 0 then None else Some v
  | None => None
  end.

Definition LoadConfigFromEnv (getenv : string → string) : Config :=
  MkConfig (TrimSpace (getenv "BOBBERCHAT_BACKEND_URL")) (TrimSpace (getenv "BOBBERCHAT_AGENT_ID"))
    (TrimSpace (getenv "BOBBERCHAT_API_SECRET")) (TrimSpace (getenv "BOBBERCHAT_DISPLAY_NAME"))
    (match envPositiveInt getenv "BOBBERCHAT_HEARTBEAT_INTERVAL_MS" with
     | Some ms => milliseconds ms
     | None => defaultHeartbeatInterval
     end)
    (match envPositiveInt getenv "BOBBERCHAT_REQUEST_TIMEOUT_MS" with
     | Some ms => milliseconds ms
     | None => defaultRequestTimeout
     end).

(** ** The client

    [H] is the type of the handlers; of the channel [done] it matters whether
    it is closed. *)
Record Client (H : Type) := MkClient { config : Config; handler : option H; closed : bool }.
Arguments MkClient {H}.
Arguments config {H}.
Arguments handler {H}.
Arguments closed {H}.

Definition NewClient {H} (cfg : Config) : result goerr (Client H) :=
  let cfg := MkConfig (TrimSpace (BackendURL cfg)) (TrimSpace (AgentID cfg)) (TrimSpace (APISecret cfg))
               (DisplayName cfg) (HeartbeatInterval cfg) (RequestTimeout cfg) in
  if String.eqb (BackendURL cfg) "" then Err (NewError "backend_url is required")
  else if String.eqb (AgentID cfg) "" then Err (NewError "agent_id is required")
  else if String.eqb (APISecret cfg) "" then Err (NewError "api_secret is required")
  else
    let cfg := MkConfig (BackendURL cfg) (AgentID cfg) (APISecret cfg) (DisplayName cfg)
                 (if HeartbeatInterval cfg <=? 0 then defaultHeartbeatInterval else HeartbeatInterval cfg)
                 (if RequestTimeout cfg <=? 0 then defaultRequestTimeout else RequestTimeout cfg) in
    Ok (MkClient cfg None false).

(** A method returns its error and the client it leaves; the receiver may be
    nil. *)
Definition Connect {H} (c : option (Client H)) : option goerr := None.

Definition Subscribe {H} (c : option (Client H)) (h : option H) : option goerr * option (Client H) :=
  match c with
  | None => (Some (NewError "client is nil"), c)
  | Some cl =>
      match h with
      | None => (Some (NewError "handler is nil"), c)
      | Some _ => (None, Some (MkClient (config cl) h (closed cl)))
      end
  end.

(** Closing a closed channel panics; the panic is recovered. *)
Definition Close {H} (c : option (Client H)) : option goerr * option (Client H) :=
  match c with
  | None => (None, c)
  | Some cl => (None, Some (MkClient (config cl) (handler cl) true))
  end.

(** ** Requests *)

(** [strings.TrimRight(s, "/")] *)
Fixpoint trim_slashes (s : string) : string :=
  match s with
  | "" => ""
  | String a r => let r := trim_slashes r in if String.eqb r "" && Ascii.eqb a "/" then "" else String a r
  end.

Definition backendEndpoint `{Net} (backendURL endpointPath : string) : result goerr string :=
  match url_Parse (TrimSpace backendURL) with
  | Err e => Err (WrapError "invalid backend url" e)
  | Ok u => Ok (url_String (url_with_Path u (trim_slashes (url_Path u) +:+ endpointPath)))
  end.

(** The part of a call before the network: endpoint, body, request. *)
Definition prepare `{Net} {H} (c : Client H) (path building marshalling creating : string) (body : option string)
    : result goerr Outgoing :=
  match backendEndpoint (BackendURL (config c)) path with
  | Err e => Err (WrapError building e)
  | Ok endpoint =>
      match body with
      | None => Err (WrapError marshalling (ExternalError "json"))
      | Some body =>
          match http_NewRequest "POST" endpoint with
          | Some e => Err (WrapError creating e)
          | None =>
              Ok (MkOutgoing "POST" endpoint
                    [("Authorization", "Bearer " +:+ APISecret (config c));
                     ("X-Agent-ID", AgentID (config c)); ("Content-Type", "application/json")]
                    body (RequestTimeout (config c)))
          end
      end
  end.

Record Message := MkMessage {
  msg_ID : string; msg_From : string; msg_To : string; msg_ParticipantKind : string; msg_Tag : string;
  msg_Content : string; msg_Metadata : option (gmap string any); msg_Timestamp : string
}.

(** The [map[string]any] of [Send]; a nil map is written [null]. *)
Definition send_map (msg : Message) : any :=
  AMap {[ "to" := AString (msg_To msg); "tag" := AString (msg_Tag msg); "content" := AString (msg_Content msg);
          "metadata" := match msg_Metadata msg with Some m => AMap m | None => ANil end ]}.

Definition Send_request `{Net} {H} (c : Client H) (msg : Message) : result goerr Outgoing :=
  prepare c "/v1/messages/send" "build send endpoint" "marshal message" "create send request"
    (Marshal (send_map msg)).

Record DiscoveryQuery := MkQuery { SupportedTags : list string; Status : list string; Limit : Z }.

Definition query_tree (q : DiscoveryQuery) : json :=
  JObj (omitempty (bool_decide (SupportedTags q = [])) "supported_tags" (JArr (map JStr (SupportedTags q))) ++
        omitempty (bool_decide (Status q = [])) "status" (JArr (map JStr (Status q))) ++
        omitempty (Limit q =? 0) "limit" (JNum (Itoa (Limit q)))).

Definition Discover_request `{Net} {H} (c : Client H) (q : DiscoveryQuery) : result goerr Outgoing :=
  prepare c "/v1/registry/discover" "build discover endpoint" "marshal discovery query" "create discovery request"
    (Some (print (query_tree q))).
(** ** Replies *)

(** The network: the status and the body of the reply, each of which may fail
    to arrive. *)
Definition Exchange := Outgoing → result goerr (Z * result goerr string).

Definition is_success (status : Z) : bool := (200 <=? status) && (status <? 300).

(** What [Send] says of a reply that is no success. *)
Definition send_failure (status : Z) (rawResp : string) : goerr :=
  let trimmed := TrimSpace rawResp in
  match parse rawResp ≫= (λ t, decode_struct false [("error", string_field (λ s _, s))] t "") with
  | Some errBody =>
      if negb (String.eqb (TrimSpace errBody) "") then
        NewError ("send failed: status=" +:+ Itoa status +:+ " error=" +:+ TrimSpace errBody)
      else NewError ("send failed: status=" +:+ Itoa status +:+ " body=" +:+ trimmed)
  | None => NewError ("send failed: status=" +:+ Itoa status +:+ " body=" +:+ trimmed)
  end.

Definition Send `{Net} {H} (c : option (Client H)) (msg : Message) (Do : Exchange) : option goerr :=
  match c with
  | None => Some (NewError "client is nil")
  | Some c =>
      match Send_request c msg with
      | Err e => Some e
      | Ok o =>
          match Do o with
          | Err e => Some (WrapError "execute send request" e)
          | Ok (_, Err e) => Some (WrapError "read send response" e)
          | Ok (status, Ok rawResp) => if is_success status then None else Some (send_failure status rawResp)
          end
      end
  end.

Record AgentProfile := MkProfile {
  profile_ID : string; profile_DisplayName : string; profile_Status : string; LatencyEstimateMS : Z
}.
Definition zero_profile := MkProfile "" "" "" 0.

Definition profile_fields : list (@field AgentProfile) :=
  [("id", string_field (λ s p, MkProfile s (profile_DisplayName p) (profile_Status p) (LatencyEstimateMS p)));
   ("display_name", string_field (λ s p, MkProfile (profile_ID p) s (profile_Status p) (LatencyEstimateMS p)));
   ("status", string_field (λ s p, MkProfile (profile_ID p) (profile_DisplayName p) s (LatencyEstimateMS p)));
   ("latency_estimate_ms", int_field (λ z p, MkProfile (profile_ID p) (profile_DisplayName p) (profile_Status p) z))].

Definition read_profile : json → AgentProfile → option AgentProfile := decode_struct false profile_fields.

(** A list of profiles, or an object that holds it. *)
Definition read_profiles (t : json) : option (list AgentProfile) :=
  let list_of := slice_field zero_profile read_profile id (λ l _, l) in
  match list_of t [] with
  | Some profiles => Some profiles
  | None => decode_struct false
              [("agents", slice_field zero_profile read_profile id (λ l _, l))] t []
  end.

Definition Discover `{Net} {H} (c : option (Client H)) (q : DiscoveryQuery) (Do : Exchange)
    : result goerr (list AgentProfile) :=
  match c with
  | None => Err (NewError "client is nil")
  | Some c =>
      o <-? Discover_request c q ;;
      match Do o with
      | Err e => Err (WrapError "execute discovery request" e)
      | Ok (_, Err e) => Err (WrapError "read discovery response" e)
      | Ok (status, Ok rawResp) =>
          if negb (is_success status) then
            Err (NewError ("discovery failed: status=" +:+ Itoa status +:+ " body=" +:+ TrimSpace rawResp))
          else
            match parse rawResp ≫= read_profiles with
            | Some profiles => Ok profiles
            | None => Err (WrapError "parse discovery response" (ExternalError "json"))
            end
      end
  end.

(** ** Messages *)
Section Messages.
Context {U : UuidPkg} {C : Citext} {E : Env}.

Definition NewMessage (from to tag content : string) : prog Message :=
  let! id := uuid_NewString in
  let! now := now_RFC3339 in
  Ret (MkMessage id from to "" tag content (Some {[ "protocol_version" := AString "1.0.0" ]}) now).

Definition NewRequestMessage (from to content : string) : prog Message :=
  NewMessage from to Tags.TagRequestData content.

Definition NewResponseMessage (from to requestID content : string) : prog Message :=
  let! msg := NewMessage from to Tags.TagResponseSuccess content in
  Ret (MkMessage (msg_ID msg) (msg_From msg) (msg_To msg) (msg_ParticipantKind msg) (msg_Tag msg) (msg_Content msg)
        (Some (<["request_id" := AString requestID]> (default ∅ (msg_Metadata msg)))) (msg_Timestamp msg)).
End Messages.

(** ** Lemmas: the body of [Send] *)
Lemma by_key_send {A} (a b c d : A) :
  by_key {[ "to" := a; "tag" := b; "content" := c; "metadata" := d ]} =
  [("content", c); ("metadata", d); ("tag", b); ("to", a)].
Proof. vm_compute. reflexivity. Qed.

Lemma send_map_tree msg t : map_tree (msg_Metadata msg) = Some t →
  tree_of (send_map msg) = Some (JObj [("content", JStr (msg_Content msg)); ("metadata", t);
    ("tag", JStr (msg_Tag msg)); ("to", JStr (msg_To msg))]).
Proof.
  intros Ht. unfold send_map. change (tree_of (AMap ?m)) with (JObj <$> mapM lift_member (by_key (tree_of <$> m))).
  rewrite !fmap_insert, map_fmap_singleton, by_key_send.
  assert (tree_of (match msg_Metadata msg with Some m => AMap m | None => ANil end) = Some t) as ->; [|done].
  by destruct (msg_Metadata msg).
Qed.

Lemma metadata_field_round_trip m t r : (∀ x, m = Some x → portable 9999 (AMap x)) → map_tree m = Some t →
  sreq_Metadata r = None →
  map_field sreq_Metadata (λ m r, MkSendReq (sreq_To r) (sreq_Tag r) (sreq_Content r) m) (scrub t) r =
  Some (MkSendReq (sreq_To r) (sreq_Tag r) (sreq_Content r) ((λ x : gmap string any, json_norm <$> x) <$> m)).
Proof.
  destruct m as [m|]; intros Hp Ht Hr; [|by injection Ht as <-].
  by rewrite (map_field_round_trip _ _ 9999 m t r (Hp m eq_refl) Hr Ht).
Qed.

(** What arrives of a message. *)
Definition arriving (msg : Message) : SendReq :=
  MkSendReq (msg_To msg) (msg_Tag msg) (msg_Content msg) ((λ x : gmap string any, json_norm <$> x) <$> msg_Metadata msg).

Definition sendable (msg : Message) : Prop :=
  valid_utf8 (msg_To msg) = true ∧ valid_utf8 (msg_Tag msg) = true ∧ valid_utf8 (msg_Content msg) = true ∧
  ∀ m, msg_Metadata msg = Some m → portable 9999 (AMap m).

Lemma read_send_map msg s rest : sendable msg → Marshal (send_map msg) = Some s →
  read_send (Ok (s +:+ rest)) = Ok (arriving msg).
Proof.
  intros (H1 & H2 & H3 & Hm). unfold Marshal. destruct (map_tree_fits 9999 (msg_Metadata msg) Hm) as (t & Ht & Hf); [done|].
  rewrite (send_map_tree msg t Ht). intros <-%(inj Some). unfold read_send. rewrite readJSON_object.
  2:{ apply (fits_obj 9999); [done|]. repeat (constructor; [try done; by apply fits_str|]). constructor. }
  decode. rewrite (metadata_field_round_trip (msg_Metadata msg) t) by done. by decode.
Qed.

(** ** Lemmas: discovery queries *)
Lemma fits_strings l : fits 1 (JArr (map JStr l)).
Proof.
  assert (forallb numbers_ok (map JStr l) = true ∧ max_of nesting (map JStr l) = 0) as [H1 H2].
  { induction l as [|s l [IH1 IH2]]; [done|]. cbn [map forallb]. rewrite max_of_cons, IH2. done. }
  split; [done|]. cbn [nesting]. rewrite H2. done.
Qed.

Lemma query_fits q : in_int64 (Limit q) = true → fits maxNestingDepth (query_tree q).
Proof.
  intros Hl. assert (∀ l, fits 9999 (JArr (map JStr l))) as Hs.
  { intros l. destruct (fits_strings l) as [? Hn]. split; [done|]. lia. }
  apply (fits_obj 9999); [done|]. repeat (apply Forall_app; split); apply fits_omitempty; auto. by apply fits_int.
Qed.

Lemma read_strings l : read_elements "" (string_field (λ s _, s)) (map scrub (map JStr l)) [] = Some (map to_valid l).
Proof. induction l as [|s l IH]; [done|]. cbn in *. by rewrite IH. Qed.

Lemma decode_supported_tags tags :
  decode_members true discover_fields
    (map scrub_member (omitempty (bool_decide (tags = [])) "supported_tags" (JArr (map JStr tags)))) (MkDiscoverReq [] 0) =
  Some (MkDiscoverReq (map to_valid tags) 0).
Proof.
  erewrite decode_omitempty by reflexivity. case_bool_decide as Ht; [by rewrite Ht|].
  change (scrub (JArr ?l)) with (JArr (map scrub l)). unfold slice_field. cbn [snd dreq_SupportedTags]. by rewrite read_strings.
Qed.

Lemma prepare_body `{Net} {H'} (c : Client H') path e1 e2 e3 body o :
  prepare c path e1 e2 e3 body = Ok o → body = Some (o_Body o) ∧
  o_Header o = [("Authorization", "Bearer " +:+ APISecret (config c));
                ("X-Agent-ID", AgentID (config c)); ("Content-Type", "application/json")].
Proof.
  unfold prepare. destruct (backendEndpoint _ _); [|done]. destruct body; [|done].
  destruct (http_NewRequest _ _); [done|]. by intros <-%(inj Ok).
Qed.

(** ** Lemmas: configuration *)
Lemma NewClient_cases {H} cfg (c : Client H) : NewClient cfg = Ok c →
  handler c = None ∧ closed c = false ∧
  BackendURL (config c) = TrimSpace (BackendURL cfg) ∧ AgentID (config c) = TrimSpace (AgentID cfg) ∧
  APISecret (config c) = TrimSpace (APISecret cfg) ∧ DisplayName (config c) = DisplayName cfg ∧
  TrimSpace (BackendURL cfg) ≠ "" ∧ TrimSpace (AgentID cfg) ≠ "" ∧ TrimSpace (APISecret cfg) ≠ "" ∧
  0 < HeartbeatInterval (config c) ∧ 0 < RequestTimeout (config c).
Proof.
  unfold NewClient. cbn [BackendURL AgentID APISecret DisplayName HeartbeatInterval RequestTimeout].
  destruct (String.eqb_spec (TrimSpace (BackendURL cfg)) ""); [done|].
  destruct (String.eqb_spec (TrimSpace (AgentID cfg)) ""); [done|].
  destruct (String.eqb_spec (TrimSpace (APISecret cfg)) ""); [done|].
  intros <-%(inj Ok). cbn. unfold defaultHeartbeatInterval, defaultRequestTimeout, Second.
  split_and!; try done; case_match; lia.
Qed.

Lemma validateConfig_None cfg : validateConfig cfg = None ↔
  TrimSpace (BackendURL cfg) ≠ "" ∧ TrimSpace (AgentID cfg) ≠ "" ∧ TrimSpace (APISecret cfg) ≠ "" ∧
  0 < HeartbeatInterval cfg ∧ 0 < RequestTimeout cfg.
Proof.
  unfold validateConfig.
  destruct (String.eqb_spec (TrimSpace (BackendURL cfg)) ""); [naive_solver|].
  destruct (String.eqb_spec (TrimSpace (AgentID cfg)) ""); [naive_solver|].
  destruct (String.eqb_spec (TrimSpace (APISecret cfg)) ""); [naive_solver|].
  destruct (Z.leb_spec (HeartbeatInterval cfg) 0); [split; [done|lia]|].
  destruct (Z.leb_spec (RequestTimeout cfg) 0); [split; [done|lia]|]. naive_solver.
Qed.

Lemma milliseconds_exact ms : 0 ≤ ms ≤ int64_max / Millisecond → milliseconds ms = ms * Millisecond.
Proof. by apply duration_exact. Qed.

Section Properties.
Context {N : Net} {H : Type}.
Context {U : UuidPkg} {C : Citext} {E : World.Env} {UT : UnicodeTables} {B : Bcrypt} {A2 : Argon2} {J : Jwt}.
Implicit Types c : Client H.

(** C25 A message sent arrives at the server as it was: the bytes of the body
    [Send] writes are read back by the handler of the route as the same
    recipient, tag, content and metadata (the metadata in JSON form; nil stays
    nil). *)
Theorem Send_arrives c msg o :
  Send_request c msg = Ok o → sendable msg →
  with_raw MessagesSend (Ok (o_Body o)) = POST_messages_send (Ok (arriving msg)).
Proof.
  intros Ho Hs. apply prepare_body in Ho as [Hb _]. cbn [with_raw].
  by rewrite <-(string_app_nil_r (o_Body o)), (read_send_map msg).
Qed.

(** C30 A discovery query arrives with its tags and its limit, unless it asks for
    a status: the server knows no such member and refuses unknown ones, so
    that such a query is always answered 400, and nothing happens. *)
Theorem Discover_status_refused c q o :
  Discover_request c q = Ok o → in_int64 (Limit q) = true →
  (Status q = [] →
     read_discover (Ok (o_Body o)) = Ok (MkDiscoverReq (map to_valid (SupportedTags q)) (Limit q))) ∧
  (Status q ≠ [] → ∀ a r ctx w, ∃ e,
     run (handleDiscover a (read_discover (Ok (o_Body o))) r ctx) w = (writeError StatusBadRequest e, w)).
Proof.
  intros Ho Hl. apply prepare_body in Ho as [Hb _]. apply (inj Some) in Hb as <-.
  pose proof (query_fits q Hl) as Hf. unfold read_discover. rewrite <-(string_app_nil_r (print (query_tree q))).
  unfold query_tree in *. rewrite readJSON_object by done. split; intros Hst.
  - rewrite Hst. change (omitempty (bool_decide _) "status" _) with (@nil (string * json)).
    rewrite decode_fields_app, decode_supported_tags. cbn [mbind option_bind]. by decode.
  - intros a r ctx w. rewrite (decode_unknown _ _ "status" (scrub (JArr (map JStr (Status q))))); [by eexists| |done].
    rewrite (bool_decide_eq_false_2 (Status q = [])) by done. rewrite !map_app, !elem_of_app. right. left.
    by apply list_elem_of_singleton.
Qed.



(** A configuration makes a client exactly when the address, the identifier
    and the secret are there; the client's configuration passes validation,
    and one that [LoadConfig] returned is taken as it is. *)
Theorem NewClient_valid cfg :
  (is_ok (NewClient (H := H) cfg) = true ↔
     TrimSpace (BackendURL cfg) ≠ "" ∧ TrimSpace (AgentID cfg) ≠ "" ∧ TrimSpace (APISecret cfg) ≠ "") ∧
  (∀ c, NewClient cfg = Ok c → validateConfig (config c) = None) ∧
  (∀ read, LoadConfig read = Ok cfg → NewClient (H := H) cfg = Ok (MkClient cfg None false)).
Proof.
  split_and!.
  - split; [by intros [c (_ & _ & _ & _ & _ & _ & ? & ? & ? & _)%NewClient_cases]%is_ok_inv|].
    intros (H1 & H2 & H3). unfold NewClient. cbn [BackendURL AgentID APISecret].
    by rewrite !(proj2 (String.eqb_neq _ _)) by done.
  - intros c (_ & _ & Hu & Ha & Hs & _ & ? & ? & ? & ? & ?)%NewClient_cases. apply validateConfig_None.
    by rewrite Hu, Ha, Hs, !TrimSpace_idem.
  - intros [v|e]; [|done]. unfold LoadConfig. cbv zeta.
    destruct (validateConfig _) as [e|] eqn:Hv; [done|]. intros <-%(inj Ok). apply validateConfig_None in Hv.
    cbn [BackendURL AgentID APISecret HeartbeatInterval RequestTimeout] in Hv. rewrite !TrimSpace_idem in Hv. destruct Hv as (H1 & H2 & H3 & H4 & H5).
    unfold NewClient. cbn [BackendURL AgentID APISecret DisplayName HeartbeatInterval RequestTimeout].
    rewrite !TrimSpace_idem, !(proj2 (String.eqb_neq _ _)) by done.
    by rewrite !(proj2 (Z.leb_gt _ _)) by done.
Qed.

(** The heartbeat interval of a loaded configuration is positive and a
    [time.Duration]: the default when no positive number of milliseconds is
    given, that number up to 292 years; beyond, the product overflows and the
    interval is another one, if the configuration is accepted at all. *)
Theorem LoadConfig_heartbeat v cfg :
  LoadConfig (Ok v) = Ok cfg → let ms := GetInt v "heartbeat_interval_ms" in
  0 < HeartbeatInterval cfg ≤ int64_max ∧
  (ms ≤ 0 → HeartbeatInterval cfg = defaultHeartbeatInterval) ∧
  (0 < ms ≤ int64_max / Millisecond → HeartbeatInterval cfg = ms * Millisecond) ∧
  (int64_max / Millisecond < ms → HeartbeatInterval cfg ≠ ms * Millisecond).
Proof.
  unfold LoadConfig. cbv zeta. destruct (validateConfig _) as [e|] eqn:Hv; [done|]. intros <-%(inj Ok).
  apply validateConfig_None in Hv as (_ & _ & _ & Hh & _). cbn [HeartbeatInterval] in *.
  set (ms := GetInt v "heartbeat_interval_ms") in *.
  pose proof (duration_max ms Millisecond) as Hle. pose proof (milliseconds_exact ms) as Hex.
  unfold defaultHeartbeatInterval, milliseconds in *.
  destruct (Z.ltb_spec 0 ms).
  - split_and!; [done|done|lia|intros; apply Hex; lia|].
    intros Hbig Heq. unfold Millisecond, int64_max in *. lia.
  - unfold int64_max, Second. split_and!; try done; lia.
Qed.

(** What the client of a configuration sends with every call. *)
Lemma sent_headers cfg c o :
  NewClient cfg = Ok c →
  (∃ msg, Send_request c msg = Ok o) ∨ (∃ q, Discover_request c q = Ok o) →
  header o "Authorization" = "Bearer " +:+ APISecret (config c) ∧ header o "X-API-Secret" = "".
Proof. intros Hc Ho. unfold header. by destruct Ho as [[msg [_ ->]%prepare_body]|[q [_ ->]%prepare_body]]. Qed.

Lemma ValidateJWT_refused s tok w :
  (∀ now, is_ok (jwt_ParseWithClaims (Auth.keyfunc s) now tok) = false) →
  ∃ e w', run (Auth.ValidateJWT s tok) w = (Err e, w') ∧ w_db w' = w_db w.
Proof.
  intros Hno. unfold Auth.ValidateJWT. destruct (Auth.is_empty _); [by eexists _, _|].
  specialize (Hno (env_now (w_steps w))). rewrite run_bind.
  change (run time_Now w) with (env_now (w_steps w), tick w). cbv beta iota.
  destruct (jwt_ParseWithClaims _ _ _) as [|e]; [done|]. by eexists _, _.
Qed.

(** C17 The credentials of the client never open a route: it puts the secret of
    the agent where the server looks for the token of a user, and nothing
    where the server looks for the secret; unless the secret happens to be a
    valid token of a user, every request is answered 401, the handler does
    not run and no data change. *)
Theorem sdk_not_authenticated cfg c o a allowJWT allowAgentSecret next addr w :
  NewClient cfg = Ok c →
  (∃ msg, Send_request c msg = Ok o) ∨ (∃ q, Discover_request c q = Ok o) →
  (∀ now, is_ok (jwt_ParseWithClaims (Auth.keyfunc (authSvc a)) now (APISecret (config c))) = false) →
  ∃ w', run (requireAuth a allowJWT allowAgentSecret next (received o addr)) w =
    (writeError StatusUnauthorized (RErr (NewError "invalid credentials")), w') ∧ w_db w' = w_db w.
Proof.
  intros Hc Ho Hjwt. destruct (sent_headers cfg c o Hc Ho) as [Hauth Hsecret].
  apply NewClient_cases in Hc as (_ & _ & _ & _ & Hs & _ & _ & _ & Hne & _).
  assert (∀ w, run (if allowAgentSecret then authenticate_agent a (received o addr)
    else Ret (Err (NewError "invalid credentials"))) w = (Err (NewError "invalid credentials"), w)) as Hno.
  { intros w0. destruct allowAgentSecret; [|done]. unfold authenticate_agent. cbn [received r_Header].
    rewrite Hsecret. change (TrimSpace "") with "". by rewrite orb_true_r. }
  unfold requireAuth. rewrite run_bind. unfold authenticate. cbv zeta. cbn [received r_Header].
  rewrite Hauth, bearerToken_bearer by (by rewrite Hs, ?TrimSpace_idem).
  destruct (allowJWT && _).
  - destruct (ValidateJWT_refused (authSvc a) (APISecret (config c)) w Hjwt) as (e & w' & Hrun & Hdb).
    rewrite run_bind, Hrun. cbn [run]. rewrite Hno. by eexists.
  - rewrite Hno. by eexists.
Qed.
End Properties.
End Sdk.
