(* ===== verification/Cli.v ===== *)
(** * The command line

    [cli/cmd/bobber/main.go]: each command of [bobber] as a program over the
    terminal, the network and the configuration file, with the settings viper
    holds as its state.  cobra, which parses the arguments, is left out: a
    [command] is one with its arguments and flags.

    The theorems compose the commands with the routes of the server: a command
    addresses the route it is meant for, with a body the handler of that route
    reads and the kind of credentials the route accepts. *)

From S2P Require Import Prelude.
From S2P Require Import GoStrings.
From S2P Require Import GoTime.
From S2P Require Import GoValue.
From S2P Require Import Uuid.
From S2P Require Import Schema.
From S2P Require Import World.
From S2P Require Import Auth.
From S2P Require Import JsonString.
From S2P Require Import Json.
From S2P Require Import FloatText.
From S2P Require Import JsonValue.
From S2P Require Import AdapterBase.
From S2P Require Import Server.
From S2P Require Import Handlers.
From S2P Require Import Bodies.
From S2P Require Import Mux.
From S2P Require Import HttpClient.

Open Scope string_scope.
Open Scope Z_scope.

Module Cli.

(** ** Settings *)
Record settings := MkSettings {
  config_file : string; backend_url : string; set_token : string; set_agent_id : string; set_api_secret : string
}.

(** [v.Set] *)
Definition with_config_file (file : string) (st : settings) : settings :=
  MkSettings file (backend_url st) (set_token st) (set_agent_id st) (set_api_secret st).
Definition with_set_token (tok : string) (st : settings) : settings :=
  MkSettings (config_file st) (backend_url st) tok (set_agent_id st) (set_api_secret st).
Definition with_credentials (id secret : string) (st : settings) : settings :=
  MkSettings (config_file st) (backend_url st) (set_token st) id secret.

Definition backendURL (st : settings) : string :=
  let v := TrimSpace (backend_url st) in if String.eqb v "" then "http://localhost:8080" else v.
Definition token (st : settings) : string := TrimSpace (set_token st).
Definition agentID (st : settings) : string := TrimSpace (set_agent_id st).
Definition apiSecret (st : settings) : string := TrimSpace (set_api_secret st).

(** ** Programs

    The interactions are calls of the standard library and of the packages
    uuid, term and viper; [Call] is [http.Client.Do], [ReadPassword] comes
    with the prompt it follows. *)
Inductive file_op :=
| MkdirAll (dir : string)
| Stat (file : string)
| WriteConfig (st : settings)
| SafeWriteConfigAs (file : string) (st : settings).

Inductive cli (A : Type) : Type :=
| Done (a : A)
| IsTerminal (k : bool → cli A)
| ReadPassword (prompt : string) (k : result goerr string → cli A)
| NewID (k : string → cli A)
| Call (o : Outgoing) (k : result goerr (Z * result goerr string) → cli A)
| File (op : file_op) (k : option goerr → cli A).
Arguments Done {A} a.
Arguments IsTerminal {A} k.
Arguments ReadPassword {A} prompt k.
Arguments NewID {A} k.
Arguments Call {A} o k.
Arguments File {A} op k.

Fixpoint bind {A B} (p : cli A) (f : A → cli B) : cli B :=
  match p with
  | Done a => f a
  | IsTerminal k => IsTerminal (λ b, bind (k b) f)
  | ReadPassword prompt k => ReadPassword prompt (λ r, bind (k r) f)
  | NewID k => NewID (λ s, bind (k s) f)
  | Call o k => Call o (λ r, bind (k r) f)
  | File op k => File op (λ e, bind (k e) f)
  end.

(** [x, err := p; if err != nil { return wrap(err) }] *)
Definition try {A B} (p : cli (result goerr A)) (wrap : goerr → goerr) (f : A → cli (result goerr B))
    : cli (result goerr B) :=
  bind p (λ r, match r with Ok a => f a | Err e => Done (Err (wrap e)) end).

(** ** Calls of the server *)

(** A JSON object into a [map[string]any]; [null] makes the map nil. *)
Definition read_map (t : json) : option (option (gmap string any)) :=
  match t with
  | JNull => Some None
  | JObj _ => match of_json t with Some (AMap m) => Some (Some m) | _ => None end
  | _ => None
  end.

Definition read_reply (status : Z) (body : result goerr string) : result goerr any :=
  match body with
  | Err e => Err e
  | Ok raw =>
      match first_value raw ≫= read_map with
      | None => Err (ExternalError "json")
      | Some resp =>
          if 400 <=? status then
            match default ∅ resp !! "error" with
            | Some (AString msg) => Err (NewError msg)
            | _ => Err (NewError ("request failed with status " +:+ Itoa status))
            end
          else Ok (match resp with Some m => AMap m | None => ANil end)
      end
  end.

(** ** The terminal and the configuration file *)

(** The paths of [os] and [path/filepath] on the system at hand. *)
Class Paths := {
  UserConfigDir : result goerr string;
  filepath_Join : list string → string;
  filepath_Dir : string → string
}.

Definition readSecret (prompt : string) : cli (result goerr string) :=
  IsTerminal (λ terminal,
  if negb terminal then
    Done (Err (NewError "not a terminal — provide the value via flag or environment variable"))
  else ReadPassword prompt (λ r, Done r)).

Section Cli.
Context {N : Net} {H : Paths}.

Definition defaultConfigFile : string :=
  match UserConfigDir with
  | Err _ => ".bobber.yaml"
  | Ok dir => filepath_Join [dir; "bobber"; "config.yaml"]
  end.

Definition saveConfig (st : settings) : cli (option goerr) :=
  let st := if String.eqb (config_file st) "" then with_config_file defaultConfigFile st else st in
  let file := config_file st in
  File (MkdirAll (filepath_Dir file)) (λ err,
  match err with
  | Some _ => Done err
  | None =>
      File (Stat file) (λ err,
      match err with
      | None => File (WriteConfig st) (λ e, Done e)
      | Some _ => File (SafeWriteConfigAs file st) (λ e, Done e)
      end)
  end).

(** [json.Marshal(body)], nothing for a nil body. *)
Definition marshal (body : option any) : option string :=
  match body with None => Some "" | Some b => Marshal b end.

Definition exchange (method url : string) (headers : list (string * string)) (body : option any)
    : cli (result goerr any) :=
  match marshal body with
  | None => Done (Err (ExternalError "json"))
  | Some payload =>
      match http_NewRequest method url with
      | Some e => Done (Err e)
      | None =>
          Call (MkOutgoing method url (("Content-Type", "application/json") :: headers) payload (15 * Second))
            (λ r, Done (match r with
                        | Err e => Err e
                        | Ok (status, body) => read_reply status body
                        end))
      end
  end.

Definition doJSON (method url token : string) (body : option any) : cli (result goerr any) :=
  exchange method url (if negb (String.eqb token "") then [("Authorization", "Bearer " +:+ token)] else []) body.

Definition doJSONAgent (method url agentID apiSecret : string) (body : option any) : cli (result goerr any) :=
  exchange method url [("X-Agent-ID", agentID); ("X-API-Secret", apiSecret)] body.

(** ** Commands *)
Inductive command :=
| AccountRegister (email password : string)
| AccountLogin (email password : string)
| AgentCreate (name : string)
| AgentUse (id : string)
| AgentDelete (id : string)
| AgentRotateSecret (id : string)
| Login (agent_id secret : string)
| Whoami
| Logout
| Ls (target : option string)
| Connect (target : string)
| Inbox
| Accept (id : string)
| Reject (id : string)
| BlacklistAdd (target : string)
| BlacklistRemove (target : string)
| BlacklistList
| Info (target : string)
| Send (target tag content : string)
| Poll (conversation : string) (limit : Z) (since_ts since_id : string)
| GroupCreate (name : string)
| GroupLeave (id : string)
| GroupInvite (group agent : string).

(** What a command prints, if anything, or its error. *)
Definition outcome := cli (result goerr (option any)).

Definition fail (msg : string) : outcome := Done (Err (NewError msg)).
Definition print_reply (p : cli (result goerr any)) : outcome := try p id (λ resp, Done (Ok (Some resp))).
Definition save (st : settings) (next : outcome) : outcome :=
  bind (saveConfig st) (λ e, match e with Some e => Done (Err e) | None => next end).

(** A secret of the command line, or else of the terminal. *)
Definition secret_or_prompt (missing : string → bool) (given prompt flag empty : string)
    (next : string → outcome) : outcome :=
  let checked s := if missing s then fail empty else next s in
  if missing given then
    try (readSecret prompt) (WrapError flag) checked
  else checked given.

Definition is_empty (s : string) : bool := String.eqb s "".
Definition is_blank (s : string) : bool := String.eqb (TrimSpace s) "".

Definition with_token (st : settings) (next : string → outcome) : outcome :=
  if is_empty (token st) then fail "token required" else next (token st).
Definition with_agent (st : settings) (next : string → string → outcome) : outcome :=
  if is_empty (agentID st) || is_empty (apiSecret st) then
    fail "agent credentials required (use 'bobber login' first)"
  else next (agentID st) (apiSecret st).

Definition obj (l : list (string * string)) : option any := Some (AMap (list_to_map (prod_map id AString <$> l))).

Definition accountRegisterCmd (st : settings) (email password : string) : outcome :=
  if is_empty email then fail "--email is required" else
  secret_or_prompt is_empty password "Password: " "--password is required" "password must not be empty" (λ password,
  print_reply (doJSON "POST" (backendURL st +:+ "/v1/auth/register") ""
    (obj [("email", email); ("password", password)]))).

Definition accountLoginCmd (st : settings) (email password : string) : outcome :=
  if is_empty email then fail "--email is required" else
  secret_or_prompt is_empty password "Password: " "--password is required" "password must not be empty" (λ password,
  try (doJSON "POST" (backendURL st +:+ "/v1/auth/login") "" (obj [("email", email); ("password", password)])) id
    (λ resp,
     let print := Done (Ok (Some resp)) in
     match resp with
     | AMap m =>
         match m !! "access_token" with
         | Some (AString tok) =>
             if negb (is_empty tok) then
               save (with_set_token tok st) print
             else print
         | _ => print
         end
     | _ => print
     end)).

Definition agentCreateCmd (st : settings) (name : string) : outcome :=
  with_token st (λ token,
  let create displayName := print_reply (doJSON "POST" (backendURL st +:+ "/v1/agents") token
                              (obj [("display_name", displayName)])) in
  if is_blank name then NewID create else create name).

(** [splitCSV] has no caller. *)
Definition splitCSV (s : string) : list string :=
  omap (λ p, let t := TrimSpace p in if String.eqb t "" then None else Some t) (Split s ",").

Definition member (resp : any) (key : string) : any :=
  match resp with AMap m => default ANil (m !! key) | _ => ANil end.

Definition agentUseCmd (st : settings) (agentID : string) : outcome :=
  with_token st (λ token,
  try (doJSON "GET" (backendURL st +:+ "/v1/info/" +:+ agentID) token None) (WrapError "failed to get agent info")
    (λ info,
  try (doJSON "POST" (backendURL st +:+ "/v1/agents/" +:+ agentID +:+ "/rotate-secret") token None)
    (WrapError "failed to rotate agent secret") (λ rotateResp,
  match member rotateResp "api_secret" with
  | AString secret =>
      if is_empty secret then fail "rotate-secret response did not contain api_secret" else
      save (with_credentials agentID secret st)
        (Done (Ok (Some (AMap {[ "agent_id" := AString agentID; "display_name" := member info "display_name";
                                 "active" := ABool true ]}))))
  | _ => fail "rotate-secret response did not contain api_secret"
  end))).

Definition agentDeleteCmd (st : settings) (id : string) : outcome :=
  with_token st (λ token, print_reply (doJSON "DELETE" (backendURL st +:+ "/v1/agents/" +:+ id) token None)).

Definition agentRotateSecretCmd (st : settings) (id : string) : outcome :=
  with_token st (λ token,
    print_reply (doJSON "POST" (backendURL st +:+ "/v1/agents/" +:+ id +:+ "/rotate-secret") token None)).

Definition loginCmd (st : settings) (agentID secret : string) : outcome :=
  if is_blank agentID then fail "--agent-id is required" else
  secret_or_prompt is_blank secret "API Secret: " "--secret is required" "secret must not be empty" (λ secret,
  save (with_credentials agentID secret st)
    (Done (Ok (Some (AMap {[ "agent_id" := AString agentID; "saved" := ABool true ]}))))).

Definition whoamiCmd (st : settings) : outcome :=
  if is_empty (agentID st) || is_empty (apiSecret st) then
    fail "not logged in as agent (run bobber login --agent-id <ID> --secret <SECRET>)"
  else print_reply (doJSONAgent "GET" (backendURL st +:+ "/v1/info/" +:+ agentID st) (agentID st) (apiSecret st) None).

Definition clearAgentCreds (st : settings) : cli (option goerr) :=
  saveConfig (with_set_token "" (with_credentials "" "" st)).

Definition logoutCmd (st : settings) : outcome :=
  bind (clearAgentCreds st) (λ e, Done (match e with Some e => Err e | None => Ok None end)).

Definition lsCmd (st : settings) (target : option string) : outcome :=
  with_token st (λ token,
  let list query := print_reply (doJSON "GET" (backendURL st +:+ "/v1/conversations" +:+ query) token None) in
  match target with
  | None => list ""
  | Some target =>
      if String.eqb target "dms" then list "?type=direct"
      else if String.eqb target "groups" then list "?type=group"
      else fail "invalid list target: must be dms or groups"
  end).

Definition connectCmd (st : settings) (target : string) : outcome :=
  with_agent st (λ id secret, print_reply (doJSONAgent "POST" (backendURL st +:+ "/v1/connections/request") id secret
    (obj [("target_id", target)]))).

Definition inboxCmd (st : settings) : outcome :=
  with_agent st (λ id secret,
    print_reply (doJSONAgent "GET" (backendURL st +:+ "/v1/connections/inbox") id secret None)).

Definition acceptCmd (st : settings) (id : string) : outcome :=
  with_agent st (λ aid secret,
    print_reply (doJSONAgent "POST" (backendURL st +:+ "/v1/connections/" +:+ id +:+ "/accept") aid secret (obj []))).

Definition rejectCmd (st : settings) (id : string) : outcome :=
  with_agent st (λ aid secret,
    print_reply (doJSONAgent "POST" (backendURL st +:+ "/v1/connections/" +:+ id +:+ "/reject") aid secret (obj []))).

Definition blacklistAddCmd (st : settings) (target : string) : outcome :=
  with_agent st (λ id secret,
    print_reply (doJSONAgent "POST" (backendURL st +:+ "/v1/blacklist") id secret (obj [("target_id", target)]))).

Definition blacklistRemoveCmd (st : settings) (target : string) : outcome :=
  with_agent st (λ id secret,
    print_reply (doJSONAgent "DELETE" (backendURL st +:+ "/v1/blacklist/" +:+ target) id secret None)).

Definition blacklistListCmd (st : settings) : outcome :=
  with_agent st (λ id secret, print_reply (doJSONAgent "GET" (backendURL st +:+ "/v1/blacklist") id secret None)).

Definition infoCmd (st : settings) (target : string) : outcome :=
  with_token st (λ token, print_reply (doJSON "GET" (backendURL st +:+ "/v1/info/" +:+ target) token None)).

Definition sendCmd (st : settings) (target tag content : string) : outcome :=
  with_agent st (λ id secret,
  if is_empty tag || is_empty content then fail "--tag and --content are required" else
  print_reply (doJSONAgent "POST" (backendURL st +:+ "/v1/messages/send") id secret
    (obj [("to", target); ("tag", tag); ("content", content)]))).

Definition pollCmd (st : settings) (conversation : string) (limit : Z) (sinceTS sinceID : string) : outcome :=
  with_token st (λ token,
  let endpoint := backendURL st +:+ "/v1/messages/poll?conversation_id=" +:+ conversation in
  let endpoint := if 0 <? limit then endpoint +:+ "&limit=" +:+ Itoa limit else endpoint in
  let endpoint := if negb (is_empty sinceTS) then endpoint +:+ "&since_ts=" +:+ sinceTS else endpoint in
  let endpoint := if negb (is_empty sinceID) then endpoint +:+ "&since_id=" +:+ sinceID else endpoint in
  print_reply (doJSON "GET" endpoint token None)).

Definition groupCreateCmd (st : settings) (name : string) : outcome :=
  with_token st (λ token,
  if is_blank name then fail "--name is required" else
  print_reply (doJSON "POST" (backendURL st +:+ "/v1/groups") token (obj [("name", name)]))).

Definition groupLeaveCmd (st : settings) (id : string) : outcome :=
  with_token st (λ token,
    print_reply (doJSON "POST" (backendURL st +:+ "/v1/groups/" +:+ id +:+ "/leave") token
      (obj [("participant_id", ""); ("participant_kind", "user")]))).

Definition groupInviteCmd (st : settings) (group agent : string) : outcome :=
  with_agent st (λ id secret,
    print_reply (doJSONAgent "POST" (backendURL st +:+ "/v1/connections/request") id secret
      (obj [("target_id", agent); ("from_id", group); ("from_kind", "group")]))).

Definition execute (st : settings) (c : command) : outcome :=
  match c with
  | AccountRegister email password => accountRegisterCmd st email password
  | AccountLogin email password => accountLoginCmd st email password
  | AgentCreate name => agentCreateCmd st name
  | AgentUse id => agentUseCmd st id
  | AgentDelete id => agentDeleteCmd st id
  | AgentRotateSecret id => agentRotateSecretCmd st id
  | Login agent_id secret => loginCmd st agent_id secret
  | Whoami => whoamiCmd st
  | Logout => logoutCmd st
  | Ls target => lsCmd st target
  | Connect target => connectCmd st target
  | Inbox => inboxCmd st
  | Accept id => acceptCmd st id
  | Reject id => rejectCmd st id
  | BlacklistAdd target => blacklistAddCmd st target
  | BlacklistRemove target => blacklistRemoveCmd st target
  | BlacklistList => blacklistListCmd st
  | Info target => infoCmd st target
  | Send target tag content => sendCmd st target tag content
  | Poll conversation limit since_ts since_id => pollCmd st conversation limit since_ts since_id
  | GroupCreate name => groupCreateCmd st name
  | GroupLeave id => groupLeaveCmd st id
  | GroupInvite group agent => groupInviteCmd st group agent
  end.

Lemma splitCSV_clean s x : x ∈ splitCSV s → TrimSpace x = x ∧ x ≠ "" ∧ ∃ p, p ∈ Split s "," ∧ x = TrimSpace p.
Proof.
  unfold splitCSV. rewrite list_elem_of_omap. intros (p & Hp & Hx). cbv zeta in Hx.
  destruct (String.eqb_spec (TrimSpace p) ""); [done|]. injection Hx as <-.
  split; [apply TrimSpace_idem|]. split; [done|]. by exists p.
Qed.

(** ** Lemmas: what a program asks of the server, and writes to the file *)
Fixpoint asks {A} (P : Outgoing → Prop) (Q : settings → Prop) (p : cli A) : Prop :=
  match p with
  | Done _ => True
  | IsTerminal k => ∀ b, asks P Q (k b)
  | ReadPassword _ k => ∀ r, asks P Q (k r)
  | NewID k => ∀ s, asks P Q (k s)
  | Call o k => P o ∧ ∀ r, asks P Q (k r)
  | File op k => match op with WriteConfig st | SafeWriteConfigAs _ st => Q st | _ => True end ∧ ∀ e, asks P Q (k e)
  end.

Lemma asks_bind {A B} P Q (p : cli A) (f : A → cli B) : asks P Q p → (∀ a, asks P Q (f a)) → asks P Q (bind p f).
Proof. intros Hp Hf. induction p as [a|k IH|? k IH|k IH|o k IH|op k IH]; cbn in *; [done|..]; intuition. Qed.

Lemma asks_try {A B} P Q (p : cli (result goerr A)) wrap (f : A → cli (result goerr B)) :
  asks P Q p → (∀ a, asks P Q (f a)) → asks P Q (try p wrap f).
Proof. intros Hp Hf. apply asks_bind; [done|]. by intros [a|e]. Qed.

Lemma asks_print P Q (p : cli (result goerr any)) : asks P Q p → asks P Q (print_reply p).
Proof. intros Hp. by apply asks_try. Qed.

(** The file that is written may be the default one. *)
Definition same_settings (st st' : settings) : Prop :=
  backend_url st' = backend_url st ∧ set_token st' = set_token st ∧
  set_agent_id st' = set_agent_id st ∧ set_api_secret st' = set_api_secret st.

Lemma asks_saveConfig (P : Outgoing → Prop) (Q : settings → Prop) st :
  (∀ st', same_settings st st' → Q st') → asks P Q (saveConfig st).
Proof.
  intros HQ. unfold saveConfig. cbv zeta. set (st' := if String.eqb _ _ then _ else _).
  assert (Q st') as HQ' by (apply HQ; unfold st'; by destruct (String.eqb _ _)).
  split; [done|]. intros [e|]; [done|]. split; [done|]. by intros [e|].
Qed.

Lemma asks_secret P Q missing given prompt flag empty next :
  (∀ s, (missing given = false → s = given) → missing s = false → asks P Q (next s)) →
  asks P Q (secret_or_prompt missing given prompt flag empty next).
Proof.
  intros Hn. unfold secret_or_prompt. cbv zeta. destruct (missing given) eqn:Hm; [|by apply Hn].
  apply asks_try; [by intros []|]. intros s. destruct (missing s) eqn:Hs; [done|]. by apply Hn.
Qed.

Lemma asks_token P Q st next : (token st ≠ "" → asks P Q (next (token st))) → asks P Q (with_token st next).
Proof. intros Hn. unfold with_token, is_empty. destruct (String.eqb_spec (token st) ""); [done|by apply Hn]. Qed.

Lemma asks_agent P Q st next : (agentID st ≠ "" → apiSecret st ≠ "" → asks P Q (next (agentID st) (apiSecret st))) →
  asks P Q (with_agent st next).
Proof.
  intros Hn. unfold with_agent, is_empty. destruct (String.eqb_spec (agentID st) ""); [done|].
  destruct (String.eqb_spec (apiSecret st) ""); [done|by apply Hn].
Qed.

Lemma asks_exchange (P : Outgoing → Prop) Q method url headers body payload :
  marshal body = Some payload →
  P (MkOutgoing method url (("Content-Type", "application/json") :: headers) payload (15 * Second)) →
  asks P Q (exchange method url headers body).
Proof. intros Hb HP. unfold exchange. rewrite Hb. by destruct (http_NewRequest _ _). Qed.

(** ** Lemmas: bodies of strings *)
Definition strings (l : list (string * string)) : json := JObj (map (λ kv, (kv.1, JStr kv.2)) l).

Lemma strings_fit l : fits maxNestingDepth (strings l).
Proof. apply (fits_obj 9999); [done|]. induction l; constructor; [done|]. apply IHl. Qed.

Lemma readJSON_strings {A} (fields : list (@field A)) zero l : Forall (λ kv, to_valid kv.1 = kv.1) l →
  readJSON fields zero (Ok (print (strings l))) =
  match decode_members true fields (map (λ kv, (kv.1, JStr (to_valid kv.2))) l) zero with
  | Some req => Ok req
  | None => Err (ExternalError "json")
  end.
Proof.
  intros Hl. rewrite <-(string_app_nil_r (print (strings l))). unfold strings.
  rewrite readJSON_object by apply strings_fit. rewrite map_map.
  assert (map (λ kv, scrub_member (kv.1, JStr kv.2)) l = map (λ kv, (kv.1, JStr (to_valid kv.2))) l) as ->; [|done].
  induction Hl as [|kv l Hk _ IH]; [done|]. cbn [map]. rewrite IH. unfold scrub_member. cbn [fst snd scrub]. by rewrite Hk.
Qed.

Lemma obj_0 : marshal (obj []) = Some (print (strings [])).
Proof. reflexivity. Qed.
Lemma obj_1 k v : marshal (obj [(k, v)]) = Some (print (strings [(k, v)])).
Proof.
  unfold marshal, Marshal. cbn [list_to_map foldr fst snd fmap list_fmap prod_map obj]. rewrite insert_empty.
  cbn [tree_of]. rewrite map_fmap_singleton. unfold by_key. by rewrite map_to_list_singleton.
Qed.
Lemma obj_credentials e p :
  marshal (obj [("email", e); ("password", p)]) = Some (print (strings [("email", e); ("password", p)])).
Proof. unfold marshal, Marshal. f_equal. Qed.
Lemma obj_leave p k :
  marshal (obj [("participant_id", p); ("participant_kind", k)]) =
  Some (print (strings [("participant_id", p); ("participant_kind", k)])).
Proof. unfold marshal, Marshal. f_equal. Qed.
Lemma obj_send t g c :
  marshal (obj [("to", t); ("tag", g); ("content", c)]) =
  Some (print (strings [("content", c); ("tag", g); ("to", t)])).
Proof. unfold marshal, Marshal. f_equal. Qed.
Lemma obj_invite t f k :
  marshal (obj [("target_id", t); ("from_id", f); ("from_kind", k)]) =
  Some (print (strings [("from_id", f); ("from_kind", k); ("target_id", t)])).
Proof. unfold marshal, Marshal. f_equal. Qed.

(** ** Properties *)
Section Properties.
Context {U : UuidPkg} {C : Citext} {E : World.Env} {UT : UnicodeTables}.

(** The routes a command is meant for, with what the server makes of its
    arguments; a prompt takes the place of a secret that was not given, a
    fresh identifier that of a name. *)
Definition meant (c : command) (rt : route) : Prop :=
  match c with
  | AccountRegister email password => ∃ pw, (password ≠ "" → pw = password) ∧
      rt = POST_auth_register (Ok (MkCredentialsReq (to_valid email) (to_valid pw)))
  | AccountLogin email password => ∃ pw, (password ≠ "" → pw = password) ∧
      rt = POST_auth_login (Ok (MkCredentialsReq (to_valid email) (to_valid pw)))
  | AgentCreate name => ∃ n, (TrimSpace name ≠ "" → n = name) ∧ rt = POST_agents (Ok (to_valid n))
  | AgentUse id => rt = GET_info id ∨ rt = POST_agents_rotate_secret id
  | AgentDelete id => rt = DELETE_agents id
  | AgentRotateSecret id => rt = POST_agents_rotate_secret id
  | Login _ _ | Logout => False
  | Whoami => ∃ id, rt = GET_info id
  | Ls _ => rt = GET_conversations
  | Connect target => rt = POST_connections_request (Ok (MkConnectReq (to_valid target) "" ""))
  | Inbox => rt = GET_connections_inbox
  | Accept id => rt = POST_connections_accept id
  | Reject id => rt = POST_connections_reject id
  | BlacklistAdd target => rt = POST_blacklist (Ok (to_valid target))
  | BlacklistRemove target => rt = DELETE_blacklist target
  | BlacklistList => rt = GET_blacklist
  | Info target => rt = GET_info target
  | Send target tag content =>
      rt = POST_messages_send (Ok (MkSendReq (to_valid target) (to_valid tag) (to_valid content) None))
  | Poll _ _ _ _ => rt = GET_messages_poll
  | GroupCreate name => rt = POST_groups (Ok (to_valid name))
  | GroupLeave id => rt = POST_groups_leave id (Ok (MkLeaveReq "" "user"))
  | GroupInvite group agent =>
      rt = POST_connections_request (Ok (MkConnectReq (to_valid agent) (to_valid group) "group"))
  end.

(** A value that is one segment of a path as it stands: not empty, no dots,
    nothing that ends a segment or the path or is an escape. *)
Definition plain_value (v : string) : Prop :=
  Mux.plain_segment v = true ∧ no_byte "/" v ∧ no_byte "?" v ∧ no_byte "#" v.

(** A request reaches a route: it goes to the path the route is registered
    under, where the multiplexer hands it to the handler of the route if the
    value in the path is a plain one; its body is what the handler reads, and
    its headers carry credentials of a kind the route admits, when it is
    protected. *)
Definition reaches (st : settings) (o : Outgoing) (rt : route) : Prop :=
  (∃ ep path query, with_raw ep (Ok (o_Body o)) = rt ∧ route_pattern rt = (o_Method o, path) ∧
     o_URL o = backendURL st +:+ path +:+ query ∧ (query = "" ∨ HasPrefix query "?" = true) ∧
     (plain_value (Mux.path_value ep) → ∃ values, Mux.handler_of (o_Method o) path = Mux.Handler (Mux.Api ep) values)) ∧
  match access rt with
  | None => True
  | Some (allowJWT, allowAgentSecret) =>
      (allowJWT = true ∧ token st ≠ "" ∧ bearerToken (header o "Authorization") = token st) ∨
      (allowAgentSecret = true ∧ agentID st ≠ "" ∧ apiSecret st ≠ "" ∧
       header o "X-Agent-ID" = agentID st ∧ header o "X-API-Secret" = apiSecret st)
  end.

Definition fits_server (st : settings) (c : command) (o : Outgoing) : Prop := ∃ rt, meant c rt ∧ reaches st o rt.

(** What a command may write: the address of the server never changes, and
    the credentials of one kind only, except for [logout], which clears both. *)
Definition writes (st : settings) (c : command) (st' : settings) : Prop :=
  backend_url st' = backend_url st ∧
  match c with
  | AccountLogin _ _ =>
      set_token st' ≠ "" ∧ set_agent_id st' = set_agent_id st ∧ set_api_secret st' = set_api_secret st
  | AgentUse id => set_token st' = set_token st ∧ set_agent_id st' = id ∧ set_api_secret st' ≠ ""
  | Login id secret =>
      set_token st' = set_token st ∧ set_agent_id st' = id ∧ TrimSpace id ≠ "" ∧ TrimSpace (set_api_secret st') ≠ "" ∧
      (TrimSpace secret ≠ "" → set_api_secret st' = secret)
  | Logout => set_token st' = "" ∧ set_agent_id st' = "" ∧ set_api_secret st' = ""
  | _ => False
  end.

Lemma writes_same st c st1 st2 : same_settings st1 st2 → writes st c st1 → writes st c st2.
Proof. intros (E1 & E2 & E3 & E4). unfold writes. by rewrite E1, E2, E3, E4. Qed.

Lemma asks_save st c st1 next :
  writes st c st1 → asks (fits_server st c) (writes st c) next → asks (fits_server st c) (writes st c) (save st1 next).
Proof.
  intros Hw Hn. apply asks_bind; [|by intros []]. apply asks_saveConfig. intros st2 Hs. by apply (writes_same _ _ st1).
Qed.

Lemma token_header st : token st ≠ "" → bearerToken ("Bearer " +:+ token st) = token st.
Proof. intros Ht. apply bearerToken_bearer; [apply TrimSpace_idem|done]. Qed.

Lemma pattern_of_raw ep raw : route_pattern (with_raw ep raw) = route_pattern (with_raw ep (Ok "")).
Proof. by destruct ep. Qed.

(** The request of a command, with a token, with an agent's secret, without
    credentials. *)
Lemma asks_reaching c st method url headers path query body payload ep rt :
  marshal body = Some payload →
  with_raw ep (Ok payload) = rt → (Mux.value_ok (Mux.path_value ep) → Mux.registered ep) →
  route_pattern rt = (method, path) →
  url = backendURL st +:+ path +:+ query → query = "" ∨ HasPrefix query "?" = true → meant c rt →
  match access rt with
  | None => True
  | Some (allowJWT, allowAgentSecret) =>
      (allowJWT = true ∧ token st ≠ "" ∧ headers = [("Authorization", "Bearer " +:+ token st)]) ∨
      (allowAgentSecret = true ∧ agentID st ≠ "" ∧ apiSecret st ≠ "" ∧
       headers = [("X-Agent-ID", agentID st); ("X-API-Secret", apiSecret st)])
  end →
  asks (fits_server st c) (writes st c) (exchange method url headers body).
Proof.
  intros Hb Hep Hreg Hpat Hurl Hq Hm Hacc. eapply asks_exchange; [exact Hb|]. exists rt. split; [done|]. split.
  { exists ep, path, query. split_and!; try done. intros (Hs & Hv & _). apply Mux.handler_of_plain; [|done|].
    - apply Hreg. split; [|done]. intros Hne. by rewrite Hne in Hs.
    - rewrite <-Hep in Hpat. by rewrite (pattern_of_raw ep (Ok payload)) in Hpat. }
  destruct (access rt) as [[j s]|]; [|done]. destruct Hacc as [(-> & Ht & ->)|(-> & Ha & Hs & ->)].
  - left. split; [done|]. split; [done|]. by apply token_header.
  - by right.
Qed.

Lemma doJSON_token st method url body : token st ≠ "" →
  doJSON method url (token st) body = exchange method url [("Authorization", "Bearer " +:+ token st)] body.
Proof. intros Ht. unfold doJSON. by rewrite (proj2 (String.eqb_neq _ _)). Qed.

Lemma read_credentials_strings e p :
  read_credentials (Ok (print (strings [("email", e); ("password", p)]))) =
  Ok (MkCredentialsReq (to_valid e) (to_valid p)).
Proof. unfold read_credentials. rewrite readJSON_strings by (repeat constructor). reflexivity. Qed.
Lemma read_one_strings name v : to_valid name = name →
  read_one name (Ok (print (strings [(name, v)]))) = Ok (to_valid v).
Proof.
  intros Hn. unfold read_one. rewrite readJSON_strings by (by repeat constructor). cbn [map decode_members fst snd].
  unfold find_field, one_field. cbn [List.find fst snd]. by rewrite String.eqb_refl.
Qed.
Lemma read_send_strings t g c :
  read_send (Ok (print (strings [("content", c); ("tag", g); ("to", t)]))) =
  Ok (MkSendReq (to_valid t) (to_valid g) (to_valid c) None).
Proof. unfold read_send. rewrite readJSON_strings by (repeat constructor). reflexivity. Qed.
Lemma read_connect_strings t :
  read_connect (Ok (print (strings [("target_id", t)]))) = Ok (MkConnectReq (to_valid t) "" "").
Proof. unfold read_connect. rewrite readJSON_strings by (repeat constructor). reflexivity. Qed.
Lemma read_invite_strings t f :
  read_connect (Ok (print (strings [("from_id", f); ("from_kind", "group"); ("target_id", t)]))) =
  Ok (MkConnectReq (to_valid t) (to_valid f) "group").
Proof. unfold read_connect. rewrite readJSON_strings by (repeat constructor). reflexivity. Qed.
Lemma read_leave_strings :
  read_leave (Ok (print (strings [("participant_id", ""); ("participant_kind", "user")]))) = Ok (MkLeaveReq "" "user").
Proof. unfold read_leave. rewrite readJSON_strings by (repeat constructor). reflexivity. Qed.

(** Show that a request reaches the route, given the endpoint and the query;
    what is meant and the credentials are left. *)
Ltac marshals :=
  lazymatch goal with
  | |- marshal None = _ => reflexivity
  | |- marshal (obj nil) = _ => apply obj_0
  | |- marshal (obj [_]) = _ => apply obj_1
  | |- marshal (obj [("email", _); _]) = _ => apply obj_credentials
  | |- marshal (obj [_; _]) = _ => apply obj_leave
  | |- marshal (obj [("to", _); _; _]) = _ => apply obj_send
  | |- _ => apply obj_invite
  end.
Ltac reads :=
  lazymatch goal with
  | |- with_raw (Bodyless _) _ = _ => reflexivity
  | _ =>
      cbn [with_raw]; f_equal;
      lazymatch goal with
      | |- read_credentials _ = _ => apply read_credentials_strings
      | |- read_one _ _ = _ => by apply read_one_strings
      | |- read_send _ = _ => apply read_send_strings
      | |- read_leave _ = _ => apply read_leave_strings
      | |- read_connect (Ok (print (strings [_]))) = _ => apply read_connect_strings
      | _ => apply read_invite_strings
      end
  end.
Ltac reach ep rt q :=
  eapply (asks_reaching _ _ _ _ _ _ q _ _ ep rt);
    [ marshals | reads | done | reflexivity | first [reflexivity | by rewrite ?string_app_nil_r]
    | first [by auto | right; by apply HasPrefix_app] | try done | cbn [access]].
Ltac by_token ep rt q :=
  apply asks_token; intros Ht; first [apply asks_print | idtac]; rewrite doJSON_token by done; reach ep rt q; by auto.
Ltac by_agent ep rt :=
  apply asks_agent; intros Ha Hs; apply asks_print; unfold doJSONAgent; reach ep rt ""; by auto.

Lemma asks_AgentUse st id :
  asks (fits_server st (AgentUse id)) (writes st (AgentUse id)) (agentUseCmd st id).
Proof.
  unfold agentUseCmd. apply asks_token. intros Ht. rewrite !doJSON_token by done. apply asks_try.
  - reach (Bodyless (GET_info id)) (GET_info id) ""; [by left|by auto].
  - intros info. apply asks_try.
    + reach (Bodyless (POST_agents_rotate_secret id)) (POST_agents_rotate_secret id) ""; [by right|by auto].
    + intros resp. destruct (member resp "api_secret") as [| | | |s| | |]; try done. unfold is_empty.
      destruct (String.eqb_spec s ""); [done|]. apply asks_save; [|done]. by split_and!.
Qed.

Lemma asks_login c st email password :
  c = AccountLogin email password →
  asks (fits_server st c) (writes st c) (accountLoginCmd st email password).
Proof.
  intros ->. unfold accountLoginCmd. destruct (is_empty email); [done|]. apply asks_secret. intros pw Hpw _.
  unfold is_empty in Hpw. rewrite String.eqb_neq in Hpw. apply asks_try.
  - unfold doJSON. reach AuthLogin (POST_auth_login (Ok (MkCredentialsReq (to_valid email) (to_valid pw)))) "".
    + by exists pw.
    + done.
  - intros []; try done. destruct (_ !! "access_token") as [[| | | |tok| | |]|]; try done. unfold is_empty.
    destruct (String.eqb_spec tok ""); [done|]. apply asks_save; [|done]. by split_and!.
Qed.

Lemma asks_AgentCreate st name :
  asks (fits_server st (AgentCreate name)) (writes st (AgentCreate name)) (agentCreateCmd st name).
Proof.
  unfold agentCreateCmd. apply asks_token. intros Ht.
  assert (∀ n, (TrimSpace name ≠ "" → n = name) →
    asks (fits_server st (AgentCreate name)) (writes st (AgentCreate name))
      (print_reply (doJSON "POST" (backendURL st +:+ "/v1/agents") (token st) (obj [("display_name", n)])))) as Hn.
  { intros n Hn. apply asks_print. rewrite doJSON_token by done.
    reach Agents (POST_agents (Ok (to_valid n))) ""; [by exists n|by auto]. }
  unfold is_blank. destruct (String.eqb_spec (TrimSpace name) ""); [|by apply Hn].
  cbn [asks]. intros n. apply (Hn n). intros Hne. by destruct Hne.
Qed.

(** A poll adds its options to the query one after the other. *)
Definition polls (base s : string) : Prop := ∃ q, s = base +:+ ("/v1/messages/poll?" +:+ q).

Lemma polls_app base s t : polls base s → polls base (s +:+ t).
Proof. intros [q ->]. exists (q +:+ t). by rewrite <- !string_app_assoc. Qed.

Lemma polls_if base (b : bool) s t : polls base s → polls base (if b then s +:+ t else s).
Proof. intros Hs. destruct b; [by apply polls_app|done]. Qed.

Lemma asks_Poll st conv limit ts id :
  asks (fits_server st (Poll conv limit ts id)) (writes st (Poll conv limit ts id)) (pollCmd st conv limit ts id).
Proof.
  unfold pollCmd. apply asks_token. intros Ht. cbv zeta. apply asks_print. rewrite doJSON_token by done.
  assert (polls (backendURL st) (backendURL st +:+ "/v1/messages/poll?conversation_id=" +:+ conv)) as Hp.
  { by exists ("conversation_id=" +:+ conv). }
  match goal with |- asks _ _ (exchange _ ?url _ _) => assert (polls (backendURL st) url) as [q ->] by
    (by repeat apply polls_if) end.
  reach (Bodyless GET_messages_poll) GET_messages_poll ("?" +:+ q). by auto.
Qed.

(** C31 Every command of the command line fits the server: whatever the settings,
    the answers at the prompts and the replies of the server, each request a
    command makes has the method and the path of a route the command is meant
    for (where the multiplexer hands it to the handler of the route, if the
    value in the path is a plain one), a body that the handler of the route reads as the arguments of the
    command, and credentials of a kind the route admits; and what a command
    writes to the configuration file is what [writes] states of it. *)
Theorem execute_conforms st c : asks (fits_server st c) (writes st c) (execute st c).
Proof.
  destruct c; cbn [execute].
  - unfold accountRegisterCmd. destruct (is_empty email); [done|]. apply asks_secret. intros pw Hpw _. apply asks_print.
    unfold is_empty in Hpw. rewrite String.eqb_neq in Hpw.
    unfold doJSON. reach AuthRegister (POST_auth_register (Ok (MkCredentialsReq (to_valid email) (to_valid pw)))) "".
    + by exists pw.
    + done.
  - by apply asks_login.
  - apply asks_AgentCreate.
  - apply asks_AgentUse.
  - by_token (Bodyless (DELETE_agents id)) (DELETE_agents id) "".
  - by_token (Bodyless (POST_agents_rotate_secret id)) (POST_agents_rotate_secret id) "".
  - unfold loginCmd, is_blank. destruct (String.eqb_spec (TrimSpace agent_id) ""); [done|]. apply asks_secret.
    intros s Hs Hne. rewrite String.eqb_neq in Hs, Hne. apply asks_save; [|done]. by split_and!.
  - unfold whoamiCmd, is_empty. destruct (String.eqb_spec (agentID st) ""); [done|].
    destruct (String.eqb_spec (apiSecret st) ""); [done|]. apply asks_print. unfold doJSONAgent.
    reach (Bodyless (GET_info (agentID st))) (GET_info (agentID st)) ""; [by eexists|by auto].
  - unfold logoutCmd. apply asks_bind; [|by intros []]. apply asks_saveConfig.
    intros st' Hs. by apply (writes_same _ _ _ _ Hs).
  - unfold lsCmd. destruct target as [target|]; [|by_token (Bodyless GET_conversations) GET_conversations ""].
    destruct (String.eqb target "dms"); [by_token (Bodyless GET_conversations) GET_conversations "?type=direct"|].
    destruct (String.eqb target "groups"); [by_token (Bodyless GET_conversations) GET_conversations "?type=group"|].
    by apply asks_token.
  - by_agent ConnectionsRequest (POST_connections_request (Ok (MkConnectReq (to_valid target) "" ""))).
  - by_agent (Bodyless GET_connections_inbox) GET_connections_inbox.
  - by_agent (Bodyless (POST_connections_accept id)) (POST_connections_accept id).
  - by_agent (Bodyless (POST_connections_reject id)) (POST_connections_reject id).
  - by_agent Blacklist (POST_blacklist (Ok (to_valid target))).
  - by_agent (Bodyless (DELETE_blacklist target)) (DELETE_blacklist target).
  - by_agent (Bodyless GET_blacklist) GET_blacklist.
  - by_token (Bodyless (GET_info target)) (GET_info target) "".
  - unfold sendCmd. destruct (is_empty tag || is_empty content); [by apply asks_agent|].
    by_agent MessagesSend (POST_messages_send (Ok (MkSendReq (to_valid target) (to_valid tag) (to_valid content) None))).
  - apply asks_Poll.
  - unfold groupCreateCmd. destruct (is_blank name); [by apply asks_token|].
    by_token Groups (POST_groups (Ok (to_valid name))) "".
  - by_token (GroupsLeave id) (POST_groups_leave id (Ok (MkLeaveReq "" "user"))) "".
  - by_agent ConnectionsRequest (POST_connections_request (Ok (MkConnectReq (to_valid agent) (to_valid group) "group"))).
Qed.
End Properties.
End Cli.
End Cli.
