(* ===== verification/Replies.v ===== *)
(** * What the clients make of the responses

    The command line and the client library read the bodies the server writes:
    the theorems compose [Handlers] and [Responses] with [Cli] and [Sdk]. *)

From S2P Require Import Prelude.
From S2P Require Import GoStrings.
From S2P Require Import GoTime.
From S2P Require Import GoValue.
From S2P Require Import Uuid.
From S2P Require Import Models.
From S2P Require Import Schema.
From S2P Require Import World.
From S2P Require Import JsonString.
From S2P Require Import Json.
From S2P Require Import FloatText.
From S2P Require Import JsonValue.
From S2P Require Import Auth.
From S2P Require Import AdapterBase.
From S2P Require Import Server.
From S2P Require Import Handlers.
From S2P Require Import Bodies.
From S2P Require Import Responses.
From S2P Require Import HttpClient.
From S2P Require Import Sdk.
From S2P Require Import Cli.

Open Scope string_scope.
Open Scope Z_scope.

(** The numbers of a text are in the range of [float64]. *)
Fixpoint in_range (t : json) : bool :=
  match t with
  | JNum lit => bool_decide (is_Some (ParseFloat lit))
  | JArr l => forallb in_range l
  | JObj l => forallb (λ kv, in_range kv.2) l
  | _ => true
  end.

Lemma in_range_reads t : in_range t = true → is_Some (of_json (scrub t)).
Proof.
  induction t as [| | | |l IH|l IH] using json_nested_ind; cbn [in_range scrub of_json]; try done.
  - intros Ht. apply bool_decide_eq_true in Ht as [f ->]. by eexists.
  - intros Ht. assert (is_Some (mapM of_json (map scrub l))) as [x ->]; [|by eexists].
    apply mapM_is_Some. induction IH as [|t l Ht' _ IH]; [by constructor|]. cbn in *.
    apply andb_true_iff in Ht as [H1 H2]. constructor; [by apply Ht'|by apply IH].
  - intros Ht.
    assert (is_Some (mapM (λ kv : string * json, v ← of_json kv.2; Some (kv.1, v)) (map scrub_member l))) as [x Hx].
    { apply mapM_is_Some. induction IH as [|[k t] l Ht' _ IH]; [by constructor|]. cbn in *.
      apply andb_true_iff in Ht as [H1 H2]. constructor; [|by apply IH]. cbn.
      destruct (Ht' H1) as [v ->]. by eexists. }
    unfold scrub_member in Hx. rewrite Hx. by eexists.
Qed.

(** ** Lemmas: objects *)
Lemma read_members l : forallb (λ kv, in_range kv.2) l = true → Forall (λ kv, to_valid kv.1 = kv.1) l →
  ∃ l', mapM (λ kv : string * json, v ← of_json kv.2; Some (kv.1, v)) (map scrub_member l) = Some l' ∧
    l'.*1 = l.*1 ∧ ∀ k t, (k, t) ∈ l → ∃ v, of_json (scrub t) = Some v ∧ (k, v) ∈ l'.
Proof.
  intros Hr Hk. induction Hk as [|[k t] l Hk _ IH]; [exists []; split_and!; try done; by intros ? ? ?%elem_of_nil|].
  cbn [forallb fst snd] in *. apply andb_true_iff in Hr as [Ht Hr]. destruct (IH Hr) as (l' & Hl' & Hf & Hin).
  destruct (in_range_reads _ Ht) as [v Hv]. exists ((k, v) :: l'). cbn. rewrite Hk, Hv. cbn. rewrite Hl'. cbn. split_and!; [done|by rewrite Hf|].
  intros k' t' [[= -> ->]|Hi]%elem_of_cons; [exists v; split; [done|left]|].
  destruct (Hin _ _ Hi) as (v' & ? & ?). exists v'. split; [done|by right].
Qed.

(** An object with distinct names is read as the map of its members. *)
Lemma read_object l : in_range (JObj l) = true → Forall (λ kv, to_valid kv.1 = kv.1) l → NoDup l.*1 →
  ∃ m, of_json (scrub (JObj l)) = Some (AMap m) ∧ (∀ k t, (k, t) ∈ l → m !! k = of_json (scrub t)) ∧
    ∀ k, k ∉ l.*1 → m !! k = None.
Proof.
  intros Hr Hk Hnd. destruct (read_members l Hr Hk) as (l' & Hl' & Hf & Hin). exists (list_to_map l').
  rewrite scrub_obj. cbn [of_json]. rewrite Hl'. cbn. rewrite of_members_nodup by (by rewrite Hf).
  split; [done|]. split.
  - intros k t Hkt. destruct (Hin k t Hkt) as (v & -> & Hv). apply elem_of_list_to_map; [by rewrite Hf|done].
  - intros k Hn. apply not_elem_of_list_to_map. by rewrite Hf.
Qed.

Section Replies.
Context {U : UuidPkg} {C : Citext} {E : Env} {UT : UnicodeTables} {Zo : Zone} {ET : ErrorTexts}.

(** The members of a response as they are written. *)
Lemma rval_members fields l : mapM (λ kv : string * rval, t ← rval_tree kv.2; Some (kv.1, t)) fields = Some l →
  l.*1 = fields.*1 ∧ ∀ k v, (k, v) ∈ fields → ∃ t, rval_tree v = Some t ∧ (k, t) ∈ l.
Proof.
  revert l. induction fields as [|[k v] fields IH]; intros l; cbn.
  - intros [= <-]. split; [done|]. by intros k v ?%elem_of_nil.
  - destruct (rval_tree v) as [t|] eqn:Hv; [|done]. cbn. destruct (mapM _ fields) as [l'|]; [|done]. cbn. intros [= <-].
    destruct (IH l' eq_refl) as [Hf Hin]. cbn. rewrite Hf. split; [done|].
    intros k' v' [[= -> ->]|Hi]%elem_of_cons; [exists t; split; [done|left]|].
    destruct (Hin _ _ Hi) as (t' & ? & ?). exists t'. split; [done|by right].
Qed.

Lemma in_range_perm l l' : l ≡ₚ l' → in_range (JObj l) = in_range (JObj l').
Proof.
  intros Hp. cbn [in_range]. apply eq_true_iff_eq. rewrite !forallb_forall.
  split; intros Hf x Hx; apply Hf; apply list_elem_of_In; apply list_elem_of_In in Hx; [by rewrite Hp|by rewrite <-Hp].
Qed.

(** A body that can be read: it nests no deeper than the decoder goes, and its
    numbers are in the range of [float64]. *)
Definition legible (t : json) : Prop := fits maxNestingDepth t ∧ in_range t = true.

(** An object is read as the map of what its members are read as. *)
Lemma read_object_body fields t : plain_members fields = true → rval_tree (RObj fields) = Some t → legible t →
  ∃ m, first_value (print t +:+ String "010" "") ≫= Cli.read_map = Some (Some m) ∧ m !! "error" = None ∧
    ∀ k v, (k, v) ∈ fields → ∃ t', rval_tree v = Some t' ∧ m !! k = of_json (scrub t').
Proof.
  intros Hp Ht [Hfit Hr]. cbn [rval_tree] in Ht. destruct (mapM _ fields) as [l|] eqn:Hl; [|done].
  injection Ht as <-. destruct (rval_members _ _ Hl) as [Hf Hin]. set (l' := merge_sort key_le l) in *.
  assert (l' ≡ₚ l) as Hperm by apply merge_sort_Permutation.
  unfold plain_members in Hp. apply andb_true_iff in Hp as [Hk Hnd]. apply bool_decide_eq_true in Hnd.
  rewrite forallb_forall in Hk.
  assert (∀ k, k ∈ l'.*1 → to_valid k = k ∧ k ≠ "error") as Hkeys.
  { intros k Hkin. rewrite Hperm, Hf in Hkin. apply list_elem_of_fmap in Hkin as ([k' v] & -> & Hi).
    apply list_elem_of_In, Hk, andb_true_iff in Hi as [Hv He]. cbn in *. split; [by apply valid_utf8_eq|].
    by apply negb_true_iff, String.eqb_neq in He. }
  destruct (read_object l') as (m & Hm & Hget & Hno); [done| |by rewrite Hperm, Hf|].
  { apply Forall_forall. intros kv Hkv. apply Hkeys, list_elem_of_fmap. by exists kv. }
  exists m. rewrite first_value_object by done. cbn [mbind option_bind Cli.read_map scrub].
  change (JObj (map _ l')) with (scrub (JObj l')). rewrite Hm. split; [done|]. split.
  - apply Hno. intros Hi. by apply Hkeys in Hi as [_ ?].
  - intros k v Hkv. destruct (Hin _ _ Hkv) as (t & Hv & Ht). exists t. split; [done|]. apply Hget. by rewrite Hperm.
Qed.

(** What a group is read as. *)
Lemma read_group_body g t : rval_tree (RGroup g) = Some t → legible t →
  ∃ m, first_value (print t +:+ String "010" "") ≫= Cli.read_map = Some (Some m) ∧ m !! "error" = None ∧
    m !! "id" = Some (AString (to_valid (uuid_String (group_ID g)))) ∧
    m !! "name" = Some (AString (to_valid (group_Name g))).
Proof.
  cbn [rval_tree]. unfold group_tree. destruct (row_time (group_CreatedAt g)) as [c|]; [|done]. cbn. intros [= <-] [Hfit Hr].
  set (l := (_ :: _)) in *.
  assert (l.*1 = "id" :: "name" :: "owner_id" ::
    match group_ConversationID g with Some _ => ["conversation_id"; "created_at"] | None => ["created_at"] end) as Hl
    by (unfold l; by destruct (group_ConversationID g)).
  destruct (read_object l) as (m & Hm & Hget & Hno); [done| | |].
  { unfold l. by destruct (group_ConversationID g); repeat constructor. }
  { rewrite Hl. destruct (group_ConversationID g); apply (bool_decide_unpack _); reflexivity. }
  exists m. rewrite first_value_object by done. cbn [mbind option_bind Cli.read_map scrub].
  change (JObj (map _ l)) with (scrub (JObj l)). rewrite Hm. split_and!; [done| | |].
  - apply Hno. rewrite Hl. destruct (group_ConversationID g); apply (bool_decide_unpack _); reflexivity.
  - rewrite (Hget "id" (JUuid (group_ID g))) by (by left). done.
  - rewrite (Hget "name" (JStr (group_Name g))) by (right; by left). done.
Qed.

(** The text of an error. *)
Definition error_text (v : rval) : string :=
  match v with RStr s => s | RErr e => Error e | _ => "" end.

Lemma read_error_body v t : is_text v → rval_tree (RObj [("error", v)]) = Some t →
  first_value (print t +:+ String "010" "") ≫= Cli.read_map =
  Some (Some {[ "error" := AString (to_valid (error_text v)) ]}).
Proof.
  intros Hv Ht. assert (t = JObj [("error", JStr (error_text v))]) as ->.
  { destruct v; try done; cbn in Ht; by injection Ht as <-. }
  rewrite first_value_object; [reflexivity|]. apply (fits_obj 9999); [done|]. repeat constructor; by apply fits_str.
Qed.

Section Routes.
Context {B : Bcrypt} {A2 : Argon2} {J : Jwt}.

(** C23 The command line understands every response of the server: whatever the
    route, the request and the state of the server, of a body that can be read
    the client makes the error the handler named, exactly when the status is
    one, and else the map with what the handler said under each name. *)
Theorem reply_understood a rt r w t :
  let resp := (run (registerRoutes a rt r) w).1 in
  rval_tree (body resp) = Some t → legible t →
  let reply := Cli.read_reply (status resp) (Ok (response_body resp)) in
  if 400 <=? status resp then
    ∃ v, body resp = RObj [("error", v)] ∧ reply = Err (NewError (to_valid (error_text v)))
  else
    ∃ m, reply = Ok (AMap m) ∧
      ∀ fields, body resp = RObj fields → ∀ k v, (k, v) ∈ fields →
        ∃ t', rval_tree v = Some t' ∧ m !! k = of_json (scrub t').
Proof.
  cbv zeta. pose proof (yields_run _ _ w (yields_routes a rt r)) as Hs. set (resp := (run _ w).1) in *.
  intros Ht Hleg. unfold response_body, Cli.read_reply. rewrite Ht. unfold shaped in Hs.
  destruct (body resp) as [| | | | | | | |g| | | | | | | |fields] eqn:Hb; try done.
  - destruct (read_group_body g t Ht Hleg) as (m & -> & He & _). rewrite (proj2 (Z.leb_gt _ _)) by done.
    exists m. by split.
  - destruct (400 <=? status resp).
    + destruct Hs as (v & -> & Hv). exists v. rewrite (read_error_body v t Hv Ht). done.
    + destruct (read_object_body fields t Hs Ht Hleg) as (m & -> & _ & Hm). exists m. split; [done|].
      intros fields' [= <-]. apply Hm.
Qed.

(** ** The client library *)
Lemma parse_line l : fits maxNestingDepth (JObj l) → parse (print (JObj l) +:+ String "010" "") = Some (scrub (JObj l)).
Proof.
  intros [Hn Hd]. unfold parse, parse_fuel. rewrite skip_ws_print by done. rewrite object_reads_back; [done| |done|lia|].
  - apply Forall_forall. intros. apply print_reads_back.
  - unfold enough. rewrite len_app. lia.
Qed.

(** What the library makes of an agent the server lists. *)
Definition profile_of (a : Agent) : Sdk.AgentProfile :=
  Sdk.MkProfile (to_valid (uuid_String (agent_ID a))) (to_valid (agent_DisplayName a)) "" 0.

Lemma read_profile_tree a t : agent_tree a = Some t → Sdk.read_profile (scrub t) Sdk.zero_profile = Some (profile_of a).
Proof. unfold agent_tree. destruct (row_time _) as [c|]; [|done]. cbn. intros [= <-]. reflexivity. Qed.

Lemma read_profiles_tree l ts : mapM agent_tree l = Some ts →
  read_elements Sdk.zero_profile Sdk.read_profile (map scrub ts) [] = Some (profile_of <$> l).
Proof.
  revert ts. induction l as [|a l IH]; intros ts; [by intros [= <-]|].
  change (mapM agent_tree (a :: l)) with (t ← agent_tree a; ts ← mapM agent_tree l; Some (t :: ts)).
  destruct (agent_tree a) as [t|] eqn:Ha; [|done]. cbn [mbind option_bind].
  destruct (mapM agent_tree l) as [ts'|] eqn:Hm; [|done]. cbn [mbind option_bind]. intros Hts. injection Hts as <-.
  cbn [map read_elements hd tl]. rewrite (read_profile_tree _ _ Ha). cbn [mbind option_bind]. by rewrite (IH ts' eq_refl).
Qed.

Definition agents_listed (resp : Response) : Prop :=
  status resp = StatusOK → ∃ l, body resp = RObj [("agents", RAgents l)].

Lemma agents_listed_error code v : code ≠ StatusOK → agents_listed (writeError code v).
Proof. intros Hc Ho. by destruct Hc. Qed.

Lemma discover_listed a b r : yields agents_listed (registerRoutes a (POST_registry_discover b) r).
Proof.
  cbn [registerRoutes]. apply yields_bind. intros [ctx|e]; [|by apply agents_listed_error].
  unfold handleDiscover, with_body. destruct b as [req|e]; [|by apply agents_listed_error].
  apply yields_bind. intros [l|e]; [|by apply agents_listed_error]. intros _. by exists l.
Qed.

(** C24 A discovery query that the server answers with success gives the caller of
    the library the agents of the response, in their order, each with its
    identifier and its name; the status and the latency the library knows
    about are never set. *)
Theorem Discover_reads `{Net} {S : Type} (c : Sdk.Client S) q o a b r w t :
  Sdk.Discover_request c q = Ok o →
  let resp := (run (registerRoutes a (POST_registry_discover b) r) w).1 in
  status resp = StatusOK → rval_tree (body resp) = Some t → legible t →
  ∃ l, body resp = RObj [("agents", RAgents l)] ∧
    Sdk.Discover (Some c) q (λ _, Ok (status resp, Ok (response_body resp))) = Ok (profile_of <$> l).
Proof.
  cbv zeta. intros Ho. pose proof (yields_run _ _ w (discover_listed a b r)) as Hs. set (resp := (run _ w).1) in *.
  intros Hst Ht [Hfit _]. destruct (Hs Hst) as [l Hb]. exists l. split; [done|].
  unfold Sdk.Discover. rewrite Ho, Hst. unfold response_body. rewrite Ht. rewrite Hb in Ht. cbn [rval_tree] in Ht.
  cbn in Ht. destruct (mapM agent_tree l) as [ts|] eqn:Hm; [|done]. injection Ht as <-.
  change (negb (Sdk.is_success StatusOK)) with false. cbv beta iota.
  change (merge_sort _ _) with [("agents", JArr ts)] in *. rewrite parse_line by done. cbn [mbind option_bind].
  assert (Sdk.read_profiles (scrub (JObj [("agents", JArr ts)])) = Some (profile_of <$> l)) as ->; [|done].
  unfold Sdk.read_profiles. cbn [scrub map fst snd slice_field decode_struct decode_members].
  change (find_field _ _) with (Some (slice_field Sdk.zero_profile Sdk.read_profile id (λ l (_ : list Sdk.AgentProfile), l))).
  cbn [slice_field id]. by rewrite (read_profiles_tree _ _ Hm).
Qed.
End Routes.
End Replies.
