(* ===== verification/Session.v ===== *)
(** * Commands against the server

    A command of the command line ([Cli]) run against the server of this
    library: a [machine] answers the terminal and the file system, [network]
    hands each request to the multiplexer, runs the handler on the shared
    world, and brings back the body it writes.

    The theorems say what the configuration file is worth afterwards: the
    token [account login] saves and the credentials [agent use] saves are
    accepted by the server, as the user and the agent they were given to. *)

From S2P Require Import Prelude.
From S2P Require Import GoStrings.
From S2P Require Import GoTime.
From S2P Require Import GoValue.
From S2P Require Import Base64.
From S2P Require Import Uuid.
From S2P Require Import Models.
From S2P Require Import Schema.
From S2P Require Import Invariant.
From S2P Require Import World.
From S2P Require Import JsonString.
From S2P Require Import Json.
From S2P Require Import JsonValue.
From S2P Require Import Auth.
From S2P Require Import AdapterBase.
From S2P Require Import Server.
From S2P Require Import Handlers.
From S2P Require Import Bodies.
From S2P Require Import Mux.
From S2P Require Import Responses.
From S2P Require Import HttpClient.
From S2P Require Import Cli.
From S2P Require Import Replies.

Open Scope string_scope.
Open Scope Z_scope.

(** ** Queries: [url.ParseQuery] and [Values.Get] *)
Definition QueryUnescape (s : string) : option string :=
  Mux.PathUnescape (map_bytes (λ a, if Ascii.eqb a "+" then " "%char else a) s).

(** The value of a key in one part of the query; a part that is empty, has a
    semicolon or is not well-formed does not count. *)
Definition query_part (key part : string) : option string :=
  if Contains part ";" || String.eqb part "" then None
  else
    let '(k, v) := match Cut part "=" with Some kv => kv | None => (part, "") end in
    k ← QueryUnescape k; v ← QueryUnescape v;
    if String.eqb k key then Some v else None.

Definition query_get (query key : string) : string := default "" (head (omap (query_part key) (Split query "&"))).

Example query_get_1 : query_get "conversation_id=a%20b&since_ts=10%3A00+01&limit=5&limit=6" "limit" = "5".
Proof. reflexivity. Qed.
Example query_get_2 : query_get "since_ts=2024-01-01T00:00:00+02:00" "since_ts" = "2024-01-01T00:00:00 02:00".
Proof. reflexivity. Qed.

(** ** The machine of the user *)
Record machine := MkMachine {
  m_terminal : bool;
  m_typed : string → result goerr string;
  m_uuid : string;
  m_file : Cli.file_op → option goerr
}.

Section Session.
Context {U : UuidPkg} {C : Citext} {E : Env} {UT : UnicodeTables} {Zo : Zone} {ET : ErrorTexts}.
Context {B : Bcrypt} {A2 : Argon2} {J : Jwt} {N : Net} {P : Cli.Paths}.

(** ** The network: a server at the address [base]

    The client is known by its address [addr].  A redirection is not followed
    and the page of the metrics is left out: both come back as errors. *)
Definition delivered (o : Outgoing) (query addr : string) : Request :=
  MkHttpRequest (header o) (query_get query) addr.

Definition network (a : app) (base addr : string) (o : Outgoing) (w : World)
    : result goerr (Z * result goerr string) * World :=
  let target := TrimPrefix (o_URL o) base in
  let '(path, query) := match Cut target "?" with Some pq => pq | None => (target, "") end in
  match Mux.handler_of (o_Method o) path with
  | Mux.Handler (Mux.Api ep) _ =>
      let '(resp, w') := run (registerRoutes a (with_raw ep (Ok (o_Body o))) (delivered o query addr)) w in
      (Ok (status resp, Ok (response_body resp)), w')
  | Mux.Handler Mux.Metrics _ | Mux.MovedPermanently => (Err (ExternalError "not modelled"), w)
  | Mux.MethodNotAllowed => (Ok (405, Ok ("Method Not Allowed" +:+ String "010" "")), w)
  | Mux.NotFound => (Ok (404, Ok ("404 page not found" +:+ String "010" "")), w)
  end.

(** ** Running a command

    The result, the world, and the settings in the configuration file, when
    they were written. *)
Fixpoint against {X} (p : Cli.cli X) (m : machine)
    (srv : Outgoing → World → result goerr (Z * result goerr string) * World) (w : World) (saved : option Cli.settings)
    : X * World * option Cli.settings :=
  match p with
  | Cli.Done x => (x, w, saved)
  | Cli.IsTerminal k => against (k (m_terminal m)) m srv w saved
  | Cli.ReadPassword prompt k => against (k (m_typed m prompt)) m srv w saved
  | Cli.NewID k => against (k (m_uuid m)) m srv w saved
  | Cli.Call o k => let '(r, w') := srv o w in against (k r) m srv w' saved
  | Cli.File op k =>
      let r := m_file m op in
      let saved' := match r, op with
                    | None, (Cli.WriteConfig st | Cli.SafeWriteConfigAs _ st) => Some st
                    | _, _ => saved
                    end in
      against (k r) m srv w saved'
  end.

(** ** Lemmas *)
Section Lemmas.
Variables (m : machine) (srv : Outgoing → World → result goerr (Z * result goerr string) * World).

Lemma against_bind {X Y} (p : Cli.cli X) (f : X → Cli.cli Y) w saved :
  against (Cli.bind p f) m srv w saved =
  let '(x, w', saved') := against p m srv w saved in against (f x) m srv w' saved'.
Proof.
  revert w saved. induction p as [x|k IH|s k IH|k IH|o k IH|op k IH]; intros w saved; cbn [Cli.bind against]; try done;
    try apply IH.
  destruct (srv o w) as [r w']. apply IH.
Qed.

(** Saving writes the settings, the path of the file aside, or fails. *)
Lemma against_saveConfig st w e w' saved saved' : against (Cli.saveConfig st) m srv w saved = (e, w', saved') →
  w' = w ∧ ((e ≠ None ∧ saved' = saved) ∨ ∃ st', saved' = Some st' ∧ Cli.same_settings st st').
Proof.
  unfold Cli.saveConfig. cbv zeta. set (st' := if String.eqb _ _ then _ else _).
  assert (Cli.same_settings st st') as Hs by (unfold st'; by destruct (String.eqb _ _)).
  cbn [against]. destruct (m_file m (Cli.MkdirAll _)) as [e1|]; cbn [against].
  { intros [= <- <- <-]. split; [done|by left]. }
  destruct (m_file m (Cli.Stat _)) as [e2|]; cbn [against].
  - destruct (m_file m (Cli.SafeWriteConfigAs _ _)) as [e3|]; intros [= <- <- <-]; (split; [done|]); [by left|right; by eexists].
  - destruct (m_file m (Cli.WriteConfig _)) as [e3|]; intros [= <- <- <-]; (split; [done|]); [by left|right; by eexists].
Qed.

Lemma against_save st next w r w' saved saved' :
  against (Cli.save st next) m srv w saved = (r, w', saved') → saved ≠ saved' →
  (∃ st', Cli.same_settings st st' ∧ against next m srv w (Some st') = (r, w', saved')) ∨
  (∃ st' e, Cli.same_settings st st' ∧ r = Err e ∧ saved' = Some st' ∧ w' = w).
Proof.
  unfold Cli.save. rewrite against_bind. destruct (against (Cli.saveConfig st) m srv w saved) as [[e w1] saved1] eqn:Hs.
  apply against_saveConfig in Hs as [-> [[He ->]|(st' & -> & Hst)]].
  - destruct e as [e|]; [|done]. cbn [against]. by intros [= <- <- <-].
  - destruct e as [e|]; [|by intros; left; exists st']. cbn [against]. intros [= <- <- <-] _. right. by exists st', e.
Qed.
End Lemmas.

(** A call of the command line at a path the multiplexer knows. *)
Lemma against_exchange a base addr m method path headers b payload ep vs w saved :
  Cli.marshal b = Some payload → Cut path "?" = None →
  Mux.handler_of method path = Mux.Handler (Mux.Api ep) vs →
  ∃ r, let '(resp, w') := run (registerRoutes a (with_raw ep (Ok payload)) r) w in
  against (Cli.exchange method (base +:+ path) headers b) m (network a base addr) w saved =
  match http_NewRequest method (base +:+ path) with
  | Some e => (Err e, w, saved)
  | None => (Cli.read_reply (status resp) (Ok (response_body resp)), w', saved)
  end ∧
  (∀ name, r_Header r name = header (MkOutgoing method (base +:+ path) (("Content-Type", "application/json") :: headers)
     payload (15 * Second)) name).
Proof.
  intros Hb Hq Hh. set (o := MkOutgoing method _ _ payload _). exists (delivered o "" addr).
  destruct (run (registerRoutes a (with_raw ep (Ok payload)) (delivered o "" addr)) w) as [resp w'] eqn:Hrun.
  split; [|done]. unfold Cli.exchange. rewrite Hb. destruct (http_NewRequest method _); [done|].
  cbn [against]. fold o. unfold network. cbn [o_URL o_Method o_Body o]. rewrite TrimPrefix_app, Hq, Hh. cbv beta iota.
  by rewrite Hrun.
Qed.

(** An error of a handler is an error of the client. *)
Lemma error_reply code e v : 400 ≤ code →
  Cli.read_reply (status (writeError code (RErr e))) (Ok (response_body (writeError code (RErr e)))) ≠ Ok v.
Proof.
  intros Hc. unfold Cli.read_reply, response_body. change (body _) with (RObj [("error", RErr e)]).
  change (status _) with code. destruct (rval_tree (RObj [("error", RErr e)])) as [t|] eqn:Ht; [|done].
  rewrite (read_error_body (RErr e) t I Ht). by rewrite (proj2 (Z.leb_le _ _) Hc).
Qed.

(** ** Logging in *)
Section Login.
Context {UL : UuidLaws} {JL : JwtLaws}.

(** A successful answer of the login route says the token. *)
Lemma login_reply a req w resp w' m :
  run (handleLogin a (Ok req)) w = (resp, w') →
  Cli.read_reply (status resp) (Ok (response_body resp)) = Ok (AMap m) →
  ∃ tok u, run (Auth.LoginUser (authSvc a) (creq_Email req) (creq_Password req)) w = (Ok (tok, u), w') ∧
    m !! "access_token" = Some (AString (to_valid tok)).
Proof.
  unfold handleLogin, with_body, or_fail. rewrite run_bind.
  destruct (run (Auth.LoginUser _ _ _) w) as [[[tok u]|e] w1] eqn:Hl.
  - intros [= <- <-]. intros Hr. exists tok, u. split; [done|]. unfold Cli.read_reply, response_body in Hr.
    set (fields := [_; _; _]) in Hr. change (body _) with (RObj fields) in Hr. change (status _) with StatusOK in Hr.
    destruct (rval_tree (RObj fields)) as [t|] eqn:Ht; [|done].
    assert (legible t) as Hleg.
    { cbn -[time_text print] in Ht. unfold row_time in Ht. destruct (time_text _ _) as [c|]; [|done].
      injection Ht as <-. split; [|done]. split; [done|]. by apply Z.leb_le. }
    assert (plain_members fields = true) as Hp by reflexivity.
    destruct (read_object_body fields t Hp Ht Hleg) as (m' & Hm & _ & Hget). rewrite Hm in Hr.
    change (400 <=? StatusOK) with false in Hr. injection Hr as <-.
    destruct (Hget "access_token" (RStr tok)) as (t' & Ht' & ->); [by left|]. by injection Ht' as <-.
  - intros [= <- <-]. intros Hr. by apply error_reply in Hr.
Qed.

Lemma against_secret m srv w saved missing given prompt flag empty next r w' saved' :
  against (Cli.secret_or_prompt missing given prompt flag empty next) m srv w saved = (r, w', saved') → saved ≠ saved' →
  ∃ s, (missing given = false → s = given) ∧ missing s = false ∧ against (next s) m srv w saved = (r, w', saved').
Proof.
  unfold Cli.secret_or_prompt. cbv zeta. destruct (missing given) eqn:Hm.
  - unfold Cli.try. rewrite against_bind. unfold Cli.readSecret. cbn [against]. destruct (m_terminal m); cbn [negb against].
    + destruct (m_typed m prompt) as [s|e]; cbn [against]; [|by intros [= <- <- <-]].
      destruct (missing s) eqn:Hs; [by intros [= <- <- <-]|]. intros Ha _. by exists s.
    + by intros [= <- <- <-].
  - intros Ha _. by exists given.
Qed.

(** The token of a login, in a request that carries it as the command line
    does. *)
Lemma token_accepted a u now tok st' r s w2 :
  Auth.jwtSecret (authSvc a) ≠ "" →
  jwt_SignedString SigningMethodHS256 (Auth.login_claims u now) (Auth.jwtSecret (authSvc a)) = Ok tok →
  Cli.set_token st' = to_valid tok → r_Header r "Authorization" = "Bearer " +:+ Cli.token st' →
  env_now (w_steps w2) < (now + Hour) / Second * Second →
  run (authenticate a r true s) w2 = (Ok (MkCtx (Some (uuid_String (user_ID u))) None), tick w2).
Proof.
  intros Hsec Htok Hst Hr Hnow. destruct (jwt_printable _ _ _ _ Htok) as [Hg Hne].
  assert (to_valid tok = tok) as Hv.
  { apply ascii_valid_utf8. revert Hg. apply str_forallb_impl. intros c. unfold graph_char, byte_in. lia. }
  assert (Cli.token st' = tok) as Ht by (unfold Cli.token; rewrite Hst, Hv; by apply TrimSpace_graph).
  unfold authenticate. cbv zeta. rewrite Hr, Ht, bearerToken_bearer by (done || by apply TrimSpace_graph).
  rewrite (proj2 (String.eqb_neq tok "")) by done. cbn [andb negb]. rewrite run_bind. unfold Auth.ValidateJWT, Auth.is_empty.
  rewrite (proj2 (String.eqb_neq (Auth.jwtSecret _) "")) by done. rewrite run_bind, run_time_Now.
  destruct (Auth.login_claims_whole u now) as [Hi He].
  rewrite (jwt_parse_signed _ _ _ _ (Auth.keyfunc (authSvc a)) (env_now (w_steps w2)) Hi He Htok); [done|reflexivity|].
  cbn. by rewrite jwt_NewNumericDate_second.
Qed.

(** C7 When [bobber account login] has written the configuration file, then the
    user of that address exists, is verified, and the password is theirs; and
    for the rest of the hour every request that carries the token of the file
    is admitted as that user, on each route that admits users. *)
Theorem login_session a addr m st email password w r w' st' :
  Auth.jwtSecret (authSvc a) ≠ "" → world_inv w →
  against (Cli.accountLoginCmd st email password) m (network a (Cli.backendURL st) addr) w None = (r, w', Some st') →
  ∃ u pw, (password ≠ "" → pw = password) ∧
    has_email (ToLower (TrimSpace (to_valid email))) u = true ∧
    bcrypt_CompareHashAndPassword (user_PasswordHash u) (to_valid pw) = None ∧ user_EmailVerified u = true ∧
    (∃ u', users (w_db w') !! user_ID u = Some u' ∧ user_le u u') ∧
    ∀ req s w2, r_Header req "Authorization" = "Bearer " +:+ Cli.token st' →
      env_now (w_steps w2) < (env_now (S (w_steps w)) + Hour) / Second * Second →
      run (authenticate a req true s) w2 = (Ok (MkCtx (Some (uuid_String (user_ID u))) None), tick w2).
Proof.
  intros Hsec Hinv. unfold Cli.accountLoginCmd. destruct (Cli.is_empty email); [done|].
  intros Ha. apply against_secret in Ha as (pw & Hpw & _ & Ha); [|done]. unfold Cli.is_empty in Hpw. rewrite String.eqb_neq in Hpw.
  unfold Cli.try in Ha. rewrite against_bind in Ha. unfold Cli.doJSON in Ha. cbn [String.eqb negb] in Ha.
  destruct (against_exchange a (Cli.backendURL st) addr m "POST" "/v1/auth/login" [] _ _ AuthLogin []
    w None (Cli.obj_credentials email pw) eq_refl eq_refl) as [rq Hx].
  cbn [with_raw registerRoutes] in Hx. rewrite Cli.read_credentials_strings in Hx.
  destruct (run (handleLogin a (Ok (MkCredentialsReq (to_valid email) (to_valid pw)))) w) as [resp w1] eqn:Hrun. destruct Hx as [Hx _]. rewrite Hx in Ha. clear Hx.
  destruct (http_NewRequest _ _); [done|].
  destruct (Cli.read_reply _ _) as [resp'|e] eqn:Hreply; [|done]. destruct resp' as [| | | | | | |rm]; try done.
  destruct (login_reply _ _ _ _ _ _ Hrun Hreply) as (tok & u & Hlogin & Htok). rewrite Htok in Ha. unfold Cli.is_empty in Ha.
  destruct (String.eqb_spec (to_valid tok) "") as [|Hne]; [done|]. cbn [negb] in Ha.
  apply against_save in Ha; [|done].
  assert (Cli.set_token st' = to_valid tok ∧ w' = w1) as [Hst ->].
  { destruct Ha as [(st1 & (_ & Ht & _) & Ha)|(st1 & e & (_ & Ht & _) & _ & Hs & ->)].
    - cbn [against] in Ha. by injection Ha as _ -> ->.
    - by injection Hs as ->. }
  pose proof (wp_run _ _ w Hinv (Auth.LoginUser_spec (authSvc a) (to_valid email) (to_valid pw) w Hinv)) as (Hsp & _ & _).
  cbn [creq_Email creq_Password] in Hlogin. rewrite Hlogin in Hsp. cbn [fst snd on_ok] in Hsp. destruct Hsp as (_ & _ & He & Hb & Hv & (u' & Hu' & Hle & _) & _).
  exists u, pw. split_and!; try done; [by exists u'|].
  intros req s w2 Hh Hnow. eapply token_accepted; [done|by eapply Auth.LoginUser_token|done..].
Qed.
End Login.
(** ** Using an agent *)
Section Use.
Context {UL : UuidLaws} {AL : Argon2Laws}.

(** The secrets are text without spaces. *)
Lemma yields_secret s id : yields (λ r, if r is Ok secret then is_graph secret = true else True) (Auth.RotateSecret s id).
Proof.
  unfold Auth.RotateSecret. destruct (_ || _); [done|]. apply yields_bind. intros [ag|e]; [|done].
  apply yields_bind_strong with (Q := λ r, if r is Ok secret then is_graph secret = true else True).
  { apply yields_bind. intros [b|e]; [|done]. cbn. generalize (EncodeToString_ascii RawURLEncoding b).
    apply str_forallb_impl. intros c. unfold b64_ascii, graph_char, byte_is, byte_in. lia. }
  intros [secret|e] Hg; [|done]. apply yields_bind. intros [h|e]; [|done]. apply yields_bind. by intros [n|e].
Qed.

(** A successful answer of the rotation says the new secret. *)
Lemma rotate_reply a id rq w resp w' m : world_inv w →
  run (registerRoutes a (POST_agents_rotate_secret id) rq) w = (resp, w') →
  Cli.read_reply (status resp) (Ok (response_body resp)) = Ok (AMap m) →
  ∃ secret w0, world_inv w0 ∧ run (Auth.RotateSecret (authSvc a) id) w0 = (Ok secret, w') ∧
    m !! "api_secret" = Some (AString (to_valid secret)).
Proof.
  intros Hinv. cbn [registerRoutes]. unfold requireJWT, requireAuth. rewrite run_bind.
  pose proof (behaves_run _ w (authenticate_behaves a rq true false) Hinv) as Hi.
  destruct (run (authenticate a rq true false) w) as [r w0]. cbn [snd] in Hi.
  destruct r as [ctx|e]; [|intros [= <- <-] Hr; by apply error_reply in Hr].
  unfold handleRotateSecret, or_fail. rewrite run_bind.
  destruct (run (Auth.RotateSecret _ _) w0) as [[secret|e] w1] eqn:Hrun;
    [|intros [= <- <-] Hr; by apply error_reply in Hr].
  intros [= <- <-] Hr. exists secret, w0. split_and!; [done..|]. unfold Cli.read_reply, response_body in Hr.
  set (fields := [_; _]) in Hr. change (body _) with (RObj fields) in Hr. change (status _) with StatusOK in Hr.
  destruct (rval_tree (RObj fields)) as [t|] eqn:Ht; [|done].
  assert (legible t) as Hleg by (injection Ht as <-; split; [split; [done|by apply Z.leb_le]|done]).
  destruct (read_object_body fields t eq_refl Ht Hleg) as (m' & Hm & _ & Hget). rewrite Hm in Hr.
  change (400 <=? StatusOK) with false in Hr. injection Hr as <-.
  destruct (Hget "api_secret" (RStr secret)) as (t' & Ht' & ->); [right; by left|]. by injection Ht' as <-.
Qed.

(** A part that has no question mark is all path. *)
Lemma Cut_no_byte c s : no_byte c s → Cut s c = None.
Proof.
  unfold no_byte. induction s as [|a s IH]; [done|]. cbn [str_forallb Cut]. intros [Ha Hs]%andb_true_iff.
  apply negb_true_iff in Ha. by rewrite Ha, IH.
Qed.

(** A route with no body, at a path that holds a plain value. *)
Lemma against_bodyless a base addr m rt method path headers w saved :
  Mux.registered (Bodyless rt) → Cli.plain_value (Mux.path_value (Bodyless rt)) → route_pattern rt = (method, path) → Cut path "?" = None →
  ∃ rq, against (Cli.exchange method (base +:+ path) headers None) m (network a base addr) w saved =
    let '(resp, w') := run (registerRoutes a rt rq) w in
    match http_NewRequest method (base +:+ path) with
    | Some e => (Err e, w, saved)
    | None => (Cli.read_reply (status resp) (Ok (response_body resp)), w', saved)
    end.
Proof.
  intros Hr Hv Hp Hq. destruct (Mux.handler_of_plain (Bodyless rt) method path Hr) as [vs Hh]; [apply Hv|done|].
  destruct (against_exchange a base addr m method path headers None "" (Bodyless rt) vs w saved eq_refl Hq Hh) as [rq Hx].
  exists rq. cbn [with_raw] in Hx. destruct (run (registerRoutes a rt rq) w) as [resp w1]. apply Hx.
Qed.

(** The values of the paths of the command. *)
Lemma registered_value id : Cli.plain_value id →
  Mux.registered (Bodyless (GET_info id)) ∧ Mux.registered (Bodyless (POST_agents_rotate_secret id)) ∧
  Cut ("/v1/info/" +:+ id) "?" = None ∧ Cut ("/v1/agents/" +:+ id +:+ "/rotate-secret") "?" = None.
Proof.
  intros (Hp & Hs & Hq & _). assert (Mux.value_ok id) as Hv.
  { split; [|done]. intros ->. done. }
  split_and!; [done..| |]; apply Cut_no_byte; rewrite !no_byte_app; by split_and?.
Qed.

(** C8 When [bobber agent use] has written the configuration file, the file holds
    credentials of the agent: as long as the row of the agent stays as it is, a
    request that carries them, and no token, is admitted as that agent, on each
    route that admits agents. *)
Theorem agent_use_session a addr m st id w r w' st' :
  world_inv w → Cli.plain_value id → TrimSpace id = id →
  against (Cli.agentUseCmd st id) m (network a (Cli.backendURL st) addr) w None = (r, w', Some st') →
  ∃ i ag, uuid_Parse id = Ok i ∧ agents (w_db w') !! i = Some ag ∧ agent_ID ag = i ∧
    ∀ w2 req allowJWT, agents (w_db w2) !! i = Some ag → env_fault (w_steps w2) = NoFault →
      r_Header req "Authorization" = "" →
      r_Header req "X-Agent-ID" = Cli.agentID st' → r_Header req "X-API-Secret" = Cli.apiSecret st' →
      run (authenticate a req allowJWT true) w2 = (Ok (MkCtx (Some "") (Some (uuid_String i))), tick w2).
Proof.
  intros Hinv Hid Htrim. destruct (registered_value id Hid) as (Hr1 & Hr2 & Hq1 & Hq2). unfold Cli.agentUseCmd, Cli.with_token, Cli.is_empty.
  destruct (String.eqb_spec (Cli.token st) "") as [|Ht]; [done|]. rewrite !Cli.doJSON_token by done.
  unfold Cli.try at 1. rewrite against_bind.
  edestruct (against_bodyless a (Cli.backendURL st) addr m (GET_info id) "GET" ("/v1/info/" +:+ id)
    [("Authorization", "Bearer " +:+ Cli.token st)] w None) as [rq1 Hx1]; [done..|].
  rewrite Hx1. clear Hx1.
  pose proof (behaves_run _ w (registerRoutes_behaves a (GET_info id) rq1) Hinv) as Hinv1.
  destruct (run (registerRoutes a (GET_info id) rq1) w) as [resp1 w1]. cbn [snd] in Hinv1.
  destruct (http_NewRequest _ _); [done|]. destruct (Cli.read_reply _ _) as [info|e]; [|done].
  unfold Cli.try. rewrite against_bind.
  edestruct (against_bodyless a (Cli.backendURL st) addr m (POST_agents_rotate_secret id) "POST"
    ("/v1/agents/" +:+ id +:+ "/rotate-secret")
    [("Authorization", "Bearer " +:+ Cli.token st)] w1 None) as [rq2 Hx2]; [done..|].
  rewrite Hx2. clear Hx2.
  destruct (run (registerRoutes a (POST_agents_rotate_secret id) rq2) w1) as [resp2 w2] eqn:Hrun.
  destruct (http_NewRequest _ _); [done|]. destruct (Cli.read_reply (status resp2) _) as [rot|e] eqn:Hreply; [|done].
  destruct rot as [| | | | | | |rm]; try done.
  destruct (rotate_reply _ _ _ _ _ _ _ Hinv1 Hrun Hreply) as (secret & w0 & Hi0 & Hrot & Hm).
  pose proof (yields_run _ _ w0 (yields_secret (authSvc a) id)) as Hg.
  pose proof (Auth.alone_RotateSecret (authSvc a) id w0 Hi0) as Hal. unfold alone in Hal.
  rewrite Hrot in Hg, Hal. cbn [fst snd] in Hg, Hal.
  destruct Hal as (Hdb & Hne & i & Hpi & ag & salt & Hag & Hagi & Hsne & Hh).
  assert (to_valid secret = secret) as Hv.
  { apply ascii_valid_utf8. revert Hg. apply str_forallb_impl. intros c. unfold graph_char, byte_in. lia. }
  unfold Cli.member, Cli.is_empty. rewrite Hm, Hv. cbn [default from_option Datatypes.id].
  rewrite (proj2 (String.eqb_neq secret "")) by done. intros Ha. apply against_save in Ha; [|done].
  assert (Cli.agentID st' = id ∧ Cli.apiSecret st' = secret ∧ w' = w2) as (Hid' & Hsec' & ->).
  { unfold Cli.agentID, Cli.apiSecret.
    destruct Ha as [(st1 & (_ & _ & H1 & H2) & Ha)|(st1 & e & (_ & _ & H1 & H2) & _ & [= ->] & ->)];
      [cbn [against] in Ha; injection Ha as _ -> ->|]; rewrite H1, H2; cbn [Cli.with_credentials Cli.set_agent_id Cli.set_api_secret]; rewrite ?Htrim; by rewrite TrimSpace_graph. }
  exists i, ag. split_and!; [done..|]. intros w3 req allowJWT Hag3 Hft Hauth Hi Hs.
  unfold authenticate. cbv zeta. rewrite Hauth. change (bearerToken "") with "". cbn [String.eqb negb].
  rewrite andb_false_r. unfold authenticate_agent. cbv zeta. rewrite Hi, Hs, Hid', Hsec', Htrim, TrimSpace_graph by done.
  rewrite (proj2 (String.eqb_neq id "")), (proj2 (String.eqb_neq secret "")) by done. cbn [orb].
  rewrite run_bind, (Auth.run_ValidateAPISecret _ _ i), Hag3, Hh by done.
  rewrite (proj2 (Auth.verifySecretArgon2id_key secret salt secret) eq_refl). by rewrite Hagi.
Qed.
End Use.
End Session.
