(* ===== verification/Observability.v ===== *)
(** * Metrics and the logger

    [backend/internal/observability/observability.go].  Prometheus and zerolog
    are parameters; the laws state when a registry takes collectors. *)

From S2P Require Import Prelude.
From S2P Require Import GoStrings.
From S2P Require Import GoValue.

Open Scope string_scope.
Open Scope Z_scope.

(** ** Prometheus *)
Class Prometheus := {
  Collector : Type;
  Registry : Type;
  NewCounterVec (name help : string) (labels : list string) : Collector;
  (** with [prometheus.DefBuckets] *)
  NewHistogramVec (name help : string) (labels : list string) : Collector;
  NewGauge (name help : string) : Collector;
  NewRegistry : Registry;
  (** [None]: it panics *)
  MustRegister : Registry → list Collector → option Registry
}.

(** A registry takes collectors whose names it does not have, and no name
    twice. *)
Class PrometheusLaws `{Prometheus} : Type := {
  fqName : Collector → string;
  fqName_CounterVec n h l : fqName (NewCounterVec n h l) = n;
  fqName_HistogramVec n h l : fqName (NewHistogramVec n h l) = n;
  fqName_Gauge n h : fqName (NewGauge n h) = n;
  gathered : Registry → list string;
  gathered_new : gathered NewRegistry = [];
  MustRegister_some r cs : is_Some (MustRegister r cs) ↔ NoDup (fqName <$> cs) ∧ ∀ c, c ∈ cs → fqName c ∉ gathered r;
  MustRegister_gathers r cs r' n : MustRegister r cs = Some r' → n ∈ gathered r' ↔ n ∈ fqName <$> cs ∨ n ∈ gathered r
}.

(** ** Zerolog *)
Class Zerolog := {
  Level : Type;
  InfoLevel : Level;
  ParseLevel : string → result goerr Level
}.

Module Observability.

Section Metrics.
Context {Pr : Prometheus}.

Record Metrics := MkMetrics {
  MessagesSent : Collector;
  MessagesLatency : Collector;
  AgentsOnline : Collector;
  ErrorsCount : Collector;
  RateLimited : Collector
}.

Definition collectors (m : Metrics) : list Collector :=
  [MessagesSent m; MessagesLatency m; AgentsOnline m; ErrorsCount m; RateLimited m].

(** The labels of the counter of refusals, as [WithLabelValues] gives them. *)
Definition rate_limited_labels : list string := ["dimension"; "key"].

(** [None]: the registration panics. *)
Definition NewMetrics (registry : option Registry) : option (Metrics * option Registry) :=
  let m := MkMetrics
    (NewCounterVec "bobberchat_messages_sent_total" "Total messages sent by BobberChat" ["agent_id"; "tag"])
    (NewHistogramVec "bobberchat_messages_latency_ms" "Message handling latency in milliseconds" ["agent_id"])
    (NewGauge "bobberchat_agents_online" "Number of online agents")
    (NewCounterVec "bobberchat_errors_count_total" "Total number of errors" ["agent_id"; "error_type"])
    (NewCounterVec "bobberchat_rate_limited_total" "Total rate-limited requests" rate_limited_labels) in
  match registry with
  | None => Some (m, None)
  | Some r => r ← MustRegister r (collectors m); Some (m, Some r)
  end.

(** A fresh registry takes the metrics, and no registry takes them twice. *)
Lemma NewMetrics_once `{!PrometheusLaws} : ∃ m r, NewMetrics (Some NewRegistry) = Some (m, Some r) ∧
  NewMetrics (Some r) = None.
Proof.
  unfold NewMetrics. set (m := MkMetrics _ _ _ _ _).
  assert (fqName <$> collectors m = ["bobberchat_messages_sent_total"; "bobberchat_messages_latency_ms";
    "bobberchat_agents_online"; "bobberchat_errors_count_total"; "bobberchat_rate_limited_total"]) as Hn.
  { unfold collectors, m. cbn. by rewrite !fqName_CounterVec, fqName_HistogramVec, fqName_Gauge. }
  destruct (proj2 (MustRegister_some NewRegistry (collectors m))) as [r Hr].
  { split; [rewrite Hn; apply (bool_decide_unpack _); reflexivity|]. intros c _. rewrite gathered_new. apply not_elem_of_nil. }
  exists m, r. rewrite Hr. split; [done|]. destruct (MustRegister r (collectors m)) as [r'|] eqn:Hr'; [|done].
  destruct (proj1 (MustRegister_some r (collectors m)) (mk_is_Some _ _ Hr')) as [_ Hno].
  destruct (Hno (MessagesSent m)); [by left|].
  apply (MustRegister_gathers _ _ _ _ Hr). left. rewrite Hn. cbn. rewrite fqName_CounterVec. by left.
Qed.
End Metrics.

(** ** The logger *)

(** [strings.EqualFold] with a text in ASCII: two letters beyond it fold into
    it, the long s and the sign of the Kelvin. *)
Fixpoint fold_ascii (s : string) : string :=
  match s with
  | String "197" (String "191" r) => String "s" (fold_ascii r)
  | String "226" (String "132" (String "170" r)) => String "k" (fold_ascii r)
  | String a r => String (lower_byte a) (fold_ascii r)
  | "" => ""
  end.
Definition EqualFold (s lit : string) : bool := String.eqb (fold_ascii s) (fold_ascii lit).

Inductive writer := ConsoleWriter | Stdout.

(** The logger writes to [l_writer], with a timestamp, what the global level
    [l_level] lets through. *)
Record Logger `{Zerolog} := MkLogger { l_level : Level; l_writer : writer }.

Definition SetupLogger `{Zerolog} `{UnicodeTables} (level format : string) : Logger :=
  MkLogger _
    match ParseLevel (ToLower level) with Ok l => l | Err _ => InfoLevel end
    (if EqualFold format "console" || EqualFold format "text" then ConsoleWriter else Stdout).

Example EqualFold_1 : EqualFold ("con" +:+ String "197" (String "191" "OLE")) "console" = true.
Proof. reflexivity. Qed.
End Observability.
