(* ===== verification/Startup.v ===== *)
(** * Configuration and start-up of the server

    [loadConfig] and the wiring of [main] in [backend/cmd/bobberd/main.go]:
    the defaults, the services, the adapters, the limiter and the HTTP
    server.  What viper reads from the file and the environment, and the
    connection to the database, are arguments. *)

From S2P Require Import Prelude.
From S2P Require Import GoStrings.
From S2P Require Import GoTime.
From S2P Require Import GoValue.
From S2P Require Import Float64.
From S2P Require Import RateLimit.
From S2P Require Import Uuid.
From S2P Require Import Schema.
From S2P Require Import Invariant.
From S2P Require Import World.
From S2P Require Import Conversation.
From S2P Require Import Registry.
From S2P Require Import Auth.
From S2P Require Import AdapterBase.
From S2P Require Import Adapters.
From S2P Require Import Azurecs.
From S2P Require Import Server.

Open Scope string_scope.
Open Scope Z_scope.

Module Startup.

(** ** Configuration *)
Record config := MkConfig {
  ListenAddress : string;
  ReadTimeoutSeconds : Z;
  WriteTimeoutSeconds : Z;
  DSN : string;
  JWTSecret : string;
  Provider : string;
  FromAddress : string;
  ConnectionString : string;
  VerificationTokenTTLHours : Z;
  Level : string;
  LogFormat : string;
  MetricsPath : string;
  RateLimits : Ratelimit.Config
}.

Definition positive_or (default n : Z) : Z := if n <=? 0 then default else n.
Definition text_or (default s : string) : string := if String.eqb s "" then default else s.

(** [read] is the error of [ReadInConfig], [decoded] what [Unmarshal] makes of
    the settings. *)
Definition loadConfig (read : option goerr) (decoded : result goerr config) : result goerr config :=
  match read with
  | Some e => Err (WrapError "read config" e)
  | None =>
      match decoded with
      | Err e => Err (WrapError "decode config" e)
      | Ok cfg =>
          Ok (MkConfig (text_or ":8080" (ListenAddress cfg)) (positive_or 15 (ReadTimeoutSeconds cfg))
                (positive_or 15 (WriteTimeoutSeconds cfg)) (DSN cfg) (JWTSecret cfg) (Provider cfg)
                (FromAddress cfg) (ConnectionString cfg) (VerificationTokenTTLHours cfg) (Level cfg)
                (LogFormat cfg) (text_or "/v1/metrics" (MetricsPath cfg)) (RateLimits cfg))
      end
  end.

(** ** Wiring *)

Inductive email_sender := azure (s : Azurecs.Sender) | console.

Definition emailSender `{UnicodeTables} (cfg : config) : email_sender :=
  if String.eqb (Provider cfg) "azure" then azure (Azurecs.New (ConnectionString cfg) (FromAddress cfg)) else console.

Definition verificationTTL (cfg : config) : Z :=
  let ttl := duration (VerificationTokenTTLHours cfg) Hour in
  if ttl =? 0 then 24 * Hour else ttl.

Definition rlCfg (cfg : config) : Ratelimit.Config :=
  let rl := RateLimits cfg in
  if (Ratelimit.BurstFactor rl =? 0) && SFeqb (Ratelimit.PerAgentMPS rl) (f64_of_Z 0) then Ratelimit.DefaultConfig
  else rl.

(** [http.Server] *)
Record http_server := MkServer { Addr : string; ReadTimeout : Z; WriteTimeout : Z }.

Section Startup.
Context {FC : FloatConversion} {U : UuidPkg} {C : Citext} {E : Env} {UT : UnicodeTables}.
Context {B : Bcrypt}.

Record started := MkStarted { st_app : app; st_world : World; st_sender : email_sender; st_server : http_server }.

(** [main], up to the moment it serves; without a database it exits. *)
Definition main (cfg : config) (db : result goerr DB) : result goerr started :=
  match db with
  | Err e => Err (WrapError "failed to connect postgres" e)
  | Ok d =>
      let a := MkApp (Auth.NewService true (JWTSecret cfg) true (verificationTTL cfg)) (Registry.NewService true)
                 (Conversation.NewService true) main_adapters true true in
      Ok (MkStarted a (MkWorld d 0 [] (Ratelimit.New (rlCfg cfg)) []) (emailSender cfg)
            (MkServer (ListenAddress cfg) (duration (ReadTimeoutSeconds cfg) Second)
               (duration (WriteTimeoutSeconds cfg) Second)))
  end.

(** ** Lemmas *)
Lemma positive_or_spec d n : 0 < d → 0 < positive_or d n ∧ positive_or d (positive_or d n) = positive_or d n.
Proof. intros Hd. unfold positive_or. destruct (Z.leb_spec n 0); [by rewrite (proj2 (Z.leb_gt _ _)) by done|]. split; [lia|]. by rewrite (proj2 (Z.leb_gt _ _)) by lia. Qed.

Lemma text_or_spec d s : d ≠ "" → text_or d s ≠ "" ∧ text_or d (text_or d s) = text_or d s.
Proof.
  intros Hd. unfold text_or. destruct (String.eqb_spec s ""); [|by rewrite (proj2 (String.eqb_neq _ _)) by done].
  split; [done|]. by rewrite (proj2 (String.eqb_neq _ _)).
Qed.

Lemma loadConfig_positive read decoded cfg :
  loadConfig read decoded = Ok cfg → 0 < ReadTimeoutSeconds cfg ∧ 0 < WriteTimeoutSeconds cfg.
Proof. unfold loadConfig. destruct read; [done|]. destruct decoded; [|done]. intros <-%(inj Ok). by split; apply positive_or_spec. Qed.

(** ** Properties *)

(** A loaded configuration is complete: the address, the metrics path and
    positive timeouts are there, what was given is kept, and loading it again
    changes nothing. *)
Theorem loadConfig_complete read decoded cfg :
  loadConfig read decoded = Ok cfg →
  ListenAddress cfg ≠ "" ∧ MetricsPath cfg ≠ "" ∧ 0 < ReadTimeoutSeconds cfg ∧ 0 < WriteTimeoutSeconds cfg ∧
  loadConfig None (Ok cfg) = Ok cfg ∧
  ∃ raw, decoded = Ok raw ∧
    (ListenAddress raw ≠ "" → ListenAddress cfg = ListenAddress raw) ∧
    (0 < ReadTimeoutSeconds raw → ReadTimeoutSeconds cfg = ReadTimeoutSeconds raw) ∧
    (0 < WriteTimeoutSeconds raw → WriteTimeoutSeconds cfg = WriteTimeoutSeconds raw) ∧
    JWTSecret cfg = JWTSecret raw ∧ RateLimits cfg = RateLimits raw ∧
    VerificationTokenTTLHours cfg = VerificationTokenTTLHours raw.
Proof.
  unfold loadConfig. destruct read; [done|]. destruct decoded as [raw|]; [|done]. intros <-%(inj Ok). cbn.
  destruct (text_or_spec ":8080" (ListenAddress raw)) as [H1 H2]; [done|].
  destruct (text_or_spec "/v1/metrics" (MetricsPath raw)) as [H3 H4]; [done|].
  destruct (positive_or_spec 15 (ReadTimeoutSeconds raw)) as [H5 H6]; [done|].
  destruct (positive_or_spec 15 (WriteTimeoutSeconds raw)) as [H7 H8]; [done|].
  rewrite H2, H4, H6, H8. split_and!; try done. exists raw. unfold text_or, positive_or. split_and!; try done.
  - by intros ->%String.eqb_neq.
  - by intros ->%Z.leb_gt.
  - by intros ->%Z.leb_gt.
Qed.

(** C29 The limiter of the server: with neither a burst factor nor a rate for
    agents in the configuration the defaults apply, whether or not limiting is
    enabled there, so that a thousand messages of an agent pass at once and no
    more; otherwise the configuration is taken as it is, and disabling it lets
    everything through. *)
Theorem main_limiter cfg d s : main cfg (Ok d) = Ok s →
  let l := w_limiter (st_world s) in
  let rl := RateLimits cfg in
  let unset := (Ratelimit.BurstFactor rl =? 0) && SFeqb (Ratelimit.PerAgentMPS rl) (f64_of_Z 0) in
  (unset = true → ∀ c now k, (Ratelimit.Allow_n c l now Ratelimit.DimensionAgent k).1 =
     (replicate (Nat.min c 1000) true ++ replicate (c - 1000) false)%list) ∧
  (unset = false → Ratelimit.Enabled rl = false → ∀ now dim k, Ratelimit.Allow l now dim k = (true, l)).
Proof.
  intros <-%(inj Ok). cbv zeta. cbn [st_world w_limiter]. unfold rlCfg. cbv zeta. split; intros ->.
  - intros c now k. apply (Ratelimit.Allow_n_fresh _ _ _ _ 1000); [apply Ratelimit.default_whole_rate|apply lookup_empty].
  - intros Hen now dim k. apply Ratelimit.Allow_unlimited. unfold Ratelimit.limited. cbn. by rewrite Hen.
Qed.

(** The timeouts of the HTTP server and the life of a verification token are
    those of the configuration, as long as they fit a [time.Duration]: up to
    292 years.  A negative life is not refused: such a token expires before it
    is sent. *)
Theorem main_durations read decoded cfg d s :
  loadConfig read decoded = Ok cfg → main cfg (Ok d) = Ok s →
  (ReadTimeoutSeconds cfg ≤ int64_max / Second → ReadTimeout (st_server s) = ReadTimeoutSeconds cfg * Second) ∧
  (WriteTimeoutSeconds cfg ≤ int64_max / Second → WriteTimeout (st_server s) = WriteTimeoutSeconds cfg * Second) ∧
  (0 ≤ VerificationTokenTTLHours cfg ≤ int64_max / Hour →
     Auth.verificationTTL (authSvc (st_app s)) =
       (if VerificationTokenTTLHours cfg =? 0 then 24 else VerificationTokenTTLHours cfg) * Hour) ∧
  (- (int64_max / Hour) ≤ VerificationTokenTTLHours cfg < 0 →
     Auth.verificationTTL (authSvc (st_app s)) < 0).
Proof.
  intros Hl%loadConfig_positive. destruct Hl as [Hr Hw]. intros <-%(inj Ok).
  cbn [st_app st_server ReadTimeout WriteTimeout authSvc]. split_and!.
  1, 2: intros; apply duration_exact; [done|lia].
  - intros Ht. cbn [Auth.NewService Auth.verificationTTL]. unfold verificationTTL. rewrite duration_exact by (done || lia).
    unfold Hour, Second. destruct (Z.eqb_spec (VerificationTokenTTLHours cfg) 0) as [->|Hne]; [done|].
    destruct (Z.eqb_spec (VerificationTokenTTLHours cfg * (3600 * 10 ^ 9)) 0) as [Hz|Hz]; [lia|].
    by rewrite (proj2 (Z.eqb_neq _ _) Hz).
  - intros Ht. cbn [Auth.NewService Auth.verificationTTL]. unfold verificationTTL, duration, wrap64.
    rewrite Z.mod_small by (unfold Hour, Second, int64_max in *; lia). unfold Hour, Second, int64_max in *.
    set (t := _ + 2 ^ 63 - 2 ^ 63). assert (t < 0) as Hneg by (unfold t; lia).
    destruct (Z.eqb_spec t 0); [lia|]. destruct (Z.eqb_spec t 0); [lia|done].
Qed.
End Startup.
End Startup.
