(* ===== verification/Process.v ===== *)
(** * The life of the server

    [main] of [backend/cmd/bobberd/main.go] from the first line to the last,
    and [backend/internal/persistence/postgres.go]: the boot, the goroutine
    that listens, the signal, the shutdown with its deadline and the closing of
    the pool, as a step relation around the goroutines of the requests. *)

From S2P Require Import Prelude.
From S2P Require Import GoStrings.
From S2P Require Import GoTime.
From S2P Require Import GoValue.
From S2P Require Import Float64.
From S2P Require Import RateLimit.
From S2P Require Import Uuid.
From S2P Require Import Schema.
From S2P Require Import Invariant.
From S2P Require Import World.
From S2P Require Import Auth.
From S2P Require Import AdapterBase.
From S2P Require Import Server.
From S2P Require Import Handlers.
From S2P Require Import Observability.
From S2P Require Import Startup.

Open Scope string_scope.
Open Scope Z_scope.

(** [pgxpool]: making a pool and trying its connection. *)
Class Pgxpool := {
  PgPool : Type;
  pgxpool_New : string → result goerr PgPool;
  pool_Ping : PgPool → option goerr
}.

(** ** The handle of the database *)
Module Postgres.
Section Postgres.
Context {Pg : Pgxpool}.

Record DB := MkDB { pool : option PgPool }.

(** [db.Pool()], of a pointer that may be nil. *)
Definition Pool (db : option DB) : option PgPool := match db with None => None | Some db => pool db end.

(** The handle or the error, and the pools that were closed. *)
Definition NewDB (dsn : string) : result goerr DB * list PgPool :=
  match pgxpool_New dsn with
  | Err e => (Err (WrapError "create pgx pool" e), [])
  | Ok pool =>
      match pool_Ping pool with
      | Some e => (Err (WrapError "ping postgres" e), [pool])
      | None => (Ok (MkDB (Some pool)), [])
      end
  end.

(** The pools that [db.Close()] closes. *)
Definition Close (db : option DB) : list PgPool := match Pool db with None => [] | Some pool => [pool] end.
End Postgres.
End Postgres.

Module Process.

(** ** The state of the process *)
Inductive ending :=
| Panicked (e : goerr)
| Fatal (msg : string) (e : goerr)
| Killed
| Finished.

Inductive phase_t :=
| Launched
| Serving
| Draining (deadline : Z)
| Returned
| Ended (how : ending).

Inductive listener_t := Unbound | Listening | Closed.

Inductive log_entry := Info (msg : string) | Error (msg : string) (e : goerr).

Section Process.
Context {FC : FloatConversion} {U : UuidPkg} {C : Citext} {E : Env} {UT : UnicodeTables}.
Context {B : Bcrypt} {A2 : Argon2} {J : Jwt} {Pr : Prometheus} {Ze : Zerolog} {Pg : Pgxpool}.

Record state := MkState {
  phase : phase_t;
  listener : listener_t;
  requests : list (prog Response);   (* one goroutine for each accepted request *)
  world : World;
  closed : list PgPool;                (* the pools that were closed *)
  wall : Z;
  log : list log_entry
}.

(** ** The boot

    [read] and [decoded] are what viper makes of the configuration, [d] the
    contents of the database. *)
Record booted := MkBooted { b_started : Startup.started; b_handle : Postgres.DB; b_logger : Observability.Logger }.

Definition boot (read : option goerr) (decoded : result goerr Startup.config) (d : DB) : result ending booted :=
  match Startup.loadConfig read decoded with
  | Err e => Err (Panicked e)
  | Ok cfg =>
      let logger := Observability.SetupLogger (Startup.Level cfg) (Startup.LogFormat cfg) in
      match Observability.NewMetrics (Some NewRegistry) with
      | None => Err (Panicked (ExternalError "prometheus"))
      | Some _ =>
          match (Postgres.NewDB (Startup.DSN cfg)).1 with
          | Err e => Err (Fatal "failed to connect postgres" e)
          | Ok h =>
              match Startup.main cfg (Ok d) with
              | Err e => Err (Fatal "failed to connect postgres" e)
              | Ok s => Ok (MkBooted s h logger)
              end
          end
      end
  end.

(** The process once it has started the goroutine that listens. *)
Definition init (b : booted) (now : Z) : state :=
  MkState Launched Unbound [] (Startup.st_world (b_started b)) [] now [Info "protocol adapters registered"].

(** ** Steps *)
Definition with_phase (p : phase_t) (s : state) : state :=
  MkState p (listener s) (requests s) (world s) (closed s) (wall s) (log s).
Definition with_listener (l : listener_t) (s : state) : state :=
  MkState (phase s) l (requests s) (world s) (closed s) (wall s) (log s).
Definition with_requests (ps : list (prog Response)) (w : World) (s : state) : state :=
  MkState (phase s) (listener s) ps w (closed s) (wall s) (log s).
Definition with_closed (l : list PgPool) (s : state) : state :=
  MkState (phase s) (listener s) (requests s) (world s) l (wall s) (log s).
Definition with_wall (t : Z) (s : state) : state :=
  MkState (phase s) (listener s) (requests s) (world s) (closed s) t (log s).
Definition logging (m : log_entry) (s : state) : state :=
  MkState (phase s) (listener s) (requests s) (world s) (closed s) (wall s) (m :: log s).

Definition running (s : state) : bool := match phase s with Ended _ => false | _ => true end.

(** A request is answered when its goroutine has its response. *)
Definition answered (p : prog Response) : bool := match p with Ret _ => true | _ => false end.

Section Steps.
Variables (a : app) (h : Postgres.DB).

(** [srv.Shutdown] closes the listener, waits until every request is answered
    or the context is done, and [main] returns through its deferred calls.  A
    signal before [signal.Notify] ends the process, and so does an error of
    [ListenAndServe], which after a shutdown is [ErrServerClosed].  New
    requests come as long as the server listens. *)
Inductive step : state → state → Prop :=
| step_notify s : phase s = Launched → step s (with_phase Serving s)
| step_killed s : phase s = Launched → step s (with_phase (Ended Killed) s)
| step_listen s : running s = true → listener s = Unbound →
    step s (logging (Info "bobberd listening") (with_listener Listening s))
| step_fail s e : running s = true → listener s ≠ Closed →
    step s (with_phase (Ended (Fatal "server stopped unexpectedly" e)) s)
| step_request s ps w : running s = true →
    pool_step (serves a) (requests s, world s) (ps, w) → (listener s = Listening ∨ length ps = length (requests s)) →
    step s (with_requests ps w s)
| step_time s t : running s = true → wall s ≤ t → step s (with_wall t s)
| step_signal s : phase s = Serving →
    step s (logging (Info "shutdown signal received, draining connections")
              (with_listener Closed (with_phase (Draining (wall s + 15 * Second)) s)))
| step_drained s d : phase s = Draining d → forallb answered (requests s) = true → step s (with_phase Returned s)
| step_timeout s d e : phase s = Draining d → d ≤ wall s →
    step s (logging (Error "graceful shutdown failed" e) (with_phase Returned s))
| step_close s : phase s = Returned →
    step s (with_closed (Postgres.Close (Some h) ++ closed s) (with_phase (Ended Finished) s)).
End Steps.

(** ** Lemmas *)
Section Lemmas.
Variables (a : app) (h : Postgres.DB).
Implicit Types s : state.

(** What happens to the requests is a run of the goroutines of [Handlers]. *)
Lemma step_pool s s' : step a h s s' → rtc (pool_step (serves a)) (requests s, world s) (requests s', world s').
Proof. intros Hst. destruct Hst; try apply rtc_refl. by apply rtc_once. Qed.

Lemma steps_pool s s' : rtc (step a h) s s' → rtc (pool_step (serves a)) (requests s, world s) (requests s', world s').
Proof. induction 1 as [s|s1 s2 s3 Hst _ IH]; [apply rtc_refl|]. etransitivity; [by apply step_pool|done]. Qed.

(** Answered requests stay as they are, when no request comes. *)
Lemma answered_still ps w ps' w' : forallb answered ps = true → pool_step (serves a) (ps, w) (ps', w') →
  length ps' = length ps → forallb answered ps' = true.
Proof.
  intros Hps Hst Hl. inversion Hst as [ps1 ps2 B' op k w1|ps1 w1 p Hp]; subst.
  - rewrite forallb_app in Hps. cbn in Hps. by rewrite andb_false_r in Hps.
  - rewrite length_app in Hl. cbn in Hl. lia.
Qed.

Definition signalled s : Prop := Info "shutdown signal received, draining connections" ∈ log s.
Definition shutdown_failed s : Prop := ∃ e, Error "graceful shutdown failed" e ∈ log s.
Definition drained s : Prop := forallb answered (requests s) = true ∨ shutdown_failed s.

(** What the phase says about the rest of the state. *)
Definition phase_ok s : Prop :=
  match phase s with
  | Launched | Serving | Ended (Panicked _ | Fatal _ _ | Killed) => closed s = []
  | Draining _ => closed s = [] ∧ listener s = Closed ∧ signalled s
  | Returned => closed s = [] ∧ listener s = Closed ∧ signalled s ∧ drained s
  | Ended Finished => closed s = Postgres.Close (Some h) ∧ signalled s ∧ drained s
  end.

Lemma step_phase_ok s s' : step a h s s' → phase_ok s → phase_ok s'.
Proof.
  unfold phase_ok, signalled, drained, shutdown_failed.
  intros [s1 Hp|s1 Hp|s1 Hr Hl|s1 e Hr Hl|s1 ps w Hr Hst Hl|s1 t Hr Ht|s1 Hp|s1 dl Hp Ha|s1 dl e Hp Hd|s1 Hp];
    cbn [phase with_phase with_listener with_requests with_closed with_wall logging closed listener log requests];
    try rewrite Hp; try done.
  - unfold running in Hr. destruct (phase s1) as [| |dl| |[]]; try done; rewrite Hl; by intros (_ & ? & _).
  - unfold running in Hr. destruct (phase s1) as [| |dl| |[]]; try done; by intros (_ & ? & _).
  - unfold running in Hr. destruct (phase s1) as [| |dl| |[]]; try done; [].
    intros (? & Hcl & ? & [Hans|?]); split_and!; try done; [|by right].
    left. rewrite Hcl in Hl. destruct Hl as [?|Hl]; [done|]. by eapply answered_still.
  - intros Hc. split_and!; try done. by left.
  - intros (? & ? & ?). split_and!; try done. by left.
  - intros (? & ? & ?). split_and!; try done; [by right|]. right. exists e. by left.
  - intros (-> & ? & ? & ?). by rewrite app_nil_r.
Qed.

Lemma steps_phase_ok s s' : rtc (step a h) s s' → phase_ok s → phase_ok s'.
Proof. induction 1; [done|]. intros. by eauto using step_phase_ok. Qed.

(** One request runs to its answer. *)
Lemma answer_one p : ∀ s ps1 ps2, running s = true → requests s = (ps1 ++ p :: ps2)%list →
  rtc (step a h) s (with_requests (ps1 ++ Ret (run p (world s)).1 :: ps2) (run p (world s)).2 s).
Proof.
  induction p as [x|X op k IH]; intros s ps1 ps2 Hr Hps.
  - cbn. rewrite <-Hps. by destruct s.
  - eapply rtc_l; [eapply step_request; [done|rewrite Hps; apply step_thread|right; by rewrite Hps, !length_app]|].
    cbn [run]. destruct (op (world s)) as [b w1] eqn:Hop. cbn [fst snd].
    apply (IH b (with_requests (ps1 ++ k b :: ps2) w1 s) ps1 ps2); [done|reflexivity].
Qed.

Lemma answer_all ps2 : ∀ s ps1, running s = true → requests s = (ps1 ++ ps2)%list → forallb answered ps1 = true →
  ∃ ps w, rtc (step a h) s (with_requests ps w s) ∧ forallb answered ps = true ∧ length ps = length (requests s).
Proof.
  induction ps2 as [|p ps2 IH]; intros s ps1 Hr Hps Ha.
  - rewrite app_nil_r in Hps. exists (requests s), (world s). rewrite Hps. split_and!; [|done..]. rewrite <-Hps. by destruct s.
  - pose proof (answer_one p s ps1 ps2 Hr Hps) as H1. set (s1 := with_requests _ _ s) in H1.
    destruct (IH s1 (ps1 ++ [Ret (run p (world s)).1])%list) as (ps & w & H2 & Ha2 & Hl2);
      [done|unfold s1; cbn; by rewrite <-app_assoc|by rewrite forallb_app, Ha|].
    exists ps, w. split_and!; [by etransitivity|done|]. rewrite Hl2, Hps. unfold s1. cbn. by rewrite !length_app.
Qed.

End Lemmas.

Lemma boot_handle read decoded d b : boot read decoded d = Ok b →
  (∃ p, Postgres.pool (b_handle b) = Some p) ∧ w_db (Startup.st_world (b_started b)) = d.
Proof.
  unfold boot. destruct (Startup.loadConfig read decoded) as [cfg|e]; [|done]. destruct (Observability.NewMetrics _) as [m|]; [|done].
  unfold Postgres.NewDB. destruct (pgxpool_New _) as [p|e]; [|done]. destruct (pool_Ping p); [done|].
  cbn [fst]. intros <-%(inj Ok). split; [by eexists|done].
Qed.

(** ** Properties *)

(** C9 From the boot to the end of the process, whatever requests come and however
    they interleave: the database keeps its invariant and no user,
    conversation, group or message is lost; the pool is closed once, by the
    process that ends of itself and at its very end, so that no request runs
    on a closed pool; and a process that ended so had been told to, and has
    answered every request it accepted unless it reported that the shutdown
    failed. *)
Theorem process_safe read decoded d b now s :
  boot read decoded d = Ok b → db_inv d →
  rtc (step (Startup.st_app (b_started b)) (b_handle b)) (init b now) s →
  world_inv (world s) ∧ world_le (Startup.st_world (b_started b)) (world s) ∧
  (phase s ≠ Ended Finished → closed s = []) ∧
  (phase s = Ended Finished → (∃ p, Postgres.pool (b_handle b) = Some p ∧ closed s = [p]) ∧ signalled s ∧
     (forallb answered (requests s) = true ∨ shutdown_failed s)).
Proof.
  intros Hb Hd Hst. destruct (boot_handle _ _ _ _ Hb) as [[p Hp] Hw].
  pose proof (steps_phase_ok _ _ _ _ Hst eq_refl) as Hok. apply steps_pool in Hst.
  destruct (pool_invariant (serves (Startup.st_app (b_started b))) any_result [] [] _ _ _ ltac:(
    intros q w (rt & r & ->) Hi; eapply wp_mono; [|by apply registerRoutes_behaves]; done) Hst) as (Hi & Hl & _);
    [unfold world_inv; cbn; by rewrite Hw|done|].
  split; [done|]. split; [done|]. unfold phase_ok in Hok. split; intros Hph.
  - destruct (phase s) as [| |dl| |[]]; by destruct_and?.
  - rewrite Hph in Hok. destruct Hok as (Hc & Hs & Ha). split_and!; [|done..]. exists p. split; [done|].
    rewrite Hc. unfold Postgres.Close, Postgres.Pool. by rewrite Hp.
Qed.

(** A shutdown always comes to its end: the server can answer every request it
    accepted and then finish, without an error and with no time passing beyond
    what the requests take; and once the fifteen seconds are over it can finish
    at once, the requests left as they are. *)
Theorem shutdown_completes a h s dl : phase s = Draining dl →
  (∃ s', rtc (step a h) s s' ∧ phase s' = Ended Finished ∧ wall s' = wall s ∧ log s' = log s ∧
     forallb answered (requests s') = true ∧ length (requests s') = length (requests s)) ∧
  (dl ≤ wall s → ∃ s', rtc (step a h) s s' ∧ phase s' = Ended Finished ∧ requests s' = requests s ∧ world s' = world s).
Proof.
  intros Hp. assert (running s = true) as Hr by (unfold running; by rewrite Hp). split.
  - destruct (answer_all a h (requests s) s []) as (ps & w & Hst & Ha & Hl); [done..|].
    eexists. split_and!; [etransitivity; [exact Hst|]|..].
    + eapply rtc_l; [by eapply step_drained|]. apply rtc_once. by apply step_close.
    + done.
    + done.
    + done.
    + done.
    + done.
  - intros Hw. eexists. split_and!; [|..].
    + eapply rtc_l; [by eapply (step_timeout a h s dl (ExternalError "context deadline exceeded"))|].
      apply rtc_once. by apply step_close.
    + done.
    + done.
    + done.
Qed.
End Process.
End Process.
