(* ===== verification/Examples.v ===== *)
(** * Examples

    Concrete instances of the parameters (the packages bcrypt, argon2 and jwt)
    that satisfy their laws, small databases built by the program itself, and
    for each property with hypotheses an instance in which they hold. *)

From S2P Require Import Prelude.
From S2P Require Import GoStrings.
From S2P Require Import Protocol.
From S2P Require Import GoTime.
From S2P Require Import GoValue.
From S2P Require Import Envelope.
From S2P Require Import Float64.
From S2P Require Import RateLimit.
From S2P Require Import Uuid.
From S2P Require Import Models.
From S2P Require Import Schema.
From S2P Require Import Invariant.
From S2P Require Import Statements.
From S2P Require Import World.
From S2P Require Import Repositories.
From S2P Require Import RepositorySpecs.
From S2P Require Import Conversation.
From S2P Require Import Registry.
From S2P Require Import Base64.
From S2P Require Import Auth.
From S2P Require Import AdapterBase.
From S2P Require Import Server.
From S2P Require Import Handlers.

Open Scope string_scope.
Open Scope Z_scope.

Module Toy.
Import Example.

#[global] Instance no_unicode : UnicodeTables := λ s, s.

#[global] Instance bcrypt : Bcrypt := {
  bcrypt_DefaultCost := 10;
  bcrypt_GenerateFromPassword _ p _ := Ok ("hash of " +:+ p);
  bcrypt_CompareHashAndPassword h p :=
    if String.eqb h ("hash of " +:+ p) then None else Some (NewError "mismatch")
}.

(** The first [n] bytes of the password, padded. *)
Fixpoint pad (n : nat) (s : string) : string :=
  match n with
  | O => ""
  | S n => match s with "" => String "." (pad n "") | String a s => String a (pad n s) end
  end.

Lemma pad_length n s : String.length (pad n s) = n.
Proof. revert s. induction n as [|n IH]; intros s; [done|]. by destruct s; cbn; rewrite IH. Qed.

#[global] Instance argon2 : Argon2 := {
  argon2_Version := 19;
  argon2_IDKey p s t m th n := pad (Z.to_nat n) p
}.

#[global] Instance argon2_laws : Argon2Laws.
Proof. split; [done|]. intros. cbn. rewrite pad_length. lia. Qed.

(** A token that spells out its method, key and claims; claims it cannot
    spell are refused. *)
Definition decode_token (tok : string) : option (string * string * jwtTokenClaims) :=
  match Split tok "|" with
  | [alg; key; uid; sub; iat; exp] =>
      iat ← Atoi iat; exp ← Atoi exp; Some (alg, key, MkClaims uid sub iat exp)
  | _ => None
  end.

Definition encode_token (alg : string) (c : jwtTokenClaims) (key : string) : string :=
  Join [alg; key; claims_UserID c; claims_Subject c; Itoa (claims_IssuedAt c); Itoa (claims_ExpiresAt c)] "|".

#[global] Instance claims_eq_dec : EqDecision jwtTokenClaims.
Proof. solve_decision. Defined.

#[global] Instance jwt : Jwt := {
  jwt_NewNumericDate t := t / Second * Second;
  jwt_SignedString alg c key :=
    let tok := encode_token alg c key in
    if bool_decide (decode_token tok = Some (alg, key, c)) && is_graph tok && negb (String.eqb tok "")
    then Ok (encode_token alg c key) else Err (NewError "unprintable claims");
  jwt_ParseWithClaims keyfunc now tok :=
    match decode_token tok with
    | None => Err (NewError "malformed")
    | Some (alg, key, c) =>
        match keyfunc alg with
        | Err e => Err e
        | Ok k => if String.eqb k key && (now <? claims_ExpiresAt c) then Ok (c, true)
                  else Err (NewError "signature or expiry")
        end
    end
}.

#[global] Instance jwt_laws : JwtLaws.
Proof.
  split.
  - done.
  - intros alg c key tok keyfunc now _ _. cbn -[encode_token decode_token is_graph]. case_bool_decide as Hd; cbn [andb]; [|done].
    destruct (is_graph _ && _); [|done]. intros [= <-] Hk Hn. rewrite Hd, Hk, String.eqb_refl. by replace (now <? claims_ExpiresAt c) with true by lia.
  - intros alg c key tok. cbn -[encode_token decode_token is_graph]. destruct (bool_decide _); cbn [andb]; [|done].
    destruct (is_graph (encode_token alg c key)) eqn:Hg; cbn [andb]; [|done].
    destruct (String.eqb_spec (encode_token alg c key) ""); [done|]. by intros [= <-].
  - intros keyfunc now tok r. cbn. destruct (decode_token tok) as [[[alg key] c]|]; [|done].
    destruct (keyfunc alg) as [k|] eqn:Hk; [|done]. intros _. by exists alg, k.
Qed.

(** ** A server and its first user *)
Definition auth : Auth.Service := Auth.NewService true "secret-key" true 0.
Definition server : app := MkApp auth true true ∅ true true.

Definition alice : uuid := "A"%char.
Definition bob : uuid := "B"%char.
Definition alice_row (token : option string) (expires : option Z) : User :=
  MkUser alice "alice@example.org" "hash of wonderland" 0 true token expires.
Definition db0 : DB := set_users empty_DB {[ alice := alice_row (Some "abc") (Some (2000000000 * Second)) ]}.
Definition w0 : World := world db0.

Lemma w0_inv : world_inv w0.
Proof.
  apply set_users_ok; [apply empty_inv|..].
  - split; [by apply map_Forall_singleton|]. intros i j x y k Hi Hj _ _.
    apply lookup_singleton_Some in Hi as [<- _], Hj as [<- _]. done.
  - intros k x Hx. cbn in Hx. by rewrite lookup_empty in Hx.
Qed.

(** ** Authentication *)
Definition login : prog (result goerr (string * User)) := Auth.LoginUser auth " Alice@example.org" "wonderland".

Lemma LoginUser_ValidateJWT_witness :
  ∃ tok u w', run login w0 = (Ok (tok, u), w') ∧
    run (Auth.ValidateJWT auth tok) w' = (Ok (uuid_String (user_ID u)), tick w').
Proof.
  destruct (is_ok_inv (run login w0).1) as [[tok u] Hr]; [vm_compute; reflexivity|].
  exists tok, u, (run login w0).2.
  assert (run login w0 = (Ok (tok, u), (run login w0).2)) as Hrun by (rewrite <-Hr; apply surjective_pairing).
  split; [exact Hrun|].
  apply (Auth.LoginUser_ValidateJWT auth " Alice@example.org" "wonderland" w0 tok u (run login w0).2 (run login w0).2).
  - discriminate.
  - exact Hrun.
  - vm_compute. reflexivity.
Defined.

Definition verify : prog (result goerr User) := Auth.VerifyEmail auth "abc".

Definition register : prog (result goerr User) := Auth.RegisterUser auth "bob@example.org" "builder".

Lemma RegisterUser_no_login_witness :
  ∃ u tok u2, (run register w0).1 = Ok u ∧ (run login (run register w0).2).1 = Ok (tok, u2) ∧
    user_ID u2 ≠ user_ID u.
Proof.
  destruct (is_ok_inv (run register w0).1) as [u Hr]; [vm_compute; reflexivity|].
  destruct (is_ok_inv (run login (run register w0).2).1) as [[tok u2] Hl]; [vm_compute; reflexivity|].
  exists u, tok, u2. split; [exact Hr|]. split; [exact Hl|].
  apply (Auth.RegisterUser_no_login auth "bob@example.org" "builder" w0 u (run register w0).2
    auth " Alice@example.org" "wonderland" tok u2 (run login (run register w0).2).2).
  - exact w0_inv.
  - rewrite <-Hr. apply surjective_pairing.
  - rewrite <-Hl. apply surjective_pairing.
Defined.

Lemma decodeArgon2Hash_encode_witness :
  Auth.decodeArgon2Hash (Auth.encode_argon2 "salt, 16 bytes.." "key") =
    Ok (65536, 3, 2, "salt, 16 bytes..", "key").
Proof. apply (Auth.decodeArgon2Hash_encode "salt, 16 bytes.." "key"). Defined.

Lemma verifySecretArgon2id_spec_witness :
  let hash := Auth.encode_argon2 "salt, 16 bytes.." (argon2_IDKey "s3cret" "salt, 16 bytes.." 3 65536 2 32) in
  Auth.verifySecretArgon2id hash "s3cret" = true ∧ Auth.verifySecretArgon2id hash "guess" = false.
Proof.
  split.
  - apply (Auth.verifySecretArgon2id_spec "s3cret" "salt, 16 bytes.." "s3cret"). reflexivity.
  - apply not_true_is_false. intros H.
    apply (Auth.verifySecretArgon2id_spec "s3cret" "salt, 16 bytes.." "guess") in H. discriminate H.
Defined.

Definition create_agent (name : string) : prog (result goerr (Agent * string)) :=
  Auth.CreateAgent auth (uuid_String alice) name.

Lemma CreateAgent_ValidateAPISecret_witness :
  ∃ a secret, (run (create_agent "bot") w0).1 = Ok (a, secret) ∧
    is_ok (run (Auth.ValidateAPISecret auth (uuid_String (agent_ID a)) secret) (run (create_agent "bot") w0).2).1 = true.
Proof.
  destruct (is_ok_inv (run (create_agent "bot") w0).1) as [[a secret] Hr]; [vm_compute; reflexivity|].
  exists a, secret. split; [exact Hr|].
  destruct (Auth.CreateAgent_ValidateAPISecret auth (uuid_String alice) "bot" w0 a secret
    (run (create_agent "bot") w0).2) as [salt Hs].
  - rewrite <-Hr. apply surjective_pairing.
  - reflexivity.
  - apply Hs; [|reflexivity].
    assert (match (run (create_agent "bot") w0).1 with Ok (_, s) => negb (String.eqb s "") | _ => false end = true)
      as Hne by (vm_compute; reflexivity).
    rewrite Hr in Hne. apply negb_true_iff, String.eqb_neq in Hne. exact Hne.
Defined.

Definition w_agent : World := (run (create_agent "bot") w0).2.
Definition agent_id : string := uuid_String (env_uuid 2).
Definition rotate : prog (result goerr string) := Auth.RotateSecret auth agent_id.

Lemma RotateSecret_replaces_witness :
  ∃ secret, (run rotate w_agent).1 = Ok secret ∧
    (secret ≠ "" → is_ok (run (Auth.ValidateAPISecret auth agent_id secret) (run rotate w_agent).2).1 = true).
Proof.
  destruct (is_ok_inv (run rotate w_agent).1) as [secret Hr]; [vm_compute; reflexivity|].
  exists secret. split; [exact Hr|]. intros Hne.
  destruct (Auth.RotateSecret_replaces auth agent_id w_agent secret (run rotate w_agent).2) as [salt Hs].
  - apply (behaves_run (create_agent "bot") w0); [apply CreateAgent_behaves|apply w0_inv].
  - rewrite <-Hr. apply surjective_pairing.
  - reflexivity.
  - apply Hs; [exact Hne|reflexivity].
Defined.

Definition discover : prog (result goerr (list Agent)) :=
  Registry.Discover true (Registry.MkQuery ["request.data"] 5).

Lemma Discover_newest_witness :
  ∃ l, (run discover w_agent).1 = Ok l ∧
    length l = Nat.min 5 (size (agents (w_db (run discover w_agent).2))).
Proof.
  destruct (is_ok_inv (run discover w_agent).1) as [l Hl]; [vm_compute; reflexivity|].
  exists l. split; [exact Hl|].
  assert (world_inv w_agent) as Hi.
  { apply (behaves_run (create_agent "bot") w0); [apply CreateAgent_behaves|apply w0_inv]. }
  destruct (wp_run _ _ w_agent Hi (Registry.Discover_newest true ["request.data"] 5 w_agent Hi)) as ((_ & _ & Hp) & _).
  fold discover in Hp. rewrite Hl in Hp. apply Hp.
Defined.

(** ** Publication *)
Definition tight : Ratelimit.Config :=
  Ratelimit.MkConfig (f64_of_Z 1) (f64_of_Z 1) (f64_of_Z 1) 1 300 true.
Definition with_limiter (l : Ratelimit.Limiter) (w : World) : World :=
  MkWorld (w_db w) (w_steps w) (w_outbox w) l (w_rate_limited w).
Definition env1 : Envelope :=
  MkEnvelope (uuid_String (env_uuid 40)) (uuid_String alice) (uuid_String bob) "request.data" "hello" (Some ∅)
    "2024-01-01T00:00:00Z".

(** The only token of the sender, then of the tag, is already spent. *)
Definition w_sender : World := with_limiter
  (Ratelimit.Allow (Ratelimit.New tight) (env_now 0) Ratelimit.DimensionAgent (Ratelimit.AgentKey (From env1))).2 w0.
Definition w_tag : World := with_limiter
  (Ratelimit.Allow (Ratelimit.New tight) (env_now 1) Ratelimit.DimensionTag (Ratelimit.TagKey "request.data")).2 w0.

Lemma publish_sender_limited_witness :
  ∃ w', run (publishAndAudit server env1) w_sender = (Err errRateLimited, w') ∧ w_db w' = w_db w_sender ∧
    w_rate_limited w' = [(Ratelimit.DimensionAgent, Ratelimit.AgentKey (From env1))].
Proof.
  destruct (publish_sender_limited server env1 w_sender) as (w' & Hr & Hdb & Hc & _).
  - reflexivity.
  - vm_compute. reflexivity.
  - exists w'. split; [exact Hr|]. split; [exact Hdb|exact Hc].
Defined.

Lemma publish_tag_limited_witness :
  ∃ w', run (publishAndAudit server env1) w_tag = (Err errRateLimited, w') ∧ w_db w' = w_db w_tag.
Proof.
  destruct (publish_tag_limited server env1 w_tag) as (w' & Hr & Hdb & _).
  - reflexivity.
  - vm_compute. reflexivity.
  - vm_compute. reflexivity.
  - vm_compute. reflexivity.
  - exists w'. split; [exact Hr|exact Hdb].
Defined.

Definition anonymous : Request := MkHttpRequest (λ _, "") (λ _, "") "192.0.2.1:9".

Lemma requireAuth_no_credentials_witness :
  run (registerRoutes server (DELETE_agents agent_id) anonymous) w_agent =
    (writeError StatusUnauthorized (RErr (NewError "invalid credentials")), w_agent).
Proof.
  apply (requireAuth_no_credentials server true false (handleDeleteAgent server agent_id) anonymous w_agent).
  - reflexivity.
  - left. reflexivity.
Defined.

(** One request served to its end by a pool. *)
Lemma server_invariant_witness :
  let p := registerRoutes server (POST_auth_register (Ok (MkCredentialsReq "bob@example.org" "builder"))) anonymous in
  status (run p w0).1 = StatusCreated ∧ world_inv (run p w0).2 ∧ world_le w0 (run p w0).2.
Proof.
  intros p. split; [vm_compute; reflexivity|].
  apply (server_invariant server [p] w0 [Ret (run p w0).1] (run p w0).2).
  - exact w0_inv.
  - apply Forall_singleton. by eexists _, _.
  - apply (pool_run (serves server) [] p [] w0).
Defined.

(** ** Messages *)
Definition open_dm : prog (result goerr Conversation) :=
  Conversation.GetOrCreateDirect true alice bob "user" "user".
Definition w_dm : World := (run open_dm w0).2.
Definition dm : uuid := env_uuid 1.

Lemma w_dm_inv : world_inv w_dm.
Proof. apply (behaves_run open_dm w0); [apply GetOrCreateDirect_behaves|exact w0_inv]. Qed.

Lemma w_dm_direct : Conversation.direct_between alice bob (w_db w_dm) dm.
Proof.
  destruct (some_test_inv (λ c, String.eqb (conv_Type c) ConversationTypeDirect && has_pair alice bob c)
    (conversations (w_db w_dm) !! dm)) as (c & Hc & Ht); [vm_compute; reflexivity|].
  apply andb_true_iff in Ht as [Ht%String.eqb_eq Hp]. exists c. split; [exact Hc|]. split; [exact Ht|].
  left. by apply bool_decide_eq_true in Hp.
Qed.

Definition message : Message :=
  MkMessage (env_uuid 50) alice dm "user" "request.data" "hello" (Some ∅) (1700000000 * Second).

Lemma Save_atomic_witness :
  is_ok (run (Messages.Save message) w_dm).1 = true ∧
  ((w_db (run (Messages.Save message) w_dm).2 = w_db w_dm ∧ is_ok (run (Messages.Save message) w_dm).1 = false) ∨
   ∃ out, saved message out (w_db (run (Messages.Save message) w_dm).2) ∧
     (is_ok (run (Messages.Save message) w_dm).1 = true → (run (Messages.Save message) w_dm).1 = Ok out)).
Proof.
  split; [vm_compute; reflexivity|].
  apply (Save_atomic message w_dm (run (Messages.Save message) w_dm).1 (run (Messages.Save message) w_dm).2).
  - exact w_dm_inv.
  - apply surjective_pairing.
Defined.

Lemma replay_misses_conversation_witness :
  spec (publishAndAudit server (replay_envelope message "again" (uuid_String (env_uuid 60)) "2024-01-01T00:00:00Z"))
    w_dm (on_ok (λ c w', chat_groups (w_db w') !! dm = None → c ≠ dm)).
Proof.
  apply (replay_misses_conversation server message "again" (uuid_String (env_uuid 60)) "2024-01-01T00:00:00Z" bob w_dm).
  - exact w_dm_direct.
  - discriminate.
  - discriminate.
Defined.

(** ** Connections *)
Definition w_agents : World := (run (create_agent "other") w_agent).2.
Definition secret : string :=
  match (run (create_agent "bot") w0).1 with Ok (_, s) => s | Err _ => "" end.
Definition as_agent : Request :=
  MkHttpRequest (λ h, if String.eqb h "X-Agent-ID" then agent_id
                      else if String.eqb h "X-API-Secret" then secret else "") (λ _, "") "192.0.2.1:9".
Definition ask : prog Response := registerRoutes server
  (POST_connections_request (Ok (MkConnectReq (uuid_String (env_uuid 7)) "" ""))) as_agent.
Definition w_asked : World := (run ask w_agents).2.

Lemma w_agents_inv : world_inv w_agents.
Proof.
  apply (behaves_run (create_agent "other") w_agent); [apply CreateAgent_behaves|].
  apply (behaves_run (create_agent "bot") w0); [apply CreateAgent_behaves|apply w0_inv].
Qed.

Lemma w_asked_inv : world_inv w_asked.
Proof. apply (behaves_run ask w_agents); [apply registerRoutes_behaves|apply w_agents_inv]. Qed.

Definition request_id : uuid := env_uuid 12.
Definition nobody : Ctx := MkCtx None None.

Lemma answered_not_pending_witness :
  status (run ask w_agents).1 = StatusCreated ∧
  status (run (handleConnectionReject (uuid_String request_id) anonymous nobody) w_asked).1 = StatusOK ∧
  ∀ l, select_pending (env_uuid 7) EntityTypeAgent
         (w_db (run (handleConnectionReject (uuid_String request_id) anonymous nobody) w_asked).2) = Ok l →
    ∀ x, x ∈ l → req_ID x ≠ request_id.
Proof.
  split; [vm_compute; reflexivity|].
  destruct (some_test_inv (λ q, true) (connection_requests (w_db w_asked) !! request_id)) as (q & Hq & _);
    [vm_compute; reflexivity|].
  assert (∀ l, let '(resp, w') := run (handleConnectionReject (uuid_String request_id) anonymous nobody) w_asked in
    status resp = StatusOK ∧
    (select_pending (env_uuid 7) EntityTypeAgent (w_db w') = Ok l → ∀ x, x ∈ l → req_ID x ≠ request_id)) as H.
  { intros l. apply (answered_not_pending false (uuid_String request_id) request_id q anonymous nobody w_asked
      (env_uuid 7) EntityTypeAgent l).
    - exact w_asked_inv.
    - reflexivity.
    - vm_compute. reflexivity.
    - exact Hq. }
  destruct (run _ w_asked) as [resp w']. split; [apply (H [])|]. intros l. apply (H l).
Defined.
End Toy.
