(* ===== verification/AdapterExamples.v ===== *)
(** * Examples for the protocol adapters

    Go's float conversion as amd64 does it, the notations the example [uuid]
    package refuses, and for each property of the adapters with hypotheses a
    message for which they hold. *)

From S2P Require Import Prelude.
From S2P Require Import GoStrings.
From S2P Require Import Protocol.
From S2P Require Import GoTime.
From S2P Require Import GoValue.
From S2P Require Import Envelope.
From S2P Require Import Float64.
From S2P Require Import Uuid.
From S2P Require Import Models.
From S2P Require Import Schema.
From S2P Require Import Invariant.
From S2P Require Import World.
From S2P Require Import Json.
From S2P Require Import JsonValue.
From S2P Require Import AdapterBase.
From S2P Require Import Mcp.
From S2P Require Import Grpc.
From S2P Require Import A2a.
From S2P Require Import Adapters.
From S2P Require Import Server.
From S2P Require Import Handlers.
From S2P Require Import Links.
From S2P Require Import Examples.

Open Scope string_scope.
Open Scope Z_scope.

Module Relay.
Import UuidExample Example Toy.

#[global] Instance amd64 : FloatConversion.
Proof. refine {| float_to_int_overflow _ := - 2 ^ 63 |}. done. Defined.

(** Every identifier is written with a leading zero. *)
Lemma parse_head s a r : s = String a r → a ≠ "0"%char → is_ok (UuidExample.parse s) = false.
Proof.
  intros -> Ha. unfold UuidExample.parse. destruct (List.find _ _) as [u|] eqn:Hf; [|done].
  apply find_some in Hf as [_ Hu%String.eqb_eq]. change (show u) with (String "0" (String.substring 1 100 (show u))) in Hu.
  congruence.
Qed.

#[global] Instance example_uuid_forms : UuidForms.
Proof.
  split.
  - intros name s Hn. repeat (apply elem_of_cons in Hn as [->|Hn]; [by eapply parse_head|]).
    by apply elem_of_nil in Hn.
  - by eapply parse_head.
Qed.
(** ** Messages as their senders write them *)
Definition meta : TransportMeta := MkMeta "" "192.0.2.1:9" (uuid_String alice) {[ "X-Target-Agent" := uuid_String bob ]}.

Definition str (k v : string) : string * json := (k, JStr v).
Definition call : string := print (JObj [str "jsonrpc" "2.0"; str "id" "7"; str "method" "tools/call";
  ("params", JObj [str "name" "grep"])]).
Definition ping : string := print (JObj [str "type" " unary"; str "service" "health"; str "method" "Ping"]).
Definition send (method : string) : string := print (JObj [str "method" method;
  ("params", JObj [("message", JObj [str "text" "list the files"])])]).

Lemma clock : four_digit_year (env_now (S (w_steps w0))).
Proof. apply (bool_decide_eq_true_1 (four_digit_year _)). vm_compute. reflexivity. Qed.

Lemma Mcp_Ingest_accepts_witness : is_ok (run (Mcp.Ingest call meta) w0).1 = true.
Proof.
  apply (Mcp.mcp_Ingest_accepts call meta w0 clock). eexists. split; [vm_compute; reflexivity|].
  split; [reflexivity|]. right. split; [reflexivity|]. split; [reflexivity|]. right. split; [discriminate|].
  split; [reflexivity|]. eexists. split; [vm_compute; reflexivity|vm_compute; discriminate].
Defined.

Lemma Grpc_Ingest_accepts_witness :
  is_ok (run (Grpc.Ingest ping meta) w0).1 = true ∧
  ∃ env msg, (run (Grpc.Ingest ping meta) w0).1 = Ok env ∧ Grpc.describes msg (EffectiveTag (Some env)).
Proof.
  destruct (Grpc.grpc_Ingest_accepts ping meta w0 clock) as [Hiff Htag].
  assert (is_ok (run (Grpc.Ingest ping meta) w0).1 = true) as Hok by (apply Hiff; vm_compute; reflexivity).
  split; [exact Hok|]. destruct (is_ok_inv _ Hok) as [env Henv]. destruct (Htag env Henv) as (msg & _ & Hd).
  exists env, msg. split; [exact Henv|exact Hd].
Defined.

Lemma A2a_Ingest_accepts_witness :
  is_ok (run (A2a.Ingest (send "message/send") meta) w0).1 = true ∧
  A2a.Validate (send " message/send") = None ∧ is_ok (run (A2a.Ingest (send " message/send") meta) w0).1 = false.
Proof.
  split.
  - apply (A2a.a2a_Ingest_accepts (send "message/send") meta w0 clock). eexists _, _.
    split; [vm_compute; reflexivity|]. apply A2a.describes_message; vm_compute; reflexivity.
  - eapply (A2a.a2a_Ingest_accepts (send " message/send") meta w0 clock).
    + vm_compute; reflexivity.
    + apply list_elem_of_here.
    + vm_compute. discriminate.
Defined.

(** ** Envelopes that are emitted and come back *)

Definition relayed (tag : string) (metadata : list (string * any)) : Envelope :=
  MkEnvelope (uuid_String (env_uuid 40)) (uuid_String alice) (uuid_String bob) tag "" (Some (list_to_map metadata))
    "2024-01-01T00:00:00Z".

Definition portableb (d : Z) (v : any) : bool :=
  json_ok v && match tree_of v with Some t => bool_decide (nesting t ≤ d) | None => true end.

Lemma portableb_true d v : portableb d v = true → portable d v.
Proof.
  unfold portableb. rewrite andb_true_iff. intros [Hok Hd]. split; [done|]. intros t Ht. rewrite Ht in Hd.
  by apply bool_decide_eq_true in Hd.
Qed.

(** Values the text of which can be computed. *)
Ltac portable := apply portableb_true; vm_compute; reflexivity.

Definition tool_call : Envelope :=
  relayed Tags.TagRequestAction [(MetaSysAction, AString "grep"); (MetaSysArgs, AMap {[ "pattern" := AString "TODO" ]})].

Lemma tool_call_sendable : sendable tool_call.
Proof.
  split; [vm_compute; reflexivity|]. intros k v Hv. rewrite (SystemMeta_eq tool_call _ k eq_refl) in Hv.
  apply elem_of_list_to_map_2 in Hv. repeat (apply elem_of_cons in Hv as [[= -> ->]|Hv]; [portable|]).
  by apply elem_of_nil in Hv.
Qed.

Lemma Mcp_Ingest_Emit_witness :
  ∃ raw env', Mcp.Emit (Some tool_call) = Ok raw ∧ (run (Mcp.Ingest raw meta) w0).1 = Ok env' ∧
    Mcp.carries tool_call env'.
Proof.
  destruct (is_ok_inv (Mcp.Emit (Some tool_call))) as [raw Hraw]; [vm_compute; reflexivity|].
  destruct (Mcp.mcp_Ingest_Emit tool_call raw meta w0 tool_call_sendable) as (env' & Hrun & Hc).
  - vm_compute. discriminate.
  - exact Hraw.
  - exact clock.
  - exists raw, env'. split; [exact Hraw|]. split; [exact Hrun|exact Hc].
Defined.

Definition stage : Envelope :=
  relayed Tags.TagProgressStage [(MetaSysRequestID, AString "7"); (MetaSysUpdate, AMap {[ "step" := AString "build" ]});
                                 (MetaSysPercentage, AInt 50)].

Lemma stage_emitted msg e : Grpc.emit_message stage = (Return (Ok msg), e) → Grpc.message_ok msg.
Proof.
  assert ((Grpc.emit_message stage).1 = Return (Ok (Grpc.MkMessage "stream" "" "" "7" (ID stage) "" 0 ""
    (Some (Grpc.with_progress stage {[ "step" := AString "build" ]}))))) as H by reflexivity.
  intros He. rewrite He in H. injection H as ->.
  split; [vm_compute; reflexivity..|intros b Hb; injection Hb as <-; portable].
Qed.

Lemma Grpc_Ingest_Emit_witness :
  ∃ raw env', (Grpc.Emit (Some stage)).1 = Return (Ok raw) ∧ (run (Grpc.Ingest raw meta) w0).1 = Ok env' ∧
    Grpc.carries stage env'.
Proof.
  assert (∃ raw, (Grpc.Emit (Some stage)).1 = Return (Ok raw)) as [raw Hraw].
  { destruct ((Grpc.Emit (Some stage)).1) as [[raw|]|] eqn:H; [by exists raw|vm_compute in H; discriminate..]. }
  destruct (Grpc.grpc_Ingest_Emit stage raw meta w0) as (env' & Hrun & Hc).
  - vm_compute. discriminate.
  - exact stage_emitted.
  - exact Hraw.
  - exact clock.
  - exists raw, env'. split; [exact Hraw|]. split; [exact Hrun|exact Hc].
Defined.

Definition failed : Envelope :=
  relayed Tags.TagResponseError [(MetaSysTaskID, AString "build-1"); (MetaSysCode, AString "42");
                                 (MetaSysMessage, AString "no space left")].

Lemma failed_emitted msg : A2a.emit_message failed = Ok msg → A2a.message_ok msg.
Proof.
  assert (A2a.emit_message failed = Ok (A2a.MkMessage "task/update" (AString (ID failed)) (Some
    (A2a.with_result (Some (AMap (A2a.failure_result failed))) (A2a.task_params failed "failed"))))) as ->
    by reflexivity.
  intros H. injection H as <-. split; [vm_compute; reflexivity|portable|intros p Hp; injection Hp as <-; portable].
Qed.

Lemma A2a_Ingest_Emit_witness :
  ∃ raw env', A2a.Emit (Some failed) = Ok raw ∧ (run (A2a.Ingest raw meta) w0).1 = Ok env' ∧
    A2a.carries failed env'.
Proof.
  destruct (is_ok_inv (A2a.Emit (Some failed))) as [raw Hraw]; [vm_compute; reflexivity|].
  destruct (A2a.a2a_Ingest_Emit failed raw meta w0) as (env' & Hrun & Hc).
  - vm_compute. discriminate.
  - exact failed_emitted.
  - exact Hraw.
  - exact clock.
  - exists raw, env'. split; [exact Hraw|]. split; [exact Hrun|exact Hc].
Defined.

(** ** Values as JSON *)
Definition sample : any :=
  AMap (list_to_map [("n", AInt 3); ("words", AStrings ["a"; "b"]); ("none", ANil); ("on", ABool true)]).

Lemma Unmarshal_Marshal_witness :
  ∃ s, Marshal sample = Some s ∧ Unmarshal s = Some (json_norm sample).
Proof.
  destruct (some_test_inv (λ _, true) (Marshal sample)) as (s & Hs & _); [vm_compute; reflexivity|].
  exists s. split; [exact Hs|]. apply (Unmarshal_Marshal sample s).
  - vm_compute. reflexivity.
  - exact Hs.
  - apply (portableb_true maxNestingDepth sample). vm_compute. reflexivity.
Defined.

(** ** The route *)
Definition gateway : app := MkApp auth true true main_adapters true true.
Definition as_bot : Ctx := MkCtx None (Some agent_id).
Definition to_alice : Request :=
  MkHttpRequest (λ h, if String.eqb h "X-Target-Agent" then uuid_String alice else "") (λ _, "") "192.0.2.1:9".
Definition relay : prog Response := handleAdapterIngest gateway "grpc" (Ok ping) to_alice as_bot.

Lemma w_agent_inv : world_inv w_agent.
Proof. apply (behaves_run (create_agent "bot") w0); [apply CreateAgent_behaves|exact w0_inv]. Qed.

Lemma handleAdapterIngest_accepted_witness :
  status (run relay w_agent).1 = StatusAccepted ∧
  ∃ i m, messages (w_db (run relay w_agent).2) !! i = Some m ∧ msg_Tag m = "" ∧ world_inv (run relay w_agent).2.
Proof.
  assert (status (run relay w_agent).1 = StatusAccepted) as Hs by (vm_compute; reflexivity). split; [exact Hs|].
  destruct (wp_run relay _ w_agent w_agent_inv
    (handleAdapterIngest_accepted gateway "grpc" (Ok ping) to_alice as_bot w_agent eq_refl w_agent_inv))
    as ((_ & Hi & Hq) & _).
  destruct (Hq Hs) as (env & conv & v & i & m & _ & _ & _ & _ & _ & _ & _ & Hm & Htag & _).
  exists i, m. split; [exact Hm|]. split; [exact Htag|exact Hi].
Defined.

(** ** A verification link *)
Definition signup : prog Response :=
  registerRoutes gateway (POST_auth_register (Ok (MkCredentialsReq "bob@example.org" "builder"))) to_alice.
Definition w_verified : World := (run verify w0).2.
Definition w_signed_up : World := (run signup w_verified).2.

(** A registration has begun when the link is used, and ends afterwards. *)
Lemma VerifyEmail_once_witness :
  is_ok (run verify w0).1 = true ∧ status (run signup w_verified).1 = StatusCreated ∧
  (run verify w_signed_up).1 = Err ErrNotFound.
Proof.
  split; [vm_compute; reflexivity|]. split; [vm_compute; reflexivity|].
  destruct (is_ok_inv (run verify w0).1) as [u Hr]; [vm_compute; reflexivity|].
  apply (VerifyEmail_once gateway auth "abc" [signup] w0 [signup] w0 u w_verified [Ret (run signup w_verified).1] w_signed_up).
  - reflexivity.
  - intros n m Hnm. cbn. unfold Second. lia.
  - intros n b _ Hb. apply (inj Ok) in Hb as <-. intros Heq. apply (f_equal String.length) in Heq. discriminate Heq.
  - apply Forall_singleton. by eexists _, _.
  - reflexivity.
  - rewrite <-Hr. apply surjective_pairing.
  - apply (pool_run (serves gateway) [] signup [] w_verified).
  - reflexivity.
Defined.
End Relay.
