(* ===== verification/ClientExamples.v ===== *)
(** * Examples for the clients, the email sender and the start-up of the server

    For each property with hypotheses an instance in which they hold: a
    network whose addresses are plain strings, the settings of a client, a
    connection string, the configuration of [configs/backend.yaml]. *)

From S2P Require Import Prelude.
From S2P Require Import GoStrings.
From S2P Require Import GoTime.
From S2P Require Import GoValue.
From S2P Require Import Float64.
From S2P Require Import RateLimit.
From S2P Require Import Uuid.
From S2P Require Import Schema.
From S2P Require Import Invariant.
From S2P Require Import World.
From S2P Require Import Auth.
From S2P Require Import JsonString.
From S2P Require Import Json.
From S2P Require Import JsonValue.
From S2P Require Import AdapterBase.
From S2P Require Import Adapters.
From S2P Require Import Server.
From S2P Require Import Handlers.
From S2P Require Import Bodies.
From S2P Require Import HttpClient.
From S2P Require Import Sha256.
From S2P Require Import Azurecs.
From S2P Require Import Sdk.
From S2P Require Import Startup.
From S2P Require Import Examples.
From S2P Require Import AdapterExamples.

Open Scope string_scope.
Open Scope Z_scope.

Module Clients.
Import UuidExample Example Toy Relay.

#[global] Instance plain_net : Net := {
  url := string;
  url_Parse s := Ok s;
  url_Path _ := "";
  url_RawQuery _ := "";
  url_Host u := u;
  url_with_Path u p := u +:+ p;
  url_String u := u;
  http_NewRequest _ _ := None
}.

(** ** The client *)
Definition settings : Sdk.Settings :=
  Sdk.MkSettings (λ k, if String.eqb k "backend_url" then "http://localhost:8080" else " bot ")
    (λ k, if String.eqb k "heartbeat_interval_ms" then 1500 else 0).
Definition cfg : Sdk.Config :=
  Sdk.MkConfig "http://localhost:8080" "bot" "bot" "bot" (1500 * Millisecond) (30 * Second).
Definition client : Sdk.Client unit := Sdk.MkClient cfg None false.

Definition note : Sdk.Message :=
  Sdk.MkMessage "1" "bot" "alice" "" "request.data" "hello" (Some {[ "n" := AInt 3 ]}) "2024-01-01T00:00:00Z".

Lemma Send_arrives_witness :
  ∃ o, Sdk.Send_request client note = Ok o ∧
    with_raw MessagesSend (Ok (o_Body o)) = POST_messages_send (Ok (Sdk.arriving note)).
Proof.
  destruct (is_ok_inv (Sdk.Send_request client note)) as [o Ho]; [vm_compute; reflexivity|].
  exists o. split; [exact Ho|]. apply (Sdk.Send_arrives client note o Ho).
  split; [reflexivity|]. split; [reflexivity|]. split; [reflexivity|].
  intros m Hm. injection Hm as <-. portable.
Defined.

(** A body in which a name is written in capitals, one comes twice, and
    something follows; and one with a name too many. *)
Definition form (more : list (string * json)) : list (string * json) :=
  [("EMAIL", JStr "alice@example.com"); ("password", JStr "old"); ("password", JStr "new")] ++ more.

Lemma form_fits more : Forall (λ kt, kt.2 = JNull) more → fits maxNestingDepth (JObj (form more)).
Proof. intros Hm. apply (fits_obj 9999); [done|]. repeat (apply Forall_cons; split; [done|]). eapply Forall_impl; [exact Hm|by intros [k t] ->]. Qed.

Lemma bodies_read_witness :
  with_raw AuthLogin (Ok (print (JObj (form [])) +:+ "; drop")) =
    POST_auth_login (Ok (MkCredentialsReq "alice@example.com" "new")) ∧
  with_raw AuthLogin (Ok (print (JObj (form [("admin", JNull)])) +:+ "")) =
    POST_auth_login (Err (ExternalError "json")).
Proof.
  split.
  - destruct (bodies_read (form []) "; drop" (form_fits [] (List.Forall_nil _))) as (_ & H & _). exact H.
  - assert (Forall (λ kt : string * json, kt.2 = JNull) [("admin", JNull)]) as Hn by by repeat constructor.
    destruct (bodies_read (form [("admin", JNull)]) "" (form_fits _ Hn)) as (_ & H & _). exact H.
Defined.

Definition query (status : list string) : Sdk.DiscoveryQuery := Sdk.MkQuery ["request.data"] status 5.

Lemma Discover_status_refused_witness :
  ∃ o e, Sdk.Discover_request client (query ["online"]) = Ok o ∧
    run (handleDiscover server (read_discover (Ok (o_Body o))) anonymous nobody) w0 =
      (writeError StatusBadRequest e, w0).
Proof.
  destruct (is_ok_inv (Sdk.Discover_request client (query ["online"]))) as [o Ho]; [vm_compute; reflexivity|].
  destruct (Sdk.Discover_status_refused client (query ["online"]) o Ho eq_refl) as [_ Hrefused].
  destruct (Hrefused ltac:(discriminate) server anonymous nobody w0) as [e He].
  exists o, e. split; [exact Ho|exact He].
Defined.

Lemma LoadConfig_heartbeat_witness :
  Sdk.LoadConfig (Ok settings) = Ok cfg ∧ Sdk.HeartbeatInterval cfg = 1500 * Millisecond.
Proof.
  assert (Sdk.LoadConfig (Ok settings) = Ok cfg) as Hcfg by (vm_compute; reflexivity).
  split; [exact Hcfg|]. apply (Sdk.LoadConfig_heartbeat settings cfg Hcfg). split; [reflexivity|vm_compute; discriminate].
Defined.

Lemma sdk_not_authenticated_witness :
  ∃ o w', Sdk.Send_request client note = Ok o ∧
    run (requireAuth server true true (λ _ _, handleHealth) (received o "192.0.2.1:9")) w_agent =
      (writeError StatusUnauthorized (RErr (NewError "invalid credentials")), w').
Proof.
  destruct (is_ok_inv (Sdk.Send_request client note)) as [o Ho]; [vm_compute; reflexivity|].
  destruct (Sdk.sdk_not_authenticated cfg client o server true true (λ _ _, handleHealth) "192.0.2.1:9" w_agent)
    as (w' & Hrun & _).
  - reflexivity.
  - left. exists note. exact Ho.
  - intros now. reflexivity.
  - exists o, w'. split; [exact Ho|exact Hrun].
Defined.

(** ** The server *)
Definition rates (enabled : bool) : Ratelimit.Config :=
  Ratelimit.MkConfig (f64_of_Z 0) (f64_of_Z 0) (f64_of_Z 0) 0 0 enabled.
Definition raw_config (limits : Ratelimit.Config) : Startup.config :=
  Startup.MkConfig "" 0 30 "postgres://localhost" "change-me" "console" "" "" 24 "info" "json" "" limits.
Definition loaded (limits : Ratelimit.Config) : Startup.config :=
  Startup.MkConfig ":8080" 15 30 "postgres://localhost" "change-me" "console" "" "" 24 "info" "json" "/v1/metrics"
    limits.

Lemma loadConfig_complete_witness :
  Startup.loadConfig None (Ok (raw_config tight)) = Ok (loaded tight) ∧ 0 < Startup.ReadTimeoutSeconds (loaded tight).
Proof. split; [reflexivity|]. apply (Startup.loadConfig_complete None (Ok (raw_config tight)) (loaded tight)). reflexivity. Defined.

(** Limiting is disabled, and takes place. *)
Lemma main_limiter_witness :
  ∃ s, Startup.main (loaded (rates false)) (Ok db0) = Ok s ∧
    (Ratelimit.Allow_n 1001 (w_limiter (Startup.st_world s)) (env_now 0) Ratelimit.DimensionAgent "agent:bot").1 =
      (replicate 1000 true ++ [false])%list.
Proof.
  destruct (is_ok_inv (Startup.main (loaded (rates false)) (Ok db0))) as [s Hs]; [reflexivity|].
  exists s. split; [exact Hs|].
  apply (Startup.main_limiter (loaded (rates false)) db0 s Hs); reflexivity.
Defined.

Lemma main_durations_witness :
  ∃ s, Startup.main (loaded tight) (Ok db0) = Ok s ∧ Startup.ReadTimeout (Startup.st_server s) = 15 * Second.
Proof.
  destruct (is_ok_inv (Startup.main (loaded tight) (Ok db0))) as [s Hs]; [reflexivity|].
  exists s. split; [exact Hs|].
  apply (Startup.main_durations None (Ok (raw_config tight)) (loaded tight) db0 s eq_refl Hs). vm_compute. discriminate.
Defined.

(** ** Email *)
Definition acs : Azurecs.Sender :=
  Azurecs.New "endpoint=https://bobber.communication.azure.com/;accesskey=c2VjcmV0" "bot@example.org".

Lemma New_configures_witness :
  acs = Azurecs.MkSender "https://bobber.communication.azure.com/" "c2VjcmV0" "bot@example.org" (30 * Second) ∧
  Azurecs.New ("AccessKey=" +:+ "c2VjcmV0" +:+ ";" +:+ "Endpoint=" +:+ "https://bobber.communication.azure.com/")
    "bot@example.org" = acs.
Proof.
  split; [vm_compute; reflexivity|].
  exact (proj2 (Azurecs.New_configures "Endpoint=" "AccessKey=" "https://bobber.communication.azure.com/" "c2VjcmV0"
    "bot@example.org" eq_refl eq_refl eq_refl eq_refl eq_refl eq_refl)).
Defined.

Definition mail : Email := MkEmail "alice@example.org" "Hello" "text" "".

Definition accepted (_ : Outgoing) : result goerr (Z * string) := Ok (202, "{}").

Lemma SendEmail_sent_witness :
  ∃ key u o reply, accepted o = Ok (202, reply) ∧ url_Parse (Azurecs.send_url acs) = Ok u ∧
    o_URL o = url_String u ∧ StdDecode (Azurecs.accessKey acs) = Some key ∧
    Azurecs.authentic key u o ∧ Azurecs.carries (Azurecs.from acs) mail (o_Body o).
Proof. apply (Azurecs.SendEmail_sent acs mail (784111777 * Second) accepted). vm_compute. reflexivity. Defined.
End Clients.
