(* ===== verification/SystemExamples.v ===== *)
(** * Examples for the system as a whole

    For each property of the multiplexer, of the responses, of the commands
    against the server and of the life of the process an instance in which its
    hypotheses hold: the server and the first user of the other examples. *)

From S2P Require Import Prelude.
From S2P Require Import GoStrings.
From S2P Require Import GoTime.
From S2P Require Import GoValue.
From S2P Require Import Uuid.
From S2P Require Import Models.
From S2P Require Import Schema.
From S2P Require Import Invariant.
From S2P Require Import World.
From S2P Require Import Auth.
From S2P Require Import JsonString.
From S2P Require Import Json.
From S2P Require Import JsonValue.
From S2P Require Import AdapterBase.
From S2P Require Import Server.
From S2P Require Import Handlers.
From S2P Require Import Bodies.
From S2P Require Import Mux.
From S2P Require Import Responses.
From S2P Require Import HttpClient.
From S2P Require Import Sdk.
From S2P Require Import Cli.
From S2P Require Import Replies.
From S2P Require Import Session.
From S2P Require Import Observability.
From S2P Require Import Startup.
From S2P Require Import Process.
From S2P Require Import Examples.
From S2P Require Import AdapterExamples.
From S2P Require Import ClientExamples.

Open Scope string_scope.
Open Scope Z_scope.

Module System.
Import UuidExample Example Toy Relay Clients.

#[global] Instance greenwich : Zone := λ _, 0.
#[global] Instance texts : ErrorTexts := λ _, "external".
#[global] Instance unix_paths : Cli.Paths := {
  Cli.UserConfigDir := Ok "/home/alice/.config";
  Cli.filepath_Join l := Join l "/";
  Cli.filepath_Dir _ := "/home/alice/.config/bobber"
}.

(** ** The multiplexer *)
Lemma handler_of_exact_witness :
  (∃ values, Mux.handler_of "GET" "/v1/info/42" = Mux.Handler (Mux.Api (Bodyless (GET_info "42"))) values) ∧
  Mux.is_clean "/v1/info/42" = true.
Proof.
  assert (∃ values, Mux.handler_of "GET" "/v1/info/42" = Mux.Handler (Mux.Api (Bodyless (GET_info "42"))) values) as Hf.
  { eexists. vm_compute. reflexivity. }
  split; [exact Hf|]. apply (Mux.handler_of_exact "GET" "/v1/info/42" (Bodyless (GET_info "42")) eq_refl), Hf.
Defined.

(** ** Responses *)
Definition legibleb (t : json) : bool := numbers_ok t && (nesting t <=? maxNestingDepth) && in_range t.

Lemma legibleb_legible t : legibleb t = true → legible t.
Proof. unfold legibleb. intros [[Hn Hd]%andb_true_iff Hr]%andb_true_iff. split; [split; [done|by apply Z.leb_le]|done]. Qed.

Definition signing_up : route := POST_auth_register (Ok (MkCredentialsReq "bob@example.org" "builder")).

Lemma reply_understood_witness :
  let resp := (run (registerRoutes server signing_up anonymous) w0).1 in
  status resp = StatusCreated ∧
  ∃ m, Cli.read_reply (status resp) (Ok (response_body resp)) = Ok (AMap m).
Proof.
  intros resp. split; [vm_compute; reflexivity|].
  destruct (some_test_inv legibleb (rval_tree (body resp))) as (t & Ht & Hl); [vm_compute; reflexivity|].
  assert (status resp = StatusCreated) as Hst by (vm_compute; reflexivity).
  pose proof (reply_understood server signing_up anonymous w0 t Ht (legibleb_legible t Hl)) as H.
  cbv zeta in H. fold resp in H. rewrite Hst in H |- *. change (400 <=? StatusCreated) with false in H.
  destruct H as (m & Hm & _). exists m. exact Hm.
Defined.

Definition bot_secret : string := match (run (create_agent "bot") w0).1 with Ok (_, s) => s | Err _ => "" end.
Definition as_bot : Request := MkHttpRequest
  (λ k, if String.eqb k "X-Agent-ID" then agent_id else if String.eqb k "X-API-Secret" then bot_secret else "")
  (λ _, "") "192.0.2.1:9".

Lemma Discover_reads_witness :
  let resp := (run (registerRoutes server (POST_registry_discover (Ok (MkDiscoverReq [] 5))) as_bot) w_agent).1 in
  ∃ l, body resp = RObj [("agents", RAgents l)] ∧ length l = 1%nat ∧
    Sdk.Discover (Some client) (query []) (λ _, Ok (status resp, Ok (response_body resp))) = Ok (profile_of <$> l).
Proof.
  intros resp.
  destruct (is_ok_inv (Sdk.Discover_request client (query []))) as [o Ho]; [vm_compute; reflexivity|].
  destruct (some_test_inv legibleb (rval_tree (body resp))) as (t & Ht & Hl); [vm_compute; reflexivity|].
  assert (status resp = StatusOK) as Hst by (vm_compute; reflexivity).
  destruct (Discover_reads client (query []) o server (Ok (MkDiscoverReq [] 5)) as_bot w_agent t Ho Hst Ht
    (legibleb_legible t Hl)) as (l & Hb & Hd).
  exists l. split; [exact Hb|]. split; [|exact Hd].
  assert (match body resp with RObj [(_, RAgents l)] => length l | _ => O end = 1%nat) as Hn by (vm_compute; reflexivity).
  fold resp in Hb. rewrite Hb in Hn. exact Hn.
Defined.

(** ** The command line against the server *)
Definition laptop : machine := MkMachine true (λ _, Ok "wonderland") "7b" (λ _, None).
Definition fresh : Cli.settings := Cli.MkSettings "" "" "" "" "".
Definition addr : string := "192.0.2.1:9".
Definition net : Outgoing → World → result goerr (Z * result goerr string) * World :=
  network server (Cli.backendURL fresh) addr.

Definition logged_in : result goerr (option any) * World * option Cli.settings :=
  against (Cli.accountLoginCmd fresh "Alice@example.org" "") laptop net w_agent None.

(** A request with a token. *)
Definition with_bearer (tok : string) : Request :=
  MkHttpRequest (λ k, if String.eqb k "Authorization" then "Bearer " +:+ tok else "") (λ _, "") addr.

Lemma login_session_witness :
  ∃ r w' st' u, logged_in = (r, w', Some st') ∧
    run (authenticate server (with_bearer (Cli.token st')) true false) w' =
      (Ok (MkCtx (Some (uuid_String (user_ID u))) None), tick w').
Proof.
  destruct (some_test_inv (λ _, true) logged_in.2) as (st' & Hst & _); [vm_compute; reflexivity|].
  assert (logged_in = (logged_in.1.1, logged_in.1.2, Some st')) as Hrun by (rewrite <-Hst; by destruct logged_in as [[] ]).
  assert (env_now (w_steps logged_in.1.2) < (env_now (S (w_steps w_agent)) + Hour) / Second * Second) as Hnow
    by (vm_compute; reflexivity).
  revert Hrun Hnow. generalize logged_in.1.1 logged_in.1.2. intros r w' Hrun Hnow.
  destruct (login_session server addr laptop fresh "Alice@example.org" "" w_agent r w' st')
    as (u & pw & _ & _ & _ & _ & _ & Hacc); [discriminate|exact w_agent_inv|exact Hrun|].
  exists r, w', st', u. split; [exact Hrun|]. apply Hacc; [reflexivity|exact Hnow].
Defined.

Definition settings_of (o : option Cli.settings) : Cli.settings := match o with Some st => st | None => fresh end.
Definition used : result goerr (option any) * World * option Cli.settings :=
  against (Cli.agentUseCmd (settings_of logged_in.2) agent_id) laptop (network server (Cli.backendURL (settings_of logged_in.2)) addr) w_agent None.

Definition with_keys (st : Cli.settings) : Request :=
  MkHttpRequest (λ k, if String.eqb k "X-Agent-ID" then Cli.agentID st
                      else if String.eqb k "X-API-Secret" then Cli.apiSecret st else "") (λ _, "") addr.

Lemma agent_use_session_witness :
  ∃ r w' st' i, used = (r, w', Some st') ∧ uuid_Parse agent_id = Ok i ∧
    run (authenticate server (with_keys st') true true) w' = (Ok (MkCtx (Some "") (Some (uuid_String i))), tick w').
Proof.
  destruct (some_test_inv (λ _, true) used.2) as (st' & Hst & _); [vm_compute; reflexivity|].
  assert (used = (used.1.1, used.1.2, Some st')) as Hrun by (rewrite <-Hst; by destruct used as [[] ]).
  destruct (agent_use_session server addr laptop (settings_of logged_in.2) agent_id w_agent used.1.1 used.1.2 st')
    as (i & ag & Hi & Hag & _ & Hacc).
  - exact w_agent_inv.
  - split; [vm_compute; reflexivity|]. split; [vm_compute; reflexivity|]. split; vm_compute; reflexivity.
  - vm_compute. reflexivity.
  - exact Hrun.
  - exists used.1.1, used.1.2, st', i. split; [exact Hrun|]. split; [exact Hi|].
    apply Hacc; [exact Hag|reflexivity|reflexivity|reflexivity|reflexivity].
Defined.

(** ** The life of the process *)

(** A registry is the list of the names it has, a collector its name. *)
#[global] Instance metrics_by_name : Prometheus := {
  Collector := string;
  Registry := list string;
  NewCounterVec n _ _ := n;
  NewHistogramVec n _ _ := n;
  NewGauge n _ := n;
  NewRegistry := [];
  MustRegister r cs :=
    if bool_decide (NoDup cs) && forallb (λ c, bool_decide (c ∉ r)) cs then Some (cs ++ r)%list else None
}.

#[global] Instance metrics_by_name_laws : PrometheusLaws.
Proof.
  refine (Build_PrometheusLaws metrics_by_name (λ c, c) _ _ _ (λ r, r) _ _ _); try done.
  - intros r cs. unfold is_Some, MustRegister, metrics_by_name. rewrite list_fmap_id. split.
    + intros [r' Hr]. case_bool_decide as Hnd; [|done]. split; [done|]. intros c Hc.
      cbn [andb] in Hr. case_match eqn:Hf; [|done]. rewrite forallb_forall in Hf.
      apply list_elem_of_In, Hf in Hc. by apply bool_decide_eq_true in Hc.
    + intros [Hnd Hno]. case_bool_decide; [|done]. cbn [andb]. case_match eqn:Hf; [by eexists|].
      exfalso. apply not_true_iff_false in Hf. apply Hf, forallb_forall. intros c Hc. apply bool_decide_eq_true_2, Hno.
      by apply list_elem_of_In.
  - intros r cs r' n. unfold MustRegister, metrics_by_name. rewrite list_fmap_id.
    destruct (_ && _); [|done]. intros [= <-]. apply elem_of_app.
Defined.

#[global] Instance quiet : Zerolog := { Level := unit; InfoLevel := tt; ParseLevel _ := Ok tt }.
#[global] Instance one_pool : Pgxpool := { PgPool := string; pgxpool_New dsn := Ok dsn; pool_Ping _ := None }.

Definition boot_server : result Process.ending Process.booted := Process.boot None (Ok (loaded tight)) db0.

(** Started, told to stop, and stopped. *)
Lemma process_safe_witness :
  ∃ b s, boot_server = Ok b ∧ Process.phase s = Process.Ended Process.Finished ∧
    Process.closed s = ["postgres://localhost"].
Proof.
  destruct (is_ok_inv boot_server) as [b Hb]; [vm_compute; reflexivity|].
  assert (Postgres.pool (Process.b_handle b) = Some "postgres://localhost") as Hp.
  { assert (match boot_server with Ok b => Postgres.pool (Process.b_handle b) | _ => None end = Some "postgres://localhost")
      as Hh by (vm_compute; reflexivity).
    rewrite Hb in Hh. exact Hh. }
  eexists b, _. split; [exact Hb|].
  match goal with |- Process.phase ?s = _ ∧ _ =>
    destruct (Process.process_safe None (Ok (loaded tight)) db0 b 0 s Hb) as (_ & _ & _ & Hf) end.
  - exact w0_inv.
  - eapply rtc_l; [apply Process.step_notify; reflexivity|].
    eapply rtc_l; [apply Process.step_listen; reflexivity|].
    eapply rtc_l; [apply Process.step_signal; reflexivity|].
    eapply rtc_l; [eapply Process.step_drained; reflexivity|].
    eapply rtc_l; [apply Process.step_close; reflexivity|]. apply rtc_refl.
  - split; [reflexivity|]. destruct (Hf eq_refl) as ((p & Hp' & Hc) & _). rewrite Hp in Hp'. injection Hp' as <-. exact Hc.
Defined.

Definition handle : Postgres.DB (Pg := one_pool) := Postgres.MkDB (Pg := one_pool) (Some "postgres://localhost").

Definition draining : Process.state :=
  Process.MkState (Process.Draining (20 * Second)) Process.Closed [registerRoutes server signing_up anonymous] w0 []
    (5 * Second) [Process.Info "shutdown signal received, draining connections"].

Lemma shutdown_completes_witness :
  ∃ s, rtc (Process.step server handle) draining s ∧
    Process.phase s = Process.Ended Process.Finished ∧ forallb Process.answered (Process.requests s) = true.
Proof.
  destruct (Process.shutdown_completes server handle draining (20 * Second) eq_refl)
    as [(s & Hst & Hf & _ & _ & Ha & _) _].
  exists s. split; [exact Hst|]. split; [exact Hf|exact Ha].
Defined.
End System.
